(** * DDS back end: cuckoo cache table and RDMA ring-buffer engine

    A shallow embedding of
    - [Common/Source/DPU/CacheTable.c] (the cuckoo cache table), and
    - [StorageEngine/DDSBackEndDPUService/Source/FileBackEnd.c]
      (connection manager, set-up and tear-down of connections, control
      plane, data-plane engine, completion sweep),
    together with the properties the specification states about them
    (Part II) and further properties of the code (Part III).

    Conventions.  C integers are [Z]; where the source converts between
    signed and unsigned types of a given width the wrap-around is written
    out with [u32] / [u64].  Fixed-size C arrays are lists read with the
    total lookup [!!!] and written with [<[i:=x]>]; every index the source
    computes is masked or bounded, so the reads stay in range on tables of
    the declared shape.  The headers [CacheTable.h], [HashFunctions.h],
    [DDSTypes.h] and [FileBackEnd.h] are not part of the sources at hand:
    the constants, widths and hash functions they declare are parameters
    of the development (records [CacheTable.Config],
    [FileBackEnd.Consts] and [ControlPlane.CtrlConsts]); the answers of
    the RDMA libraries are parameters as well ([ConnectionSetup.Library],
    [ControlPlane.CtrlLibrary]). *)

From Stdlib Require Import ZArith Lia List Bool Btauto.
From stdpp Require Import base list numbers.

#[local] Open Scope Z_scope.

(** Closed comparisons between numerals are settled by evaluation. *)
Ltac by_evaluation :=
  vm_compute; repeat split; try reflexivity; try discriminate;
  intros; discriminate.

(* ===================================================================== *)
(** * Part I: the embedding                                               *)
(* ===================================================================== *)

(** Conversions to the fixed-width unsigned types of the source. *)
Definition u32 (x : Z) : Z := x mod 2 ^ 32.
Definition u64 (x : Z) : Z := x mod 2 ^ 64.

Module CacheTable.

(** ** Data model ([CacheTable.h], as used by [CacheTable.c]) *)

Record CacheItemT := mkItem {
  Key : Z;
  Value : Z
}.

Record CacheElementT := mkElement {
  Item : CacheItemT;
  Hash1 : Z;
  Hash2 : Z
}.

(** The build modelled is the one with
    [CACHE_TABLE_OCC_GRANULARITY == CACHE_TABLE_OCC_GRANULARITY_BUCKET]:
    the occupied flag lives in the bucket. *)
Record CacheBucketT := mkBucket {
  HashValues : list Z;
  Elements : list CacheElementT;
  Occ : Z
}.

Abbreviation CacheTableT := (list CacheBucketT).

#[global] Instance CacheItemT_inhabited : Inhabited CacheItemT :=
  populate (mkItem 0 0).
#[global] Instance CacheElementT_inhabited : Inhabited CacheElementT :=
  populate (mkElement (mkItem 0 0) 0 0).
#[global] Instance CacheBucketT_inhabited : Inhabited CacheBucketT :=
  populate (mkBucket [] [] 0).

#[global] Instance CacheItemT_eq_dec : EqDecision CacheItemT.
Proof. solve_decision. Defined.
#[global] Instance CacheElementT_eq_dec : EqDecision CacheElementT.
Proof. solve_decision. Defined.
#[global] Instance CacheBucketT_eq_dec : EqDecision CacheBucketT.
Proof. solve_decision. Defined.

(** What the missing headers fix at build time. *)
Record Config := mkConfig {
  CACHE_TABLE_BUCKET_COUNT_POWER : Z;
  CACHE_TABLE_BUCKET_SIZE : nat;
  CACHE_TABLE_CAPACITY : Z;
  (** width of [HashValueT] in bits *)
  HASH_VALUE_BITS : Z;
  HASH_FUNCTION1 : Z -> Z;
  HASH_FUNCTION2 : Z -> Z
}.

Section Operations.

Variable cfg : Config.

Definition CACHE_TABLE_BUCKET_COUNT : Z :=
  Z.shiftl 1 (CACHE_TABLE_BUCKET_COUNT_POWER cfg).

Definition BUCKET_SIZE : nat := CACHE_TABLE_BUCKET_SIZE cfg.

(** [uint32_t mask = CACHE_TABLE_BUCKET_COUNT - 1;] *)
Definition mask : Z := CACHE_TABLE_BUCKET_COUNT - 1.

(** [hash & mask], as an index into [CacheTable->Table]. *)
Definition bucketPos (h : Z) : nat := Z.to_nat (Z.land h mask).

(** [~h] on a [HashValueT]. *)
Definition hash_not (h : Z) : Z := Z.lnot h mod 2 ^ HASH_VALUE_BITS cfg.

(** [HASH_FUNCTION2(...); if (hash1 == hash2) hash2 = ~hash1;] *)
Definition second_hash (key h1 : Z) : Z :=
  let h2 := HASH_FUNCTION2 cfg key in
  if h1 =? h2 then hash_not h1 else h2.

Definition zero_element : CacheElementT := mkElement (mkItem 0 0) 0 0.

Definition zero_bucket : CacheBucketT :=
  mkBucket (replicate BUCKET_SIZE 0) (replicate BUCKET_SIZE zero_element) 0.

(** [InitCacheTable]: every bucket is allocated and cleared with [memset]. *)
Definition InitCacheTable : CacheTableT :=
  replicate (Z.to_nat CACHE_TABLE_BUCKET_COUNT) zero_bucket.

(** Field updates on the bucket at [pos]. *)
Definition set_Occ (pos : nat) (v : Z) (t : CacheTableT) : CacheTableT :=
  let b := t !!! pos in
  <[pos := mkBucket (HashValues b) (Elements b) v]> t.

Definition set_HashValue (pos e : nat) (h : Z) (t : CacheTableT) : CacheTableT :=
  let b := t !!! pos in
  <[pos := mkBucket (<[e := h]> (HashValues b)) (Elements b) (Occ b)]> t.

Definition set_Element (pos e : nat) (x : CacheElementT) (t : CacheTableT)
  : CacheTableT :=
  let b := t !!! pos in
  <[pos := mkBucket (HashValues b) (<[e := x]> (Elements b)) (Occ b)]> t.

Definition get_HashValue (t : CacheTableT) (pos e : nat) : Z :=
  HashValues (t !!! pos) !!! e.

Definition get_Element (t : CacheTableT) (pos e : nat) : CacheElementT :=
  Elements (t !!! pos) !!! e.

(** [tmpV = x->Hash1; x->Hash1 = x->Hash2; x->Hash2 = tmpV;] *)
Definition swap_hashes (x : CacheElementT) : CacheElementT :=
  mkElement (Item x) (Hash2 x) (Hash1 x).

(** ** [AddToCacheTable] *)

(** The scan [for (int e = 0; e != CACHE_TABLE_BUCKET_SIZE; e++)] of the
    forward loop (lines 83-130): the first slot that is free, or that holds
    the carrier's hash stamp and key, ends it. *)
Inductive SlotScan :=
| SlotAvailable (e : nat)
| KeyExists (e : nat)
| BucketFull.

Fixpoint scan_slots (t : CacheTableT) (pos : nat) (carrier : CacheElementT)
    (e n : nat) : SlotScan :=
  match n with
  | O => BucketFull
  | S n' =>
      let hv := get_HashValue t pos e in
      if hv =? 0 then SlotAvailable e
      else if (hv =? Hash1 carrier)
              && (Key (Item (get_Element t pos e)) =? Key (Item carrier))
           then KeyExists e
           else scan_slots t pos carrier (S e) n'
  end.

(** [if (++offset == CACHE_TABLE_BUCKET_SIZE) offset = 0;] *)
Definition next_offset (offset : nat) : nat :=
  if (S offset =? BUCKET_SIZE)%nat then O else S offset.

(** [if (offset-- == 0) offset = CACHE_TABLE_BUCKET_SIZE - 1;] *)
Definition prev_offset (offset : nat) : nat :=
  if (offset =? 0)%nat then (BUCKET_SIZE - 1)%nat else (offset - 1)%nat.

(** Outcome of the forward loop: [return 0], or the loop ran [maxDepth]
    times and left a carrier and an offset behind. *)
Inductive Forward :=
| Returned (t : CacheTableT)
| Exhausted (t : CacheTableT) (carrier : CacheElementT) (offset : nat).

(** Lines 74-165, one iteration per unit of [depth]. *)
Fixpoint displace (depth : nat) (t : CacheTableT) (carrier : CacheElementT)
    (offset : nat) : Forward :=
  match depth with
  | O => Exhausted t carrier offset
  | S depth' =>
      let pos := bucketPos (Hash1 carrier) in
      let t := set_Occ pos 1 t in
      match scan_slots t pos carrier 0 BUCKET_SIZE with
      | SlotAvailable e =>
          let t := set_Element pos e carrier t in
          let t := set_HashValue pos e (Hash1 carrier) t in
          Returned (set_Occ pos 0 t)
      | KeyExists e =>
          let old := get_Element t pos e in
          let t := set_Element pos e
                     (mkElement (Item carrier) (Hash1 old) (Hash2 old)) t in
          Returned (set_Occ pos 0 t)
      | BucketFull =>
          let victim := get_Element t pos offset in
          let t := set_Element pos offset carrier t in
          let t := set_HashValue pos offset (Hash1 carrier) t in
          let victim := swap_hashes victim in
          let offset := next_offset offset in
          let t := set_Occ pos 0 t in
          displace depth' t victim offset
      end
  end.

(** Lines 172-215, the undo loop. *)
Fixpoint undo (depth : nat) (t : CacheTableT) (carrier : CacheElementT)
    (offset : nat) : CacheTableT * CacheElementT :=
  match depth with
  | O => (t, carrier)
  | S depth' =>
      let pos := bucketPos (Hash2 carrier) in
      let offset := prev_offset offset in
      let t := set_Occ pos 1 t in
      let carrier := swap_hashes carrier in
      let victim := get_Element t pos offset in
      let t := set_Element pos offset carrier t in
      let t := set_HashValue pos offset (Hash2 carrier) t in
      let t := set_Occ pos 0 t in
      undo depth' t victim offset
  end.

(** [size_t maxDepth = (size_t) CACHE_TABLE_BUCKET_COUNT_POWER << 2;
     if (maxDepth > CACHE_TABLE_CAPACITY) maxDepth = CACHE_TABLE_CAPACITY;] *)
Definition maxDepth : nat :=
  let d := Z.shiftl (CACHE_TABLE_BUCKET_COUNT_POWER cfg) 2 in
  Z.to_nat (if d >? CACHE_TABLE_CAPACITY cfg then CACHE_TABLE_CAPACITY cfg else d).

(** The carrier built from the caller's item (lines 59-65). *)
Definition make_carrier (item : CacheItemT) : CacheElementT :=
  let h1 := HASH_FUNCTION1 cfg (Key item) in
  mkElement item h1 (second_hash (Key item) h1).

(** What a call of [AddToCacheTable] ends with: a return value and the
    table, or the failure of the [assert] of line 217. *)
Inductive AddResult :=
| AddReturn (ret : Z) (t : CacheTableT)
| AddAssertFailed (t : CacheTableT) (carrier : CacheElementT).

Definition AddToCacheTable (t : CacheTableT) (item : CacheItemT) : AddResult :=
  match displace maxDepth t (make_carrier item) 0 with
  | Returned t' => AddReturn 0 t'
  | Exhausted t' carrier offset =>
      let '(t'', carrier') := undo maxDepth t' carrier offset in
      if decide (Item carrier' = item)
      then AddReturn (-1) t''
      else AddAssertFailed t'' carrier'
  end.

(** ** [DeleteFromCacheTable] *)

(** The scan of lines 250-269 and 290-309: the first slot whose stamp is
    [h] and whose key is [key]. *)
Fixpoint find_slot (t : CacheTableT) (pos : nat) (h key : Z) (e n : nat)
  : option nat :=
  match n with
  | O => None
  | S n' =>
      if (get_HashValue t pos e =? h)
         && (Key (Item (get_Element t pos e)) =? key)
      then Some e
      else find_slot t pos h key (S e) n'
  end.

(** [memset(targetElement, 0, sizeof(CacheElementT)); hashVector[e] = 0;] *)
Definition clear_slot (pos e : nat) (t : CacheTableT) : CacheTableT :=
  set_HashValue pos e 0 (set_Element pos e zero_element t).

Definition DeleteFromCacheTable (t : CacheTableT) (key : Z) : CacheTableT :=
  let hash1 := HASH_FUNCTION1 cfg key in
  let pos1 := bucketPos hash1 in
  let t := set_Occ pos1 1 t in
  match find_slot t pos1 hash1 key 0 BUCKET_SIZE with
  | Some e =>
      let t := clear_slot pos1 e t in
      set_Occ pos1 0 t
  | None =>
      let t := set_Occ pos1 0 t in
      let hash2 := second_hash key hash1 in
      let pos2 := bucketPos hash2 in
      let t := set_Occ pos2 1 t in
      match find_slot t pos2 hash2 key 0 BUCKET_SIZE with
      | Some e =>
          let t := clear_slot pos2 e t in
          (* line 304: [targetBucket->Occ = 1;] *)
          set_Occ pos2 1 t
      | None => set_Occ pos2 0 t
      end
  end.

(** ** [LookUpCacheTable] *)

(** The pointer [&targetElement->Item] is the pair (bucket, slot); [None]
    is [NULL]. *)
Definition LookUpCacheTable (t : CacheTableT) (key : Z) : option (nat * nat) :=
  let hash1 := HASH_FUNCTION1 cfg key in
  let pos1 := bucketPos hash1 in
  let first :=
    if Occ (t !!! pos1) =? 0
    then find_slot t pos1 hash1 key 0 BUCKET_SIZE
    else None (* goto LookupSecondHash *) in
  match first with
  | Some e => Some (pos1, e)
  | None =>
      let hash2 := second_hash key hash1 in
      let pos2 := bucketPos hash2 in
      if Occ (t !!! pos2) =? 0
      then match find_slot t pos2 hash2 key 0 BUCKET_SIZE with
           | Some e => Some (pos2, e)
           | None => None
           end
      else None (* goto LookupFail *)
  end.

(** Dereferencing the pointer [LookUpCacheTable] returns. *)
Definition item_at (t : CacheTableT) (p : nat * nat) : CacheItemT :=
  Item (get_Element t p.1 p.2).

Definition LookUpValue (t : CacheTableT) (key : Z) : option Z :=
  match LookUpCacheTable t key with
  | Some p => Some (Value (item_at t p))
  | None => None
  end.

(** Slots of the table that hold [key] under a non-zero hash stamp. *)
Definition copies_of (t : CacheTableT) (key : Z) : list (nat * nat) :=
  filter (fun p => get_HashValue t p.1 p.2 <> 0
                   /\ Key (Item (get_Element t p.1 p.2)) = key)
    (pos ← seq 0 (length t); (fun e => (pos, e)) <$> seq 0 BUCKET_SIZE).

End Operations.

(** ** Notions used to state the properties *)

(** The occupied flags of all buckets, in order. *)
Definition flags (t : CacheTableT) : list Z := Occ <$> t.

Definition all_clear (t : CacheTableT) : Prop := Forall (fun o => o = 0) (flags t).

End CacheTable.

Module FileBackEnd.

(** ** Constants and widths of the missing headers *)

Record Consts := mkConsts {
  DDS_REQUEST_RING_BYTES : Z;
  DDS_RESPONSE_RING_BYTES : Z;
  BACKEND_REQUEST_BUFFER_SIZE : Z;
  BACKEND_RESPONSE_BUFFER_SIZE : Z;
  DDS_MAX_OUTSTANDING_IO : Z;
  DDS_CACHE_LINE_SIZE_BY_INT : Z;
  (** [sizeof(FileIOSizeT)], [sizeof(BuffMsgF2BReqHeader)],
      [sizeof(BuffMsgB2FAckHeader)] *)
  sizeof_FileIOSizeT : Z;
  sizeof_BuffMsgF2BReqHeader : Z;
  sizeof_BuffMsgB2FAckHeader : Z;
  DDS_ERROR_CODE_SUCCESS : Z;
  DDS_ERROR_CODE_IO_PENDING : Z;
  BUFF_READ_DATA_SPLIT_STATE_NOT_SPLIT : Z;
  BUFF_READ_DATA_SPLIT_STATE_SPLIT : Z;
  (** the two build switches of the data path *)
  RING_BUFFER_RESPONSE_BATCH_ENABLED : bool;
  OPT_FILE_SERVICE_BATCHING : bool
}.

(** Conversion of an unsigned value to [int]. *)
Definition int32 (x : Z) : Z := (x + 2 ^ 31) mod 2 ^ 32 - 2 ^ 31.

(** [if (p >= Capacity) { p %= Capacity; }] *)
Definition wrap_at (capacity p : Z) : Z :=
  if p >=? capacity then Z.rem p capacity else p.

(** [p += n; if (p >= Capacity) { p %= Capacity; }] on an [int p] and an
    unsigned [n]: the step of every ring cursor of the data path. *)
Definition ring_advance (capacity p n : Z) : Z := wrap_at capacity (int32 (p + n)).

(** ** Connection slots *)

Inductive ConnState :=
| CONN_STATE_AVAILABLE
| CONN_STATE_OCCUPIED
| CONN_STATE_CONNECTED.

#[global] Instance ConnState_eq_dec : EqDecision ConnState.
Proof. solve_decision. Defined.

(** An [rdma_cm_id*]; [memset] leaves 0 in a fresh slot. *)
Definition CmIdT := Z.

Record PendingControlPlaneRequestT := mkPending {
  Pending_RequestId : Z;
  Pending_Request : Z;
  Pending_Response : Z
}.

Record CtrlConnConfig := mkCtrlConn {
  CtrlId : Z;
  Ctrl_RemoteCmId : CmIdT;
  Ctrl_State : ConnState;
  PendingControlPlaneRequest : PendingControlPlaneRequestT
}.

(** ** Work requests and the send queue of a queue pair *)

Inductive WrId :=
| BUFF_READ_REQUEST_META_WR_ID
| BUFF_WRITE_REQUEST_META_WR_ID
| BUFF_READ_REQUEST_DATA_WR_ID
| BUFF_READ_REQUEST_DATA_SPLIT_WR_ID
| BUFF_READ_RESPONSE_META_WR_ID
| BUFF_WRITE_RESPONSE_META_WR_ID
| BUFF_WRITE_RESPONSE_DATA_WR_ID
| BUFF_WRITE_RESPONSE_DATA_SPLIT_WR_ID.

#[global] Instance WrId_eq_dec : EqDecision WrId.
Proof. solve_decision. Defined.

Inductive WrOpcode := IBV_WR_RDMA_READ | IBV_WR_RDMA_WRITE.

#[global] Instance WrOpcode_eq_dec : EqDecision WrOpcode.
Proof. solve_decision. Defined.

(** The fields of [struct ibv_send_wr] the data path touches:
    [wr_id], [opcode], [wr.rdma.remote_addr], [sg_list->addr],
    [sg_list->length]. *)
Record ibv_send_wr := mkWr {
  wr_id : WrId;
  opcode : WrOpcode;
  remote_addr : Z;
  sg_addr : Z;
  sg_length : Z
}.

#[global] Instance ibv_send_wr_eq_dec : EqDecision ibv_send_wr.
Proof. solve_decision. Defined.

(** ** Ring records seen through the casts of the source *)

Record BuffMsgF2BReqHeader := mkReqHeader {
  Req_RequestId : Z;
  Req_FileId : Z;
  Req_Offset : Z;
  Req_Bytes : Z
}.

Record BuffMsgB2FAckHeader := mkAckHeader {
  RequestId : Z;
  Result : Z;
  BytesServiced : Z
}.

(** The request staging buffer [RequestDMAReadDataBuff], addressed by byte
    offset: [req_size_at m p] is [*(FileIOSizeT* )(buffReq + p)] and
    [req_hdr_at m p] is [*(BuffMsgF2BReqHeader* )(buffReq + p)]. *)
Record RequestData := mkRequestData {
  req_size_at : Z -> Z;
  req_hdr_at : Z -> BuffMsgF2BReqHeader
}.

(** The response staging buffer [ResponseDMAWriteDataBuff], likewise. *)
Record ResponseData := mkResponseData {
  resp_size_at : Z -> Z;
  resp_hdr_at : Z -> BuffMsgB2FAckHeader
}.

Definition store_resp_size (p v : Z) (m : ResponseData) : ResponseData :=
  mkResponseData (fun q => if q =? p then v else resp_size_at m q)
                 (resp_hdr_at m).

Definition store_resp_hdr (p : Z) (h : BuffMsgB2FAckHeader) (m : ResponseData)
  : ResponseData :=
  mkResponseData (resp_size_at m)
                 (fun q => if q =? p then h else resp_hdr_at m q).

Record SplittableBufferT := mkSplittable {
  TotalSize : Z;
  FirstAddr : Z;
  FirstSize : Z;
  SecondAddr : Z
}.

Record DataPlaneRequestContext := mkContext {
  Request : Z;
  Response : Z;
  DataBuffer : SplittableBufferT;
  IsRead : bool
}.

#[global] Instance DataPlaneRequestContext_inhabited
  : Inhabited DataPlaneRequestContext :=
  populate (mkContext 0 0 (mkSplittable 0 0 0 0) false).

Record RequestRingBufferBackEnd := mkRequestRing {
  Head : Z;
  Request_DataBaseAddr : Z
}.

Record ResponseRingBufferBackEnd := mkResponseRing {
  TailA : Z;
  TailB : Z;
  TailC : Z;
  Response_DataBaseAddr : Z
}.

(** ** A buffer connection *)

Record BuffConnConfig := mkBuffConn {
  BuffId : Z;
  RemoteCmId : CmIdT;
  State : ConnState;
  NextRequestContext : Z;
  PendingDataPlaneRequests : list DataPlaneRequestContext;
  RequestRing : RequestRingBufferBackEnd;
  ResponseRing : ResponseRingBufferBackEnd;
  (** request side *)
  RequestDMAReadMetaBuff : Z -> Z;
  RequestDMAReadDataBuff : Z;
  RequestMem : RequestData;
  RequestDMAReadDataSize : Z;
  RequestDMAReadDataSplitState : Z;
  RequestDMAReadMetaWr : ibv_send_wr;
  RequestDMAWriteMetaWr : ibv_send_wr;
  RequestDMAReadDataWr : ibv_send_wr;
  RequestDMAReadDataSplitWr : ibv_send_wr;
  (** response side *)
  ResponseDMAReadMetaBuff : Z -> Z;
  ResponseDMAWriteDataBuff : Z;
  ResponseMem : ResponseData;
  ResponseDMAWriteDataSplitState : Z;
  ResponseDMAReadMetaWr : ibv_send_wr;
  ResponseDMAWriteMetaWr : ibv_send_wr;
  ResponseDMAWriteDataWr : ibv_send_wr;
  ResponseDMAWriteDataSplitWr : ibv_send_wr;
  (** work requests handed to [ibv_post_send] on [QPair], oldest first *)
  SendQueue : list ibv_send_wr
}.

(** Assignments to the fields of a buffer connection. *)
Definition set_BuffId (v : Z) (c : BuffConnConfig) : BuffConnConfig :=
  mkBuffConn v (RemoteCmId c) (State c) (NextRequestContext c)
    (PendingDataPlaneRequests c) (RequestRing c) (ResponseRing c)
    (RequestDMAReadMetaBuff c) (RequestDMAReadDataBuff c) (RequestMem c)
    (RequestDMAReadDataSize c) (RequestDMAReadDataSplitState c)
    (RequestDMAReadMetaWr c) (RequestDMAWriteMetaWr c)
    (RequestDMAReadDataWr c) (RequestDMAReadDataSplitWr c)
    (ResponseDMAReadMetaBuff c) (ResponseDMAWriteDataBuff c) (ResponseMem c)
    (ResponseDMAWriteDataSplitState c) (ResponseDMAReadMetaWr c)
    (ResponseDMAWriteMetaWr c) (ResponseDMAWriteDataWr c)
    (ResponseDMAWriteDataSplitWr c) (SendQueue c).

Definition set_RemoteCmId (v : CmIdT) (c : BuffConnConfig) : BuffConnConfig :=
  mkBuffConn (BuffId c) v (State c) (NextRequestContext c)
    (PendingDataPlaneRequests c) (RequestRing c) (ResponseRing c)
    (RequestDMAReadMetaBuff c) (RequestDMAReadDataBuff c) (RequestMem c)
    (RequestDMAReadDataSize c) (RequestDMAReadDataSplitState c)
    (RequestDMAReadMetaWr c) (RequestDMAWriteMetaWr c)
    (RequestDMAReadDataWr c) (RequestDMAReadDataSplitWr c)
    (ResponseDMAReadMetaBuff c) (ResponseDMAWriteDataBuff c) (ResponseMem c)
    (ResponseDMAWriteDataSplitState c) (ResponseDMAReadMetaWr c)
    (ResponseDMAWriteMetaWr c) (ResponseDMAWriteDataWr c)
    (ResponseDMAWriteDataSplitWr c) (SendQueue c).

Definition set_State (v : ConnState) (c : BuffConnConfig) : BuffConnConfig :=
  mkBuffConn (BuffId c) (RemoteCmId c) v (NextRequestContext c)
    (PendingDataPlaneRequests c) (RequestRing c) (ResponseRing c)
    (RequestDMAReadMetaBuff c) (RequestDMAReadDataBuff c) (RequestMem c)
    (RequestDMAReadDataSize c) (RequestDMAReadDataSplitState c)
    (RequestDMAReadMetaWr c) (RequestDMAWriteMetaWr c)
    (RequestDMAReadDataWr c) (RequestDMAReadDataSplitWr c)
    (ResponseDMAReadMetaBuff c) (ResponseDMAWriteDataBuff c) (ResponseMem c)
    (ResponseDMAWriteDataSplitState c) (ResponseDMAReadMetaWr c)
    (ResponseDMAWriteMetaWr c) (ResponseDMAWriteDataWr c)
    (ResponseDMAWriteDataSplitWr c) (SendQueue c).

Definition set_NextRequestContext (v : Z) (c : BuffConnConfig) : BuffConnConfig :=
  mkBuffConn (BuffId c) (RemoteCmId c) (State c) v
    (PendingDataPlaneRequests c) (RequestRing c) (ResponseRing c)
    (RequestDMAReadMetaBuff c) (RequestDMAReadDataBuff c) (RequestMem c)
    (RequestDMAReadDataSize c) (RequestDMAReadDataSplitState c)
    (RequestDMAReadMetaWr c) (RequestDMAWriteMetaWr c)
    (RequestDMAReadDataWr c) (RequestDMAReadDataSplitWr c)
    (ResponseDMAReadMetaBuff c) (ResponseDMAWriteDataBuff c) (ResponseMem c)
    (ResponseDMAWriteDataSplitState c) (ResponseDMAReadMetaWr c)
    (ResponseDMAWriteMetaWr c) (ResponseDMAWriteDataWr c)
    (ResponseDMAWriteDataSplitWr c) (SendQueue c).

Definition set_PendingDataPlaneRequests (v : list DataPlaneRequestContext) (c : BuffConnConfig) : BuffConnConfig :=
  mkBuffConn (BuffId c) (RemoteCmId c) (State c) (NextRequestContext c) v
    (RequestRing c) (ResponseRing c) (RequestDMAReadMetaBuff c)
    (RequestDMAReadDataBuff c) (RequestMem c) (RequestDMAReadDataSize c)
    (RequestDMAReadDataSplitState c) (RequestDMAReadMetaWr c)
    (RequestDMAWriteMetaWr c) (RequestDMAReadDataWr c)
    (RequestDMAReadDataSplitWr c) (ResponseDMAReadMetaBuff c)
    (ResponseDMAWriteDataBuff c) (ResponseMem c)
    (ResponseDMAWriteDataSplitState c) (ResponseDMAReadMetaWr c)
    (ResponseDMAWriteMetaWr c) (ResponseDMAWriteDataWr c)
    (ResponseDMAWriteDataSplitWr c) (SendQueue c).

Definition set_RequestRing (v : RequestRingBufferBackEnd) (c : BuffConnConfig) : BuffConnConfig :=
  mkBuffConn (BuffId c) (RemoteCmId c) (State c) (NextRequestContext c)
    (PendingDataPlaneRequests c) v (ResponseRing c)
    (RequestDMAReadMetaBuff c) (RequestDMAReadDataBuff c) (RequestMem c)
    (RequestDMAReadDataSize c) (RequestDMAReadDataSplitState c)
    (RequestDMAReadMetaWr c) (RequestDMAWriteMetaWr c)
    (RequestDMAReadDataWr c) (RequestDMAReadDataSplitWr c)
    (ResponseDMAReadMetaBuff c) (ResponseDMAWriteDataBuff c) (ResponseMem c)
    (ResponseDMAWriteDataSplitState c) (ResponseDMAReadMetaWr c)
    (ResponseDMAWriteMetaWr c) (ResponseDMAWriteDataWr c)
    (ResponseDMAWriteDataSplitWr c) (SendQueue c).

Definition set_ResponseRing (v : ResponseRingBufferBackEnd) (c : BuffConnConfig) : BuffConnConfig :=
  mkBuffConn (BuffId c) (RemoteCmId c) (State c) (NextRequestContext c)
    (PendingDataPlaneRequests c) (RequestRing c) v (RequestDMAReadMetaBuff c)
    (RequestDMAReadDataBuff c) (RequestMem c) (RequestDMAReadDataSize c)
    (RequestDMAReadDataSplitState c) (RequestDMAReadMetaWr c)
    (RequestDMAWriteMetaWr c) (RequestDMAReadDataWr c)
    (RequestDMAReadDataSplitWr c) (ResponseDMAReadMetaBuff c)
    (ResponseDMAWriteDataBuff c) (ResponseMem c)
    (ResponseDMAWriteDataSplitState c) (ResponseDMAReadMetaWr c)
    (ResponseDMAWriteMetaWr c) (ResponseDMAWriteDataWr c)
    (ResponseDMAWriteDataSplitWr c) (SendQueue c).

Definition set_RequestDMAReadDataSize (v : Z) (c : BuffConnConfig) : BuffConnConfig :=
  mkBuffConn (BuffId c) (RemoteCmId c) (State c) (NextRequestContext c)
    (PendingDataPlaneRequests c) (RequestRing c) (ResponseRing c)
    (RequestDMAReadMetaBuff c) (RequestDMAReadDataBuff c) (RequestMem c) v
    (RequestDMAReadDataSplitState c) (RequestDMAReadMetaWr c)
    (RequestDMAWriteMetaWr c) (RequestDMAReadDataWr c)
    (RequestDMAReadDataSplitWr c) (ResponseDMAReadMetaBuff c)
    (ResponseDMAWriteDataBuff c) (ResponseMem c)
    (ResponseDMAWriteDataSplitState c) (ResponseDMAReadMetaWr c)
    (ResponseDMAWriteMetaWr c) (ResponseDMAWriteDataWr c)
    (ResponseDMAWriteDataSplitWr c) (SendQueue c).

Definition set_RequestDMAReadDataSplitState (v : Z) (c : BuffConnConfig) : BuffConnConfig :=
  mkBuffConn (BuffId c) (RemoteCmId c) (State c) (NextRequestContext c)
    (PendingDataPlaneRequests c) (RequestRing c) (ResponseRing c)
    (RequestDMAReadMetaBuff c) (RequestDMAReadDataBuff c) (RequestMem c)
    (RequestDMAReadDataSize c) v (RequestDMAReadMetaWr c)
    (RequestDMAWriteMetaWr c) (RequestDMAReadDataWr c)
    (RequestDMAReadDataSplitWr c) (ResponseDMAReadMetaBuff c)
    (ResponseDMAWriteDataBuff c) (ResponseMem c)
    (ResponseDMAWriteDataSplitState c) (ResponseDMAReadMetaWr c)
    (ResponseDMAWriteMetaWr c) (ResponseDMAWriteDataWr c)
    (ResponseDMAWriteDataSplitWr c) (SendQueue c).

Definition set_RequestDMAReadDataWr (v : ibv_send_wr) (c : BuffConnConfig) : BuffConnConfig :=
  mkBuffConn (BuffId c) (RemoteCmId c) (State c) (NextRequestContext c)
    (PendingDataPlaneRequests c) (RequestRing c) (ResponseRing c)
    (RequestDMAReadMetaBuff c) (RequestDMAReadDataBuff c) (RequestMem c)
    (RequestDMAReadDataSize c) (RequestDMAReadDataSplitState c)
    (RequestDMAReadMetaWr c) (RequestDMAWriteMetaWr c) v
    (RequestDMAReadDataSplitWr c) (ResponseDMAReadMetaBuff c)
    (ResponseDMAWriteDataBuff c) (ResponseMem c)
    (ResponseDMAWriteDataSplitState c) (ResponseDMAReadMetaWr c)
    (ResponseDMAWriteMetaWr c) (ResponseDMAWriteDataWr c)
    (ResponseDMAWriteDataSplitWr c) (SendQueue c).

Definition set_RequestDMAReadDataSplitWr (v : ibv_send_wr) (c : BuffConnConfig) : BuffConnConfig :=
  mkBuffConn (BuffId c) (RemoteCmId c) (State c) (NextRequestContext c)
    (PendingDataPlaneRequests c) (RequestRing c) (ResponseRing c)
    (RequestDMAReadMetaBuff c) (RequestDMAReadDataBuff c) (RequestMem c)
    (RequestDMAReadDataSize c) (RequestDMAReadDataSplitState c)
    (RequestDMAReadMetaWr c) (RequestDMAWriteMetaWr c)
    (RequestDMAReadDataWr c) v (ResponseDMAReadMetaBuff c)
    (ResponseDMAWriteDataBuff c) (ResponseMem c)
    (ResponseDMAWriteDataSplitState c) (ResponseDMAReadMetaWr c)
    (ResponseDMAWriteMetaWr c) (ResponseDMAWriteDataWr c)
    (ResponseDMAWriteDataSplitWr c) (SendQueue c).

Definition set_ResponseMem (v : ResponseData) (c : BuffConnConfig) : BuffConnConfig :=
  mkBuffConn (BuffId c) (RemoteCmId c) (State c) (NextRequestContext c)
    (PendingDataPlaneRequests c) (RequestRing c) (ResponseRing c)
    (RequestDMAReadMetaBuff c) (RequestDMAReadDataBuff c) (RequestMem c)
    (RequestDMAReadDataSize c) (RequestDMAReadDataSplitState c)
    (RequestDMAReadMetaWr c) (RequestDMAWriteMetaWr c)
    (RequestDMAReadDataWr c) (RequestDMAReadDataSplitWr c)
    (ResponseDMAReadMetaBuff c) (ResponseDMAWriteDataBuff c) v
    (ResponseDMAWriteDataSplitState c) (ResponseDMAReadMetaWr c)
    (ResponseDMAWriteMetaWr c) (ResponseDMAWriteDataWr c)
    (ResponseDMAWriteDataSplitWr c) (SendQueue c).

Definition set_ResponseDMAWriteDataSplitState (v : Z) (c : BuffConnConfig) : BuffConnConfig :=
  mkBuffConn (BuffId c) (RemoteCmId c) (State c) (NextRequestContext c)
    (PendingDataPlaneRequests c) (RequestRing c) (ResponseRing c)
    (RequestDMAReadMetaBuff c) (RequestDMAReadDataBuff c) (RequestMem c)
    (RequestDMAReadDataSize c) (RequestDMAReadDataSplitState c)
    (RequestDMAReadMetaWr c) (RequestDMAWriteMetaWr c)
    (RequestDMAReadDataWr c) (RequestDMAReadDataSplitWr c)
    (ResponseDMAReadMetaBuff c) (ResponseDMAWriteDataBuff c) (ResponseMem c)
    v (ResponseDMAReadMetaWr c) (ResponseDMAWriteMetaWr c)
    (ResponseDMAWriteDataWr c) (ResponseDMAWriteDataSplitWr c) (SendQueue c).

Definition set_ResponseDMAWriteDataWr (v : ibv_send_wr) (c : BuffConnConfig) : BuffConnConfig :=
  mkBuffConn (BuffId c) (RemoteCmId c) (State c) (NextRequestContext c)
    (PendingDataPlaneRequests c) (RequestRing c) (ResponseRing c)
    (RequestDMAReadMetaBuff c) (RequestDMAReadDataBuff c) (RequestMem c)
    (RequestDMAReadDataSize c) (RequestDMAReadDataSplitState c)
    (RequestDMAReadMetaWr c) (RequestDMAWriteMetaWr c)
    (RequestDMAReadDataWr c) (RequestDMAReadDataSplitWr c)
    (ResponseDMAReadMetaBuff c) (ResponseDMAWriteDataBuff c) (ResponseMem c)
    (ResponseDMAWriteDataSplitState c) (ResponseDMAReadMetaWr c)
    (ResponseDMAWriteMetaWr c) v (ResponseDMAWriteDataSplitWr c)
    (SendQueue c).

Definition set_ResponseDMAWriteDataSplitWr (v : ibv_send_wr) (c : BuffConnConfig) : BuffConnConfig :=
  mkBuffConn (BuffId c) (RemoteCmId c) (State c) (NextRequestContext c)
    (PendingDataPlaneRequests c) (RequestRing c) (ResponseRing c)
    (RequestDMAReadMetaBuff c) (RequestDMAReadDataBuff c) (RequestMem c)
    (RequestDMAReadDataSize c) (RequestDMAReadDataSplitState c)
    (RequestDMAReadMetaWr c) (RequestDMAWriteMetaWr c)
    (RequestDMAReadDataWr c) (RequestDMAReadDataSplitWr c)
    (ResponseDMAReadMetaBuff c) (ResponseDMAWriteDataBuff c) (ResponseMem c)
    (ResponseDMAWriteDataSplitState c) (ResponseDMAReadMetaWr c)
    (ResponseDMAWriteMetaWr c) (ResponseDMAWriteDataWr c) v (SendQueue c).

Definition set_SendQueue (v : list ibv_send_wr) (c : BuffConnConfig) : BuffConnConfig :=
  mkBuffConn (BuffId c) (RemoteCmId c) (State c) (NextRequestContext c)
    (PendingDataPlaneRequests c) (RequestRing c) (ResponseRing c)
    (RequestDMAReadMetaBuff c) (RequestDMAReadDataBuff c) (RequestMem c)
    (RequestDMAReadDataSize c) (RequestDMAReadDataSplitState c)
    (RequestDMAReadMetaWr c) (RequestDMAWriteMetaWr c)
    (RequestDMAReadDataWr c) (RequestDMAReadDataSplitWr c)
    (ResponseDMAReadMetaBuff c) (ResponseDMAWriteDataBuff c) (ResponseMem c)
    (ResponseDMAWriteDataSplitState c) (ResponseDMAReadMetaWr c)
    (ResponseDMAWriteMetaWr c) (ResponseDMAWriteDataWr c)
    (ResponseDMAWriteDataSplitWr c) v.

(** ** The back-end configuration and the connection manager *)

(** [MaxClients] and [MaxBuffs] are [uint32_t]; [CtrlConns] and [BuffConns]
    are the two heap arrays of [AllocConns]. *)
Record BackEndConfig := mkBackEnd {
  MaxClients : nat;
  MaxBuffs : nat;
  CtrlConns : list CtrlConnConfig;
  BuffConns : list BuffConnConfig
}.

Definition DDS_REQUEST_INVALID : Z := -1.

Definition zero_wr (id : WrId) (op : WrOpcode) : ibv_send_wr := mkWr id op 0 0 0.

(** A slot as [memset(..., 0, ...)] leaves it. *)
Definition zero_CtrlConn : CtrlConnConfig :=
  mkCtrlConn 0 0 CONN_STATE_AVAILABLE (mkPending 0 0 0).

Definition zero_BuffConn : BuffConnConfig :=
  mkBuffConn 0 0 CONN_STATE_AVAILABLE 0 []
    (mkRequestRing 0 0) (mkResponseRing 0 0 0 0)
    (fun _ => 0) 0
    (mkRequestData (fun _ => 0) (fun _ => mkReqHeader 0 0 0 0)) 0 0
    (zero_wr BUFF_READ_REQUEST_META_WR_ID IBV_WR_RDMA_READ)
    (zero_wr BUFF_WRITE_REQUEST_META_WR_ID IBV_WR_RDMA_WRITE)
    (zero_wr BUFF_READ_REQUEST_DATA_WR_ID IBV_WR_RDMA_READ)
    (zero_wr BUFF_READ_REQUEST_DATA_SPLIT_WR_ID IBV_WR_RDMA_READ)
    (fun _ => 0) 0
    (mkResponseData (fun _ => 0) (fun _ => mkAckHeader 0 0 0)) 0
    (zero_wr BUFF_READ_RESPONSE_META_WR_ID IBV_WR_RDMA_READ)
    (zero_wr BUFF_WRITE_RESPONSE_META_WR_ID IBV_WR_RDMA_WRITE)
    (zero_wr BUFF_WRITE_RESPONSE_DATA_WR_ID IBV_WR_RDMA_WRITE)
    (zero_wr BUFF_WRITE_RESPONSE_DATA_SPLIT_WR_ID IBV_WR_RDMA_WRITE)
    [].

#[global] Instance CtrlConnConfig_inhabited : Inhabited CtrlConnConfig :=
  populate zero_CtrlConn.
#[global] Instance BuffConnConfig_inhabited : Inhabited BuffConnConfig :=
  populate zero_BuffConn.

Definition set_Ctrl_State (v : ConnState) (c : CtrlConnConfig) : CtrlConnConfig :=
  mkCtrlConn (CtrlId c) (Ctrl_RemoteCmId c) v (PendingControlPlaneRequest c).

Definition set_Ctrl_RemoteCmId (v : CmIdT) (c : CtrlConnConfig) : CtrlConnConfig :=
  mkCtrlConn (CtrlId c) v (Ctrl_State c) (PendingControlPlaneRequest c).

Definition set_CtrlConns (v : list CtrlConnConfig) (g : BackEndConfig)
  : BackEndConfig :=
  mkBackEnd (MaxClients g) (MaxBuffs g) v (BuffConns g).

Definition set_BuffConns (v : list BuffConnConfig) (g : BackEndConfig)
  : BackEndConfig :=
  mkBackEnd (MaxClients g) (MaxBuffs g) (CtrlConns g) v.

(** [AllocConns], lines 154-189.  Both arrays get [MaxClients] entries;
    the second loop names the first [MaxBuffs] buffer slots.  A write at
    an index past the end of [BuffConns] leaves the list unchanged (in C
    it lands outside the array); [AllocConns_writes] below lists every
    index the loop writes, in range or not. *)
Definition init_CtrlConn (c : nat) : CtrlConnConfig :=
  mkCtrlConn (Z.of_nat c) 0 CONN_STATE_AVAILABLE (mkPending DDS_REQUEST_INVALID 0 0).

Definition init_BuffConn (c : nat) (b : BuffConnConfig) : BuffConnConfig :=
  set_NextRequestContext 0 (set_BuffId (Z.of_nat c) b).

Fixpoint name_BuffConns (conns : list BuffConnConfig) (c n : nat)
  : list BuffConnConfig :=
  match n with
  | O => conns
  | S n' => name_BuffConns (<[c := init_BuffConn c (conns !!! c)]> conns) (S c) n'
  end.

Definition AllocConns (maxClients maxBuffs : nat) : BackEndConfig :=
  mkBackEnd maxClients maxBuffs
    (init_CtrlConn <$> seq 0 maxClients)
    (name_BuffConns (replicate maxClients zero_BuffConn) 0 maxBuffs).

(** Indices of [Config->BuffConns] written by the loop of lines 183-186. *)
Definition AllocConns_writes (maxBuffs : nat) : list nat := seq 0 maxBuffs.

(** The loops over connection slots return what they found together with
    the indices of the array they read, in order. *)
Fixpoint scan_from {A} (hit : A -> bool) (conns : list A) `{Inhabited A}
    (i n : nat) : list nat * option nat :=
  match n with
  | O => ([], None)
  | S n' =>
      if hit (conns !!! i) then ([i], Some i)
      else let '(reads, r) := scan_from hit conns (S i) n' in (i :: reads, r)
  end.

(** [FindConnId], lines 938-959: control slots [0 .. MaxClients-1] first,
    then buffer slots [0 .. MaxBuffs-1]; the result is [(isCtrl, index)],
    [None] for [-1]. *)
Definition FindConnId_ctrl (g : BackEndConfig) (id : CmIdT) : list nat * option nat :=
  scan_from (fun c => Ctrl_RemoteCmId c =? id) (CtrlConns g) 0 (MaxClients g).

Definition FindConnId_buff (g : BackEndConfig) (id : CmIdT) : list nat * option nat :=
  scan_from (fun c => RemoteCmId c =? id) (BuffConns g) 0 (MaxBuffs g).

Definition FindConnId (g : BackEndConfig) (id : CmIdT) : option (bool * nat) :=
  match (FindConnId_ctrl g id).2 with
  | Some i => Some (true, i)
  | None =>
      match (FindConnId_buff g id).2 with
      | Some i => Some (false, i)
      | None => None
      end
  end.

(** Indices of [Config->BuffConns] read by [FindConnId]. *)
Definition FindConnId_buff_reads (g : BackEndConfig) (id : CmIdT) : list nat :=
  match (FindConnId_ctrl g id).2 with
  | Some _ => []
  | None => (FindConnId_buff g id).1
  end.

(** The slot search of the [BUFF_CONN_PRIV_DATA] branch, lines 1085-1090,
    and of the [CTRL_CONN_PRIV_DATA] branch, lines 1005-1010. *)
Definition select_BuffConn (g : BackEndConfig) : list nat * option nat :=
  scan_from (fun c => bool_decide (State c = CONN_STATE_AVAILABLE))
    (BuffConns g) 0 (MaxClients g).

Definition select_CtrlConn (g : BackEndConfig) : list nat * option nat :=
  scan_from (fun c => bool_decide (Ctrl_State c = CONN_STATE_AVAILABLE))
    (CtrlConns g) 0 (MaxClients g).

Inductive ConnKind := CTRL_CONN_PRIV_DATA | BUFF_CONN_PRIV_DATA | OTHER_PRIV_DATA.

Inductive rdma_cm_event_type :=
| RDMA_CM_EVENT_ADDR_RESOLVED
| RDMA_CM_EVENT_ROUTE_RESOLVED
| RDMA_CM_EVENT_CONNECT_REQUEST (private_data : ConnKind)
| RDMA_CM_EVENT_ESTABLISHED
| RDMA_CM_EVENT_ADDR_ERROR
| RDMA_CM_EVENT_ROUTE_ERROR
| RDMA_CM_EVENT_CONNECT_ERROR
| RDMA_CM_EVENT_UNREACHABLE
| RDMA_CM_EVENT_REJECTED
| RDMA_CM_EVENT_DISCONNECTED
| RDMA_CM_EVENT_DEVICE_REMOVAL
| RDMA_CM_EVENT_OTHER.

Record rdma_cm_event := mkEvent {
  event : rdma_cm_event_type;
  id : CmIdT
}.

(** [ProcessCmEvents], lines 965-1265.  [setup] is the return value of the
    chain [SetUp*QPair], [SetUp*RegionsAndBuffers], [ibv_post_recv],
    [rdma_accept] of a connect request and [resolve] that of
    [rdma_resolve_route]; both belong to the RDMA library.

    The [RDMA_CM_EVENT_ESTABLISHED] case is the text of the build with
    [DDS_STORAGE_FILE_BACKEND_VERBOSE] defined: the brace that closes the
    buffer branch (line 1187) is inside the [#ifdef], so without the macro
    the [else] of line 1190 has no [if] and the file is not a C program. *)
Definition ProcessCmEvents (setup resolve : Z) (g : BackEndConfig)
    (ev : rdma_cm_event) : Z * BackEndConfig :=
  match event ev with
  | RDMA_CM_EVENT_ADDR_RESOLVED => (resolve, g)
  | RDMA_CM_EVENT_ROUTE_RESOLVED => (0, g)
  | RDMA_CM_EVENT_CONNECT_REQUEST CTRL_CONN_PRIV_DATA =>
      match (select_CtrlConn g).2 with
      | Some index =>
          let c := set_Ctrl_RemoteCmId (id ev) (CtrlConns g !!! index) in
          if setup =? 0
          then (0, set_CtrlConns
                     (<[index := set_Ctrl_State CONN_STATE_OCCUPIED c]> (CtrlConns g)) g)
          else (setup, set_CtrlConns (<[index := c]> (CtrlConns g)) g)
      | None => (0, g)
      end
  | RDMA_CM_EVENT_CONNECT_REQUEST BUFF_CONN_PRIV_DATA =>
      match (select_BuffConn g).2 with
      | Some index =>
          let c := set_RemoteCmId (id ev) (BuffConns g !!! index) in
          if setup =? 0
          then (0, set_BuffConns
                     (<[index := set_State CONN_STATE_OCCUPIED c]> (BuffConns g)) g)
          else (setup, set_BuffConns (<[index := c]> (BuffConns g)) g)
      | None => (0, g)
      end
  | RDMA_CM_EVENT_CONNECT_REQUEST OTHER_PRIV_DATA => (0, g)
  | RDMA_CM_EVENT_ESTABLISHED =>
      match FindConnId g (id ev) with
      | Some (true, connId) =>
          (0, set_CtrlConns
                (<[connId := set_Ctrl_State CONN_STATE_CONNECTED
                               (CtrlConns g !!! connId)]> (CtrlConns g)) g)
      | Some (false, connId) =>
          (0, set_BuffConns
                (<[connId := set_State CONN_STATE_CONNECTED
                               (BuffConns g !!! connId)]> (BuffConns g)) g)
      | None => (0, g)
      end
  | RDMA_CM_EVENT_ADDR_ERROR
  | RDMA_CM_EVENT_ROUTE_ERROR
  | RDMA_CM_EVENT_CONNECT_ERROR
  | RDMA_CM_EVENT_UNREACHABLE
  | RDMA_CM_EVENT_REJECTED => (-1, g)
  | RDMA_CM_EVENT_DISCONNECTED =>
      match FindConnId g (id ev) with
      | Some (true, connId) =>
          if decide (Ctrl_State (CtrlConns g !!! connId) = CONN_STATE_AVAILABLE)
          then (0, g)
          else (0, set_CtrlConns
                     (<[connId := set_Ctrl_State CONN_STATE_AVAILABLE
                                    (CtrlConns g !!! connId)]> (CtrlConns g)) g)
      | Some (false, connId) =>
          if decide (State (BuffConns g !!! connId) = CONN_STATE_AVAILABLE)
          then (0, g)
          else (0, set_BuffConns
                     (<[connId := set_State CONN_STATE_AVAILABLE
                                    (BuffConns g !!! connId)]> (BuffConns g)) g)
      | None => (0, g)
      end
  | RDMA_CM_EVENT_DEVICE_REMOVAL => (-1, g)
  | RDMA_CM_EVENT_OTHER => (-1, g)
  end.

(** The guard on which [ProcessCtrlCqEvents] (line 1690) and
    [ProcessBuffCqEvents] (line 2148) process a slot. *)
Definition ctrl_slot_polled (c : CtrlConnConfig) : bool :=
  bool_decide (Ctrl_State c = CONN_STATE_CONNECTED).

Definition buff_slot_polled (c : BuffConnConfig) : bool :=
  bool_decide (State c = CONN_STATE_CONNECTED).

(** ** The data-plane engine of one buffer connection *)

Section DataPlane.

Variable K : Consts.

(** [sizeof(FileIOSizeT) + sizeof(BuffMsgB2FAckHeader)] *)
Definition alignment : Z := sizeof_FileIOSizeT K + sizeof_BuffMsgB2FAckHeader K.

(** [ibv_post_send(buffConn->QPair, &wr, &badSendWr)]: the work request, as
    it stands at the call, is queued.  The return value belongs to the RDMA
    library; a non-zero one is only reported by the callers. *)
Definition ibv_post_send (wr : ibv_send_wr) (c : BuffConnConfig) : BuffConnConfig :=
  set_SendQueue (SendQueue c ++ [wr]) c.

Definition set_Head (v : Z) (c : BuffConnConfig) : BuffConnConfig :=
  set_RequestRing (mkRequestRing v (Request_DataBaseAddr (RequestRing c))) c.

Definition set_TailA (v : Z) (c : BuffConnConfig) : BuffConnConfig :=
  let r := ResponseRing c in
  set_ResponseRing (mkResponseRing v (TailB r) (TailC r) (Response_DataBaseAddr r)) c.

Definition set_TailB (v : Z) (c : BuffConnConfig) : BuffConnConfig :=
  let r := ResponseRing c in
  set_ResponseRing (mkResponseRing (TailA r) v (TailC r) (Response_DataBaseAddr r)) c.

Definition set_TailC (v : Z) (c : BuffConnConfig) : BuffConnConfig :=
  let r := ResponseRing c in
  set_ResponseRing (mkResponseRing (TailA r) (TailB r) v (Response_DataBaseAddr r)) c.

(** Assignment to [wr.rdma.remote_addr], [sg_list->addr], [sg_list->length]. *)
Definition fill_wr (remote local len : Z) (wr : ibv_send_wr) : ibv_send_wr :=
  mkWr (wr_id wr) (opcode wr) remote local len.

(** *** [ExecuteRequests], lines 1845-2113 *)

Inductive FsCall :=
| SubmitDataPlaneRequest (ctxt : DataPlaneRequestContext) (isRead : bool) (index : Z)
| SubmitDataPlaneRequestBatch (firstIndex batchSize ioSlotBase : Z).

(** One request served by the loop: the ring offset of its response stub,
    the size prefix and header stored there (lines 1966-1970 and
    2014-2018), and whether the read branch (line 1996) or the write branch
    (line 1928) ran. *)
Record Served := mkServed {
  served_at : Z;
  served_size : Z;
  served_stub : BuffMsgB2FAckHeader;
  served_as_read : bool
}.

(** The variables the parsing loop carries from one record to the next. *)
Record ExecState := mkExec {
  bytesParsed : Z;
  progressReq : Z;
  progressResp : Z;
  totalRespSize : Z;
  batchSize : Z;
  exec_conn : BuffConnConfig;
  exec_calls : list FsCall;
  (** the requests served so far, oldest first *)
  exec_stubs : list Served
}.

(** Size of the response reserved for a request (lines 1935 and 2003-2008). *)
Definition write_respSize : Z := u32 alignment.

Definition read_respSize (bytes : Z) : Z :=
  let respSize := u32 (alignment + bytes) in
  if respSize mod alignment =? 0 then respSize
  else u32 (respSize + (alignment - respSize mod alignment)).

(** [curReqSize > sizeof(BuffMsgF2BReqHeader)] *)
Definition is_write (reqSize : Z) : bool :=
  u32 (reqSize - sizeof_FileIOSizeT K) >? sizeof_BuffMsgF2BReqHeader K.

(** One turn of the loop of lines 1910-2076. *)
Definition execute_one (s : ExecState) : ExecState :=
  let c := exec_conn s in
  let buffReq := RequestDMAReadDataBuff c in
  let buffResp := ResponseDMAWriteDataBuff c in
  let reqSize := req_size_at (RequestMem c) (progressReq s) in
  let bytesParsed' := u32 (bytesParsed s + reqSize) in
  let progressReq' :=
    ring_advance (BACKEND_REQUEST_BUFFER_SIZE K) (progressReq s) reqSize in
  let progressReqForParsing :=
    ring_advance (BACKEND_REQUEST_BUFFER_SIZE K) (progressReq s)
      (sizeof_FileIOSizeT K + sizeof_BuffMsgF2BReqHeader K) in
  let curReq := progressReq s + sizeof_FileIOSizeT K in
  let curReqObj := req_hdr_at (RequestMem c) curReq in
  let currIndex := NextRequestContext c in
  let nextIndex :=
    if currIndex + 1 =? DDS_MAX_OUTSTANDING_IO K then 0 else currIndex + 1 in
  let old := PendingDataPlaneRequests c !!! Z.to_nat currIndex in
  let resp := progressResp s + sizeof_FileIOSizeT K in
  let stub :=
    mkAckHeader (Req_RequestId curReqObj) (DDS_ERROR_CODE_IO_PENDING K)
      (BytesServiced (resp_hdr_at (ResponseMem c) resp)) in
  if is_write reqSize then
    let respSize := write_respSize in
    let dataBuff :=
      if progressReqForParsing + Req_Bytes curReqObj >=? BACKEND_REQUEST_BUFFER_SIZE K
      then mkSplittable (Req_Bytes curReqObj) (buffReq + progressReqForParsing)
             (BACKEND_REQUEST_BUFFER_SIZE K - progressReqForParsing) buffReq
      else mkSplittable (Req_Bytes curReqObj) (buffReq + progressReqForParsing)
             (Req_Bytes curReqObj) 0 in
    let mem := store_resp_size (progressResp s) respSize (ResponseMem c) in
    let mem := store_resp_hdr resp stub mem in
    let ctxt :=
      mkContext (buffReq + curReq) (buffResp + resp) dataBuff
        (if OPT_FILE_SERVICE_BATCHING K then false else IsRead old) in
    let c := set_NextRequestContext nextIndex c in
    let c := set_PendingDataPlaneRequests
               (<[Z.to_nat currIndex := ctxt]> (PendingDataPlaneRequests c)) c in
    let c := set_ResponseMem mem c in
    mkExec bytesParsed' progressReq'
      (ring_advance (BACKEND_RESPONSE_BUFFER_SIZE K) (progressResp s) respSize)
      (u32 (totalRespSize s + respSize))
      (batchSize s + 1) c
      (if OPT_FILE_SERVICE_BATCHING K then exec_calls s
       else exec_calls s ++ [SubmitDataPlaneRequest ctxt false currIndex])
      (exec_stubs s ++ [mkServed (progressResp s) respSize stub false])
  else
    let respSize := read_respSize (Req_Bytes curReqObj) in
    let mem := store_resp_size (progressResp s) respSize (ResponseMem c) in
    let mem := store_resp_hdr resp stub mem in
    let dataBuff :=
      if progressResp s + respSize <=? BACKEND_RESPONSE_BUFFER_SIZE K
      then mkSplittable (Req_Bytes curReqObj)
             (buffResp + (progressResp s + alignment)) (Req_Bytes curReqObj) 0
      else if progressResp s + alignment <? BACKEND_RESPONSE_BUFFER_SIZE K
      then mkSplittable (Req_Bytes curReqObj)
             (buffResp + (progressResp s + alignment))
             (BACKEND_RESPONSE_BUFFER_SIZE K - progressResp s - alignment) buffResp
      else mkSplittable (Req_Bytes curReqObj) buffResp (Req_Bytes curReqObj) 0 in
    let ctxt :=
      mkContext (buffReq + curReq) (buffResp + resp) dataBuff
        (if OPT_FILE_SERVICE_BATCHING K then true else IsRead old) in
    let c := set_NextRequestContext nextIndex c in
    let c := set_PendingDataPlaneRequests
               (<[Z.to_nat currIndex := ctxt]> (PendingDataPlaneRequests c)) c in
    let c := set_ResponseMem mem c in
    mkExec bytesParsed' progressReq'
      (ring_advance (BACKEND_RESPONSE_BUFFER_SIZE K) (progressResp s) respSize)
      (u32 (totalRespSize s + respSize))
      (batchSize s + 1) c
      (if OPT_FILE_SERVICE_BATCHING K then exec_calls s
       else exec_calls s ++ [SubmitDataPlaneRequest ctxt true currIndex])
      (exec_stubs s ++ [mkServed (progressResp s) respSize stub true]).

(** [while (bytesParsed != bytesTotal) { ... }]; [None] when [fuel] turns
    were not enough to leave the loop. *)
Fixpoint execute_loop (fuel : nat) (bytesTotal : Z) (s : ExecState)
  : option ExecState :=
  if bytesParsed s =? bytesTotal then Some s
  else match fuel with
       | O => None
       | S fuel' => execute_loop fuel' bytesTotal (execute_one s)
       end.

Inductive Outcome :=
| Returns
| Exits (code : Z).

(** [headReq], line 1859. *)
Definition exec_headReq (c : BuffConnConfig) : Z :=
  let bytesTotal := RequestDMAReadDataSize c in
  let tailReq := Head (RequestRing c) in
  if u32 tailReq >=? bytesTotal then int32 (tailReq - bytesTotal)
  else int32 (BACKEND_REQUEST_BUFFER_SIZE K + tailReq - bytesTotal).

(** [respRingCapacity], line 1862. *)
Definition exec_respRingCapacity (c : BuffConnConfig) : Z :=
  let tailResp := TailA (ResponseRing c) in
  let headResp := TailB (ResponseRing c) in
  if tailResp >=? headResp
  then BACKEND_RESPONSE_BUFFER_SIZE K - tailResp + headResp
  else headResp - tailResp.

(** The loop state on entry (lines 1855-1904). *)
Definition exec_init (c : BuffConnConfig) : ExecState :=
  let tailResp := TailA (ResponseRing c) in
  if RING_BUFFER_RESPONSE_BATCH_ENABLED K
  then mkExec 0 (exec_headReq c)
         (ring_advance (BACKEND_RESPONSE_BUFFER_SIZE K) tailResp alignment)
         (u32 alignment) 0 c [] []
  else mkExec 0 (exec_headReq c) tailResp 0 0 c [] [].

(** What a call leaves behind: how it ended, the connection, the calls
    made to the file service and the stubs stored. *)
Record Executed := mkExecuted {
  outcome : Outcome;
  conn : BuffConnConfig;
  fs_calls : list FsCall;
  stubs : list Served
}.

Definition ExecuteRequests (fuel : nat) (c : BuffConnConfig) : option Executed :=
  let bytesTotal := RequestDMAReadDataSize c in
  let batchMeta := TailA (ResponseRing c) in
  let firstIndex := NextRequestContext c in
  match execute_loop fuel bytesTotal (exec_init c) with
  | None => None
  | Some s =>
      let calls :=
        if OPT_FILE_SERVICE_BATCHING K
        then exec_calls s ++ [SubmitDataPlaneRequestBatch firstIndex (batchSize s) 0]
        else exec_calls s in
      if totalRespSize s >=? u32 (exec_respRingCapacity c)
      then
        (* "Response buffer is corrupted!", [exit(-1)] *)
        Some (mkExecuted (Exits (-1)) (exec_conn s) calls (exec_stubs s))
      else
        let c' := set_TailA (progressResp s) (exec_conn s) in
        let c' :=
          if RING_BUFFER_RESPONSE_BATCH_ENABLED K
          then set_ResponseMem
                 (store_resp_size batchMeta (totalRespSize s) (ResponseMem c')) c'
          else c' in
        Some (mkExecuted Returns c' calls (exec_stubs s))
  end.

(** *** [DistanceBetweenPointers], lines 2119-2131 *)
Definition DistanceBetweenPointers (Tail Head Capacity : Z) : Z :=
  if Tail >=? Head then Tail - Head else int32 (Capacity - Head + Tail).

(** *** [ProcessBuffCqEvents], lines 2137-2527: the handling of one
    successful completion polled from the queue of one connected slot *)

(** [case BUFF_READ_REQUEST_META_WR_ID], lines 2172-2267. *)
Definition on_READ_REQUEST_META (c : BuffConnConfig) : BuffConnConfig :=
  let progress := RequestDMAReadMetaBuff c 0 in
  let tail := RequestDMAReadMetaBuff c (DDS_CACHE_LINE_SIZE_BY_INT K) in
  if (tail =? Head (RequestRing c)) || negb (tail =? progress)
  then
    (* Not ready to read, poll again *)
    ibv_post_send (RequestDMAReadMetaWr c) c
  else
    (* Ready to read *)
    let head := Head (RequestRing c) in
    let base := Request_DataBaseAddr (RequestRing c) in
    let buff := RequestDMAReadDataBuff c in
    let availBytes :=
      if progress >? head then u32 (progress - head)
      else u32 (DDS_REQUEST_RING_BYTES K - head) in
    let c :=
      set_RequestDMAReadDataSize
        (if progress >? head then availBytes else u32 (availBytes + progress)) c in
    let sourceBuffer1 := u64 (base + head) in
    let sourceBuffer2 := if progress >? head then 0 else u64 base in
    let destBuffer1 := u64 (buff + head) in
    let destBuffer2 := if progress >? head then 0 else u64 buff in
    let c :=
      set_RequestDMAReadDataWr
        (fill_wr sourceBuffer1 destBuffer1 availBytes (RequestDMAReadDataWr c)) c in
    let c :=
      if sourceBuffer2 =? 0
      then
        let c :=
          set_RequestDMAReadDataSplitState (BUFF_READ_DATA_SPLIT_STATE_NOT_SPLIT K) c in
        ibv_post_send (RequestDMAReadDataWr c) c
      else
        let c :=
          set_RequestDMAReadDataSplitState (BUFF_READ_DATA_SPLIT_STATE_SPLIT K) c in
        let c :=
          set_RequestDMAReadDataSplitWr
            (fill_wr sourceBuffer2 destBuffer2 (u32 progress)
               (RequestDMAReadDataSplitWr c)) c in
        let c := ibv_post_send (RequestDMAReadDataSplitWr c) c in
        ibv_post_send (RequestDMAReadDataWr c) c in
    let c := set_Head progress c in
    (* Immediately update remote head *)
    ibv_post_send (RequestDMAWriteMetaWr c) c.

(** [case BUFF_READ_REQUEST_DATA_WR_ID] and
    [case BUFF_READ_REQUEST_DATA_SPLIT_WR_ID], lines 2268-2301. *)
Definition on_READ_REQUEST_DATA (fuel : nat) (c : BuffConnConfig)
  : option Executed :=
  if RequestDMAReadDataSplitState c =? BUFF_READ_DATA_SPLIT_STATE_NOT_SPLIT K
  then ExecuteRequests fuel c
  else Some (mkExecuted Returns
               (set_RequestDMAReadDataSplitState
                  (RequestDMAReadDataSplitState c + 1) c) [] []).

(** [case BUFF_READ_RESPONSE_META_WR_ID], lines 2302-2445. *)
Definition on_READ_RESPONSE_META (c : BuffConnConfig) : BuffConnConfig :=
  let progress := ResponseDMAReadMetaBuff c 0 in
  let head := ResponseDMAReadMetaBuff c (DDS_CACHE_LINE_SIZE_BY_INT K) in
  let tailStart := TailC (ResponseRing c) in
  let tailEnd := TailB (ResponseRing c) in
  if tailStart =? tailEnd
  then
    (* No response to send *)
    c
  else
    let totalResponseBytes :=
      u32 (DistanceBetweenPointers tailEnd tailStart (BACKEND_RESPONSE_BUFFER_SIZE K)) in
    if negb (head =? progress)
    then
      (* Not ready to write, poll again *)
      ibv_post_send (ResponseDMAReadMetaWr c) c
    else
      let distance :=
        if tailStart >=? head
        then u32 (head + DDS_RESPONSE_RING_BYTES K - tailStart)
        else u32 (head - tailStart) in
      if distance <? totalResponseBytes
      then
        (* Not ready to write, poll again *)
        ibv_post_send (ResponseDMAReadMetaWr c) c
      else
        (* Ready to write *)
        let buff := ResponseDMAWriteDataBuff c in
        let base := Response_DataBaseAddr (ResponseRing c) in
        let fits :=
          u32 (tailStart + totalResponseBytes) <=? DDS_RESPONSE_RING_BYTES K in
        let availBytes :=
          if fits then totalResponseBytes
          else u32 (DDS_RESPONSE_RING_BYTES K - tailStart) in
        let sourceBuffer1 := u64 (buff + tailStart) in
        let sourceBuffer2 := if fits then 0 else u64 buff in
        let destBuffer1 := u64 (base + tailStart) in
        let destBuffer2 := if fits then 0 else u64 base in
        let c :=
          set_ResponseDMAWriteDataWr
            (fill_wr destBuffer1 sourceBuffer1 availBytes (ResponseDMAWriteDataWr c)) c in
        let c :=
          if sourceBuffer2 =? 0
          then
            let c :=
              set_ResponseDMAWriteDataSplitState
                (BUFF_READ_DATA_SPLIT_STATE_NOT_SPLIT K) c in
            ibv_post_send (ResponseDMAWriteDataWr c) c
          else
            let c :=
              set_ResponseDMAWriteDataSplitState
                (BUFF_READ_DATA_SPLIT_STATE_SPLIT K) c in
            let c :=
              set_ResponseDMAWriteDataSplitWr
                (fill_wr destBuffer2 sourceBuffer2
                   (u32 (totalResponseBytes - availBytes))
                   (ResponseDMAWriteDataSplitWr c)) c in
            let c := ibv_post_send (ResponseDMAWriteDataSplitWr c) c in
            ibv_post_send (ResponseDMAWriteDataWr c) c in
        let c :=
          set_TailC
            (int32 (u32 (tailStart + totalResponseBytes)
                    mod DDS_RESPONSE_RING_BYTES K)) c in
        (* Immediately update remote tail *)
        ibv_post_send (ResponseDMAWriteMetaWr c) c.

(** [case IBV_WC_RDMA_READ], the inner [switch (wc.wr_id)]. *)
Definition on_RDMA_READ (fuel : nat) (id : WrId) (c : BuffConnConfig)
  : option Executed :=
  match id with
  | BUFF_READ_REQUEST_META_WR_ID =>
      Some (mkExecuted Returns (on_READ_REQUEST_META c) [] [])
  | BUFF_READ_REQUEST_DATA_WR_ID => on_READ_REQUEST_DATA fuel c
  | BUFF_READ_REQUEST_DATA_SPLIT_WR_ID => on_READ_REQUEST_DATA fuel c
  | BUFF_READ_RESPONSE_META_WR_ID =>
      Some (mkExecuted Returns (on_READ_RESPONSE_META c) [] [])
  | _ => Some (mkExecuted Returns c [] [])
  end.

(** [case IBV_WC_RDMA_WRITE], the inner [switch (wc.wr_id)]; the second
    component is [ret]. *)
Definition on_RDMA_WRITE (id : WrId) (c : BuffConnConfig) : Z * BuffConnConfig :=
  match id with
  | BUFF_WRITE_REQUEST_META_WR_ID => (0, ibv_post_send (RequestDMAReadMetaWr c) c)
  | BUFF_WRITE_RESPONSE_META_WR_ID => (0, c)
  | BUFF_WRITE_RESPONSE_DATA_WR_ID
  | BUFF_WRITE_RESPONSE_DATA_SPLIT_WR_ID =>
      if ResponseDMAWriteDataSplitState c =? BUFF_READ_DATA_SPLIT_STATE_NOT_SPLIT K
      then (0, c)
      else (0, set_ResponseDMAWriteDataSplitState
                 (ResponseDMAWriteDataSplitState c + 1) c)
  | _ => (-1, c)
  end.

(** *** [CheckAndProcessIOCompletions], lines 2541-2692: the body of the
    loop for one connected slot *)

(** [head += curRespSize; if (head >= BACKEND_RESPONSE_BUFFER_SIZE)
    { head %= BACKEND_RESPONSE_BUFFER_SIZE; }]: from the response framed at
    [head] to the one after it. *)
Definition next_response (mem : ResponseData) (head : Z) : Z :=
  ring_advance (BACKEND_RESPONSE_BUFFER_SIZE K) head (resp_size_at mem head).

(** The [while] of lines 2579-2600 (batched build). *)
Fixpoint sweep_batched (fuel : nat) (mem : ResponseData)
    (head1 head2 totalRespSize : Z) : option Z :=
  if u32 (DistanceBetweenPointers head1 head2 (BACKEND_RESPONSE_BUFFER_SIZE K))
     =? totalRespSize
  then Some head1
  else match fuel with
       | O => None
       | S fuel' =>
           if Result (resp_hdr_at mem (head1 + sizeof_FileIOSizeT K))
              =? DDS_ERROR_CODE_IO_PENDING K
           then Some head1
           else sweep_batched fuel' mem (next_response mem head1)
                  head2 totalRespSize
       end.

(** The [while] of lines 2639-2658 (build without batching). *)
Fixpoint sweep_unbatched (fuel : nat) (mem : ResponseData) (head tail : Z)
  : option (Z * ResponseData) :=
  if head =? tail then Some (head, mem)
  else match fuel with
       | O => None
       | S fuel' =>
           let curResp := head + sizeof_FileIOSizeT K in
           let h := resp_hdr_at mem curResp in
           let mem' :=
             if Result h =? DDS_ERROR_CODE_IO_PENDING K
             then
               (* DO NOT USE: testing *)
               store_resp_hdr curResp
                 (mkAckHeader (RequestId h) (DDS_ERROR_CODE_SUCCESS K) 4) mem
             else mem in
           sweep_unbatched fuel' mem' (next_response mem head) tail
       end.

Definition CheckAndProcessIOCompletions_conn (fuel : nat) (c : BuffConnConfig)
  : option BuffConnConfig :=
  if RING_BUFFER_RESPONSE_BATCH_ENABLED K
  then
    let head1 := TailB (ResponseRing c) in
    let head2 := TailC (ResponseRing c) in
    let tail := TailA (ResponseRing c) in
    let totalRespSize := resp_size_at (ResponseMem c) head2 in
    if tail =? head1 then Some c
    else
      let head1 :=
        if head1 =? head2
        then ring_advance (BACKEND_RESPONSE_BUFFER_SIZE K) head1 alignment
        else head1 in
      match sweep_batched fuel (ResponseMem c) head1 head2 totalRespSize with
      | None => None
      | Some head1 =>
          if head1 =? TailB (ResponseRing c) then Some c
          else
            (* Update TailB immediately *)
            let c := set_TailB head1 c in
            if u32 (DistanceBetweenPointers head1 head2
                      (BACKEND_RESPONSE_BUFFER_SIZE K)) =? totalRespSize
            then
              (* Poll the distance from the host *)
              Some (ibv_post_send (ResponseDMAReadMetaWr c) c)
            else Some c
      end
  else
    let head := TailB (ResponseRing c) in
    let tail := TailA (ResponseRing c) in
    if head =? tail then Some c
    else
      match sweep_unbatched fuel (ResponseMem c) head tail with
      | None => None
      | Some (head, mem) =>
          let c := set_ResponseMem mem c in
          if head =? TailB (ResponseRing c) then Some c
          else
            let c := set_TailB head c in
            Some (ibv_post_send (ResponseDMAReadMetaWr c) c)
      end.

(** The loop [for (int i = 0; i != Config->MaxBuffs; i++)] around it. *)
Fixpoint CheckAndProcessIOCompletions_from (fuel : nat)
    (conns : list BuffConnConfig) (i n : nat) : option (list BuffConnConfig) :=
  match n with
  | O => Some conns
  | S n' =>
      let buffConn := conns !!! i in
      if buff_slot_polled buffConn
      then match CheckAndProcessIOCompletions_conn fuel buffConn with
           | None => None
           | Some c' =>
               CheckAndProcessIOCompletions_from fuel (<[i := c']> conns) (S i) n'
           end
      else CheckAndProcessIOCompletions_from fuel conns (S i) n'
  end.

Definition CheckAndProcessIOCompletions (fuel : nat) (g : BackEndConfig)
  : option BackEndConfig :=
  match CheckAndProcessIOCompletions_from fuel (BuffConns g) 0 (MaxBuffs g) with
  | None => None
  | Some conns => Some (set_BuffConns conns g)
  end.

End DataPlane.

(** ** Notions used to state the properties *)

(** A slot of the back end, named the way [FindConnId] names it. *)
Definition slot_state (g : BackEndConfig) (isCtrl : bool) (i : nat)
  : option ConnState :=
  if isCtrl then Ctrl_State <$> (CtrlConns g !! i) else State <$> (BuffConns g !! i).

Definition slot_cm_id (g : BackEndConfig) (isCtrl : bool) (i : nat) : option CmIdT :=
  if isCtrl then Ctrl_RemoteCmId <$> (CtrlConns g !! i)
  else RemoteCmId <$> (BuffConns g !! i).

(** Whether the completion-queue passes process the slot. *)
Definition slot_polled (g : BackEndConfig) (isCtrl : bool) (i : nat) : option bool :=
  if isCtrl then ctrl_slot_polled <$> (CtrlConns g !! i)
  else buff_slot_polled <$> (BuffConns g !! i).

(** The slots [FindConnId] searches: every control slot, and the buffer
    slots below [MaxBuffs]. *)
Definition known_slot (g : BackEndConfig) (isCtrl : bool) (i : nat) : Prop :=
  if isCtrl then (i < MaxClients g)%nat /\ (i < length (CtrlConns g))%nat
  else (i < MaxBuffs g)%nat /\ (i < length (BuffConns g))%nat.

(** The arrays have the sizes the loops of [FindConnId] assume. *)
Definition slots_allocated (g : BackEndConfig) : Prop :=
  length (CtrlConns g) = MaxClients g /\ (MaxBuffs g <= length (BuffConns g))%nat.

(** An index into [BuffConns] is sound when it lies within the array and
    is one of those the naming loop of [AllocConns] wrote. *)
Definition entry_ok (g : BackEndConfig) (i : nat) : Prop :=
  (i < length (BuffConns g))%nat /\ i ∈ AllocConns_writes (MaxBuffs g).

(** The ids and opcodes [SetUpForRequests] (lines 642-673) and
    [SetUpForResponses] (lines 790-825) give the work requests. *)
Definition wr_is (id : WrId) (op : WrOpcode) (wr : ibv_send_wr) : Prop :=
  wr_id wr = id /\ opcode wr = op.

Definition work_requests_set_up (c : BuffConnConfig) : Prop :=
  wr_is BUFF_READ_REQUEST_DATA_WR_ID IBV_WR_RDMA_READ (RequestDMAReadDataWr c)
  /\ wr_is BUFF_READ_REQUEST_DATA_SPLIT_WR_ID IBV_WR_RDMA_READ
       (RequestDMAReadDataSplitWr c)
  /\ wr_is BUFF_READ_REQUEST_META_WR_ID IBV_WR_RDMA_READ (RequestDMAReadMetaWr c)
  /\ wr_is BUFF_WRITE_REQUEST_META_WR_ID IBV_WR_RDMA_WRITE (RequestDMAWriteMetaWr c)
  /\ wr_is BUFF_WRITE_RESPONSE_DATA_WR_ID IBV_WR_RDMA_WRITE (ResponseDMAWriteDataWr c)
  /\ wr_is BUFF_WRITE_RESPONSE_DATA_SPLIT_WR_ID IBV_WR_RDMA_WRITE
       (ResponseDMAWriteDataSplitWr c)
  /\ wr_is BUFF_READ_RESPONSE_META_WR_ID IBV_WR_RDMA_READ (ResponseDMAReadMetaWr c)
  /\ wr_is BUFF_WRITE_RESPONSE_META_WR_ID IBV_WR_RDMA_WRITE (ResponseDMAWriteMetaWr c).

(** What the completion of the request-meta read has to do, for the
    fetched words [progress] and [tail] and the local [head]. *)
Definition request_meta_handled (K : Consts) (c : BuffConnConfig) : Prop :=
  let progress := RequestDMAReadMetaBuff c 0 in
  let tail := RequestDMAReadMetaBuff c (DDS_CACHE_LINE_SIZE_BY_INT K) in
  let head := Head (RequestRing c) in
  let base := Request_DataBaseAddr (RequestRing c) in
  let buff := RequestDMAReadDataBuff c in
  let c' := on_READ_REQUEST_META K c in
  (* not ready: the meta read is posted again and nothing else happens *)
  (tail = head \/ tail <> progress ->
     c' = ibv_post_send (RequestDMAReadMetaWr c) c
     /\ SendQueue c' = SendQueue c ++ [RequestDMAReadMetaWr c]
     /\ wr_id (RequestDMAReadMetaWr c) = BUFF_READ_REQUEST_META_WR_ID
     /\ opcode (RequestDMAReadMetaWr c) = IBV_WR_RDMA_READ)
  (* ready, contiguous: one data read, then the head update *)
  /\ (tail <> head -> tail = progress -> progress > head ->
       SendQueue c'
       = SendQueue c
         ++ [ mkWr BUFF_READ_REQUEST_DATA_WR_ID IBV_WR_RDMA_READ
                (u64 (base + head)) (u64 (buff + head)) (progress - head);
              RequestDMAWriteMetaWr c ]
       /\ RequestDMAReadDataSplitState c' = BUFF_READ_DATA_SPLIT_STATE_NOT_SPLIT K
       /\ RequestDMAReadDataSize c' = progress - head
       /\ Head (RequestRing c') = progress
       /\ opcode (RequestDMAWriteMetaWr c) = IBV_WR_RDMA_WRITE)
  (* ready, wrapped: two data reads, then the head update *)
  /\ (tail <> head -> tail = progress -> progress < head ->
       SendQueue c'
       = SendQueue c
         ++ [ mkWr BUFF_READ_REQUEST_DATA_SPLIT_WR_ID IBV_WR_RDMA_READ
                (u64 base) (u64 buff) progress;
              mkWr BUFF_READ_REQUEST_DATA_WR_ID IBV_WR_RDMA_READ
                (u64 (base + head)) (u64 (buff + head))
                (DDS_REQUEST_RING_BYTES K - head);
              RequestDMAWriteMetaWr c ]
       /\ RequestDMAReadDataSplitState c' = BUFF_READ_DATA_SPLIT_STATE_SPLIT K
       /\ RequestDMAReadDataSize c' = DDS_REQUEST_RING_BYTES K - head + progress
       /\ Head (RequestRing c') = progress
       /\ opcode (RequestDMAWriteMetaWr c) = IBV_WR_RDMA_WRITE).

(** Bytes of completed responses not yet published, and the free distance
    from [TailC] to the host's head, as lines 2323 and 2341-2346 compute
    them. *)
Definition response_pending_bytes (K : Consts) (c : BuffConnConfig) : Z :=
  DistanceBetweenPointers (TailB (ResponseRing c)) (TailC (ResponseRing c))
    (BACKEND_RESPONSE_BUFFER_SIZE K).

Definition response_free_distance (K : Consts) (c : BuffConnConfig) (head : Z) : Z :=
  if TailC (ResponseRing c) >=? head
  then head + DDS_RESPONSE_RING_BYTES K - TailC (ResponseRing c)
  else head - TailC (ResponseRing c).

(** What the completion of the response-meta read has to do when completed
    responses are pending. *)
Definition response_meta_handled (K : Consts) (c : BuffConnConfig) : Prop :=
  let progress := ResponseDMAReadMetaBuff c 0 in
  let head := ResponseDMAReadMetaBuff c (DDS_CACHE_LINE_SIZE_BY_INT K) in
  let tailC := TailC (ResponseRing c) in
  let base := Response_DataBaseAddr (ResponseRing c) in
  let buff := ResponseDMAWriteDataBuff c in
  let pending := response_pending_bytes K c in
  let free := response_free_distance K c head in
  let c' := on_READ_RESPONSE_META K c in
  (* host mid-update, or the range is not free: poll again, write nothing *)
  (head <> progress \/ free < pending ->
     c' = ibv_post_send (ResponseDMAReadMetaWr c) c
     /\ SendQueue c' = SendQueue c ++ [ResponseDMAReadMetaWr c]
     /\ wr_id (ResponseDMAReadMetaWr c) = BUFF_READ_RESPONSE_META_WR_ID
     /\ opcode (ResponseDMAReadMetaWr c) = IBV_WR_RDMA_READ
     /\ TailC (ResponseRing c') = tailC)
  (* free, no wrap: one data write, then the tail write *)
  /\ (head = progress -> pending <= free ->
       tailC + pending <= DDS_RESPONSE_RING_BYTES K ->
       SendQueue c'
       = SendQueue c
         ++ [ mkWr BUFF_WRITE_RESPONSE_DATA_WR_ID IBV_WR_RDMA_WRITE
                (u64 (base + tailC)) (u64 (buff + tailC)) pending;
              ResponseDMAWriteMetaWr c ]
       /\ TailC (ResponseRing c') = (tailC + pending) mod DDS_RESPONSE_RING_BYTES K
       /\ opcode (ResponseDMAWriteMetaWr c) = IBV_WR_RDMA_WRITE)
  (* free, wrap: two data writes, then the tail write *)
  /\ (head = progress -> pending <= free ->
       tailC + pending > DDS_RESPONSE_RING_BYTES K ->
       SendQueue c'
       = SendQueue c
         ++ [ mkWr BUFF_WRITE_RESPONSE_DATA_SPLIT_WR_ID IBV_WR_RDMA_WRITE
                (u64 base) (u64 buff)
                (pending - (DDS_RESPONSE_RING_BYTES K - tailC));
              mkWr BUFF_WRITE_RESPONSE_DATA_WR_ID IBV_WR_RDMA_WRITE
                (u64 (base + tailC)) (u64 (buff + tailC))
                (DDS_RESPONSE_RING_BYTES K - tailC);
              ResponseDMAWriteMetaWr c ]
       /\ TailC (ResponseRing c') = (tailC + pending) mod DDS_RESPONSE_RING_BYTES K
       /\ opcode (ResponseDMAWriteMetaWr c) = IBV_WR_RDMA_WRITE).

(** The constants of a build are sizes, and the two names of each ring
    size agree. *)
Definition consts_in_range (K : Consts) : Prop :=
  0 < sizeof_FileIOSizeT K
  /\ 0 <= sizeof_BuffMsgF2BReqHeader K
  /\ 0 < sizeof_BuffMsgB2FAckHeader K
  /\ alignment K < 2 ^ 30
  /\ 0 < BACKEND_REQUEST_BUFFER_SIZE K <= 2 ^ 30
  /\ 0 < BACKEND_RESPONSE_BUFFER_SIZE K <= 2 ^ 30
  /\ DDS_REQUEST_RING_BYTES K = BACKEND_REQUEST_BUFFER_SIZE K
  /\ DDS_RESPONSE_RING_BYTES K = BACKEND_RESPONSE_BUFFER_SIZE K.

(** A framed request record: its size prefix and the header after it. *)
Record RequestRecord := mkRecord {
  rec_size : Z;
  rec_header : BuffMsgF2BReqHeader
}.

(** A record holds at least its prefix and its header. *)
Definition well_framed (K : Consts) (r : RequestRecord) : Prop :=
  sizeof_FileIOSizeT K + sizeof_BuffMsgF2BReqHeader K <= rec_size r.

(** The record the parsing loop finds at its request cursor. *)
Definition record_at (K : Consts) (s : ExecState) : RequestRecord :=
  mkRecord (req_size_at (RequestMem (exec_conn s)) (progressReq s))
    (req_hdr_at (RequestMem (exec_conn s)) (progressReq s + sizeof_FileIOSizeT K)).

(** [records] lie one after the other in the request staging buffer from
    offset [p] on, wrapping at the end of the ring. *)
Fixpoint framed (K : Consts) (m : RequestData) (p : Z)
    (records : list RequestRecord) : Prop :=
  match records with
  | [] => True
  | r :: rest =>
      req_size_at m p = rec_size r
      /\ req_hdr_at m (p + sizeof_FileIOSizeT K) = rec_header r
      /\ framed K m ((p + rec_size r) mod BACKEND_REQUEST_BUFFER_SIZE K) rest
  end.

Definition total_size (records : list RequestRecord) : Z :=
  foldr (fun r acc => rec_size r + acc) 0 records.

(** The response bytes a record calls for. *)
Definition respSize_of (K : Consts) (r : RequestRecord) : Z :=
  if is_write K (rec_size r) then write_respSize K
  else read_respSize K (Req_Bytes (rec_header r)).

Definition response_bytes (K : Consts) (records : list RequestRecord) : Z :=
  foldr (fun r acc => respSize_of K r + acc) 0 records.

(** Bytes of the batch framing header, when the build has one. *)
Definition batch_header_bytes (K : Consts) : Z :=
  if RING_BUFFER_RESPONSE_BATCH_ENABLED K then alignment K else 0.

(** All the bytes an [ExecuteRequests] pass over [records] reserves. *)
Definition reserved_bytes (K : Consts) (records : list RequestRecord) : Z :=
  batch_header_bytes K + response_bytes K records.

(** The offsets of the stubs of a pass that starts reserving at [p]. *)
Fixpoint stub_offsets (K : Consts) (p : Z) (records : list RequestRecord) : list Z :=
  match records with
  | [] => []
  | r :: rest =>
      p :: stub_offsets K
             (ring_advance (BACKEND_RESPONSE_BUFFER_SIZE K) p (respSize_of K r)) rest
  end.

(** What the loop has to leave behind for a record. *)
Definition serves (K : Consts) (s : Served) (r : RequestRecord) : Prop :=
  RequestId (served_stub s) = Req_RequestId (rec_header r)
  /\ Result (served_stub s) = DDS_ERROR_CODE_IO_PENDING K
  /\ served_size s = respSize_of K r
  /\ served_as_read s
     = bool_decide (rec_size r = sizeof_FileIOSizeT K + sizeof_BuffMsgF2BReqHeader K)
  /\ negb (served_as_read s)
     = bool_decide (rec_size r > sizeof_FileIOSizeT K + sizeof_BuffMsgF2BReqHeader K).












(** The back end as [AllocConns] shapes it for the given bounds. *)
Definition shaped (maxClients maxBuffs : nat) (g : BackEndConfig) : Prop :=
  MaxClients g = maxClients /\ MaxBuffs g = maxBuffs
  /\ length (BuffConns g) = maxClients /\ length (CtrlConns g) = maxClients.

End FileBackEnd.

(** ** Concrete tables and connections used to run the embedding *)

Module CacheExamples.

Import CacheTable.

(** Stand-ins for the two hash macros: the key itself, and the key shifted
    right by four bits. *)
Definition hash_id (key : Z) : Z := key.
Definition hash_shift4 (key : Z) : Z := Z.shiftr key 4.

(** Two buckets of one slot: [maxDepth = min (1 << 2) 2 = 2]. *)
Definition two_buckets : Config := mkConfig 1 1 2 32 hash_id hash_shift4.

(** Four buckets of one slot: [maxDepth = min (2 << 2) 4 = 4]. *)
Definition four_buckets : Config := mkConfig 2 1 4 32 hash_id hash_shift4.

(** A run of [AddToCacheTable] calls that all return 0. *)
Fixpoint add_all (cfg : Config) (t : CacheTableT) (items : list CacheItemT)
  : option CacheTableT :=
  match items with
  | [] => Some t
  | item :: items' =>
      match AddToCacheTable cfg t item with
      | AddReturn 0 t' => add_all cfg t' items'
      | _ => None
      end
  end.

(** Both buckets of [two_buckets] taken: key 18 lives in bucket 0 and key
    33 in bucket 1. *)
Definition full_table : CacheTableT :=
  [ mkBucket [18] [mkElement (mkItem 18 100) 18 1] 0;
    mkBucket [33] [mkElement (mkItem 33 200) 33 2] 0 ].

(** Key 16 hashes to buckets 0 and 1, key 32 to buckets 0 and 2, key 5 to
    bucket 1. *)
Definition displaced_then_updated : list CacheItemT :=
  [ mkItem 16 100; mkItem 32 200; mkItem 16 101; mkItem 5 300 ].

(** Four buckets of two slots: [maxDepth = min (2 << 2) 8 = 8]. *)
Definition four_by_two : Config := mkConfig 2 2 8 32 hash_id hash_shift4.

(** Keys 16, 32 and 48 hash to bucket 0 first; the insertion of key 48
    moves key 16 to its second bucket, bucket 1, the first bucket of
    key 5. *)
Definition key_in_second_bucket : CacheTableT :=
  [ mkBucket [48; 32]
      [mkElement (mkItem 48 400) 48 3; mkElement (mkItem 32 200) 32 2] 0;
    mkBucket [1; 5]
      [mkElement (mkItem 16 100) 1 16; mkElement (mkItem 5 300) 5 0] 0;
    zero_bucket four_by_two;
    zero_bucket four_by_two ].

End CacheExamples.

Module BackEndExamples.

Import FileBackEnd.

(** Two clients, two buffers; a buffer connection with CM id 7 has been
    accepted into slot 0. *)
Definition accepted : BackEndConfig :=
  (ProcessCmEvents 0 0 (AllocConns 2 2)
     (mkEvent (RDMA_CM_EVENT_CONNECT_REQUEST BUFF_CONN_PRIV_DATA) 7)).2.

Definition established_7 : rdma_cm_event := mkEvent RDMA_CM_EVENT_ESTABLISHED 7.

(** A build with rings of 4096 bytes, a 4-byte size prefix, a 28-byte
    request header and an 8-byte response header, with response batching
    and file-service batching switched on. *)
Definition K4096 : Consts :=
  mkConsts 4096 4096 4096 4096 8 16 4 28 8 0 1 1 0 true true.

(** A connected buffer slot with its buffers and work requests in place. *)
Definition idle_conn : BuffConnConfig :=
  mkBuffConn 0 7 CONN_STATE_CONNECTED 0
    (replicate 8 (mkContext 0 0 (mkSplittable 0 0 0 0) false))
    (mkRequestRing 0 65536) (mkResponseRing 0 0 0 131072)
    (fun _ => 0) 262144
    (mkRequestData (fun _ => 0) (fun _ => mkReqHeader 0 0 0 0)) 0 1
    (mkWr BUFF_READ_REQUEST_META_WR_ID IBV_WR_RDMA_READ 1024 2048 128)
    (mkWr BUFF_WRITE_REQUEST_META_WR_ID IBV_WR_RDMA_WRITE 1152 2176 4)
    (mkWr BUFF_READ_REQUEST_DATA_WR_ID IBV_WR_RDMA_READ 0 262144 4096)
    (mkWr BUFF_READ_REQUEST_DATA_SPLIT_WR_ID IBV_WR_RDMA_READ 0 262144 4096)
    (fun _ => 0) 524288
    (mkResponseData (fun _ => 0) (fun _ => mkAckHeader 0 0 0)) 1
    (mkWr BUFF_READ_RESPONSE_META_WR_ID IBV_WR_RDMA_READ 3072 4096 128)
    (mkWr BUFF_WRITE_RESPONSE_META_WR_ID IBV_WR_RDMA_WRITE 3200 4224 4)
    (mkWr BUFF_WRITE_RESPONSE_DATA_WR_ID IBV_WR_RDMA_WRITE 0 524288 4096)
    (mkWr BUFF_WRITE_RESPONSE_DATA_SPLIT_WR_ID IBV_WR_RDMA_WRITE 0 524288 4096)
    [].

Definition both_words (v : Z) : Z -> Z := fun _ => v.

Definition with_RequestDMAReadMetaBuff (f : Z -> Z) (c : BuffConnConfig)
  : BuffConnConfig :=
  mkBuffConn (BuffId c) (RemoteCmId c) (State c) (NextRequestContext c)
    (PendingDataPlaneRequests c) (RequestRing c) (ResponseRing c)
    f (RequestDMAReadDataBuff c) (RequestMem c)
    (RequestDMAReadDataSize c) (RequestDMAReadDataSplitState c)
    (RequestDMAReadMetaWr c) (RequestDMAWriteMetaWr c)
    (RequestDMAReadDataWr c) (RequestDMAReadDataSplitWr c)
    (ResponseDMAReadMetaBuff c) (ResponseDMAWriteDataBuff c) (ResponseMem c)
    (ResponseDMAWriteDataSplitState c) (ResponseDMAReadMetaWr c)
    (ResponseDMAWriteMetaWr c) (ResponseDMAWriteDataWr c)
    (ResponseDMAWriteDataSplitWr c) (SendQueue c).

Definition with_ResponseDMAReadMetaBuff (f : Z -> Z) (c : BuffConnConfig)
  : BuffConnConfig :=
  mkBuffConn (BuffId c) (RemoteCmId c) (State c) (NextRequestContext c)
    (PendingDataPlaneRequests c) (RequestRing c) (ResponseRing c)
    (RequestDMAReadMetaBuff c) (RequestDMAReadDataBuff c) (RequestMem c)
    (RequestDMAReadDataSize c) (RequestDMAReadDataSplitState c)
    (RequestDMAReadMetaWr c) (RequestDMAWriteMetaWr c)
    (RequestDMAReadDataWr c) (RequestDMAReadDataSplitWr c)
    f (ResponseDMAWriteDataBuff c) (ResponseMem c)
    (ResponseDMAWriteDataSplitState c) (ResponseDMAReadMetaWr c)
    (ResponseDMAWriteMetaWr c) (ResponseDMAWriteDataWr c)
    (ResponseDMAWriteDataSplitWr c) (SendQueue c).

(** The host wrote a 48-byte record at offset 4080 of its request ring and
    published tail and progress 32; the local head is still 4080. *)
Definition request_wrapped : BuffConnConfig :=
  with_RequestDMAReadMetaBuff (both_words 32) (set_Head 4080 idle_conn).

(** 120 bytes of completed responses wait at offset 4032 of the response
    ring; the host has consumed everything up to there. *)
Definition responses_wrapped : BuffConnConfig :=
  with_ResponseDMAReadMetaBuff (both_words 4032)
    (set_TailA 56 (set_TailB 56 (set_TailC 4032 idle_conn))).

Definition with_RequestMem (m : RequestData) (c : BuffConnConfig) : BuffConnConfig :=
  mkBuffConn (BuffId c) (RemoteCmId c) (State c) (NextRequestContext c)
    (PendingDataPlaneRequests c) (RequestRing c) (ResponseRing c)
    (RequestDMAReadMetaBuff c) (RequestDMAReadDataBuff c) m
    (RequestDMAReadDataSize c) (RequestDMAReadDataSplitState c)
    (RequestDMAReadMetaWr c) (RequestDMAWriteMetaWr c)
    (RequestDMAReadDataWr c) (RequestDMAReadDataSplitWr c)
    (ResponseDMAReadMetaBuff c) (ResponseDMAWriteDataBuff c) (ResponseMem c)
    (ResponseDMAWriteDataSplitState c) (ResponseDMAReadMetaWr c)
    (ResponseDMAWriteMetaWr c) (ResponseDMAWriteDataWr c)
    (ResponseDMAWriteDataSplitWr c) (SendQueue c).

(** A request staging buffer that holds the given records at the given
    offsets. *)
Fixpoint request_data (K : Consts) (placed : list (Z * RequestRecord)) : RequestData :=
  match placed with
  | [] => mkRequestData (fun _ => 0) (fun _ => mkReqHeader 0 0 0 0)
  | (p, r) :: rest =>
      let m := request_data K rest in
      mkRequestData
        (fun q => if q =? p then rec_size r else req_size_at m q)
        (fun q => if q =? p + sizeof_FileIOSizeT K then rec_header r
                  else req_hdr_at m q)
  end.

(** A write of 16 bytes (request 7) and a read of 8 bytes (request 8). *)
Definition write_16 : RequestRecord := mkRecord 48 (mkReqHeader 7 42 0 16).
Definition read_8 : RequestRecord := mkRecord 32 (mkReqHeader 8 42 0 8).

(** The two records were read into offsets 0 and 48 of the request staging
    buffer; the head stands behind them at 80. *)
Definition two_requests : BuffConnConfig :=
  set_RequestDMAReadDataSize 80
    (set_Head 80
       (with_RequestMem (request_data K4096 [(0, write_16); (48, read_8)]) idle_conn)).

(** The connection after the pass over them, and after the file service
    has completed both (result 0). *)
Definition two_reserved : BuffConnConfig :=
  match ExecuteRequests K4096 2 two_requests with
  | Some e => conn e
  | None => two_requests
  end.

Definition complete_at (p : Z) (c : BuffConnConfig) : BuffConnConfig :=
  let cell := p + sizeof_FileIOSizeT K4096 in
  set_ResponseMem
    (store_resp_hdr cell
       (mkAckHeader (RequestId (resp_hdr_at (ResponseMem c) cell)) 0 0)
       (ResponseMem c)) c.

Definition two_completed : BuffConnConfig := complete_at 24 (complete_at 12 two_reserved).

Definition two_swept : BuffConnConfig :=
  match CheckAndProcessIOCompletions_conn K4096 3 two_completed with
  | Some c => c
  | None => two_completed
  end.



(** Every buffer slot taken. *)
Definition all_occupied (maxClients maxBuffs : nat) : BackEndConfig :=
  set_BuffConns
    (set_State CONN_STATE_OCCUPIED <$> BuffConns (AllocConns maxClients maxBuffs))
    (AllocConns maxClients maxBuffs).

End BackEndExamples.

(** ** Further notions, models and examples, for the properties of Part III *)

Module CacheNotions.
Import CacheTable.

(** ** Notions used to state the properties of the cache table *)

Section Notions.
Variable cfg : Config.

(** The table has at least one bucket and a bucket at least one slot. *)
Definition config_sound : Prop :=
  0 <= CACHE_TABLE_BUCKET_COUNT_POWER cfg /\ (0 < BUCKET_SIZE cfg)%nat.

(** A bucket has its [CACHE_TABLE_BUCKET_SIZE] stamps and elements, and
    the table its [CACHE_TABLE_BUCKET_COUNT] buckets. *)
Definition bucket_shaped (b : CacheBucketT) : Prop :=
  length (HashValues b) = BUCKET_SIZE cfg /\ length (Elements b) = BUCKET_SIZE cfg.

Definition table_shaped (t : CacheTableT) : Prop :=
  length t = Z.to_nat (CACHE_TABLE_BUCKET_COUNT cfg) /\ Forall bucket_shaped t.

(** Every slot with a non-zero stamp holds an element whose [Hash1]
    selects the bucket the slot is in. *)
Definition homed (t : CacheTableT) : Prop :=
  forall pos e, (pos < length t)%nat -> (e < BUCKET_SIZE cfg)%nat ->
    get_HashValue t pos e <> 0 ->
    bucketPos cfg (Hash1 (get_Element t pos e)) = pos.

(** Key 0 with a hash of 0: what a free slot looks like to a search. *)
Definition phantom (key : Z) : Prop :=
  key = 0
  /\ (HASH_FUNCTION1 cfg key = 0
      \/ second_hash cfg key (HASH_FUNCTION1 cfg key) = 0).

(** The searches of both buckets of [key] find nothing. *)
Definition absent (t : CacheTableT) (key : Z) : Prop :=
  let hash1 := HASH_FUNCTION1 cfg key in
  let hash2 := second_hash cfg key hash1 in
  find_slot t (bucketPos cfg hash1) hash1 key 0 (BUCKET_SIZE cfg) = None
  /\ find_slot t (bucketPos cfg hash2) hash2 key 0 (BUCKET_SIZE cfg) = None.

(** A slot write as the three operations make it: the flag of the bucket
    is set to [before], the element and its stamp are stored, the flag is
    set to [after]. *)
Definition store_slot (pos e : nat) (x : CacheElementT) (h before after : Z)
    (t : CacheTableT) : CacheTableT :=
  set_Occ pos after (set_HashValue pos e h (set_Element pos e x (set_Occ pos before t))).

(** The slot [(pos, e)] matches a search for [key] under the stamp [h]. *)
Definition slot_matches (t : CacheTableT) (pos : nat) (h key : Z) (e : nat) : Prop :=
  get_HashValue t pos e = h /\ Key (Item (get_Element t pos e)) = key.

End Notions.
End CacheNotions.

Module CacheExamples2.
Import CacheTable CacheExamples.
(** A first hash that keeps the low four bits of the key: key 16 hashes
    to 0. *)
Definition hash_low4 (key : Z) : Z := Z.land key 15.
Definition low4_buckets : Config := mkConfig 2 2 8 32 hash_low4 hash_shift4.
End CacheExamples2.

Module ConnectionNotions.
Import FileBackEnd.

(** The private data of a connect request for a control connection or for
    a buffer connection. *)
Definition priv_data (isCtrl : bool) : ConnKind :=
  if isCtrl then CTRL_CONN_PRIV_DATA else BUFF_CONN_PRIV_DATA.

Definition connect_request (isCtrl : bool) (cm : CmIdT) : rdma_cm_event :=
  mkEvent (RDMA_CM_EVENT_CONNECT_REQUEST (priv_data isCtrl)) cm.

Definition established (cm : CmIdT) : rdma_cm_event :=
  mkEvent RDMA_CM_EVENT_ESTABLISHED cm.

Definition disconnected (cm : CmIdT) : rdma_cm_event :=
  mkEvent RDMA_CM_EVENT_DISCONNECTED cm.

(** Both arrays have the [MaxClients] entries [AllocConns] gives them. *)
Definition arrays_allocated (g : BackEndConfig) : Prop :=
  length (CtrlConns g) = MaxClients g /\ length (BuffConns g) = MaxClients g.

(** The slot the search of a connect request stops at: the lowest index
    below [MaxClients] whose state is AVAILABLE. *)
Definition lowest_available (g : BackEndConfig) (isCtrl : bool) (i : nat) : Prop :=
  (i < MaxClients g)%nat
  /\ slot_state g isCtrl i = Some CONN_STATE_AVAILABLE
  /\ forall k, (k < i)%nat -> slot_state g isCtrl k <> Some CONN_STATE_AVAILABLE.

Definition none_available (g : BackEndConfig) (isCtrl : bool) : Prop :=
  forall k, (k < MaxClients g)%nat ->
            slot_state g isCtrl k <> Some CONN_STATE_AVAILABLE.

(** No slot that [FindConnId] searches holds the id. *)
Definition fresh_id (g : BackEndConfig) (cm : CmIdT) : Prop :=
  forall b k, known_slot g b k -> slot_cm_id g b k <> Some cm.

(** [State = s] written into the slot [FindConnId] names [(isCtrl, i)]. *)
Definition set_slot_state (isCtrl : bool) (i : nat) (s : ConnState)
    (g : BackEndConfig) : BackEndConfig :=
  if isCtrl
  then set_CtrlConns (<[i := set_Ctrl_State s (CtrlConns g !!! i)]> (CtrlConns g)) g
  else set_BuffConns (<[i := set_State s (BuffConns g !!! i)]> (BuffConns g)) g.

(** [g'] has the bounds and array sizes of [g], and every slot other than
    [(isCtrl, i)] has in [g'] the state and the CM id it has in [g]. *)
Definition same_but (g g' : BackEndConfig) (isCtrl : bool) (i : nat) : Prop :=
  MaxClients g' = MaxClients g /\ MaxBuffs g' = MaxBuffs g
  /\ length (CtrlConns g') = length (CtrlConns g)
  /\ length (BuffConns g') = length (BuffConns g)
  /\ forall b k, (b, k) <> (isCtrl, i) ->
        slot_state g' b k = slot_state g b k /\ slot_cm_id g' b k = slot_cm_id g b k.

End ConnectionNotions.

Module ConnectionSetup.

(** ** Setting up and tearing down a connection slot (lines 224-932 and the
    connect-request branches of [ProcessCmEvents]) *)

(** What a slot obtains from the verbs library, the CM library and the
    heap, named after the field of the slot that holds it. *)
Inductive Resource :=
| R_PDomain                     (* ibv_alloc_pd / ibv_dealloc_pd *)
| R_Channel                     (* ibv_create_comp_channel / ibv_destroy_comp_channel *)
| R_CompQ                       (* ibv_create_cq / ibv_destroy_cq *)
| R_QPair                       (* rdma_create_qp / rdma_destroy_qp *)
| R_RecvMr                      (* ibv_reg_mr / ibv_dereg_mr *)
| R_SendMr
| R_RequestDMAReadDataBuff      (* malloc / free *)
| R_RequestDMAReadDataMr
| R_RequestDMAReadMetaMr
| R_RequestDMAWriteMetaMr
| R_ResponseDMAWriteDataBuff    (* malloc / free *)
| R_ResponseDMAWriteDataMr
| R_ResponseDMAReadMetaMr
| R_ResponseDMAWriteMetaMr.

#[global] Instance Resource_eq_dec : EqDecision Resource.
Proof. solve_decision. Defined.

(** A library call that succeeded in creating a resource, or a call that
    gives one back.  A creating call that fails leaves no trace. *)
Inductive LibCall :=
| Acquire (r : Resource)
| Release (r : Resource).

(** How the libraries answer during one set-up: which creating calls
    succeed, and the return values of [ibv_req_notify_cq],
    [ibv_post_recv] and [rdma_accept]. *)
Record Library := mkLibrary {
  creates : Resource -> bool;
  ret_ibv_req_notify_cq : Z;
  ret_ibv_post_recv : Z;
  ret_rdma_accept : Z
}.

Section SetUp.

Variable L : Library.

(** [SetUpCtrlQPair], lines 224-296; the labels [DestroyCompQReturn],
    [DestroyCommChannelReturn], [DeallocPdReturn] fall through. *)
Definition SetUpCtrlQPair : Z * list LibCall :=
  if negb (creates L R_PDomain) then (-1, [])
  else if negb (creates L R_Channel)
  then (-1, [Acquire R_PDomain; Release R_PDomain])
  else if negb (creates L R_CompQ)
  then (-1, [Acquire R_PDomain; Acquire R_Channel;
             Release R_Channel; Release R_PDomain])
  else if negb (ret_ibv_req_notify_cq L =? 0)
  then (ret_ibv_req_notify_cq L,
        [Acquire R_PDomain; Acquire R_Channel; Acquire R_CompQ;
         Release R_CompQ; Release R_Channel; Release R_PDomain])
  else if negb (creates L R_QPair)
  then (-1, [Acquire R_PDomain; Acquire R_Channel; Acquire R_CompQ;
             Release R_CompQ; Release R_Channel; Release R_PDomain])
  else (0, [Acquire R_PDomain; Acquire R_Channel; Acquire R_CompQ; Acquire R_QPair]).

(** [DestroyCtrlQPair], lines 302-310. *)
Definition DestroyCtrlQPair : list LibCall :=
  [Release R_QPair; Release R_CompQ; Release R_Channel; Release R_PDomain].

(** [SetUpCtrlRegionsAndBuffers], lines 316-372. *)
Definition SetUpCtrlRegionsAndBuffers : Z * list LibCall :=
  if negb (creates L R_RecvMr) then (-1, [])
  else if negb (creates L R_SendMr) then (-1, [Acquire R_RecvMr; Release R_RecvMr])
  else (0, [Acquire R_RecvMr; Acquire R_SendMr]).

(** [DestroyCtrlRegionsAndBuffers], lines 378-388. *)
Definition DestroyCtrlRegionsAndBuffers : list LibCall :=
  [Release R_SendMr; Release R_RecvMr].

(** [SetUpBuffQPair], lines 394-466, and [DestroyBuffQPair], lines
    472-480: the text of the control versions with the buffer depths. *)
Definition SetUpBuffQPair : Z * list LibCall :=
  if negb (creates L R_PDomain) then (-1, [])
  else if negb (creates L R_Channel)
  then (-1, [Acquire R_PDomain; Release R_PDomain])
  else if negb (creates L R_CompQ)
  then (-1, [Acquire R_PDomain; Acquire R_Channel;
             Release R_Channel; Release R_PDomain])
  else if negb (ret_ibv_req_notify_cq L =? 0)
  then (ret_ibv_req_notify_cq L,
        [Acquire R_PDomain; Acquire R_Channel; Acquire R_CompQ;
         Release R_CompQ; Release R_Channel; Release R_PDomain])
  else if negb (creates L R_QPair)
  then (-1, [Acquire R_PDomain; Acquire R_Channel; Acquire R_CompQ;
             Release R_CompQ; Release R_Channel; Release R_PDomain])
  else (0, [Acquire R_PDomain; Acquire R_Channel; Acquire R_CompQ; Acquire R_QPair]).

Definition DestroyBuffQPair : list LibCall :=
  [Release R_QPair; Release R_CompQ; Release R_Channel; Release R_PDomain].

(** [SetUpForCtrlMsgs], lines 486-551, and [DestroyForCtrlMsgs], lines
    557-567. *)
Definition SetUpForCtrlMsgs : Z * list LibCall :=
  if negb (creates L R_RecvMr) then (-1, [])
  else if negb (creates L R_SendMr) then (-1, [Acquire R_RecvMr; Release R_RecvMr])
  else (0, [Acquire R_RecvMr; Acquire R_SendMr]).

Definition DestroyForCtrlMsgs : list LibCall :=
  [Release R_SendMr; Release R_RecvMr].

(** [SetUpForRequests], lines 573-688. *)
Definition SetUpForRequests : Z * list LibCall :=
  if negb (creates L R_RequestDMAReadDataBuff) then (-1, [])
  else if negb (creates L R_RequestDMAReadDataMr)
  then (-1, [Acquire R_RequestDMAReadDataBuff; Release R_RequestDMAReadDataBuff])
  else if negb (creates L R_RequestDMAReadMetaMr)
  then (-1, [Acquire R_RequestDMAReadDataBuff; Acquire R_RequestDMAReadDataMr;
             Release R_RequestDMAReadDataMr; Release R_RequestDMAReadDataBuff])
  else if negb (creates L R_RequestDMAWriteMetaMr)
  then (-1, [Acquire R_RequestDMAReadDataBuff; Acquire R_RequestDMAReadDataMr;
             Acquire R_RequestDMAReadMetaMr;
             Release R_RequestDMAReadMetaMr; Release R_RequestDMAReadDataMr;
             Release R_RequestDMAReadDataBuff])
  else (0, [Acquire R_RequestDMAReadDataBuff; Acquire R_RequestDMAReadDataMr;
            Acquire R_RequestDMAReadMetaMr; Acquire R_RequestDMAWriteMetaMr]).

(** [DestroyForRequests], lines 694-715: the buffer is freed first. *)
Definition DestroyForRequests : list LibCall :=
  [Release R_RequestDMAReadDataBuff; Release R_RequestDMAWriteMetaMr;
   Release R_RequestDMAReadMetaMr; Release R_RequestDMAReadDataMr].

(** [SetUpForResponses], lines 721-840. *)
Definition SetUpForResponses : Z * list LibCall :=
  if negb (creates L R_ResponseDMAWriteDataBuff) then (-1, [])
  else if negb (creates L R_ResponseDMAWriteDataMr)
  then (-1, [Acquire R_ResponseDMAWriteDataBuff; Release R_ResponseDMAWriteDataBuff])
  else if negb (creates L R_ResponseDMAReadMetaMr)
  then (-1, [Acquire R_ResponseDMAWriteDataBuff; Acquire R_ResponseDMAWriteDataMr;
             Release R_ResponseDMAWriteDataMr; Release R_ResponseDMAWriteDataBuff])
  else if negb (creates L R_ResponseDMAWriteMetaMr)
  then (-1, [Acquire R_ResponseDMAWriteDataBuff; Acquire R_ResponseDMAWriteDataMr;
             Acquire R_ResponseDMAReadMetaMr;
             Release R_ResponseDMAReadMetaMr; Release R_ResponseDMAWriteDataMr;
             Release R_ResponseDMAWriteDataBuff])
  else (0, [Acquire R_ResponseDMAWriteDataBuff; Acquire R_ResponseDMAWriteDataMr;
            Acquire R_ResponseDMAReadMetaMr; Acquire R_ResponseDMAWriteMetaMr]).

(** [DestroyForResponses], lines 846-867. *)
Definition DestroyForResponses : list LibCall :=
  [Release R_ResponseDMAWriteDataBuff; Release R_ResponseDMAWriteMetaMr;
   Release R_ResponseDMAReadMetaMr; Release R_ResponseDMAWriteDataMr].

(** [SetUpBuffRegionsAndBuffers], lines 873-919. *)
Definition SetUpBuffRegionsAndBuffers : Z * list LibCall :=
  let '(ret, ctrl) := SetUpForCtrlMsgs in
  if negb (ret =? 0) then (ret, ctrl)
  else
    let '(ret, req) := SetUpForRequests in
    if negb (ret =? 0) then (ret, ctrl ++ req ++ DestroyForCtrlMsgs)
    else
      let '(ret, resp) := SetUpForResponses in
      if negb (ret =? 0)
      then (ret, ctrl ++ req ++ resp ++ DestroyForRequests ++ DestroyForCtrlMsgs)
      else (0, ctrl ++ req ++ resp).

(** [DestroyBuffRegionsAndBuffers], lines 925-932. *)
Definition DestroyBuffRegionsAndBuffers : list LibCall :=
  DestroyForCtrlMsgs ++ DestroyForRequests ++ DestroyForResponses.

(** The branch [if (ctrlConn)] of a control connect request, lines
    1013-1071: the return value, the calls made, and whether the slot was
    marked [CONN_STATE_OCCUPIED]. *)
Definition accept_ctrl : Z * list LibCall * bool :=
  let '(ret, qp) := SetUpCtrlQPair in
  if negb (ret =? 0) then (ret, qp, false)
  else
    let '(ret, regions) := SetUpCtrlRegionsAndBuffers in
    if negb (ret =? 0) then (ret, qp ++ regions ++ DestroyCtrlQPair, false)
    else if negb (ret_ibv_post_recv L =? 0)
    then (ret_ibv_post_recv L,
          qp ++ regions ++ DestroyCtrlRegionsAndBuffers ++ DestroyCtrlQPair, false)
    else if negb (ret_rdma_accept L =? 0)
    then (ret_rdma_accept L,
          qp ++ regions ++ DestroyCtrlRegionsAndBuffers ++ DestroyCtrlQPair, false)
    else (0, qp ++ regions, true).

(** The branch [if (buffConn)] of a buffer connect request, lines
    1093-1151. *)
Definition accept_buff : Z * list LibCall * bool :=
  let '(ret, qp) := SetUpBuffQPair in
  if negb (ret =? 0) then (ret, qp, false)
  else
    let '(ret, regions) := SetUpBuffRegionsAndBuffers in
    if negb (ret =? 0) then (ret, qp ++ regions ++ DestroyBuffQPair, false)
    else if negb (ret_ibv_post_recv L =? 0)
    then (ret_ibv_post_recv L,
          qp ++ regions ++ DestroyBuffRegionsAndBuffers ++ DestroyBuffQPair, false)
    else if negb (ret_rdma_accept L =? 0)
    then (ret_rdma_accept L,
          qp ++ regions ++ DestroyBuffRegionsAndBuffers ++ DestroyBuffQPair, false)
    else (0, qp ++ regions, true).

End SetUp.

(** What [RDMA_CM_EVENT_DISCONNECTED] (lines 1217-1233),
    [CTRL_MSG_F2B_TERMINATE] (lines 1321-1324) and [BUFF_MSG_F2B_RELEASE]
    (lines 1819-1822) call on a slot that is not AVAILABLE. *)
Definition release_ctrl : list LibCall :=
  DestroyCtrlRegionsAndBuffers ++ DestroyCtrlQPair.

Definition release_buff : list LibCall :=
  DestroyBuffRegionsAndBuffers ++ DestroyBuffQPair.

(** ** Notions used to state the properties *)

Definition holds (r : Resource) (live : list Resource) : bool :=
  existsb (fun x => bool_decide (x = r)) live.

(** The resources live after a sequence of calls; [None] when a resource
    is created twice or given back while it is not live. *)
Fixpoint live_after (calls : list LibCall) (live : list Resource)
  : option (list Resource) :=
  match calls with
  | [] => Some live
  | Acquire r :: rest =>
      if holds r live then None else live_after rest (live ++ [r])
  | Release r :: rest =>
      if holds r live
      then live_after rest (List.filter (fun x => negb (bool_decide (x = r))) live)
      else None
  end.

Definition ctrl_resources : list Resource :=
  [R_PDomain; R_Channel; R_CompQ; R_QPair; R_RecvMr; R_SendMr].

Definition buff_resources : list Resource :=
  ctrl_resources
  ++ [R_RequestDMAReadDataBuff; R_RequestDMAReadDataMr; R_RequestDMAReadMetaMr;
      R_RequestDMAWriteMetaMr;
      R_ResponseDMAWriteDataBuff; R_ResponseDMAWriteDataMr;
      R_ResponseDMAReadMetaMr; R_ResponseDMAWriteMetaMr].

(** Every call of the set-up of a control (buffer) connection succeeds. *)
Definition ctrl_calls_succeed (L : Library) : bool :=
  forallb (creates L) ctrl_resources
  && (ret_ibv_req_notify_cq L =? 0) && (ret_ibv_post_recv L =? 0)
  && (ret_rdma_accept L =? 0).

Definition buff_calls_succeed (L : Library) : bool :=
  forallb (creates L) buff_resources
  && (ret_ibv_req_notify_cq L =? 0) && (ret_ibv_post_recv L =? 0)
  && (ret_rdma_accept L =? 0).

(** Libraries that fail nowhere, and that fail to register the memory of
    the response meta words. *)
Definition obliging : Library := mkLibrary (fun _ => true) 0 0 0.

Definition no_response_meta : Library :=
  mkLibrary (fun r => negb (bool_decide (r = R_ResponseDMAReadMetaMr))) 0 0 0.

(** The two kinds of connection side by side. *)
Definition accept (isCtrl : bool) (L : Library) : Z * list LibCall * bool :=
  if isCtrl then accept_ctrl L else accept_buff L.

Definition calls_succeed (isCtrl : bool) (L : Library) : bool :=
  if isCtrl then ctrl_calls_succeed L else buff_calls_succeed L.

Definition resources (isCtrl : bool) : list Resource :=
  if isCtrl then ctrl_resources else buff_resources.

Definition release (isCtrl : bool) : list LibCall :=
  if isCtrl then release_ctrl else release_buff.

End ConnectionSetup.

Module BackEndExamples2.
Import FileBackEnd BackEndExamples.

(** A record whose size prefix is zero. *)
Definition empty_record : RequestRecord := mkRecord 0 (mkReqHeader 0 0 0 0).

(** 80 bytes were received: the write of 16 bytes at offset 0, and at
    offset 48 a size prefix of zero. *)
Definition zero_after_write : BuffConnConfig :=
  set_RequestDMAReadDataSize 80
    (set_Head 80
       (with_RequestMem (request_data K4096 [(0, write_16); (48, empty_record)])
          idle_conn)).

End BackEndExamples2.

Module DataPlaneNotions.
Import FileBackEnd BackEndExamples.

(** The staging buffers are a whole number of alignment units long, and a
    read asks for bytes that fit one. *)
Definition rings_aligned (K : Consts) : Prop :=
  BACKEND_RESPONSE_BUFFER_SIZE K mod alignment K = 0.

Definition read_fits (K : Consts) (r : RequestRecord) : Prop :=
  0 <= Req_Bytes (rec_header r)
  /\ alignment K + Req_Bytes (rec_header r) + alignment K
     <= BACKEND_RESPONSE_BUFFER_SIZE K.

(** A build like [K4096] whose response header has 12 bytes, so that the
    alignment is 16 and divides the ring size. *)
Definition K4096_aligned : Consts :=
  mkConsts 4096 4096 4096 4096 8 16 4 28 12 0 1 1 0 true true.

End DataPlaneNotions.

Module ContextNotions.
Import FileBackEnd BackEndExamples.

(** The slot of [PendingDataPlaneRequests] the [k]-th request of a pass
    takes, when the pass starts at slot [first]. *)
Definition context_slot (K : Consts) (first : Z) (k : nat) : Z :=
  (first + Z.of_nat k) mod DDS_MAX_OUTSTANDING_IO K.

Definition context_at (c : BuffConnConfig) (slot : Z) : DataPlaneRequestContext :=
  PendingDataPlaneRequests c !!! Z.to_nat slot.

(** The offsets of the records of a pass in the request staging buffer. *)
Fixpoint request_offsets (K : Consts) (p : Z) (records : list RequestRecord) : list Z :=
  match records with
  | [] => []
  | r :: rest =>
      p :: request_offsets K ((p + rec_size r) mod BACKEND_REQUEST_BUFFER_SIZE K) rest
  end.

(** A context names a request: it points to the header of the record at
    offset [at_req] and to the stub stored for it, asks for the bytes of
    the header, and (in the build that batches) says whether it is a
    read. *)
Definition context_names (K : Consts) (c : BuffConnConfig)
    (ctxt : DataPlaneRequestContext) (at_req : Z) (s : Served) (r : RequestRecord)
  : Prop :=
  Request ctxt = RequestDMAReadDataBuff c + (at_req + sizeof_FileIOSizeT K)
  /\ Response ctxt = ResponseDMAWriteDataBuff c + (served_at s + sizeof_FileIOSizeT K)
  /\ TotalSize (DataBuffer ctxt) = Req_Bytes (rec_header r)
  /\ (OPT_FILE_SERVICE_BATCHING K = true -> IsRead ctxt = served_as_read s).

(** What a pass over [records] hands to the file service: one batch that
    starts at the first slot and counts the records, or one call per
    record with its slot and its context. *)
Definition submitted (K : Consts) (c : BuffConnConfig) (e : Executed)
    (records : list RequestRecord) : Prop :=
  let first := NextRequestContext c in
  if OPT_FILE_SERVICE_BATCHING K
  then fs_calls e
       = [SubmitDataPlaneRequestBatch first (Z.of_nat (length records)) 0]
  else length (fs_calls e) = length records
       /\ forall k stub, stubs e !! k = Some stub ->
            fs_calls e !! k
            = Some (SubmitDataPlaneRequest
                      (context_at (conn e) (context_slot K first k))
                      (served_as_read stub) (context_slot K first k)).

(** The outcome of a pass over [records] as far as the contexts go. *)
Definition contexts_filled (K : Consts) (c : BuffConnConfig)
    (records : list RequestRecord) : Prop :=
  exists e,
    ExecuteRequests K (length records) c = Some e
    /\ NextRequestContext (conn e)
       = context_slot K (NextRequestContext c) (length records)
    /\ submitted K c e records
    /\ (forall k stub r q,
          stubs e !! k = Some stub -> records !! k = Some r ->
          request_offsets K (exec_headReq K c) records !! k = Some q ->
          context_names K c
            (context_at (conn e) (context_slot K (NextRequestContext c) k)) q stub r)
    /\ (forall slot, 0 <= slot ->
          (forall k, (k < length records)%nat ->
                     slot <> context_slot K (NextRequestContext c) k) ->
          context_at (conn e) slot = context_at c slot).

End ContextNotions.

Module BufferNotions.
Import FileBackEnd BackEndExamples ContextNotions.






End BufferNotions.

Module CompletionNotions.
Import FileBackEnd BackEndExamples.

(** The completion of one of the two data reads of a request batch. *)
Definition data_read (id : WrId) : Prop :=
  id = BUFF_READ_REQUEST_DATA_WR_ID \/ id = BUFF_READ_REQUEST_DATA_SPLIT_WR_ID.

(** The request-meta words say that requests wait and that they wrap at
    the end of the ring. *)
Definition requests_wrap (K : Consts) (c : BuffConnConfig) : Prop :=
  let progress := RequestDMAReadMetaBuff c 0 in
  let tail := RequestDMAReadMetaBuff c (DDS_CACHE_LINE_SIZE_BY_INT K) in
  tail <> Head (RequestRing c) /\ tail = progress /\ progress < Head (RequestRing c).

(** A completion that only counts: nothing is parsed, nothing is posted,
    the split state goes up by one. *)
Definition only_counted (c : BuffConnConfig) (e : option Executed) : Prop :=
  e = Some (mkExecuted Returns
              (set_RequestDMAReadDataSplitState (RequestDMAReadDataSplitState c + 1) c)
              [] []).

(** What the two completions that follow a wrapped request-meta
    completion do, whichever of the two reads completes first. *)
Definition parsed_after_both_halves (K : Consts) (fuel : nat) (c : BuffConnConfig)
  : Prop :=
  let c1 := on_READ_REQUEST_META K c in
  forall id1 id2, data_read id1 -> data_read id2 ->
  exists c2,
    only_counted c1 (on_RDMA_READ K fuel id1 c1)
    /\ c2 = set_RequestDMAReadDataSplitState
              (BUFF_READ_DATA_SPLIT_STATE_SPLIT K + 1) c1
    /\ (BUFF_READ_DATA_SPLIT_STATE_SPLIT K + 1 = BUFF_READ_DATA_SPLIT_STATE_NOT_SPLIT K
        -> on_RDMA_READ K fuel id2 c2 = ExecuteRequests K fuel c2)
    /\ (BUFF_READ_DATA_SPLIT_STATE_SPLIT K + 1 <> BUFF_READ_DATA_SPLIT_STATE_NOT_SPLIT K
        -> only_counted c2 (on_RDMA_READ K fuel id2 c2)).

(** [c'] is [c] but for [TailB], the response staging buffer and the
    send queue. *)
Definition sweep_touches (c c' : BuffConnConfig) : Prop :=
  c' = set_SendQueue (SendQueue c')
         (set_ResponseMem (ResponseMem c')
            (set_ResponseRing
               (mkResponseRing (TailA (ResponseRing c)) (TailB (ResponseRing c'))
                  (TailC (ResponseRing c)) (Response_DataBaseAddr (ResponseRing c)))
               c)).

(** What a pass of [CheckAndProcessIOCompletions] may do to a slot. *)
Definition swept_slot (K : Consts) (c c' : BuffConnConfig) : Prop :=
  sweep_touches c c'
  /\ (SendQueue c' = SendQueue c
      \/ SendQueue c' = SendQueue c ++ [ResponseDMAReadMetaWr c])
  /\ (RING_BUFFER_RESPONSE_BATCH_ENABLED K = true -> ResponseMem c' = ResponseMem c).

Definition sweep_framed (K : Consts) (g g' : BackEndConfig) : Prop :=
  MaxClients g' = MaxClients g /\ MaxBuffs g' = MaxBuffs g
  /\ CtrlConns g' = CtrlConns g
  /\ length (BuffConns g') = length (BuffConns g)
  /\ forall i c, BuffConns g !! i = Some c ->
       exists c', BuffConns g' !! i = Some c'
         /\ swept_slot K c c'
         /\ (State c <> CONN_STATE_CONNECTED \/ (MaxBuffs g <= i)%nat -> c' = c).

(** The back end with the buffer connection [two_completed] in slot 0
    and slot 1 free. *)
Definition one_connected : BackEndConfig :=
  set_BuffConns (<[0%nat := two_completed]> (BuffConns (AllocConns 2 2)))
    (AllocConns 2 2).

End CompletionNotions.

Module SweepNotions.
Import FileBackEnd BackEndExamples.

(** What the sweep of the build without response batching may have done
    to the response at [p]: nothing, or, when its result was IO_PENDING,
    the stores of lines 2648-2649. *)
Definition kept_or_forced (K : Consts) (m m' : ResponseData) (p : Z) : Prop :=
  resp_hdr_at m' p = resp_hdr_at m p
  \/ (Result (resp_hdr_at m p) = DDS_ERROR_CODE_IO_PENDING K
      /\ resp_hdr_at m' p
         = mkAckHeader (RequestId (resp_hdr_at m p)) (DDS_ERROR_CODE_SUCCESS K) 4).

(** The outcome of a sweep of that build. *)
Definition swept_to_TailA (K : Consts) (c c' : BuffConnConfig) : Prop :=
  TailB (ResponseRing c') = TailA (ResponseRing c)
  /\ (forall p, resp_size_at (ResponseMem c') p = resp_size_at (ResponseMem c) p)
  /\ (forall p, kept_or_forced K (ResponseMem c) (ResponseMem c') p)
  /\ (TailB (ResponseRing c) <> TailA (ResponseRing c) ->
      let first := TailB (ResponseRing c) + sizeof_FileIOSizeT K in
      Result (resp_hdr_at (ResponseMem c) first) = DDS_ERROR_CODE_IO_PENDING K ->
      resp_hdr_at (ResponseMem c') first
      = mkAckHeader (RequestId (resp_hdr_at (ResponseMem c) first))
          (DDS_ERROR_CODE_SUCCESS K) 4).

(** [K4096] without response batching and without file-service
    batching, and the pass over [two_requests] in that build: two stubs
    with the result IO_PENDING. *)
Definition K4096_unbatched : Consts :=
  mkConsts 4096 4096 4096 4096 8 16 4 28 8 0 1 1 0 false false.

Definition two_pending : BuffConnConfig :=
  match ExecuteRequests K4096_unbatched 2 two_requests with
  | Some e => conn e
  | None => two_requests
  end.

End SweepNotions.

Module MetaNotions.
Import FileBackEnd BackEndExamples.

(** The request-meta words say that requests wait, and the host is not in
    the middle of writing them. *)
Definition requests_ready (K : Consts) (c : BuffConnConfig) : Prop :=
  let progress := RequestDMAReadMetaBuff c 0 in
  let tail := RequestDMAReadMetaBuff c (DDS_CACHE_LINE_SIZE_BY_INT K) in
  tail <> Head (RequestRing c) /\ tail = progress.

(** What a ready request-meta completion hands to [ExecuteRequests]: the
    bytes from the old head up to the new one. *)
Definition hands_over_new_bytes (K : Consts) (c : BuffConnConfig) : Prop :=
  let progress := RequestDMAReadMetaBuff c 0 in
  let c' := on_READ_REQUEST_META K c in
  Head (RequestRing c') = progress
  /\ exec_headReq K c' = Head (RequestRing c)
  /\ RequestDMAReadDataSize c'
     = (progress - Head (RequestRing c)) mod BACKEND_REQUEST_BUFFER_SIZE K
  /\ 0 < RequestDMAReadDataSize c' <= BACKEND_REQUEST_BUFFER_SIZE K - 1.

(** The response-meta words say that the host has room for the completed
    responses. *)
Definition host_has_room (K : Consts) (c : BuffConnConfig) : Prop :=
  let progress := ResponseDMAReadMetaBuff c 0 in
  let head := ResponseDMAReadMetaBuff c (DDS_CACHE_LINE_SIZE_BY_INT K) in
  head = progress
  /\ response_pending_bytes K c <= response_free_distance K c head.

(** A publication takes everything completed: [TailC] catches up with
    [TailB], and the next response-meta completion finds nothing to
    send. *)
Definition publishes_all (K : Consts) (c : BuffConnConfig) : Prop :=
  let c' := on_READ_RESPONSE_META K c in
  TailC (ResponseRing c') = TailB (ResponseRing c)
  /\ TailB (ResponseRing c') = TailB (ResponseRing c)
  /\ TailA (ResponseRing c') = TailA (ResponseRing c)
  /\ on_READ_RESPONSE_META K c' = c'.

End MetaNotions.

Module ControlPlane.
Import FileBackEnd ConnectionSetup.

(** ** The control plane: [CtrlMsgHandler] (lines 1271-1674),
    [ProcessCtrlCqEvents] (lines 1680-1730) and
    [CheckAndProcessControlPlaneCompletions] (lines 2698-2805) *)

(** The values [msgIn->MsgId] is compared with; [CTRL_MSG_unrecognized]
    stands for every other value, the [default] label. *)
Inductive CtrlMsgF2B :=
| CTRL_MSG_F2B_REQUEST_ID
| CTRL_MSG_F2B_TERMINATE
| CTRL_MSG_F2B_REQ_CREATE_DIR
| CTRL_MSG_F2B_REQ_REMOVE_DIR
| CTRL_MSG_F2B_REQ_CREATE_FILE
| CTRL_MSG_F2B_REQ_DELETE_FILE
| CTRL_MSG_F2B_REQ_CHANGE_FILE_SIZE
| CTRL_MSG_F2B_REQ_GET_FILE_SIZE
| CTRL_MSG_F2B_REQ_GET_FILE_INFO
| CTRL_MSG_F2B_REQ_GET_FILE_ATTR
| CTRL_MSG_F2B_REQ_GET_FREE_SPACE
| CTRL_MSG_F2B_REQ_MOVE_FILE
| CTRL_MSG_unrecognized.

#[global] Instance CtrlMsgF2B_eq_dec : EqDecision CtrlMsgF2B.
Proof. solve_decision. Defined.

Inductive CtrlMsgB2F :=
| CTRL_MSG_B2F_RESPOND_ID
| CTRL_MSG_B2F_ACK_CREATE_DIR
| CTRL_MSG_B2F_ACK_REMOVE_DIR
| CTRL_MSG_B2F_ACK_CREATE_FILE
| CTRL_MSG_B2F_ACK_DELETE_FILE
| CTRL_MSG_B2F_ACK_CHANGE_FILE_SIZE
| CTRL_MSG_B2F_ACK_GET_FILE_SIZE
| CTRL_MSG_B2F_ACK_GET_FILE_INFO
| CTRL_MSG_B2F_ACK_GET_FILE_ATTR
| CTRL_MSG_B2F_ACK_GET_FREE_SPACE
| CTRL_MSG_B2F_ACK_MOVE_FILE.

#[global] Instance CtrlMsgB2F_eq_dec : EqDecision CtrlMsgB2F.
Proof. solve_decision. Defined.

(** The states of the creation of the default file. *)
Inductive DefaultFileState :=
| FILE_NULL
| FILE_CREATION_SUBMITTED
| FILE_CREATED
| FILE_CHANGED.

#[global] Instance DefaultFileState_eq_dec : EqDecision DefaultFileState.
Proof. solve_decision. Defined.

(** Constants of the headers that are not part of the sources: the
    values of the request ids, the sizes of the messages, the build
    switch [CREATE_DEFAULT_DPU_FILE] and what it comes with. *)
Record CtrlConsts := mkCtrlConsts {
  msg_code : CtrlMsgF2B -> Z;
  sizeof_MsgHeader : Z;
  (** [sizeof] of the structure that follows the header of a message *)
  sizeof_payload : CtrlMsgB2F -> Z;
  CREATE_DEFAULT_DPU_FILE : bool;
  DEFAULT_DPU_FILE_CREATION_CTRL_CONN : nat;
  DEFAULT_DPU_FILE_ID : Z;
  DEFAULT_DPU_FILE_SIZE : Z
}.

(** The message in [RecvBuff]: its id and the [ClientId] of a
    [CtrlMsgF2BTerminate]. *)
Record MsgIn := mkMsgIn {
  In_MsgId : CtrlMsgF2B;
  In_ClientId : Z
}.

(** The message in [SendBuff]: its id ([None] until one is stored) and the
    [ClientId] of a [CtrlMsgB2FRespondId].  The [Result] of an
    acknowledgement is a cell of [Results] below. *)
Record MsgOut := mkMsgOut {
  Out_MsgId : option CtrlMsgB2F;
  Out_ClientId : Z
}.

(** The members of a control slot that serve the default file. *)
Record DefaultFile := mkDefaultFile {
  DefaultDpuFileCreationState : DefaultFileState;
  (** the addresses of the request and response members *)
  DefaultCreateFileRequest : Z;
  DefaultCreateFileResponse : Z;
  DefaultChangeFileRequest : Z;
  DefaultChangeFileResponse : Z;
  (** [DefaultChangeFileRequest.FileId] and [.NewSize] *)
  Change_FileId : Z;
  Change_NewSize : Z
}.

(** What a slot has handed to the libraries and to the file service:
    the calls of [ibv_post_recv], the messages passed to [ibv_post_send]
    with the length of the work request, as they stand at the call, the
    requests passed to [SubmitControlPlaneRequest], and the calls of the
    [Destroy*] functions. *)
Record CtrlLog := mkCtrlLog {
  RecvPosted : nat;
  Sent : list (MsgOut * Z);
  Submitted : list PendingControlPlaneRequestT;
  Released : list LibCall
}.

(** A control slot with its buffers.  [Results p] is the error code
    stored at address [p]: the first field of every response. *)
Record CtrlEndpoint := mkEndpoint {
  ep_conn : CtrlConnConfig;
  RecvBuff : Z;
  SendBuff : Z;
  msgIn : MsgIn;
  msgOut : MsgOut;
  SendWr_length : Z;
  Results : Z -> Z;
  ep_default : DefaultFile;
  ep_log : CtrlLog
}.

Definition zero_endpoint : CtrlEndpoint :=
  mkEndpoint zero_CtrlConn 0 0 (mkMsgIn CTRL_MSG_unrecognized 0) (mkMsgOut None 0) 0
    (fun _ => 0) (mkDefaultFile FILE_NULL 0 0 0 0 0 0) (mkCtrlLog 0 [] [] []).

#[global] Instance CtrlEndpoint_inhabited : Inhabited CtrlEndpoint :=
  populate zero_endpoint.

(** Assignments. *)
Definition set_ep_conn (v : CtrlConnConfig) (e : CtrlEndpoint) : CtrlEndpoint :=
  mkEndpoint v (RecvBuff e) (SendBuff e) (msgIn e) (msgOut e) (SendWr_length e)
    (Results e) (ep_default e) (ep_log e).

Definition set_msgIn (v : MsgIn) (e : CtrlEndpoint) : CtrlEndpoint :=
  mkEndpoint (ep_conn e) (RecvBuff e) (SendBuff e) v (msgOut e) (SendWr_length e)
    (Results e) (ep_default e) (ep_log e).

Definition set_msgOut (v : MsgOut) (e : CtrlEndpoint) : CtrlEndpoint :=
  mkEndpoint (ep_conn e) (RecvBuff e) (SendBuff e) (msgIn e) v (SendWr_length e)
    (Results e) (ep_default e) (ep_log e).

Definition set_SendWr_length (v : Z) (e : CtrlEndpoint) : CtrlEndpoint :=
  mkEndpoint (ep_conn e) (RecvBuff e) (SendBuff e) (msgIn e) (msgOut e) v
    (Results e) (ep_default e) (ep_log e).

Definition set_Results (v : Z -> Z) (e : CtrlEndpoint) : CtrlEndpoint :=
  mkEndpoint (ep_conn e) (RecvBuff e) (SendBuff e) (msgIn e) (msgOut e)
    (SendWr_length e) v (ep_default e) (ep_log e).

Definition set_ep_default (v : DefaultFile) (e : CtrlEndpoint) : CtrlEndpoint :=
  mkEndpoint (ep_conn e) (RecvBuff e) (SendBuff e) (msgIn e) (msgOut e)
    (SendWr_length e) (Results e) v (ep_log e).

Definition set_ep_log (v : CtrlLog) (e : CtrlEndpoint) : CtrlEndpoint :=
  mkEndpoint (ep_conn e) (RecvBuff e) (SendBuff e) (msgIn e) (msgOut e)
    (SendWr_length e) (Results e) (ep_default e) v.

Definition set_Pending (v : PendingControlPlaneRequestT) (e : CtrlEndpoint)
  : CtrlEndpoint :=
  set_ep_conn (mkCtrlConn (CtrlId (ep_conn e)) (Ctrl_RemoteCmId (ep_conn e))
                 (Ctrl_State (ep_conn e)) v) e.

(** [*(ErrorCodeT* )p = v] *)
Definition store_result (p v : Z) (e : CtrlEndpoint) : CtrlEndpoint :=
  set_Results (fun q => if q =? p then v else Results e q) e.

(** The library and file-service calls. *)
Definition ibv_post_recv (e : CtrlEndpoint) : CtrlEndpoint :=
  let l := ep_log e in
  set_ep_log (mkCtrlLog (S (RecvPosted l)) (Sent l) (Submitted l) (Released l)) e.

Definition ibv_post_send_ctrl (e : CtrlEndpoint) : CtrlEndpoint :=
  let l := ep_log e in
  set_ep_log (mkCtrlLog (RecvPosted l) (Sent l ++ [(msgOut e, SendWr_length e)])
                (Submitted l) (Released l)) e.

Definition SubmitControlPlaneRequest (e : CtrlEndpoint) : CtrlEndpoint :=
  let l := ep_log e in
  set_ep_log (mkCtrlLog (RecvPosted l) (Sent l)
                (Submitted l ++ [PendingControlPlaneRequest (ep_conn e)])
                (Released l)) e.

Definition destroy_ctrl (e : CtrlEndpoint) : CtrlEndpoint :=
  let l := ep_log e in
  set_ep_log (mkCtrlLog (RecvPosted l) (Sent l) (Submitted l)
                (Released l ++ release_ctrl)) e.

(** The acknowledgement of a file request: the ten cases of lines
    1338-1666 differ in the ids and in the types of the casts only. *)
Definition ack_of (m : CtrlMsgF2B) : option CtrlMsgB2F :=
  match m with
  | CTRL_MSG_F2B_REQ_CREATE_DIR => Some CTRL_MSG_B2F_ACK_CREATE_DIR
  | CTRL_MSG_F2B_REQ_REMOVE_DIR => Some CTRL_MSG_B2F_ACK_REMOVE_DIR
  | CTRL_MSG_F2B_REQ_CREATE_FILE => Some CTRL_MSG_B2F_ACK_CREATE_FILE
  | CTRL_MSG_F2B_REQ_DELETE_FILE => Some CTRL_MSG_B2F_ACK_DELETE_FILE
  | CTRL_MSG_F2B_REQ_CHANGE_FILE_SIZE => Some CTRL_MSG_B2F_ACK_CHANGE_FILE_SIZE
  | CTRL_MSG_F2B_REQ_GET_FILE_SIZE => Some CTRL_MSG_B2F_ACK_GET_FILE_SIZE
  | CTRL_MSG_F2B_REQ_GET_FILE_INFO => Some CTRL_MSG_B2F_ACK_GET_FILE_INFO
  | CTRL_MSG_F2B_REQ_GET_FILE_ATTR => Some CTRL_MSG_B2F_ACK_GET_FILE_ATTR
  | CTRL_MSG_F2B_REQ_GET_FREE_SPACE => Some CTRL_MSG_B2F_ACK_GET_FREE_SPACE
  | CTRL_MSG_F2B_REQ_MOVE_FILE => Some CTRL_MSG_B2F_ACK_MOVE_FILE
  | _ => None
  end.

Section Handlers.

Variable K : Consts.
Variable C : CtrlConsts.

(** [CtrlMsgHandler]; [ret_recv] and [ret_send] are the values
    [ibv_post_recv] and [ibv_post_send] return. *)
Definition CtrlMsgHandler (ret_recv ret_send : Z) (e : CtrlEndpoint)
  : Z * CtrlEndpoint :=
  match In_MsgId (msgIn e) with
  | CTRL_MSG_F2B_REQUEST_ID =>
      (* Post a receive first *)
      let e := ibv_post_recv e in
      (* Send the request id *)
      let e := set_msgOut (mkMsgOut (Some CTRL_MSG_B2F_RESPOND_ID) (CtrlId (ep_conn e))) e in
      let e := set_SendWr_length
                 (sizeof_MsgHeader C + sizeof_payload C CTRL_MSG_B2F_RESPOND_ID) e in
      let e := ibv_post_send_ctrl e in
      (if ret_send =? 0 then 0 else -1, e)
  | CTRL_MSG_F2B_TERMINATE =>
      if In_ClientId (msgIn e) =? CtrlId (ep_conn e)
      then (0, set_ep_conn (set_Ctrl_State CONN_STATE_AVAILABLE (ep_conn e))
                 (destroy_ctrl e))
      else (0, e)
  | CTRL_MSG_unrecognized => (-1, e)
  | m =>
      match ack_of m with
      | None => (-1, e)
      | Some ack =>
          let req := RecvBuff e + sizeof_MsgHeader C in
          let resp := SendBuff e + sizeof_MsgHeader C in
          (* Post a receive first *)
          let e := ibv_post_recv e in
          let e := set_Pending (mkPending (msg_code C m) req resp) e in
          let e := store_result resp (DDS_ERROR_CODE_IO_PENDING K) e in
          let e := SubmitControlPlaneRequest e in
          let e := set_msgOut (mkMsgOut (Some ack) (Out_ClientId (msgOut e))) e in
          let e := set_SendWr_length (sizeof_MsgHeader C + sizeof_payload C ack) e in
          (if ret_recv =? 0 then 0 else -1, e)
      end
  end.

(** What [ibv_poll_cq] reports for a slot: its return value and, when it
    is 1, whether [wc.status] is [IBV_WC_SUCCESS] and [wc.opcode]. *)
Inductive WcOpcode :=
| IBV_WC_RECV
| IBV_WC_SEND
| IBV_WC_RDMA_WRITE
| IBV_WC_RDMA_READ
| IBV_WC_other.

Record Polled := mkPolled {
  poll_ret : Z;
  wc_success : bool;
  wc_opcode : WcOpcode
}.

(** How the libraries answer to the calls made for slot [i]. *)
Record CtrlLibrary := mkCtrlLibrary {
  ibv_poll_cq : nat -> Polled;
  ret_post_recv : nat -> Z;
  ret_post_send : nat -> Z
}.

Variable L : CtrlLibrary.

(** [ProcessCtrlCqEvents]: the slots from [i] on, [n] of them, with the
    value of [ret] on entry of the turn. *)
Fixpoint ProcessCtrlCqEvents_from (eps : list CtrlEndpoint) (i n : nat) (ret : Z)
  : Z * list CtrlEndpoint :=
  match n with
  | O => (ret, eps)
  | S n' =>
      let ctrlConn := eps !!! i in
      if negb (ctrl_slot_polled (ep_conn ctrlConn))
      then ProcessCtrlCqEvents_from eps (S i) n' ret
      else
        let wc := ibv_poll_cq L i in
        if poll_ret wc =? 1
        then
          if negb (wc_success wc)
          then ProcessCtrlCqEvents_from eps (S i) n' (-1)
          else
            match wc_opcode wc with
            | IBV_WC_RECV =>
                let '(ret, e) :=
                  CtrlMsgHandler (ret_post_recv L i) (ret_post_send L i) ctrlConn in
                if negb (ret =? 0) then (ret, <[i := e]> eps)
                else ProcessCtrlCqEvents_from (<[i := e]> eps) (S i) n' ret
            | IBV_WC_SEND | IBV_WC_RDMA_WRITE | IBV_WC_RDMA_READ =>
                ProcessCtrlCqEvents_from eps (S i) n' 0
            | IBV_WC_other => ProcessCtrlCqEvents_from eps (S i) n' (-1)
            end
        else ProcessCtrlCqEvents_from eps (S i) n' (poll_ret wc)
  end.

Definition ProcessCtrlCqEvents (maxClients : nat) (eps : list CtrlEndpoint)
  : Z * list CtrlEndpoint :=
  ProcessCtrlCqEvents_from eps 0 maxClients 0.

(** [CheckAndProcessControlPlaneCompletions]: one turn of the loop, for
    slot [i]; the first component is the value of [ret] after it. *)
Definition respond (i : nat) (e : CtrlEndpoint) : Z * CtrlEndpoint :=
  (if ret_post_send L i =? 0 then 0 else -1, ibv_post_send_ctrl e).

Definition completion_turn (i : nat) (ret : Z) (e : CtrlEndpoint) : Z * CtrlEndpoint :=
  let skipped :=
    if CREATE_DEFAULT_DPU_FILE C
    then negb (ctrl_slot_polled (ep_conn e))
         && negb (bool_decide (i = DEFAULT_DPU_FILE_CREATION_CTRL_CONN C))
    else negb (ctrl_slot_polled (ep_conn e)) in
  if skipped then (ret, e)
  else if Pending_RequestId (PendingControlPlaneRequest (ep_conn e))
          =? DDS_REQUEST_INVALID
  then (ret, e)
  else if Results e (Pending_Response (PendingControlPlaneRequest (ep_conn e)))
          =? DDS_ERROR_CODE_IO_PENDING K
  then (ret, e)
  else
    let e := set_Pending (mkPending DDS_REQUEST_INVALID 0 0) e in
    if CREATE_DEFAULT_DPU_FILE C
       && bool_decide (i = DEFAULT_DPU_FILE_CREATION_CTRL_CONN C)
    then
      let d := ep_default e in
      match DefaultDpuFileCreationState d with
      | FILE_CREATION_SUBMITTED =>
          let req := DefaultChangeFileRequest d in
          let resp := DefaultChangeFileResponse d in
          let e :=
            set_ep_default
              (mkDefaultFile FILE_CREATED (DefaultCreateFileRequest d)
                 (DefaultCreateFileResponse d) req resp
                 (DEFAULT_DPU_FILE_ID C) (DEFAULT_DPU_FILE_SIZE C)) e in
          (* Change file size *)
          let e :=
            set_Pending
              (mkPending (msg_code C CTRL_MSG_F2B_REQ_CHANGE_FILE_SIZE) req resp) e in
          let e := store_result resp (DDS_ERROR_CODE_IO_PENDING K) e in
          (ret, SubmitControlPlaneRequest e)
      | FILE_CREATED =>
          (ret, set_ep_default
                  (mkDefaultFile FILE_CHANGED (DefaultCreateFileRequest d)
                     (DefaultCreateFileResponse d) (DefaultChangeFileRequest d)
                     (DefaultChangeFileResponse d) (Change_FileId d)
                     (Change_NewSize d)) e)
      | _ =>
          (* Regular control operation. Respond back to the host *)
          respond i e
      end
    else
      (* It's complete. Respond back to the host *)
      respond i e.

Fixpoint CheckAndProcessControlPlaneCompletions_from (eps : list CtrlEndpoint)
    (i n : nat) (ret : Z) : Z * list CtrlEndpoint :=
  match n with
  | O => (ret, eps)
  | S n' =>
      let '(ret, e) := completion_turn i ret (eps !!! i) in
      CheckAndProcessControlPlaneCompletions_from (<[i := e]> eps) (S i) n' ret
  end.

Definition CheckAndProcessControlPlaneCompletions (maxClients : nat)
    (eps : list CtrlEndpoint) : Z * list CtrlEndpoint :=
  CheckAndProcessControlPlaneCompletions_from eps 0 maxClients 0.

(** The submission of the creation of the default file in
    [DMAAgentThread], lines 2923-2951 (after the [sleep]); the name and
    the attributes of the file are stored in the request and not kept
    here. *)
Definition submit_default_file (e : CtrlEndpoint) : CtrlEndpoint :=
  let d := ep_default e in
  if bool_decide (DefaultDpuFileCreationState d = FILE_NULL)
  then
    let req := DefaultCreateFileRequest d in
    let resp := DefaultCreateFileResponse d in
    let e :=
      set_Pending (mkPending (msg_code C CTRL_MSG_F2B_REQ_CREATE_FILE) req resp) e in
    let e := store_result resp (DDS_ERROR_CODE_IO_PENDING K) e in
    let e := SubmitControlPlaneRequest e in
    set_ep_default
      (mkDefaultFile FILE_CREATION_SUBMITTED req resp (DefaultChangeFileRequest d)
         (DefaultChangeFileResponse d) (Change_FileId d) (Change_NewSize d)) e
  else e.

End Handlers.

End ControlPlane.

Module ControlNotions.
Import FileBackEnd ConnectionSetup ControlPlane.

(** The addresses of the request in [RecvBuff] and of the response in
    [SendBuff]: [msgIn + 1] and [msgOut + 1]. *)
Definition request_addr (C : CtrlConsts) (e : CtrlEndpoint) : Z :=
  RecvBuff e + sizeof_MsgHeader C.

Definition response_addr (C : CtrlConsts) (e : CtrlEndpoint) : Z :=
  SendBuff e + sizeof_MsgHeader C.

(** A message arrives in [RecvBuff]. *)
Definition receive (m : MsgIn) (e : CtrlEndpoint) : CtrlEndpoint := set_msgIn m e.

(** The file service completes the request whose response is at [p]. *)
Definition complete (p result : Z) (e : CtrlEndpoint) : CtrlEndpoint :=
  store_result p result e.

(** Slot [i] answers the host when a request completes: it is not the
    slot of the default file, or the default file is done with. *)
Definition answers_host (C : CtrlConsts) (i : nat) (e : CtrlEndpoint) : Prop :=
  CREATE_DEFAULT_DPU_FILE C = false
  \/ i <> DEFAULT_DPU_FILE_CREATION_CTRL_CONN C
  \/ DefaultDpuFileCreationState (ep_default e) = FILE_CHANGED.

(** The life of the file request in [RecvBuff] of a connected slot [i]:
    the handler submits it and sends nothing; the sweep leaves the slot
    alone while the result is pending; once the file service has stored a
    result, the sweep sends the acknowledgement of the request, once, with
    the result in place, and a later sweep does nothing. *)
Definition acknowledged_once (K : Consts) (C : CtrlConsts) (L : CtrlLibrary)
    (i : nat) (e : CtrlEndpoint) (ack : CtrlMsgB2F) : Prop :=
  let m := In_MsgId (msgIn e) in
  let '(ret, e1) := CtrlMsgHandler K C (ret_post_recv L i) (ret_post_send L i) e in
  ret = (if ret_post_recv L i =? 0 then 0 else -1)
  /\ RecvPosted (ep_log e1) = S (RecvPosted (ep_log e))
  /\ Sent (ep_log e1) = Sent (ep_log e)
  /\ Submitted (ep_log e1)
     = Submitted (ep_log e)
       ++ [mkPending (msg_code C m) (request_addr C e) (response_addr C e)]
  /\ (forall ret0, completion_turn K C L i ret0 e1 = (ret0, e1))
  /\ forall result ret0,
       result <> DDS_ERROR_CODE_IO_PENDING K ->
       let '(ret2, e2) :=
         completion_turn K C L i ret0 (complete (response_addr C e) result e1) in
       ret2 = (if ret_post_send L i =? 0 then 0 else -1)
       /\ Sent (ep_log e2)
          = Sent (ep_log e)
            ++ [(mkMsgOut (Some ack) (Out_ClientId (msgOut e)),
                 sizeof_MsgHeader C + sizeof_payload C ack)]
       /\ Results e2 (response_addr C e) = result
       /\ Submitted (ep_log e2) = Submitted (ep_log e1)
       /\ Pending_RequestId (PendingControlPlaneRequest (ep_conn e2))
          = DDS_REQUEST_INVALID
       /\ forall ret3, completion_turn K C L i ret3 e2 = (ret3, e2).

(** The creation of the default file on its slot: the creation is
    submitted; when it has completed the change of size is submitted, and
    when that has completed the state is FILE_CHANGED and no request is
    pending.  Nothing is sent to a host and [ret] is never assigned. *)
Definition default_file_in_two_steps (K : Consts) (C : CtrlConsts) (L : CtrlLibrary)
    (e : CtrlEndpoint) : Prop :=
  let i := DEFAULT_DPU_FILE_CREATION_CTRL_CONN C in
  let d := ep_default e in
  let e1 := submit_default_file K C e in
  Submitted (ep_log e1)
  = Submitted (ep_log e)
    ++ [mkPending (msg_code C CTRL_MSG_F2B_REQ_CREATE_FILE)
          (DefaultCreateFileRequest d) (DefaultCreateFileResponse d)]
  /\ DefaultDpuFileCreationState (ep_default e1) = FILE_CREATION_SUBMITTED
  /\ (forall ret0, completion_turn K C L i ret0 e1 = (ret0, e1))
  /\ forall r1 r2 ret0,
       r1 <> DDS_ERROR_CODE_IO_PENDING K -> r2 <> DDS_ERROR_CODE_IO_PENDING K ->
       let '(ret2, e2) :=
         completion_turn K C L i ret0 (complete (DefaultCreateFileResponse d) r1 e1) in
       ret2 = ret0
       /\ DefaultDpuFileCreationState (ep_default e2) = FILE_CREATED
       /\ Change_FileId (ep_default e2) = DEFAULT_DPU_FILE_ID C
       /\ Change_NewSize (ep_default e2) = DEFAULT_DPU_FILE_SIZE C
       /\ Submitted (ep_log e2)
          = Submitted (ep_log e1)
            ++ [mkPending (msg_code C CTRL_MSG_F2B_REQ_CHANGE_FILE_SIZE)
                  (DefaultChangeFileRequest d) (DefaultChangeFileResponse d)]
       /\ (forall ret3, completion_turn K C L i ret3 e2 = (ret3, e2))
       /\ let '(ret4, e3) :=
            completion_turn K C L i ret2
              (complete (DefaultChangeFileResponse d) r2 e2) in
          ret4 = ret0
          /\ DefaultDpuFileCreationState (ep_default e3) = FILE_CHANGED
          /\ Pending_RequestId (PendingControlPlaneRequest (ep_conn e3))
             = DDS_REQUEST_INVALID
          /\ Submitted (ep_log e3) = Submitted (ep_log e2)
          /\ Sent (ep_log e3) = Sent (ep_log e)
          /\ forall ret5, completion_turn K C L i ret5 e3 = (ret5, e3).

(** In slot [i] a handler runs and fails. *)
Definition handler_fails (K : Consts) (C : CtrlConsts) (L : CtrlLibrary)
    (eps : list CtrlEndpoint) (i : nat) : Prop :=
  ctrl_slot_polled (ep_conn (eps !!! i)) = true
  /\ poll_ret (ibv_poll_cq L i) = 1
  /\ wc_success (ibv_poll_cq L i) = true
  /\ wc_opcode (ibv_poll_cq L i) = IBV_WC_RECV
  /\ (CtrlMsgHandler K C (ret_post_recv L i) (ret_post_send L i) (eps !!! i)).1 <> 0.

(** ** Examples *)

(** Request ids 1 to 12 in the order of the cases, a header of 8 bytes
    and payloads of 16, without the default file. *)
Definition code_by_case (m : CtrlMsgF2B) : Z :=
  match m with
  | CTRL_MSG_F2B_REQUEST_ID => 1
  | CTRL_MSG_F2B_TERMINATE => 2
  | CTRL_MSG_F2B_REQ_CREATE_DIR => 3
  | CTRL_MSG_F2B_REQ_REMOVE_DIR => 4
  | CTRL_MSG_F2B_REQ_CREATE_FILE => 5
  | CTRL_MSG_F2B_REQ_DELETE_FILE => 6
  | CTRL_MSG_F2B_REQ_CHANGE_FILE_SIZE => 7
  | CTRL_MSG_F2B_REQ_GET_FILE_SIZE => 8
  | CTRL_MSG_F2B_REQ_GET_FILE_INFO => 9
  | CTRL_MSG_F2B_REQ_GET_FILE_ATTR => 10
  | CTRL_MSG_F2B_REQ_GET_FREE_SPACE => 11
  | CTRL_MSG_F2B_REQ_MOVE_FILE => 12
  | CTRL_MSG_unrecognized => 99
  end.

Definition plain_build : CtrlConsts :=
  mkCtrlConsts code_by_case 8 (fun _ => 16) false 0 0 0.

(** The same with the default file on slot 0. *)
Definition default_file_build : CtrlConsts :=
  mkCtrlConsts code_by_case 8 (fun _ => 16) true 0 1 4096.

(** Libraries that report no completion and fail nowhere. *)
Definition quiet : CtrlLibrary :=
  mkCtrlLibrary (fun _ => mkPolled 0 true IBV_WC_other) (fun _ => 0) (fun _ => 0).

(** A connected slot 0 whose receive buffer holds a request to create a
    file. *)
Definition create_file_received : CtrlEndpoint :=
  mkEndpoint
    (mkCtrlConn 0 7 CONN_STATE_CONNECTED (mkPending DDS_REQUEST_INVALID 0 0))
    1000 2000 (mkMsgIn CTRL_MSG_F2B_REQ_CREATE_FILE 0) (mkMsgOut None 0) 0
    (fun _ => 0) (mkDefaultFile FILE_NULL 3000 3100 3200 3300 0 0)
    (mkCtrlLog 1 [] [] []).

(** Slot 0 before any client has connected. *)
Definition unconnected_slot : CtrlEndpoint :=
  mkEndpoint (init_CtrlConn 0) 1000 2000 (mkMsgIn CTRL_MSG_unrecognized 0)
    (mkMsgOut None 0) 0 (fun _ => 0) (mkDefaultFile FILE_NULL 3000 3100 3200 3300 0 0)
    (mkCtrlLog 0 [] [] []).

(** The completion of slot 0 has a failed status, slot 1 has none. *)
Definition first_slot_fails : CtrlLibrary :=
  mkCtrlLibrary
    (fun i => if bool_decide (i = 0%nat) then mkPolled 1 false IBV_WC_RECV
              else mkPolled 0 true IBV_WC_other)
    (fun _ => 0) (fun _ => 0).

Definition two_connected : list CtrlEndpoint :=
  [create_file_received; create_file_received].

End ControlNotions.

(* ===================================================================== *)
(** * Part II: properties                                                 *)
(* ===================================================================== *)

Module CacheTableFacts.

Import CacheTable CacheExamples.

(** ** Shape of a table and in-range updates *)

Section Shape.

Variable cfg : Config.

Lemma length_set_Occ pos v (t : CacheTableT) :
  length (set_Occ pos v t) = length t.
Proof. unfold set_Occ. by rewrite length_insert. Qed.

Lemma length_set_Element pos e x (t : CacheTableT) :
  length (set_Element pos e x t) = length t.
Proof. unfold set_Element. by rewrite length_insert. Qed.

Lemma length_set_HashValue pos e h (t : CacheTableT) :
  length (set_HashValue pos e h t) = length t.
Proof. unfold set_HashValue. by rewrite length_insert. Qed.

Lemma flags_set_Occ pos v (t : CacheTableT) :
  flags (set_Occ pos v t) = <[pos := v]> (flags t).
Proof. unfold flags, set_Occ. by rewrite list_fmap_insert. Qed.

Lemma flags_keep pos (b : CacheBucketT) (t : CacheTableT) :
  Occ b = Occ (t !!! pos) -> flags (<[pos := b]> t) = flags t.
Proof.
  intros Hb. unfold flags. rewrite list_fmap_insert.
  destruct (decide (pos < length t)%nat) as [Hlt|Hge].
  - apply list_insert_id. rewrite list_lookup_fmap.
    destruct (lookup_lt_is_Some_2 t pos Hlt) as [b' Hb'].
    rewrite Hb'. simpl. f_equal. rewrite Hb.
    by rewrite (list_lookup_total_correct _ _ _ Hb').
  - apply list_insert_ge. rewrite length_fmap. lia.
Qed.

Lemma flags_set_Element pos e x (t : CacheTableT) :
  flags (set_Element pos e x t) = flags t.
Proof. unfold set_Element. by apply flags_keep. Qed.

Lemma flags_set_HashValue pos e h (t : CacheTableT) :
  flags (set_HashValue pos e h t) = flags t.
Proof. unfold set_HashValue. by apply flags_keep. Qed.

Lemma all_clear_insert_0 pos (l : list Z) :
  Forall (fun o => o = 0) l -> <[pos := 0]> l = l.
Proof.
  intros Hl. destruct (decide (pos < length l)%nat) as [Hlt|Hge].
  - apply list_insert_id.
    destruct (lookup_lt_is_Some_2 l pos Hlt) as [o Ho].
    rewrite Ho. f_equal. by apply (Forall_lookup_1 _ _ _ _ Hl Ho).
  - apply list_insert_ge. lia.
Qed.

Lemma flags_displace depth : forall (t : CacheTableT) carrier offset,
  all_clear t ->
  match displace cfg depth t carrier offset with
  | Returned t' => all_clear t'
  | Exhausted t' _ _ => all_clear t'
  end.
Proof.
  induction depth as [|depth IH]; intros t carrier offset Ht; simpl; [done|].
  set (pos := bucketPos cfg (Hash1 carrier)).
  destruct (scan_slots (set_Occ pos 1 t) pos carrier 0 (BUCKET_SIZE cfg)).
  - unfold all_clear. rewrite flags_set_Occ, flags_set_HashValue,
      flags_set_Element, flags_set_Occ, list_insert_insert_eq.
    by rewrite all_clear_insert_0.
  - unfold all_clear. rewrite flags_set_Occ, flags_set_Element, flags_set_Occ,
      list_insert_insert_eq.
    by rewrite all_clear_insert_0.
  - apply IH. unfold all_clear.
    rewrite flags_set_Occ, flags_set_HashValue, flags_set_Element,
      flags_set_Occ, list_insert_insert_eq.
    by rewrite all_clear_insert_0.
Qed.

Lemma flags_undo depth : forall (t : CacheTableT) carrier offset,
  all_clear t -> all_clear (undo cfg depth t carrier offset).1.
Proof.
  induction depth as [|depth IH]; intros t carrier offset Ht; simpl; [done|].
  apply IH. unfold all_clear.
  rewrite flags_set_Occ, flags_set_HashValue, flags_set_Element,
    flags_set_Occ, list_insert_insert_eq.
  by rewrite all_clear_insert_0.
Qed.

(** Every exit of [AddToCacheTable] leaves the flag of every bucket at 0. *)
Lemma AddToCacheTable_clears_flags (t : CacheTableT) item :
  all_clear t ->
  match AddToCacheTable cfg t item with
  | AddReturn _ t' => all_clear t'
  | AddAssertFailed t' _ => all_clear t'
  end.
Proof.
  intros Ht. unfold AddToCacheTable.
  pose proof (flags_displace (maxDepth cfg) t (make_carrier cfg item) 0%nat Ht) as Hd.
  destruct (displace cfg (maxDepth cfg) t (make_carrier cfg item) 0) as [t'|t' c o];
    [done|].
  pose proof (flags_undo (maxDepth cfg) t' c o Hd) as Hu.
  destruct (undo cfg (maxDepth cfg) t' c o) as [t'' c'']. simpl in Hu.
  by destruct (decide (Item c'' = item)).
Qed.

(** Reads of stamps and elements do not see the flag. *)
Lemma lookup_total_insert_same {A} `{Inhabited A} (l : list A) i (x : A) :
  (i < length l)%nat -> <[i := x]> l !!! i = x.
Proof.
  intros Hi. apply list_lookup_total_correct. by apply list_lookup_insert_eq.
Qed.

Lemma lookup_total_insert_other {A} `{Inhabited A} (l : list A) i j (x : A) :
  i <> j -> <[i := x]> l !!! j = l !!! j.
Proof. intros Hij. by rewrite list_lookup_total_insert_ne. Qed.

Lemma bucket_set_Occ p v (t : CacheTableT) pos :
  HashValues (set_Occ p v t !!! pos) = HashValues (t !!! pos)
  /\ Elements (set_Occ p v t !!! pos) = Elements (t !!! pos).
Proof.
  unfold set_Occ. destruct (decide (p = pos)) as [->|Hne].
  - destruct (decide (pos < length t)%nat) as [Hlt|Hge].
    + by rewrite lookup_total_insert_same.
    + rewrite list_insert_ge by lia. done.
  - by rewrite lookup_total_insert_other.
Qed.

Lemma get_HashValue_set_Occ p v (t : CacheTableT) pos e :
  get_HashValue (set_Occ p v t) pos e = get_HashValue t pos e.
Proof. unfold get_HashValue. by rewrite (proj1 (bucket_set_Occ p v t pos)). Qed.

Lemma get_Element_set_Occ p v (t : CacheTableT) pos e :
  get_Element (set_Occ p v t) pos e = get_Element t pos e.
Proof. unfold get_Element. by rewrite (proj2 (bucket_set_Occ p v t pos)). Qed.

Lemma find_slot_set_Occ p v (t : CacheTableT) pos h key n : forall e,
  find_slot (set_Occ p v t) pos h key e n = find_slot t pos h key e n.
Proof.
  induction n as [|n IH]; intros e; simpl; [done|].
  rewrite get_HashValue_set_Occ, get_Element_set_Occ. by rewrite IH.
Qed.

(** The exits of [DeleteFromCacheTable], one by one. *)
Lemma DeleteFromCacheTable_first_hash (t : CacheTableT) key e :
  let hash1 := HASH_FUNCTION1 cfg key in
  find_slot t (bucketPos cfg hash1) hash1 key 0 (BUCKET_SIZE cfg) = Some e ->
  all_clear t ->
  all_clear (DeleteFromCacheTable cfg t key).
Proof.
  intros hash1 Hfind Ht. unfold DeleteFromCacheTable. fold hash1.
  rewrite find_slot_set_Occ, Hfind. unfold all_clear, clear_slot.
  rewrite flags_set_Occ, flags_set_HashValue, flags_set_Element, flags_set_Occ,
    list_insert_insert_eq.
  by rewrite all_clear_insert_0.
Qed.

Lemma DeleteFromCacheTable_not_found (t : CacheTableT) key :
  let hash1 := HASH_FUNCTION1 cfg key in
  let hash2 := second_hash cfg key hash1 in
  find_slot t (bucketPos cfg hash1) hash1 key 0 (BUCKET_SIZE cfg) = None ->
  find_slot t (bucketPos cfg hash2) hash2 key 0 (BUCKET_SIZE cfg) = None ->
  all_clear t ->
  all_clear (DeleteFromCacheTable cfg t key).
Proof.
  intros hash1 hash2 Hf1 Hf2 Ht. unfold DeleteFromCacheTable. fold hash1 hash2.
  rewrite find_slot_set_Occ, Hf1, !find_slot_set_Occ, Hf2. unfold all_clear.
  rewrite !flags_set_Occ, !list_insert_insert_eq.
  rewrite (all_clear_insert_0 (bucketPos cfg hash1)) by done.
  by rewrite all_clear_insert_0.
Qed.

(** The exit of line 306 leaves the flag of the second bucket at 1. *)
Lemma DeleteFromCacheTable_second_hash (t : CacheTableT) key e :
  let hash1 := HASH_FUNCTION1 cfg key in
  let hash2 := second_hash cfg key hash1 in
  find_slot t (bucketPos cfg hash1) hash1 key 0 (BUCKET_SIZE cfg) = None ->
  find_slot t (bucketPos cfg hash2) hash2 key 0 (BUCKET_SIZE cfg) = Some e ->
  (bucketPos cfg hash2 < length t)%nat ->
  flags (DeleteFromCacheTable cfg t key) !! bucketPos cfg hash2 = Some 1.
Proof.
  intros hash1 hash2 Hf1 Hf2 Hpos. unfold DeleteFromCacheTable. fold hash1 hash2.
  rewrite find_slot_set_Occ, Hf1, !find_slot_set_Occ, Hf2. unfold clear_slot.
  rewrite flags_set_Occ. apply list_lookup_insert_eq.
  rewrite flags_set_HashValue, flags_set_Element, !flags_set_Occ.
  unfold flags. by rewrite !length_insert, length_fmap.
Qed.

(** One turn of the undo loop stamps the slot it restores with the
    second hash of the element it puts there, where the forward loop
    stamps with the first. *)
Lemma undo_step_stamp (t : CacheTableT) carrier offset :
  let pos := bucketPos cfg (Hash2 carrier) in
  let e := prev_offset cfg offset in
  (pos < length t)%nat ->
  (e < length (HashValues (t !!! pos)))%nat ->
  (e < length (Elements (t !!! pos)))%nat ->
  let t' := (undo cfg 1 t carrier offset).1 in
  get_Element t' pos e = swap_hashes carrier
  /\ get_HashValue t' pos e = Hash2 (get_Element t' pos e)
  /\ get_HashValue t' pos e = Hash1 carrier.
Proof.
  intros pos e Hpos Hh He t'. subst t'. simpl. fold pos e.
  rewrite get_HashValue_set_Occ, get_Element_set_Occ.
  unfold get_HashValue, get_Element, set_HashValue, set_Element, set_Occ.
  rewrite !length_insert || idtac.
  repeat (rewrite lookup_total_insert_same by (by rewrite ?length_insert)).
  simpl.
  repeat (rewrite lookup_total_insert_same by (by rewrite ?length_insert)).
  done.
Qed.

End Shape.

(** ** The claims about the cache table, run on small tables *)

(** C2.  The claim: when [AddToCacheTable] hits the depth bound and returns
    the "full" error, the table is identical to the table before the call.
    On a full table of two one-slot buckets the call returns -1 and puts
    both elements back, but leaves under each the second hash as stamp
    (1 and 2 where 18 and 33 stood), so that the table differs and keys 18
    and 33, found before the call, are found no more. *)
Theorem C2_failed_insert_leaves_other_stamps :
  add_all two_buckets (InitCacheTable two_buckets) [mkItem 18 100; mkItem 33 200]
    = Some full_table
  /\ exists t',
      AddToCacheTable two_buckets full_table (mkItem 50 300) = AddReturn (-1) t'
      /\ t' <> full_table
      /\ Elements <$> t' = Elements <$> full_table
      /\ HashValues <$> full_table = [[18]; [33]]
      /\ HashValues <$> t' = [[1]; [2]]
      /\ LookUpValue two_buckets full_table 18 = Some 100
      /\ LookUpValue two_buckets full_table 33 = Some 200
      /\ LookUpValue two_buckets t' 18 = None
      /\ LookUpValue two_buckets t' 33 = None.
Proof.
  split; [reflexivity|].
  eexists. split; [vm_compute; reflexivity|].
  repeat split; try reflexivity. intros Heq. by inversion Heq.
Qed.

(** C7.  The claim: after successful insertions a lookup returns the value
    most recently inserted for the key, and a second insertion of a key
    makes no second copy.  Four insertions that all return 0: key 16 with
    value 100, key 32 (which moves key 16 to its second bucket), key 16
    with value 101 (a second copy, in the first bucket), key 5 (which moves
    the old copy back over the new one).  The lookup of key 16 then returns
    100. *)
Theorem C7_lookup_returns_stale_value :
  (exists t3,
      add_all four_buckets (InitCacheTable four_buckets)
        [mkItem 16 100; mkItem 32 200; mkItem 16 101] = Some t3
      /\ copies_of four_buckets t3 16 = [(0%nat, 0%nat); (1%nat, 0%nat)]
      /\ LookUpValue four_buckets t3 16 = Some 101)
  /\ exists t4,
      add_all four_buckets (InitCacheTable four_buckets) displaced_then_updated
        = Some t4
      /\ copies_of four_buckets t4 16 = [(0%nat, 0%nat)]
      /\ LookUpValue four_buckets t4 16 = Some 100.
Proof.
  split; eexists; (split; [vm_compute; reflexivity|]); split; reflexivity.
Qed.

(** C8.  The claim: every exit of [AddToCacheTable] and of
    [DeleteFromCacheTable] leaves the occupied flag of every bucket at 0.
    Deleting key 16 from a table that holds it in its second bucket
    (bucket 1) returns with the flag of that bucket at 1; key 5, which is
    still stored in that bucket and was found before, is then skipped by
    the lookup. *)
Theorem C8_delete_second_hash_leaves_flag_set :
  add_all four_by_two (InitCacheTable four_by_two)
    [mkItem 16 100; mkItem 32 200; mkItem 48 400; mkItem 5 300]
    = Some key_in_second_bucket
  /\ flags key_in_second_bucket = [0; 0; 0; 0]
  /\ flags (DeleteFromCacheTable four_by_two key_in_second_bucket 16) = [0; 1; 0; 0]
  /\ LookUpValue four_by_two key_in_second_bucket 5 = Some 300
  /\ copies_of four_by_two (DeleteFromCacheTable four_by_two key_in_second_bucket 16) 5
     = [(1%nat, 1%nat)]
  /\ LookUpValue four_by_two
       (DeleteFromCacheTable four_by_two key_in_second_bucket 16) 5 = None.
Proof. repeat split; reflexivity. Qed.

End CacheTableFacts.

Module ConnectionFacts.

Import FileBackEnd BackEndExamples.

(** ** The slot scans *)

Lemma scan_from_spec {A} `{Inhabited A} (hit : A -> bool) (conns : list A) n :
  forall i,
  match (scan_from hit conns i n).2 with
  | Some j =>
      (i <= j < i + n)%nat /\ hit (conns !!! j) = true
      /\ (forall k, (i <= k < j)%nat -> hit (conns !!! k) = false)
      /\ (scan_from hit conns i n).1 = seq i (S (j - i))
  | None =>
      (forall k, (i <= k < i + n)%nat -> hit (conns !!! k) = false)
      /\ (scan_from hit conns i n).1 = seq i n
  end.
Proof.
  induction n as [|n IH]; intros i; simpl.
  - split; [intros k Hk; lia|done].
  - destruct (hit (conns !!! i)) eqn:Hi; simpl.
    + split; [lia|]. split; [done|]. split.
      * intros k Hk; lia.
      * by replace (i - i)%nat with 0%nat by lia.
    + specialize (IH (S i)).
      destruct (scan_from hit conns (S i) n) as [reads [j|]]; simpl in *.
      * destruct IH as (Hj & Hhit & Hbefore & Hreads).
        split; [lia|]. split; [done|]. split.
        -- intros k Hk. destruct (decide (k = i)) as [->|Hne]; [done|].
           apply Hbefore. lia.
        -- rewrite Hreads. replace (j - i)%nat with (S (j - S i)) by lia.
           done.
      * destruct IH as (Hnone & Hreads). split.
        -- intros k Hk. destruct (decide (k = i)) as [->|Hne]; [done|].
           apply Hnone. lia.
        -- by rewrite Hreads.
Qed.

(** Every index a scan reads is below its bound. *)
Lemma scan_from_reads_bound {A} `{Inhabited A} (hit : A -> bool) (conns : list A) n k :
  k ∈ (scan_from hit conns 0 n).1 -> (k < n)%nat.
Proof.
  pose proof (scan_from_spec hit conns n 0) as Hs.
  destruct (scan_from hit conns 0 n) as [reads [j|]]; cbn [fst snd] in *.
  - destruct Hs as (Hj & _ & _ & ->). rewrite elem_of_seq. lia.
  - destruct Hs as (_ & ->). rewrite elem_of_seq. lia.
Qed.

(** A scan that finds nothing has read every index below its bound. *)
Lemma scan_from_miss_reads_all {A} `{Inhabited A} (hit : A -> bool) (conns : list A) n :
  (forall k, (k < n)%nat -> hit (conns !!! k) = false) ->
  scan_from hit conns 0 n = (seq 0 n, None).
Proof.
  intros Hmiss. pose proof (scan_from_spec hit conns n 0) as Hs.
  destruct (scan_from hit conns 0 n) as [reads [j|]]; cbn [fst snd] in *.
  - destruct Hs as (Hj & Hhit & _). rewrite Hmiss in Hhit by lia. done.
  - destruct Hs as (_ & ->). done.
Qed.

(** ** [FindConnId] *)

Lemma FindConnId_ctrl_found g cm j :
  FindConnId g cm = Some (true, j) ->
  (j < MaxClients g)%nat
  /\ Ctrl_RemoteCmId (CtrlConns g !!! j) = cm
  /\ forall k, (k < j)%nat -> Ctrl_RemoteCmId (CtrlConns g !!! k) <> cm.
Proof.
  unfold FindConnId, FindConnId_ctrl, FindConnId_buff. intros Hf.
  pose proof (scan_from_spec (fun c => Ctrl_RemoteCmId c =? cm) (CtrlConns g)
                (MaxClients g) 0) as Hs.
  destruct (scan_from _ (CtrlConns g) 0 (MaxClients g)) as [reads [i|]];
    cbn [fst snd] in *.
  - inversion Hf; subst i. destruct Hs as (Hj & Hhit & Hbefore & _).
    repeat split; [lia|lia|].
    intros k Hk Heq. specialize (Hbefore k ltac:(lia)). lia.
  - destruct (scan_from _ (BuffConns g) 0 (MaxBuffs g)) as [reads' [i|]];
      cbn [fst snd] in *; discriminate.
Qed.

Lemma FindConnId_buff_found g cm j :
  FindConnId g cm = Some (false, j) ->
  (j < MaxBuffs g)%nat
  /\ RemoteCmId (BuffConns g !!! j) = cm
  /\ (forall k, (k < MaxClients g)%nat -> Ctrl_RemoteCmId (CtrlConns g !!! k) <> cm)
  /\ forall k, (k < j)%nat -> RemoteCmId (BuffConns g !!! k) <> cm.
Proof.
  unfold FindConnId, FindConnId_ctrl, FindConnId_buff. intros Hf.
  pose proof (scan_from_spec (fun c => Ctrl_RemoteCmId c =? cm) (CtrlConns g)
                (MaxClients g) 0) as Hs.
  destruct (scan_from _ (CtrlConns g) 0 (MaxClients g)) as [reads [i|]];
    cbn [fst snd] in *; [discriminate|].
  pose proof (scan_from_spec (fun c => RemoteCmId c =? cm) (BuffConns g)
                (MaxBuffs g) 0) as Hb.
  destruct (scan_from _ (BuffConns g) 0 (MaxBuffs g)) as [reads' [i|]];
    cbn [fst snd] in *; [|discriminate].
  inversion Hf; subst i. destruct Hs as (Hnone & _).
  destruct Hb as (Hj & Hhit & Hbefore & _).
  repeat split; [lia|lia| |].
  - intros k Hk Heq. specialize (Hnone k ltac:(lia)). lia.
  - intros k Hk Heq. specialize (Hbefore k ltac:(lia)). lia.
Qed.

(** A known slot that holds the CM id makes [FindConnId] succeed. *)
Lemma FindConnId_complete g cm isCtrl i :
  known_slot g isCtrl i ->
  slot_cm_id g isCtrl i = Some cm ->
  exists isCtrl' j, FindConnId g cm = Some (isCtrl', j).
Proof.
  intros Hknown Hid. unfold FindConnId, FindConnId_ctrl, FindConnId_buff.
  pose proof (scan_from_spec (fun c => Ctrl_RemoteCmId c =? cm) (CtrlConns g)
                (MaxClients g) 0) as Hs.
  destruct (scan_from _ (CtrlConns g) 0 (MaxClients g)) as [reads [j|]];
    cbn [fst snd] in *; [by eauto|].
  pose proof (scan_from_spec (fun c => RemoteCmId c =? cm) (BuffConns g)
                (MaxBuffs g) 0) as Hb.
  destruct (scan_from _ (BuffConns g) 0 (MaxBuffs g)) as [reads' [j|]];
    cbn [fst snd] in *; [by eauto|].
  exfalso. destruct Hs as (Hnone & _). destruct Hb as (Hnone' & _).
  unfold known_slot, slot_cm_id in *. destruct isCtrl.
  - destruct Hknown as [Hi Hlen].
    destruct (CtrlConns g !! i) as [c|] eqn:Hc; [|discriminate].
    simpl in Hid. inversion Hid as [Hcm].
    specialize (Hnone i ltac:(lia)).
    rewrite (list_lookup_total_correct _ _ _ Hc) in Hnone. lia.
  - destruct Hknown as [Hi Hlen].
    destruct (BuffConns g !! i) as [c|] eqn:Hc; [|discriminate].
    simpl in Hid. inversion Hid as [Hcm].
    specialize (Hnone' i ltac:(lia)).
    rewrite (list_lookup_total_correct _ _ _ Hc) in Hnone'. lia.
Qed.

(** ** [RDMA_CM_EVENT_ESTABLISHED] *)

Lemma established_found setup resolve g ev isCtrl j :
  event ev = RDMA_CM_EVENT_ESTABLISHED ->
  FindConnId g (id ev) = Some (isCtrl, j) ->
  (if isCtrl then (j < length (CtrlConns g))%nat
   else (j < length (BuffConns g))%nat) ->
  let g' := (ProcessCmEvents setup resolve g ev).2 in
  slot_state g' isCtrl j = Some CONN_STATE_CONNECTED
  /\ slot_polled g' isCtrl j = Some true
  /\ slot_cm_id g' isCtrl j = Some (id ev).
Proof.
  intros Hev Hfind Hlen. unfold ProcessCmEvents. rewrite Hev, Hfind.
  destruct isCtrl; simpl.
  - apply FindConnId_ctrl_found in Hfind as (_ & Hid & _).
    unfold slot_state, slot_polled, slot_cm_id. simpl.
    rewrite list_lookup_insert_eq by done. simpl. by rewrite Hid.
  - apply FindConnId_buff_found in Hfind as (_ & Hid & _).
    unfold slot_state, slot_polled, slot_cm_id. simpl.
    rewrite list_lookup_insert_eq by done. simpl. by rewrite Hid.
Qed.

(** The slot [FindConnId] returns is a known slot that holds the id. *)
Lemma FindConnId_sound g cm b j :
  slots_allocated g ->
  FindConnId g cm = Some (b, j) ->
  known_slot g b j /\ slot_cm_id g b j = Some cm.
Proof.
  intros [Hctrl Hbuff] Hfind. unfold known_slot, slot_cm_id. destruct b.
  - apply FindConnId_ctrl_found in Hfind as (Hj & Hcm & _).
    assert (Hlt : (j < length (CtrlConns g))%nat) by lia.
    split; [done|].
    destruct (lookup_lt_is_Some_2 _ _ Hlt) as [c Hc]. rewrite Hc. simpl.
    by rewrite <- (list_lookup_total_correct _ _ _ Hc), Hcm.
  - apply FindConnId_buff_found in Hfind as (Hj & Hcm & _).
    assert (Hlt : (j < length (BuffConns g))%nat) by lia.
    split; [done|].
    destruct (lookup_lt_is_Some_2 _ _ Hlt) as [c Hc]. rewrite Hc. simpl.
    by rewrite <- (list_lookup_total_correct _ _ _ Hc), Hcm.
Qed.

(** C9.  For every [RDMA_CM_EVENT_ESTABLISHED] event whose CM id is held by
    a known control or buffer slot (and by no other known slot), the handler
    sets the state of that slot to [CONN_STATE_CONNECTED], the state on
    which the completion-queue passes process a slot. *)
Theorem C9_established_sets_connected (setup resolve : Z) (g : BackEndConfig)
    (ev : rdma_cm_event) (isCtrl : bool) (i : nat) :
  event ev = RDMA_CM_EVENT_ESTABLISHED ->
  slots_allocated g ->
  known_slot g isCtrl i ->
  slot_cm_id g isCtrl i = Some (id ev) ->
  (forall b k, known_slot g b k -> slot_cm_id g b k = Some (id ev) ->
               (b, k) = (isCtrl, i)) ->
  let g' := (ProcessCmEvents setup resolve g ev).2 in
  FindConnId g (id ev) = Some (isCtrl, i)
  /\ slot_state g' isCtrl i = Some CONN_STATE_CONNECTED
  /\ slot_polled g' isCtrl i = Some true.
Proof.
  intros Hev Halloc Hknown Hid Huniq g'.
  destruct (FindConnId_complete g (id ev) isCtrl i Hknown Hid) as (b & j & Hfind).
  destruct (FindConnId_sound g (id ev) b j Halloc Hfind) as [Hk Hc].
  specialize (Huniq b j Hk Hc). inversion Huniq; subst b j.
  split; [done|].
  assert (Hlen : if isCtrl then (i < length (CtrlConns g))%nat
                 else (i < length (BuffConns g))%nat).
  { unfold known_slot in Hknown. destruct isCtrl; tauto. }
  destruct (established_found setup resolve g ev isCtrl i Hev Hfind Hlen)
    as (Hst & Hpoll & _).
  done.
Qed.

(** The theorem applies: the buffer connection accepted into slot 0 with
    CM id 7 is connected by the event that carries that id. *)
Lemma C9_established_sets_connected_witness :
  FindConnId accepted (id established_7) = Some (false, 0%nat)
  /\ slot_state (ProcessCmEvents 0 0 accepted established_7).2 false 0
     = Some CONN_STATE_CONNECTED
  /\ slot_polled (ProcessCmEvents 0 0 accepted established_7).2 false 0 = Some true.
Proof.
  apply (C9_established_sets_connected 0 0 accepted established_7 false 0%nat).
  - reflexivity.
  - split; vm_compute; lia.
  - split; vm_compute; lia.
  - reflexivity.
  - intros b k Hk Hc. destruct b.
    + destruct Hk as [Hk _]. vm_compute in Hk.
      destruct k as [|[|k]]; try lia; vm_compute in Hc; discriminate.
    + destruct Hk as [Hk _]. vm_compute in Hk.
      destruct k as [|[|k]]; try lia; [reflexivity|].
      vm_compute in Hc; discriminate.
Defined.

(** ** [AllocConns] and the two searches of the buffer array *)

Lemma length_name_BuffConns n : forall conns c,
  length (name_BuffConns conns c n) = length conns.
Proof.
  induction n as [|n IH]; intros conns c; simpl; [done|].
  by rewrite IH, length_insert.
Qed.

Lemma lookup_name_BuffConns n : forall (conns : list BuffConnConfig) c i,
  name_BuffConns conns c n !! i
  = if decide (c <= i < c + n)%nat then init_BuffConn i <$> (conns !! i)
    else conns !! i.
Proof.
  induction n as [|n IH]; intros conns c i; simpl.
  - destruct (decide (c <= i < c + 0)%nat); [lia|done].
  - rewrite IH. destruct (decide (i = c)) as [->|Hne].
    + destruct (decide (S c <= c < S c + n)%nat); [lia|].
      destruct (decide (c <= c < c + S n)%nat); [|lia].
      destruct (decide (c < length conns)%nat) as [Hlt|Hge].
      * rewrite list_lookup_insert_eq by done.
        destruct (lookup_lt_is_Some_2 _ _ Hlt) as [x Hx]. rewrite Hx. simpl.
        by rewrite (list_lookup_total_correct _ _ _ Hx).
      * rewrite list_insert_ge by lia.
        by rewrite (lookup_ge_None_2 conns c) by lia.
    + rewrite list_lookup_insert_ne by done.
      destruct (decide (S c <= i < S c + n)%nat);
        destruct (decide (c <= i < c + S n)%nat); try lia; done.
Qed.

Lemma AllocConns_shaped a b : shaped a b (AllocConns a b).
Proof.
  unfold shaped, AllocConns. simpl.
  rewrite length_name_BuffConns, length_replicate, length_fmap, length_seq. done.
Qed.

Lemma AllocConns_BuffId a b i :
  (i < a)%nat ->
  BuffId <$> (BuffConns (AllocConns a b) !! i)
  = Some (if decide (i < b)%nat then Z.of_nat i else 0).
Proof.
  intros Hi. unfold AllocConns. simpl. rewrite lookup_name_BuffConns.
  rewrite lookup_replicate_2 by done.
  destruct (decide (0 <= i < 0 + b)%nat); destruct (decide (i < b)%nat);
    try lia; done.
Qed.

(** Slots of a fresh back end hold no CM id. *)
Lemma AllocConns_CmId_ctrl a b k :
  Ctrl_RemoteCmId (CtrlConns (AllocConns a b) !!! k) = 0.
Proof.
  unfold AllocConns. simpl.
  destruct (decide (k < a)%nat) as [Hlt|Hge].
  - rewrite (list_lookup_total_correct _ k (init_CtrlConn k)); [done|].
    rewrite list_lookup_fmap, lookup_seq_lt by done. done.
  - rewrite list_lookup_total_alt, (lookup_ge_None_2 _ k); [done|].
    rewrite length_fmap, length_seq. lia.
Qed.

Lemma AllocConns_CmId_buff a b k :
  RemoteCmId (BuffConns (AllocConns a b) !!! k) = 0.
Proof.
  unfold AllocConns. simpl. rewrite list_lookup_total_alt, lookup_name_BuffConns.
  destruct (decide (k < a)%nat) as [Hlt|Hge].
  - rewrite lookup_replicate_2 by done.
    by destruct (decide (0 <= k < 0 + b)%nat).
  - rewrite (lookup_ge_None_2 (replicate a zero_BuffConn) k)
      by (rewrite length_replicate; lia).
    by destruct (decide (0 <= k < 0 + b)%nat).
Qed.

Lemma FindConnId_reads_fresh a b :
  FindConnId_buff_reads (AllocConns a b) 1 = seq 0 b.
Proof.
  unfold FindConnId_buff_reads, FindConnId_ctrl, FindConnId_buff.
  rewrite scan_from_miss_reads_all.
  - cbn [fst snd]. rewrite scan_from_miss_reads_all; [done|].
    intros k _. by rewrite AllocConns_CmId_buff.
  - intros k _. by rewrite AllocConns_CmId_ctrl.
Qed.

Lemma all_occupied_shaped a b : shaped a b (all_occupied a b).
Proof.
  destruct (AllocConns_shaped a b) as (H1 & H2 & H3 & H4).
  unfold shaped, all_occupied. simpl. rewrite length_fmap.
  simpl in *. done.
Qed.

Lemma select_reads_all_occupied a b :
  (select_BuffConn (all_occupied a b)).1 = seq 0 a.
Proof.
  unfold select_BuffConn. rewrite scan_from_miss_reads_all; [done|].
  intros k Hk.
  assert (Hka : (k < a)%nat) by exact Hk.
  unfold all_occupied. cbn [BuffConns set_BuffConns].
  destruct (AllocConns_shaped a b) as (_ & _ & Hlen & _).
  assert (Hkl : (k < length (BuffConns (AllocConns a b)))%nat) by lia.
  destruct (lookup_lt_is_Some_2 _ k Hkl) as [x Hx].
  erewrite list_lookup_total_correct; [|by rewrite list_lookup_fmap, Hx].
  done.
Qed.

(** C10.  [AllocConns] creates the buffer array with [MaxClients] entries
    and names (BuffId, NextRequestContext) the first [MaxBuffs] of them,
    the others keeping the zero of [memset]; the slot search of a buffer
    connect request reads indices below [MaxClients] (all of them when no
    slot is free) and [FindConnId] reads indices below [MaxBuffs] (all of
    them when no slot holds the id); the two searches read only entries
    that exist and were named, whatever the state of the slots, exactly
    when [MaxBuffs = MaxClients]. *)
Theorem C10_searches_sound_iff_equal_bounds (maxClients maxBuffs : nat) :
  let g0 := AllocConns maxClients maxBuffs in
  shaped maxClients maxBuffs g0
  /\ (forall i, (i < maxClients)%nat ->
        BuffId <$> (BuffConns g0 !! i)
        = Some (if decide (i < maxBuffs)%nat then Z.of_nat i else 0))
  /\ (forall g i, shaped maxClients maxBuffs g ->
        i ∈ (select_BuffConn g).1 -> (i < maxClients)%nat)
  /\ (select_BuffConn (all_occupied maxClients maxBuffs)).1 = seq 0 maxClients
  /\ (forall g cm i, shaped maxClients maxBuffs g ->
        i ∈ FindConnId_buff_reads g cm -> (i < maxBuffs)%nat)
  /\ FindConnId_buff_reads g0 1 = seq 0 maxBuffs
  /\ ((forall g cm, shaped maxClients maxBuffs g ->
         Forall (entry_ok g) ((select_BuffConn g).1 ++ FindConnId_buff_reads g cm))
      <-> maxBuffs = maxClients).
Proof.
  intros g0.
  assert (Hsel : forall g i, shaped maxClients maxBuffs g ->
            i ∈ (select_BuffConn g).1 -> (i < maxClients)%nat).
  { intros g i (HC & _) Hi. unfold select_BuffConn in Hi.
    apply scan_from_reads_bound in Hi. lia. }
  assert (Hfind : forall g cm i, shaped maxClients maxBuffs g ->
            i ∈ FindConnId_buff_reads g cm -> (i < maxBuffs)%nat).
  { intros g cm i (_ & HB & _) Hi. unfold FindConnId_buff_reads in Hi.
    destruct ((FindConnId_ctrl g cm).2); [by apply elem_of_nil in Hi|].
    unfold FindConnId_buff in Hi. apply scan_from_reads_bound in Hi. lia. }
  split; [apply AllocConns_shaped|].
  split; [intros i Hi; by apply AllocConns_BuffId|].
  split; [done|].
  split; [apply select_reads_all_occupied|].
  split; [done|].
  split; [apply FindConnId_reads_fresh|].
  split.
  - intros Hall.
    destruct (decide (maxBuffs = maxClients)) as [|Hne]; [done|exfalso].
    destruct (decide (maxBuffs < maxClients)%nat) as [Hlt|Hge].
    + specialize (Hall (all_occupied maxClients maxBuffs) 0
                    (all_occupied_shaped _ _)).
      rewrite select_reads_all_occupied in Hall.
      apply Forall_app in Hall as [Hall _].
      rewrite list.Forall_forall in Hall.
      destruct (Hall maxBuffs) as [_ Hin]; [apply elem_of_seq; lia|].
      unfold AllocConns_writes in Hin.
      destruct (all_occupied_shaped maxClients maxBuffs) as (_ & HB & _).
      rewrite HB in Hin. apply elem_of_seq in Hin. lia.
    + specialize (Hall g0 1 (AllocConns_shaped _ _)).
      subst g0. rewrite FindConnId_reads_fresh in Hall.
      apply Forall_app in Hall as [_ Hall].
      rewrite list.Forall_forall in Hall.
      destruct (Hall maxClients) as [Hin _]; [apply elem_of_seq; lia|].
      destruct (AllocConns_shaped maxClients maxBuffs) as (_ & _ & Hlen & _).
      lia.
  - intros -> g cm Hg. apply Forall_app. split; apply list.Forall_forall; intros i Hi.
    + pose proof (Hsel g i Hg Hi). destruct Hg as (_ & HB & Hlen & _).
      split; [lia|]. unfold AllocConns_writes. apply elem_of_seq. lia.
    + pose proof (Hfind g cm i Hg Hi). destruct Hg as (_ & HB & Hlen & _).
      split; [lia|]. unfold AllocConns_writes. apply elem_of_seq. lia.
Qed.

End ConnectionFacts.

Module DataPlaneFacts.

Import FileBackEnd BackEndExamples.

(** ** Fixed-width conversions on values in range *)

Lemma u32_small x : 0 <= x < 2 ^ 32 -> u32 x = x.
Proof. intros Hx. unfold u32. by apply Z.mod_small. Qed.

Lemma int32_small x : - 2 ^ 31 <= x < 2 ^ 31 -> int32 x = x.
Proof. intros Hx. unfold int32. rewrite Z.mod_small; lia. Qed.

Lemma wrap_at_mod capacity p :
  0 < capacity -> 0 <= p -> wrap_at capacity p = p mod capacity.
Proof.
  intros Hc Hp. unfold wrap_at. destruct (Z.geb_spec p capacity) as [Hge|Hlt].
  - apply Z.rem_mod_nonneg; lia.
  - symmetry. apply Z.mod_small. lia.
Qed.

(** ** The request-meta completion *)

(** C1.  On a [BUFF_READ_REQUEST_META] completion of a buffer connection
    (work requests set up, cursors within the ring, a non-null remote ring
    address): if the fetched tail equals the local head, or differs from
    the fetched progress, only the request-meta read is posted again;
    otherwise, if progress > head, one data read of progress - head bytes is
    posted and the split state is NOT_SPLIT, and if progress < head, two
    data reads of REQUEST_RING_BYTES - head and progress bytes are posted
    and the split state is SPLIT; in both ready cases the local head becomes
    progress and the head-update write is posted last. *)
Theorem C1_request_meta_completion (K : Consts) (c : BuffConnConfig) :
  work_requests_set_up c ->
  0 <= Head (RequestRing c) <= DDS_REQUEST_RING_BYTES K ->
  DDS_REQUEST_RING_BYTES K < 2 ^ 32 ->
  0 <= RequestDMAReadMetaBuff c 0 < 2 ^ 31 ->
  u64 (Request_DataBaseAddr (RequestRing c)) <> 0 ->
  request_meta_handled K c.
Proof.
  intros (Hdata & Hsplit & Hrmeta & Hwmeta & _) Hhead Hring Hprog Hbase.
  destruct Hdata as [Hd1 Hd2]. destruct Hsplit as [Hs1 Hs2].
  destruct Hrmeta as [Hr1 Hr2]. destruct Hwmeta as [Hw1 Hw2].
  unfold request_meta_handled. cbv zeta.
  set (progress := RequestDMAReadMetaBuff c 0) in *.
  set (tail := RequestDMAReadMetaBuff c (DDS_CACHE_LINE_SIZE_BY_INT K)).
  set (head := Head (RequestRing c)) in *.
  split; [|split].
  - intros Hnot.
    assert (Hb : (tail =? head) || negb (tail =? progress) = true).
    { destruct Hnot as [->|Hne].
      - by rewrite Z.eqb_refl.
      - apply orb_true_iff. right. apply negb_true_iff. by apply Z.eqb_neq. }
    unfold on_READ_REQUEST_META. fold progress tail head. rewrite Hb.
    done.
  - intros Hth Htp Hgt.
    assert (Hb : (tail =? head) || negb (tail =? progress) = false).
    { apply orb_false_iff. split; [by apply Z.eqb_neq|].
      apply negb_false_iff. by apply Z.eqb_eq. }
    unfold on_READ_REQUEST_META. fold progress tail head. rewrite Hb.
    assert (Hg : (progress >? head) = true) by (apply Z.gtb_lt; lia).
    rewrite Hg. rewrite Z.eqb_refl. cbn. unfold fill_wr.
    rewrite Hd1, Hd2, (u32_small (progress - head)) by lia.
    rewrite <- app_assoc. done.
  - intros Hth Htp Hlt.
    assert (Hb : (tail =? head) || negb (tail =? progress) = false).
    { apply orb_false_iff. split; [by apply Z.eqb_neq|].
      apply negb_false_iff. by apply Z.eqb_eq. }
    unfold on_READ_REQUEST_META. fold progress tail head. rewrite Hb.
    assert (Hg : (progress >? head) = false).
    { destruct (Z.gtb_spec progress head); [lia|done]. }
    rewrite Hg.
    assert (Hz : (u64 (Request_DataBaseAddr (RequestRing c)) =? 0) = false)
      by (by apply Z.eqb_neq).
    rewrite Hz. cbn. unfold fill_wr.
    rewrite Hd1, Hd2, Hs1, Hs2.
    rewrite (u32_small (DDS_REQUEST_RING_BYTES K - head)) by lia.
    rewrite (u32_small progress) by lia.
    rewrite (u32_small (DDS_REQUEST_RING_BYTES K - head + progress)) by lia.
    rewrite <- !app_assoc. done.
Qed.

(** The theorem applies to the wrapped request of 48 bytes at offset 4080
    of a ring of 4096 bytes. *)
Lemma C1_request_meta_completion_witness : request_meta_handled K4096 request_wrapped.
Proof.
  apply C1_request_meta_completion.
  - repeat split.
  - by_evaluation.
  - by_evaluation.
  - by_evaluation.
  - by_evaluation.
Defined.

(** The reads it posts are those of 32 and of 16 bytes. *)
Example request_wrapped_posts :
  SendQueue (on_READ_REQUEST_META K4096 request_wrapped)
  = [ mkWr BUFF_READ_REQUEST_DATA_SPLIT_WR_ID IBV_WR_RDMA_READ 65536 262144 32;
      mkWr BUFF_READ_REQUEST_DATA_WR_ID IBV_WR_RDMA_READ 69616 266224 16;
      mkWr BUFF_WRITE_REQUEST_META_WR_ID IBV_WR_RDMA_WRITE 1152 2176 4 ].
Proof. reflexivity. Qed.

(** ** The response-meta completion *)

Lemma response_pending_range (K : Consts) (c : BuffConnConfig) :
  0 <= TailB (ResponseRing c) < BACKEND_RESPONSE_BUFFER_SIZE K ->
  0 <= TailC (ResponseRing c) < BACKEND_RESPONSE_BUFFER_SIZE K ->
  BACKEND_RESPONSE_BUFFER_SIZE K <= 2 ^ 30 ->
  0 <= response_pending_bytes K c < BACKEND_RESPONSE_BUFFER_SIZE K.
Proof.
  intros HB HC Hsize. unfold response_pending_bytes, DistanceBetweenPointers.
  destruct (Z.geb_spec (TailB (ResponseRing c)) (TailC (ResponseRing c))).
  - lia.
  - rewrite int32_small; lia.
Qed.

(** C4.  On a [BUFF_READ_RESPONSE_META] completion of a buffer connection
    with completed responses pending ([TailC <> TailB]; work requests set
    up, cursors within the ring, a non-null staging buffer): if the fetched
    head and progress differ, or the free distance from [TailC] to the
    fetched head is smaller than the pending byte count, only the
    response-meta read is posted again and [TailC] stays; otherwise the one
    data write, or the two data writes split at the end of the ring, are
    posted, then the [TailC] meta write, and [TailC] advances by the
    pending byte count modulo the ring size. *)
Theorem C4_response_meta_completion (K : Consts) (c : BuffConnConfig) :
  work_requests_set_up c ->
  TailC (ResponseRing c) <> TailB (ResponseRing c) ->
  0 <= TailB (ResponseRing c) < BACKEND_RESPONSE_BUFFER_SIZE K ->
  0 <= TailC (ResponseRing c) < BACKEND_RESPONSE_BUFFER_SIZE K ->
  BACKEND_RESPONSE_BUFFER_SIZE K <= 2 ^ 30 ->
  TailC (ResponseRing c) < DDS_RESPONSE_RING_BYTES K <= 2 ^ 30 ->
  0 <= ResponseDMAReadMetaBuff c (DDS_CACHE_LINE_SIZE_BY_INT K)
    <= DDS_RESPONSE_RING_BYTES K ->
  u64 (ResponseDMAWriteDataBuff c) <> 0 ->
  response_meta_handled K c.
Proof.
  intros (_ & _ & _ & _ & [Hd1 Hd2] & [Hs1 Hs2] & [Hr1 Hr2] & [Hw1 Hw2])
    Hne HB HC Hsize Hring Hhead Hbuff.
  pose proof (response_pending_range K c HB HC Hsize) as Hpend.
  unfold response_meta_handled. cbv zeta.
  set (progress := ResponseDMAReadMetaBuff c 0).
  set (head := ResponseDMAReadMetaBuff c (DDS_CACHE_LINE_SIZE_BY_INT K)) in *.
  set (tailC := TailC (ResponseRing c)) in *.
  set (pending := response_pending_bytes K c) in *.
  assert (Hstart : (tailC =? TailB (ResponseRing c)) = false)
    by (by apply Z.eqb_neq).
  assert (Hu : u32 pending = pending) by (apply u32_small; lia).
  assert (Hpd : DistanceBetweenPointers (TailB (ResponseRing c)) tailC
                  (BACKEND_RESPONSE_BUFFER_SIZE K) = pending) by reflexivity.
  assert (Hfree : (if tailC >=? head
                   then u32 (head + DDS_RESPONSE_RING_BYTES K - tailC)
                   else u32 (head - tailC))
                  = response_free_distance K c head).
  { unfold response_free_distance. fold tailC.
    destruct (Z.geb_spec tailC head); apply u32_small; lia. }
  split; [|split].
  - intros Hnot. unfold on_READ_RESPONSE_META.
    fold progress head tailC. rewrite Hstart.
    destruct (Z.eqb_spec head progress) as [Heq|Hneq]; simpl; [|done].
    destruct Hnot as [Hnot|Hlt]; [done|].
    rewrite Hpd, Hu, Hfree.
    assert (Hl : (response_free_distance K c head <? pending) = true)
      by (apply Z.ltb_lt; lia).
    rewrite Hl. done.
  - intros Heq Hle Hfit. unfold on_READ_RESPONSE_META.
    fold progress head tailC. rewrite Hstart.
    assert (Hp : (head =? progress) = true) by (by apply Z.eqb_eq).
    rewrite Hp. simpl.
    rewrite Hpd, Hu, Hfree.
    assert (Hl : (response_free_distance K c head <? pending) = false)
      by (apply Z.ltb_ge; lia).
    rewrite Hl.
    rewrite (u32_small (tailC + pending)) by lia.
    assert (Hf : (tailC + pending <=? DDS_RESPONSE_RING_BYTES K) = true)
      by (apply Z.leb_le; lia).
    rewrite Hf, Z.eqb_refl. cbn. unfold fill_wr.
    rewrite Hd1, Hd2, <- app_assoc.
    split; [done|]. split; [|done].
    apply int32_small.
    pose proof (Z.mod_pos_bound (tailC + pending) (DDS_RESPONSE_RING_BYTES K)).
    lia.
  - intros Heq Hle Hfit. unfold on_READ_RESPONSE_META.
    fold progress head tailC. rewrite Hstart.
    assert (Hp : (head =? progress) = true) by (by apply Z.eqb_eq).
    rewrite Hp. simpl.
    rewrite Hpd, Hu, Hfree.
    assert (Hl : (response_free_distance K c head <? pending) = false)
      by (apply Z.ltb_ge; lia).
    rewrite Hl.
    rewrite (u32_small (tailC + pending)) by lia.
    assert (Hf : (tailC + pending <=? DDS_RESPONSE_RING_BYTES K) = false)
      by (apply Z.leb_gt; lia).
    rewrite Hf.
    assert (Hz : (u64 (ResponseDMAWriteDataBuff c) =? 0) = false)
      by (by apply Z.eqb_neq).
    rewrite Hz. cbn. unfold fill_wr.
    rewrite Hd1, Hd2, Hs1, Hs2, <- !app_assoc.
    rewrite (u32_small (DDS_RESPONSE_RING_BYTES K - tailC)) by lia.
    rewrite (u32_small (pending - (DDS_RESPONSE_RING_BYTES K - tailC))) by lia.
    split; [done|]. split; [|done].
    apply int32_small.
    pose proof (Z.mod_pos_bound (tailC + pending) (DDS_RESPONSE_RING_BYTES K)).
    lia.
Qed.

(** The theorem applies to 120 pending bytes at offset 4032 of a ring of
    4096 bytes that the host has drained. *)
Lemma C4_response_meta_completion_witness : response_meta_handled K4096 responses_wrapped.
Proof.
  apply C4_response_meta_completion.
  - repeat split.
  - by_evaluation.
  - by_evaluation.
  - by_evaluation.
  - by_evaluation.
  - by_evaluation.
  - by_evaluation.
  - by_evaluation.
Defined.

(** The writes it posts are those of 56 and of 64 bytes; [TailC] becomes 56. *)
Example responses_wrapped_posts :
  SendQueue (on_READ_RESPONSE_META K4096 responses_wrapped)
  = [ mkWr BUFF_WRITE_RESPONSE_DATA_SPLIT_WR_ID IBV_WR_RDMA_WRITE 131072 524288 56;
      mkWr BUFF_WRITE_RESPONSE_DATA_WR_ID IBV_WR_RDMA_WRITE 135104 528320 64;
      mkWr BUFF_WRITE_RESPONSE_META_WR_ID IBV_WR_RDMA_WRITE 3200 4224 4 ]
  /\ TailC (ResponseRing (on_READ_RESPONSE_META K4096 responses_wrapped)) = 56.
Proof. split; reflexivity. Qed.

End DataPlaneFacts.

Module ExecuteFacts.

Import FileBackEnd BackEndExamples DataPlaneFacts.

(** ** Ring arithmetic *)

Lemma ring_advance_mod capacity p n :
  0 < capacity <= 2 ^ 30 -> 0 <= p < capacity -> 0 <= n <= 2 ^ 30 ->
  ring_advance capacity p n = (p + n) mod capacity.
Proof.
  intros Hc Hp Hn. unfold ring_advance.
  rewrite int32_small by lia. apply wrap_at_mod; lia.
Qed.

Lemma ring_advance_range capacity p n :
  0 < capacity <= 2 ^ 30 -> 0 <= p < capacity -> 0 <= n <= 2 ^ 30 ->
  0 <= ring_advance capacity p n < capacity.
Proof.
  intros Hc Hp Hn. rewrite ring_advance_mod by done.
  apply Z.mod_pos_bound. lia.
Qed.

Lemma u32_range x : 0 <= u32 x < 2 ^ 32.
Proof. unfold u32. apply Z.mod_pos_bound. lia. Qed.

Lemma u32_add_l a b : u32 (u32 a + b) = u32 (a + b).
Proof. unfold u32. by rewrite Zplus_mod_idemp_l. Qed.

(** ** One turn of the parsing loop *)

Section Loop.

Variable K : Consts.

Lemma execute_one_fields (s : ExecState) :
  let s1 := execute_one K s in
  let r := record_at K s in
  bytesParsed s1 = u32 (bytesParsed s + rec_size r)
  /\ progressReq s1
     = ring_advance (BACKEND_REQUEST_BUFFER_SIZE K) (progressReq s) (rec_size r)
  /\ progressResp s1
     = ring_advance (BACKEND_RESPONSE_BUFFER_SIZE K) (progressResp s) (respSize_of K r)
  /\ totalRespSize s1 = u32 (totalRespSize s + respSize_of K r)
  /\ RequestMem (exec_conn s1) = RequestMem (exec_conn s)
  /\ ResponseRing (exec_conn s1) = ResponseRing (exec_conn s)
  /\ exists stub,
       exec_stubs s1
       = exec_stubs s
         ++ [mkServed (progressResp s) (respSize_of K r) stub
               (negb (is_write K (rec_size r)))]
       /\ RequestId stub = Req_RequestId (rec_header r)
       /\ Result stub = DDS_ERROR_CODE_IO_PENDING K.
Proof.
  unfold execute_one, respSize_of, record_at. cbn [rec_size rec_header].
  destruct (is_write K (req_size_at (RequestMem (exec_conn s)) (progressReq s)));
    cbn; repeat split; eexists; repeat split.
Qed.

Hypothesis HK : consts_in_range K.

Lemma is_write_spec (r : RequestRecord) :
  well_framed K r -> rec_size r < 2 ^ 32 ->
  is_write K (rec_size r)
  = bool_decide (rec_size r > sizeof_FileIOSizeT K + sizeof_BuffMsgF2BReqHeader K).
Proof.
  destruct HK as (Hf & Hq & _). intros Hr Hlt. unfold well_framed in Hr.
  unfold is_write. rewrite u32_small by lia.
  destruct (Z.gtb_spec (rec_size r - sizeof_FileIOSizeT K)
              (sizeof_BuffMsgF2BReqHeader K)) as [Hgt|Hle].
  - symmetry. apply bool_decide_eq_true. lia.
  - symmetry. apply bool_decide_eq_false. lia.
Qed.



Lemma total_size_lower records :
  Forall (well_framed K) records -> 0 <= total_size records.
Proof.
  destruct HK as (Hf & Hq & _). unfold total_size.
  induction 1 as [|r rest Hr _ IH]; simpl; [done|].
  unfold well_framed in Hr. lia.
Qed.

(** The loop serves framed records one after the other. *)
Lemma execute_loop_framed (bytesTotal : Z) :
  bytesTotal <= BACKEND_REQUEST_BUFFER_SIZE K - 1 ->
  forall records s,
  Forall (well_framed K) records ->
  framed K (RequestMem (exec_conn s)) (progressReq s) records ->
  0 <= progressReq s < BACKEND_REQUEST_BUFFER_SIZE K ->
  0 <= bytesParsed s ->
  bytesParsed s + total_size records = bytesTotal ->
  0 <= totalRespSize s < 2 ^ 32 ->
  exists s' new,
    execute_loop K (length records) bytesTotal s = Some s'
    /\ exec_stubs s' = exec_stubs s ++ new
    /\ Forall2 (serves K) new records
    /\ served_at <$> new = stub_offsets K (progressResp s) records
    /\ totalRespSize s' = u32 (totalRespSize s + response_bytes K records)
    /\ progressResp s'
       = foldl (fun p r => ring_advance (BACKEND_RESPONSE_BUFFER_SIZE K) p
                             (respSize_of K r))
           (progressResp s) records
    /\ ResponseRing (exec_conn s') = ResponseRing (exec_conn s).
Proof.
  intros Htotal. pose proof HK as (Hf & Hq & Ha & Hal & Hreq & Hresp & _).
  induction records as [|r rest IH]; intros s Hwf Hfr Hp Hb Hsum Ht.
  - exists s, []. simpl in *.
    assert (Heq : (bytesParsed s =? bytesTotal) = true) by (apply Z.eqb_eq; lia).
    rewrite Heq, app_nil_r, Z.add_0_r, u32_small by done.
    repeat split; try done; constructor.
  - apply list.Forall_cons in Hwf as [Hr Hrest].
    destruct Hfr as (Hsize & Hhdr & Hfr).
    pose proof (total_size_lower rest Hrest) as Hlow.
    assert (Hpos : sizeof_FileIOSizeT K + sizeof_BuffMsgF2BReqHeader K <= rec_size r)
      by exact Hr.
    change (total_size (r :: rest)) with (rec_size r + total_size rest) in Hsum.
    assert (Hne : (bytesParsed s =? bytesTotal) = false) by (apply Z.eqb_neq; lia).
    assert (Hrec : record_at K s = r).
    { unfold record_at. rewrite Hsize, Hhdr. by destruct r. }
    destruct (execute_one_fields s)
      as (Hbp & Hpq & Hpr & Htot & Hmem & Hring & stub & Hstubs & Hid & Hres).
    rewrite Hrec in *.
    set (s1 := execute_one K s) in *.
    assert (Hadv : progressReq s1
                   = (progressReq s + rec_size r) mod BACKEND_REQUEST_BUFFER_SIZE K).
    { rewrite Hpq. apply ring_advance_mod; lia. }
    destruct (IH s1) as (s' & new & Hloop & Hnew & Hserves & Hoffs & Htot' & Hfold & Hring').
    + done.
    + by rewrite Hmem, Hadv.
    + rewrite Hadv. apply Z.mod_pos_bound. lia.
    + rewrite Hbp. apply u32_range.
    + rewrite Hbp, u32_small by lia. lia.
    + rewrite Htot. apply u32_range.
    + exists s', (mkServed (progressResp s) (respSize_of K r) stub
                    (negb (is_write K (rec_size r))) :: new).
      change (length (r :: rest)) with (S (length rest)).
      cbn [execute_loop]. rewrite Hne. fold s1.
      split; [done|].
      split; [by rewrite Hnew, Hstubs, <- app_assoc|].
      split.
      { constructor; [|done]. unfold serves. cbn [served_stub served_size served_as_read].
        rewrite (is_write_spec r Hr) by lia. rewrite negb_involutive.
        split; [done|]. split; [done|]. split; [done|]. split; [|done].
        destruct (decide (rec_size r
                          > sizeof_FileIOSizeT K + sizeof_BuffMsgF2BReqHeader K)).
        - rewrite bool_decide_eq_true_2 by done. simpl.
          symmetry. apply bool_decide_eq_false. lia.
        - rewrite bool_decide_eq_false_2 by done. simpl.
          symmetry. apply bool_decide_eq_true. lia. }
      split; [cbn [fmap list_fmap served_at stub_offsets]; by rewrite Hoffs, Hpr|].
      split.
      { rewrite Htot', Htot, u32_add_l. f_equal.
        change (response_bytes K (r :: rest))
          with (respSize_of K r + response_bytes K rest). lia. }
      split; [by rewrite Hfold, Hpr|].
      by rewrite Hring', Hring.
Qed.


Lemma exec_headReq_range (c : BuffConnConfig) :
  0 <= Head (RequestRing c) < BACKEND_REQUEST_BUFFER_SIZE K ->
  0 <= RequestDMAReadDataSize c <= BACKEND_REQUEST_BUFFER_SIZE K - 1 ->
  0 <= exec_headReq K c < BACKEND_REQUEST_BUFFER_SIZE K.
Proof.
  pose proof HK as (_ & _ & _ & _ & Hreq & _).
  intros Hh Hs. unfold exec_headReq. rewrite u32_small by lia.
  destruct (Z.geb_spec (Head (RequestRing c)) (RequestDMAReadDataSize c));
    rewrite int32_small; lia.
Qed.


(** The loop, started as [ExecuteRequests] starts it. *)
Lemma execute_loop_from_init (c : BuffConnConfig) records :
  0 <= Head (RequestRing c) < BACKEND_REQUEST_BUFFER_SIZE K ->
  Forall (well_framed K) records ->
  framed K (RequestMem c) (exec_headReq K c) records ->
  total_size records = RequestDMAReadDataSize c ->
  total_size records <= BACKEND_REQUEST_BUFFER_SIZE K - 1 ->
  exists s',
    execute_loop K (length records) (RequestDMAReadDataSize c) (exec_init K c) = Some s'
    /\ Forall2 (serves K) (exec_stubs s') records
    /\ served_at <$> exec_stubs s' = stub_offsets K (progressResp (exec_init K c)) records
    /\ totalRespSize s' = u32 (reserved_bytes K records)
    /\ progressResp s'
       = foldl (fun p r => ring_advance (BACKEND_RESPONSE_BUFFER_SIZE K) p
                             (respSize_of K r))
           (progressResp (exec_init K c)) records
    /\ ResponseRing (exec_conn s') = ResponseRing c.
Proof.
  intros Hh Hwf Hfr Hsum Hle.
  pose proof (total_size_lower records Hwf) as Hlow.
  pose proof (exec_headReq_range c Hh ltac:(lia)) as Hhead.
  assert (Hinit : exec_conn (exec_init K c) = c
                  /\ progressReq (exec_init K c) = exec_headReq K c
                  /\ bytesParsed (exec_init K c) = 0
                  /\ exec_stubs (exec_init K c) = []
                  /\ totalRespSize (exec_init K c) = u32 (batch_header_bytes K)).
  { unfold exec_init, batch_header_bytes.
    destruct (RING_BUFFER_RESPONSE_BATCH_ENABLED K); repeat split. }
  destruct Hinit as (Hc & Hp & Hb & Hst & Ht).
  destruct (execute_loop_framed (RequestDMAReadDataSize c) ltac:(lia) records
              (exec_init K c))
    as (s' & new & Hloop & Hnew & Hserves & Hoffs & Htot & Hfold & Hring).
  - done.
  - by rewrite Hc, Hp.
  - by rewrite Hp.
  - rewrite Hb. lia.
  - rewrite Hb. lia.
  - rewrite Ht. apply u32_range.
  - exists s'. rewrite Hst in Hnew. simpl in Hnew. subst new.
    rewrite Hc in Hring. rewrite Ht, u32_add_l in Htot. done.
Qed.


End Loop.






End ExecuteFacts.

Module SweepFacts.

Import FileBackEnd BackEndExamples DataPlaneFacts.

Section Sweep.

Variable K : Consts.

(** ** Runs of completed responses *)






(** ** The two sweeps *)



End Sweep.



(** After that sweep [TailB] stands at the end of the batch and the poll is
    in the send queue; with the second response still pending the sweep
    stops before it and posts nothing. *)
Example two_swept_posts :
  TailB (ResponseRing two_swept) = 48
  /\ SendQueue two_swept = [ResponseDMAReadMetaWr two_completed]
  /\ (exists c', CheckAndProcessIOCompletions_conn K4096 3 (complete_at 12 two_reserved)
                 = Some c'
                 /\ TailB (ResponseRing c') = 24 /\ SendQueue c' = []).
Proof.
  split; [vm_compute; reflexivity|]. split; [vm_compute; reflexivity|].
  eexists. split; [vm_compute; reflexivity|]. split; vm_compute; reflexivity.
Qed.

End SweepFacts.

(* ===================================================================== *)
(** * Part III: further properties of the code                            *)
(* ===================================================================== *)

Module CacheTableLaws.
Import CacheTable CacheExamples CacheNotions CacheTableFacts.

Section Frame.
Variable cfg : Config.

Lemma bucketPos_lt h :
  0 <= CACHE_TABLE_BUCKET_COUNT_POWER cfg ->
  (bucketPos cfg h < Z.to_nat (CACHE_TABLE_BUCKET_COUNT cfg))%nat.
Proof.
  intros Hp. unfold bucketPos, mask, CACHE_TABLE_BUCKET_COUNT.
  rewrite Z.shiftl_1_l.
  replace (2 ^ CACHE_TABLE_BUCKET_COUNT_POWER cfg - 1)
    with (Z.ones (CACHE_TABLE_BUCKET_COUNT_POWER cfg)) by (rewrite Z.ones_equiv; lia).
  rewrite Z.land_ones by done.
  pose proof (Z.mod_pos_bound h (2 ^ CACHE_TABLE_BUCKET_COUNT_POWER cfg)
                ltac:(apply Z.pow_pos_nonneg; lia)).
  lia.
Qed.

Lemma bucketPos_in (t : CacheTableT) h :
  config_sound cfg -> table_shaped cfg t -> (bucketPos cfg h < length t)%nat.
Proof. intros [Hp _] [Hl _]. rewrite Hl. by apply bucketPos_lt. Qed.

Lemma shaped_lookup (t : CacheTableT) pos :
  table_shaped cfg t -> (pos < length t)%nat -> bucket_shaped cfg (t !!! pos).
Proof.
  intros [_ Hall] Hpos.
  destruct (lookup_lt_is_Some_2 t pos Hpos) as [b Hb].
  rewrite (list_lookup_total_correct _ _ _ Hb).
  by apply (Forall_lookup_1 _ _ _ _ Hall Hb).
Qed.

(** *** reads after writes *)

Lemma get_HashValue_set_Element p e x (t : CacheTableT) pos k :
  get_HashValue (set_Element p e x t) pos k = get_HashValue t pos k.
Proof.
  unfold get_HashValue, set_Element.
  destruct (decide (p = pos)) as [->|Hne].
  - destruct (decide (pos < length t)%nat) as [Hlt|Hge].
    + by rewrite lookup_total_insert_same.
    + by rewrite list_insert_ge by lia.
  - by rewrite lookup_total_insert_other.
Qed.

Lemma get_Element_set_HashValue p e h (t : CacheTableT) pos k :
  get_Element (set_HashValue p e h t) pos k = get_Element t pos k.
Proof.
  unfold get_Element, set_HashValue.
  destruct (decide (p = pos)) as [->|Hne].
  - destruct (decide (pos < length t)%nat) as [Hlt|Hge].
    + by rewrite lookup_total_insert_same.
    + by rewrite list_insert_ge by lia.
  - by rewrite lookup_total_insert_other.
Qed.

Lemma get_Element_set_Element_same p e x (t : CacheTableT) :
  (p < length t)%nat -> (e < length (Elements (t !!! p)))%nat ->
  get_Element (set_Element p e x t) p e = x.
Proof.
  intros Hp He. unfold get_Element, set_Element.
  rewrite lookup_total_insert_same by done. cbn.
  by rewrite lookup_total_insert_same.
Qed.

Lemma get_Element_set_Element_other p e x (t : CacheTableT) pos k :
  (p, e) <> (pos, k) ->
  get_Element (set_Element p e x t) pos k = get_Element t pos k.
Proof.
  intros Hne. unfold get_Element, set_Element.
  destruct (decide (p = pos)) as [->|Hp].
  - destruct (decide (pos < length t)%nat) as [Hlt|Hge].
    + rewrite lookup_total_insert_same by done. cbn.
      rewrite lookup_total_insert_other; [done|]. intros ->. by apply Hne.
    + by rewrite list_insert_ge by lia.
  - by rewrite lookup_total_insert_other.
Qed.

Lemma get_HashValue_set_HashValue_same p e h (t : CacheTableT) :
  (p < length t)%nat -> (e < length (HashValues (t !!! p)))%nat ->
  get_HashValue (set_HashValue p e h t) p e = h.
Proof.
  intros Hp He. unfold get_HashValue, set_HashValue.
  rewrite lookup_total_insert_same by done. cbn.
  by rewrite lookup_total_insert_same.
Qed.

Lemma get_HashValue_set_HashValue_other p e h (t : CacheTableT) pos k :
  (p, e) <> (pos, k) ->
  get_HashValue (set_HashValue p e h t) pos k = get_HashValue t pos k.
Proof.
  intros Hne. unfold get_HashValue, set_HashValue.
  destruct (decide (p = pos)) as [->|Hp].
  - destruct (decide (pos < length t)%nat) as [Hlt|Hge].
    + rewrite lookup_total_insert_same by done. cbn.
      rewrite lookup_total_insert_other; [done|]. intros ->. by apply Hne.
    + by rewrite list_insert_ge by lia.
  - by rewrite lookup_total_insert_other.
Qed.

(** *** the occupied flag *)

Lemma Occ_set_Occ_same p v (t : CacheTableT) :
  (p < length t)%nat -> Occ (set_Occ p v t !!! p) = v.
Proof. intros Hp. unfold set_Occ. by rewrite lookup_total_insert_same. Qed.

Lemma Occ_set_Occ_other p v (t : CacheTableT) pos :
  p <> pos -> Occ (set_Occ p v t !!! pos) = Occ (t !!! pos).
Proof. intros Hp. unfold set_Occ. by rewrite lookup_total_insert_other. Qed.

(** *** shape *)

Lemma shaped_insert (t : CacheTableT) pos b :
  table_shaped cfg t -> bucket_shaped cfg b -> table_shaped cfg (<[pos := b]> t).
Proof.
  intros [Hl Hall] Hb. split; [by rewrite length_insert|].
  destruct (decide (pos < length t)%nat) as [Hlt|Hge].
  - by apply Forall_insert.
  - by rewrite list_insert_ge by lia.
Qed.

Lemma shaped_bucket_or_default (t : CacheTableT) pos :
  table_shaped cfg t -> (pos < length t)%nat \/ <[pos := t !!! pos]> t = t.
Proof.
  intros _. destruct (decide (pos < length t)%nat); [by left|right].
  by rewrite list_insert_ge by lia.
Qed.

Lemma shaped_set_Occ p v (t : CacheTableT) :
  table_shaped cfg t -> table_shaped cfg (set_Occ p v t).
Proof.
  intros Ht. unfold set_Occ.
  destruct (decide (p < length t)%nat) as [Hlt|Hge].
  - apply shaped_insert; [done|]. by apply (shaped_lookup t p Ht Hlt).
  - by rewrite list_insert_ge by lia.
Qed.

Lemma shaped_set_Element p e x (t : CacheTableT) :
  table_shaped cfg t -> table_shaped cfg (set_Element p e x t).
Proof.
  intros Ht. unfold set_Element.
  destruct (decide (p < length t)%nat) as [Hlt|Hge].
  - apply shaped_insert; [done|].
    destruct (shaped_lookup t p Ht Hlt) as [Hh He].
    split; cbn; [done|by rewrite length_insert].
  - by rewrite list_insert_ge by lia.
Qed.

Lemma shaped_set_HashValue p e h (t : CacheTableT) :
  table_shaped cfg t -> table_shaped cfg (set_HashValue p e h t).
Proof.
  intros Ht. unfold set_HashValue.
  destruct (decide (p < length t)%nat) as [Hlt|Hge].
  - apply shaped_insert; [done|].
    destruct (shaped_lookup t p Ht Hlt) as [Hh He].
    split; cbn; [by rewrite length_insert|done].
  - by rewrite list_insert_ge by lia.
Qed.


(** *** a slot write *)

Lemma length_store_slot pos e x h v1 v2 (t : CacheTableT) :
  length (store_slot pos e x h v1 v2 t) = length t.
Proof.
  unfold store_slot.
  by rewrite length_set_Occ, length_set_HashValue, length_set_Element, length_set_Occ.
Qed.

Lemma shaped_store_slot pos e x h v1 v2 (t : CacheTableT) :
  table_shaped cfg t -> table_shaped cfg (store_slot pos e x h v1 v2 t).
Proof.
  intros Ht. unfold store_slot.
  by apply shaped_set_Occ, shaped_set_HashValue, shaped_set_Element, shaped_set_Occ.
Qed.

Lemma get_Element_store_same pos e x h v1 v2 (t : CacheTableT) :
  table_shaped cfg t -> (pos < length t)%nat -> (e < BUCKET_SIZE cfg)%nat ->
  get_Element (store_slot pos e x h v1 v2 t) pos e = x.
Proof.
  intros Ht Hpos He. unfold store_slot.
  rewrite get_Element_set_Occ, get_Element_set_HashValue.
  apply get_Element_set_Element_same; [by rewrite length_set_Occ|].
  pose proof (shaped_set_Occ pos v1 t Ht) as Ht1.
  destruct (shaped_lookup _ pos Ht1) as [_ Hl]; [by rewrite length_set_Occ|].
  by rewrite Hl.
Qed.

Lemma get_Element_store_other pos e x h v1 v2 (t : CacheTableT) p k :
  (pos, e) <> (p, k) ->
  get_Element (store_slot pos e x h v1 v2 t) p k = get_Element t p k.
Proof.
  intros Hne. unfold store_slot.
  rewrite get_Element_set_Occ, get_Element_set_HashValue.
  rewrite get_Element_set_Element_other by done.
  by rewrite get_Element_set_Occ.
Qed.

Lemma get_HashValue_store_same pos e x h v1 v2 (t : CacheTableT) :
  table_shaped cfg t -> (pos < length t)%nat -> (e < BUCKET_SIZE cfg)%nat ->
  get_HashValue (store_slot pos e x h v1 v2 t) pos e = h.
Proof.
  intros Ht Hpos He. unfold store_slot.
  rewrite get_HashValue_set_Occ.
  apply get_HashValue_set_HashValue_same;
    [by rewrite length_set_Element, length_set_Occ|].
  pose proof (shaped_set_Element pos e x _ (shaped_set_Occ pos v1 t Ht)) as Ht1.
  destruct (shaped_lookup _ pos Ht1) as [Hl _];
    [by rewrite length_set_Element, length_set_Occ|].
  by rewrite Hl.
Qed.

Lemma get_HashValue_store_other pos e x h v1 v2 (t : CacheTableT) p k :
  (pos, e) <> (p, k) ->
  get_HashValue (store_slot pos e x h v1 v2 t) p k = get_HashValue t p k.
Proof.
  intros Hne. unfold store_slot.
  rewrite get_HashValue_set_Occ.
  rewrite get_HashValue_set_HashValue_other by done.
  by rewrite get_HashValue_set_Element, get_HashValue_set_Occ.
Qed.

Lemma Occ_set_Element p e x (t : CacheTableT) pos :
  Occ (set_Element p e x t !!! pos) = Occ (t !!! pos).
Proof.
  unfold set_Element. destruct (decide (p = pos)) as [->|Hne].
  - destruct (decide (pos < length t)%nat) as [Hlt|Hge].
    + by rewrite lookup_total_insert_same.
    + by rewrite list_insert_ge by lia.
  - by rewrite lookup_total_insert_other.
Qed.

Lemma Occ_set_HashValue p e h (t : CacheTableT) pos :
  Occ (set_HashValue p e h t !!! pos) = Occ (t !!! pos).
Proof.
  unfold set_HashValue. destruct (decide (p = pos)) as [->|Hne].
  - destruct (decide (pos < length t)%nat) as [Hlt|Hge].
    + by rewrite lookup_total_insert_same.
    + by rewrite list_insert_ge by lia.
  - by rewrite lookup_total_insert_other.
Qed.

Lemma Occ_store_same pos e x h v1 v2 (t : CacheTableT) :
  (pos < length t)%nat -> Occ (store_slot pos e x h v1 v2 t !!! pos) = v2.
Proof.
  intros Hpos. unfold store_slot. apply Occ_set_Occ_same.
  by rewrite length_set_HashValue, length_set_Element, length_set_Occ.
Qed.

Lemma Occ_store_other pos e x h v1 v2 (t : CacheTableT) p :
  pos <> p -> Occ (store_slot pos e x h v1 v2 t !!! p) = Occ (t !!! p).
Proof.
  intros Hne. unfold store_slot.
  rewrite Occ_set_Occ_other by done.
  by rewrite Occ_set_HashValue, Occ_set_Element, Occ_set_Occ_other.
Qed.

(** *** the scans *)

Lemma scan_slots_set_Occ p v (t : CacheTableT) pos c n : forall e,
  scan_slots (set_Occ p v t) pos c e n = scan_slots t pos c e n.
Proof.
  induction n as [|n IH]; intros e; cbn [scan_slots]; [done|].
  rewrite get_HashValue_set_Occ, get_Element_set_Occ. by rewrite IH.
Qed.

Lemma scan_slots_spec (t : CacheTableT) pos c n : forall e,
  match scan_slots t pos c e n with
  | SlotAvailable k =>
      (e <= k < e + n)%nat /\ get_HashValue t pos k = 0
      /\ forall j, (e <= j < k)%nat ->
           get_HashValue t pos j <> 0
           /\ ~ slot_matches t pos (Hash1 c) (Key (Item c)) j
  | KeyExists k =>
      (e <= k < e + n)%nat /\ get_HashValue t pos k <> 0
      /\ slot_matches t pos (Hash1 c) (Key (Item c)) k
      /\ forall j, (e <= j < k)%nat ->
           get_HashValue t pos j <> 0
           /\ ~ slot_matches t pos (Hash1 c) (Key (Item c)) j
  | BucketFull =>
      forall j, (e <= j < e + n)%nat -> get_HashValue t pos j <> 0
  end.
Proof.
  induction n as [|n IH]; intros e; cbn [scan_slots]; [intros j; lia|].
  destruct (Z.eqb_spec (get_HashValue t pos e) 0) as [Hz|Hnz].
  { split; [lia|]. split; [done|]. intros j; lia. }
  destruct (Z.eqb_spec (get_HashValue t pos e) (Hash1 c)) as [Hh|Hh]; cbn [andb].
  - destruct (Z.eqb_spec (Key (Item (get_Element t pos e))) (Key (Item c))) as [Hk|Hk].
    { split; [lia|]. split; [done|]. split; [by split|]. intros j; lia. }
    specialize (IH (S e)).
    destruct (scan_slots t pos c (S e) n) as [k|k|].
    + destruct IH as (Hr & Hz & Hb). split; [lia|]. split; [done|].
      intros j Hj. destruct (decide (j = e)) as [->|Hne].
      * split; [done|]. by intros [_ ?].
      * apply Hb. lia.
    + destruct IH as (Hr & Hz & Hm & Hb). split; [lia|]. split; [done|].
      split; [done|]. intros j Hj. destruct (decide (j = e)) as [->|Hne].
      * split; [done|]. by intros [_ ?].
      * apply Hb. lia.
    + intros j Hj. destruct (decide (j = e)) as [->|Hne]; [done|]. apply IH. lia.
  - specialize (IH (S e)).
    destruct (scan_slots t pos c (S e) n) as [k|k|].
    + destruct IH as (Hr & Hz & Hb). split; [lia|]. split; [done|].
      intros j Hj. destruct (decide (j = e)) as [->|Hne].
      * split; [done|]. by intros [? _].
      * apply Hb. lia.
    + destruct IH as (Hr & Hz & Hm & Hb). split; [lia|]. split; [done|].
      split; [done|]. intros j Hj. destruct (decide (j = e)) as [->|Hne].
      * split; [done|]. by intros [? _].
      * apply Hb. lia.
    + intros j Hj. destruct (decide (j = e)) as [->|Hne]; [done|]. apply IH. lia.
Qed.

Lemma find_slot_spec (t : CacheTableT) pos h key n : forall e,
  match find_slot t pos h key e n with
  | Some k =>
      (e <= k < e + n)%nat /\ slot_matches t pos h key k
      /\ forall j, (e <= j < k)%nat -> ~ slot_matches t pos h key j
  | None => forall j, (e <= j < e + n)%nat -> ~ slot_matches t pos h key j
  end.
Proof.
  induction n as [|n IH]; intros e; cbn [find_slot]; [intros j; lia|].
  destruct (Z.eqb_spec (get_HashValue t pos e) h) as [Hh|Hh]; cbn [andb].
  - destruct (Z.eqb_spec (Key (Item (get_Element t pos e))) key) as [Hk|Hk].
    { split; [lia|]. split; [by split|]. intros j; lia. }
    specialize (IH (S e)). destruct (find_slot t pos h key (S e) n) as [k|].
    + destruct IH as (Hr & Hm & Hb). split; [lia|]. split; [done|].
      intros j Hj. destruct (decide (j = e)) as [->|Hne]; [by intros [_ ?]|].
      apply Hb. lia.
    + intros j Hj. destruct (decide (j = e)) as [->|Hne]; [by intros [_ ?]|].
      apply IH. lia.
  - specialize (IH (S e)). destruct (find_slot t pos h key (S e) n) as [k|].
    + destruct IH as (Hr & Hm & Hb). split; [lia|]. split; [done|].
      intros j Hj. destruct (decide (j = e)) as [->|Hne]; [by intros [? _]|].
      apply Hb. lia.
    + intros j Hj. destruct (decide (j = e)) as [->|Hne]; [by intros [? _]|].
      apply IH. lia.
Qed.

Lemma find_slot_found (t : CacheTableT) pos h key n e k :
  (e <= k < e + n)%nat -> slot_matches t pos h key k ->
  (forall j, (e <= j < k)%nat -> ~ slot_matches t pos h key j) ->
  find_slot t pos h key e n = Some k.
Proof.
  intros Hr Hm Hb. pose proof (find_slot_spec t pos h key n e) as Hs.
  destruct (find_slot t pos h key e n) as [k'|].
  - destruct Hs as (Hr' & Hm' & Hb'). f_equal.
    destruct (Nat.lt_trichotomy k' k) as [Hlt|[->|Hgt]]; [|done|].
    + exfalso. apply (Hb k'); [lia|done].
    + exfalso. apply (Hb' k); [lia|done].
  - exfalso. by apply (Hs k).
Qed.

Lemma find_slot_missing (t : CacheTableT) pos h key n e :
  (forall j, (e <= j < e + n)%nat -> ~ slot_matches t pos h key j) ->
  find_slot t pos h key e n = None.
Proof.
  intros Hb. pose proof (find_slot_spec t pos h key n e) as Hs.
  destruct (find_slot t pos h key e n) as [k|]; [|done].
  destruct Hs as (Hr & Hm & _). exfalso. by apply (Hb k).
Qed.

End Frame.
End CacheTableLaws.

Module CacheTableLaws2.
Import CacheTable CacheExamples CacheNotions CacheTableFacts CacheTableLaws.

Section Paths.
Variable cfg : Config.

(** *** the fresh table *)

Lemma InitCacheTable_shaped : table_shaped cfg (InitCacheTable cfg).
Proof.
  unfold table_shaped, InitCacheTable. split; [by rewrite length_replicate|].
  apply Forall_replicate. split; cbn; by rewrite length_replicate.
Qed.

Lemma InitCacheTable_bucket pos :
  (pos < length (InitCacheTable cfg))%nat ->
  InitCacheTable cfg !!! pos = zero_bucket cfg.
Proof.
  unfold InitCacheTable. rewrite length_replicate. intros Hpos.
  by apply lookup_total_replicate_2.
Qed.

Lemma InitCacheTable_stamp pos e :
  (pos < length (InitCacheTable cfg))%nat -> (e < BUCKET_SIZE cfg)%nat ->
  get_HashValue (InitCacheTable cfg) pos e = 0.
Proof.
  intros Hpos He. unfold get_HashValue. rewrite InitCacheTable_bucket by done.
  cbn. by apply lookup_total_replicate_2.
Qed.

Lemma InitCacheTable_element pos e :
  (pos < length (InitCacheTable cfg))%nat -> (e < BUCKET_SIZE cfg)%nat ->
  get_Element (InitCacheTable cfg) pos e = zero_element.
Proof.
  intros Hpos He. unfold get_Element. rewrite InitCacheTable_bucket by done.
  cbn. by apply lookup_total_replicate_2.
Qed.

Lemma InitCacheTable_homed : homed cfg (InitCacheTable cfg).
Proof. intros pos e Hpos He Hnz. by rewrite InitCacheTable_stamp in Hnz. Qed.

Lemma InitCacheTable_all_clear : all_clear (InitCacheTable cfg).
Proof.
  unfold all_clear, flags, InitCacheTable. rewrite fmap_replicate.
  by apply Forall_replicate.
Qed.

Lemma find_slot_InitCacheTable pos h key :
  (0 < BUCKET_SIZE cfg)%nat -> (pos < length (InitCacheTable cfg))%nat ->
  find_slot (InitCacheTable cfg) pos h key 0 (BUCKET_SIZE cfg)
  = if decide (h = 0 /\ key = 0) then Some 0%nat else None.
Proof.
  intros HB Hpos. destruct (decide (h = 0 /\ key = 0)) as [[-> ->]|Hne].
  - apply find_slot_found; [lia| |intros j; lia].
    split; [by apply InitCacheTable_stamp|].
    by rewrite InitCacheTable_element.
  - apply find_slot_missing. intros j Hj [Hs Hk]. apply Hne.
    rewrite InitCacheTable_stamp in Hs by (done || lia).
    rewrite InitCacheTable_element in Hk by (done || lia).
    by split.
Qed.

(** *** writing a stamp or a flag that is there already *)

Lemma bucket_eta (b : CacheBucketT) : mkBucket (HashValues b) (Elements b) (Occ b) = b.
Proof. by destruct b. Qed.

Lemma set_HashValue_same p e (t : CacheTableT) :
  (p < length t)%nat -> (e < length (HashValues (t !!! p)))%nat ->
  set_HashValue p e (get_HashValue t p e) t = t.
Proof.
  intros Hp He. unfold set_HashValue, get_HashValue.
  destruct (lookup_lt_is_Some_2 t p Hp) as [b Hb].
  rewrite (list_lookup_total_correct _ _ _ Hb) in *.
  destruct (lookup_lt_is_Some_2 (HashValues b) e He) as [h Hh].
  rewrite (list_lookup_total_correct _ _ _ Hh).
  rewrite (list_insert_id _ _ _ Hh), bucket_eta.
  by apply list_insert_id.
Qed.

Lemma set_Occ_twice p v w (t : CacheTableT) :
  set_Occ p w (set_Occ p v t) = set_Occ p w t.
Proof.
  unfold set_Occ. destruct (decide (p < length t)%nat) as [Hlt|Hge].
  - rewrite lookup_total_insert_same by done. cbn.
    by rewrite list_insert_insert_eq.
  - by rewrite !(list_insert_ge t) by lia.
Qed.

Lemma set_Occ_same p (t : CacheTableT) :
  (p < length t)%nat -> set_Occ p (Occ (t !!! p)) t = t.
Proof.
  intros Hp. unfold set_Occ.
  destruct (lookup_lt_is_Some_2 t p Hp) as [b Hb].
  rewrite (list_lookup_total_correct _ _ _ Hb), bucket_eta.
  by apply list_insert_id.
Qed.

Lemma all_clear_Occ (t : CacheTableT) p :
  all_clear t -> (p < length t)%nat -> Occ (t !!! p) = 0.
Proof.
  intros Ht Hp. destruct (lookup_lt_is_Some_2 t p Hp) as [b Hb].
  rewrite (list_lookup_total_correct _ _ _ Hb).
  unfold all_clear, flags in Ht.
  apply (Forall_lookup_1 _ _ p (Occ b)) in Ht; [done|].
  by rewrite list_lookup_fmap, Hb.
Qed.

Lemma set_Occ_flag_cycle p v (t : CacheTableT) :
  all_clear t -> set_Occ p 0 (set_Occ p v t) = t.
Proof.
  intros Ht. rewrite set_Occ_twice.
  destruct (decide (p < length t)%nat) as [Hlt|Hge].
  - rewrite <- (all_clear_Occ t p Ht Hlt). by apply set_Occ_same.
  - unfold set_Occ. by rewrite list_insert_ge by lia.
Qed.

(** *** the exits of the forward loop taken at once *)

Lemma displace_free_slot d (t : CacheTableT) c off e :
  scan_slots t (bucketPos cfg (Hash1 c)) c 0 (BUCKET_SIZE cfg) = SlotAvailable e ->
  displace cfg (S d) t c off
  = Returned (store_slot (bucketPos cfg (Hash1 c)) e c (Hash1 c) 1 0 t).
Proof. intros Hs. cbn [displace]. by rewrite scan_slots_set_Occ, Hs. Qed.

Lemma displace_key_exists d (t : CacheTableT) c off e :
  table_shaped cfg t -> (bucketPos cfg (Hash1 c) < length t)%nat ->
  scan_slots t (bucketPos cfg (Hash1 c)) c 0 (BUCKET_SIZE cfg) = KeyExists e ->
  let old := get_Element t (bucketPos cfg (Hash1 c)) e in
  displace cfg (S d) t c off
  = Returned (store_slot (bucketPos cfg (Hash1 c)) e
                (mkElement (Item c) (Hash1 old) (Hash2 old)) (Hash1 c) 1 0 t).
Proof.
  intros Ht Hpos Hs old. cbn [displace]. rewrite scan_slots_set_Occ, Hs.
  rewrite get_Element_set_Occ. fold old. f_equal. unfold store_slot. f_equal.
  pose proof (scan_slots_spec t (bucketPos cfg (Hash1 c)) c (BUCKET_SIZE cfg) 0%nat) as Hsp.
  rewrite Hs in Hsp. destruct Hsp as (Hr & _ & [Hstamp _] & _).
  set (p := bucketPos cfg (Hash1 c)) in *.
  set (t1 := set_Element _ _ _ _).
  assert (Ht1 : table_shaped cfg t1)
    by (by apply shaped_set_Element, shaped_set_Occ).
  assert (Hl1 : (p < length t1)%nat)
    by (subst t1; by rewrite length_set_Element, length_set_Occ).
  assert (Hst : get_HashValue t1 p e = Hash1 c).
  { subst t1. by rewrite get_HashValue_set_Element, get_HashValue_set_Occ. }
  rewrite <- Hst. symmetry. apply set_HashValue_same; [done|].
  destruct (shaped_lookup cfg t1 _ Ht1 Hl1) as [Hl _]. rewrite Hl. lia.
Qed.

(** A lookup finds what was written into the first bucket of the key, if
    no slot before it matches. *)
Lemma LookUpCacheTable_after_store (t : CacheTableT) key e x v1 :
  let hash1 := HASH_FUNCTION1 cfg key in
  let pos := bucketPos cfg hash1 in
  table_shaped cfg t -> (pos < length t)%nat -> (e < BUCKET_SIZE cfg)%nat ->
  Key (Item x) = key ->
  (forall j, (j < e)%nat -> ~ slot_matches t pos hash1 key j) ->
  LookUpCacheTable cfg (store_slot pos e x hash1 v1 0 t) key = Some (pos, e).
Proof.
  intros hash1 pos Ht Hpos He Hkey Hbefore. unfold LookUpCacheTable.
  fold hash1 pos. rewrite Occ_store_same by done. cbn.
  rewrite (find_slot_found _ pos hash1 key (BUCKET_SIZE cfg) 0%nat e); [done|lia| |].
  - split; [by apply (get_HashValue_store_same cfg)|].
    by rewrite (get_Element_store_same cfg).
  - intros j Hj [Hs Hk]. apply (Hbefore j); [lia|].
    rewrite get_HashValue_store_other in Hs by (intros [= ?]; lia).
    rewrite get_Element_store_other in Hk by (intros [= ?]; lia).
    by split.
Qed.

End Paths.

(** X1.  A lookup in the table [InitCacheTable] finds nothing,
    except for the key 0 when one of its two hashes is 0: stamp 0 marks a
    free slot and a cleared element has key 0, so the lookup takes the
    first free slot for the key and returns its (zero) item. *)
Theorem lookup_in_fresh_table (cfg : Config) (key : Z) :
  config_sound cfg ->
  (phantom cfg key -> LookUpValue cfg (InitCacheTable cfg) key = Some 0)
  /\ (~ phantom cfg key -> LookUpCacheTable cfg (InitCacheTable cfg) key = None).
Proof.
  intros [Hp HB].
  assert (Hin : forall h, (bucketPos cfg h < length (InitCacheTable cfg))%nat).
  { intros h. unfold InitCacheTable. rewrite length_replicate. by apply bucketPos_lt. }
  unfold LookUpValue, LookUpCacheTable, phantom.
  set (hash1 := HASH_FUNCTION1 cfg key). set (hash2 := second_hash cfg key hash1).
  rewrite !InitCacheTable_bucket by done. cbn [Occ zero_bucket Z.eqb].
  rewrite !find_slot_InitCacheTable by done.
  destruct (decide (hash1 = 0 /\ key = 0)) as [[H1 Hk]|H1].
  { split; [|intros Hn; exfalso; apply Hn; by split; [|left]].
    intros _. unfold item_at. cbn [fst snd].
    by rewrite InitCacheTable_element. }
  destruct (decide (hash2 = 0 /\ key = 0)) as [[H2 Hk]|H2].
  { split; [|intros Hn; exfalso; apply Hn; by split; [|right]].
    intros _. unfold item_at. cbn [fst snd].
    by rewrite InitCacheTable_element. }
  split; [|done]. intros [Hk [Hh|Hh]]; exfalso; [apply H1|apply H2]; done.
Qed.

Lemma lookup_in_fresh_table_witness :
  LookUpValue two_buckets (InitCacheTable two_buckets) 0 = Some 0
  /\ LookUpCacheTable two_buckets (InitCacheTable two_buckets) 18 = None.
Proof.
  assert (Hc : config_sound two_buckets) by (split; [by_evaluation|cbn; lia]).
  split.
  - apply (lookup_in_fresh_table two_buckets 0 Hc). split; [done|by left].
  - apply (lookup_in_fresh_table two_buckets 18 Hc). intros [Hk _]. discriminate.
Defined.

End CacheTableLaws2.

Module CacheTableLaws3.
Import CacheTable CacheExamples CacheExamples2 CacheNotions CacheTableFacts CacheTableLaws CacheTableLaws2.

Section Paths.
Variable cfg : Config.

Lemma scan_slots_first_free (t : CacheTableT) pos c :
  (0 < BUCKET_SIZE cfg)%nat -> get_HashValue t pos 0 = 0 ->
  scan_slots t pos c 0 (BUCKET_SIZE cfg) = SlotAvailable 0.
Proof.
  intros HB Hz. destruct (BUCKET_SIZE cfg) as [|n]; [lia|].
  cbn [scan_slots]. by rewrite Hz.
Qed.

Lemma find_slot_after_store (t : CacheTableT) pos h key e x v1 v2 :
  table_shaped cfg t -> (pos < length t)%nat -> (e < BUCKET_SIZE cfg)%nat ->
  Key (Item x) = key ->
  (forall j, (j < e)%nat -> ~ slot_matches t pos h key j) ->
  find_slot (store_slot pos e x h v1 v2 t) pos h key 0 (BUCKET_SIZE cfg) = Some e.
Proof.
  intros Ht Hpos He Hkey Hbefore.
  apply find_slot_found; [lia| |].
  - split; [by apply (get_HashValue_store_same cfg)|].
    by rewrite (get_Element_store_same cfg).
  - intros j Hj [Hs Hk]. apply (Hbefore j); [lia|].
    rewrite get_HashValue_store_other in Hs by (intros [= ?]; lia).
    rewrite get_Element_store_other in Hk by (intros [= ?]; lia).
    by split.
Qed.

(** Clearing a slot makes no slot match that did not match before, unless
    the search is for key 0 under stamp 0. *)
Lemma find_slot_after_clear (t : CacheTableT) pos e p h key v1 v2 :
  table_shaped cfg t -> (pos < length t)%nat -> (e < BUCKET_SIZE cfg)%nat ->
  ~ (h = 0 /\ key = 0) ->
  (forall j, (j < BUCKET_SIZE cfg)%nat -> (pos, e) <> (p, j) ->
             ~ slot_matches t p h key j) ->
  find_slot (store_slot pos e zero_element 0 v1 v2 t) p h key 0 (BUCKET_SIZE cfg)
  = None.
Proof.
  intros Ht Hpos He Hph Hold. apply find_slot_missing. intros j Hj [Hs Hk].
  destruct (decide ((pos, e) = (p, j))) as [[= <- <-]|Hne].
  - rewrite (get_HashValue_store_same cfg) in Hs by done.
    rewrite (get_Element_store_same cfg) in Hk by done.
    apply Hph. by split.
  - rewrite get_HashValue_store_other in Hs by done.
    rewrite get_Element_store_other in Hk by done.
    apply (Hold j); [lia|done|by split].
Qed.

End Paths.

(** X2.  Round trip.  When the first-hash bucket of the key has a free slot
    or holds the key (the scan of lines 83-130 does not run off the end),
    [AddToCacheTable] returns 0 and a lookup of the key then returns the
    value just inserted. *)
Theorem insert_then_lookup (cfg : Config) (t : CacheTableT) (item : CacheItemT) :
  config_sound cfg -> table_shaped cfg t -> (0 < maxDepth cfg)%nat ->
  scan_slots t (bucketPos cfg (HASH_FUNCTION1 cfg (Key item)))
    (make_carrier cfg item) 0 (BUCKET_SIZE cfg) <> BucketFull ->
  exists t',
    AddToCacheTable cfg t item = AddReturn 0 t'
    /\ LookUpValue cfg t' (Key item) = Some (Value item).
Proof.
  intros Hc Ht Hd Hscan.
  set (c := make_carrier cfg item) in *.
  set (pos := bucketPos cfg (HASH_FUNCTION1 cfg (Key item))) in *.
  assert (Hpos : (pos < length t)%nat) by (by apply bucketPos_in).
  destruct (maxDepth cfg) as [|d] eqn:Hmax; [lia|].
  unfold AddToCacheTable. rewrite Hmax. fold c.
  pose proof (scan_slots_spec t pos c (BUCKET_SIZE cfg) 0%nat) as Hsp.
  destruct (scan_slots t pos c 0 (BUCKET_SIZE cfg)) as [e|e|] eqn:Hs; [| |done].
  - destruct Hsp as (Hr & _ & Hb).
    rewrite (displace_free_slot cfg d t c 0%nat e Hs).
    eexists. split; [done|]. unfold LookUpValue.
    assert (Hl : LookUpCacheTable cfg
                   (store_slot (bucketPos cfg (Hash1 c)) e c (Hash1 c) 1 0 t) (Key item)
                 = Some (pos, e)).
    { apply (LookUpCacheTable_after_store cfg t (Key item) e c 1); try done; [lia|].
      intros j Hj. apply Hb. lia. }
    rewrite Hl. unfold item_at. cbn [fst snd].
    by rewrite (get_Element_store_same cfg) by (done || lia).
  - destruct Hsp as (Hr & _ & [_ Hk] & Hb).
    rewrite (displace_key_exists cfg d t c 0%nat e Ht Hpos Hs).
    eexists. split; [done|]. unfold LookUpValue.
    set (x := mkElement (Item c) _ _).
    assert (Hl : LookUpCacheTable cfg
                   (store_slot (bucketPos cfg (Hash1 c)) e x (Hash1 c) 1 0 t) (Key item)
                 = Some (pos, e)).
    { apply (LookUpCacheTable_after_store cfg t (Key item) e x 1); try done; [lia|].
      intros j Hj. apply Hb. lia. }
    rewrite Hl. unfold item_at. cbn [fst snd].
    by rewrite (get_Element_store_same cfg) by (done || lia).
Qed.

Lemma insert_then_lookup_witness :
  exists t',
    AddToCacheTable four_by_two key_in_second_bucket (mkItem 32 201) = AddReturn 0 t'
    /\ LookUpValue four_by_two t' 32 = Some 201.
Proof.
  apply (insert_then_lookup four_by_two key_in_second_bucket (mkItem 32 201)).
  - split; [by_evaluation|cbn; lia].
  - split; [reflexivity|]. repeat constructor.
  - vm_compute. lia.
  - by_evaluation.
Defined.

(** X3.  Update in place.  When the scan of the first-hash bucket meets the
    key before any free slot, [AddToCacheTable] returns 0, changes no hash
    stamp, replaces the item of that one slot and leaves every other slot
    as it was: no key gains or loses a copy. *)
Theorem update_in_place (cfg : Config) (t : CacheTableT) (item : CacheItemT)
    (e : nat) :
  config_sound cfg -> table_shaped cfg t -> (0 < maxDepth cfg)%nat ->
  scan_slots t (bucketPos cfg (HASH_FUNCTION1 cfg (Key item)))
    (make_carrier cfg item) 0 (BUCKET_SIZE cfg) = KeyExists e ->
  exists t',
    AddToCacheTable cfg t item = AddReturn 0 t'
    /\ item_at t' (bucketPos cfg (HASH_FUNCTION1 cfg (Key item)), e) = item
    /\ (forall p k, get_HashValue t' p k = get_HashValue t p k)
    /\ (forall p k, (p, k) <> (bucketPos cfg (HASH_FUNCTION1 cfg (Key item)), e) ->
                    get_Element t' p k = get_Element t p k)
    /\ (forall key, copies_of cfg t' key = copies_of cfg t key).
Proof.
  intros Hc Ht Hd Hs.
  set (c := make_carrier cfg item) in *.
  set (pos := bucketPos cfg (HASH_FUNCTION1 cfg (Key item))) in *.
  assert (Hpos : (pos < length t)%nat) by (by apply bucketPos_in).
  destruct (maxDepth cfg) as [|d] eqn:Hmax; [lia|].
  unfold AddToCacheTable. rewrite Hmax. fold c.
  pose proof (scan_slots_spec t pos c (BUCKET_SIZE cfg) 0%nat) as Hsp.
  rewrite Hs in Hsp. destruct Hsp as (Hr & _ & [Hst Hk] & _).
  rewrite (displace_key_exists cfg d t c 0%nat e Ht Hpos Hs).
  set (x := mkElement (Item c) _ _).
  change (bucketPos cfg (Hash1 c)) with pos.
  set (t' := store_slot pos e x (Hash1 c) 1 0 t).
  assert (Hstamps : forall p k, get_HashValue t' p k = get_HashValue t p k).
  { intros p k. subst t'. destruct (decide ((pos, e) = (p, k))) as [[= <- <-]|Hne].
    - rewrite (get_HashValue_store_same cfg) by (done || lia). done.
    - by rewrite get_HashValue_store_other. }
  assert (Hothers : forall p k, (p, k) <> (pos, e) ->
                                get_Element t' p k = get_Element t p k).
  { intros p k Hne. subst t'. by rewrite get_Element_store_other. }
  assert (Hkeys : forall p k, Key (Item (get_Element t' p k))
                              = Key (Item (get_Element t p k))).
  { intros p k. destruct (decide ((p, k) = (pos, e))) as [[= -> ->]|Hne].
    - subst t'. rewrite (get_Element_store_same cfg) by (done || lia). done.
    - by rewrite Hothers. }
  exists t'. split; [done|]. split.
  { unfold item_at. cbn [fst snd]. subst t'.
    by rewrite (get_Element_store_same cfg) by (done || lia). }
  split; [done|]. split; [done|].
  intros key. unfold copies_of. subst t'. rewrite length_store_slot.
  apply list_filter_iff. intros [p k]. cbn [fst snd].
  by rewrite Hstamps, Hkeys.
Qed.

Lemma update_in_place_witness :
  exists t',
    AddToCacheTable four_by_two key_in_second_bucket (mkItem 32 201) = AddReturn 0 t'
    /\ item_at t' (0%nat, 1%nat) = mkItem 32 201
    /\ (forall p k, get_HashValue t' p k = get_HashValue key_in_second_bucket p k)
    /\ (forall p k, (p, k) <> (0%nat, 1%nat) ->
                    get_Element t' p k = get_Element key_in_second_bucket p k)
    /\ (forall key, copies_of four_by_two t' key
                    = copies_of four_by_two key_in_second_bucket key).
Proof.
  apply (update_in_place four_by_two key_in_second_bucket (mkItem 32 201) 1).
  - split; [by_evaluation|cbn; lia].
  - split; [reflexivity|]. repeat constructor.
  - vm_compute. lia.
  - reflexivity.
Defined.

(** X5.  Deleting a key that is in neither of its two buckets leaves the
    table as it was (the flags are raised and lowered again). *)
Theorem delete_absent_key (cfg : Config) (t : CacheTableT) (key : Z) :
  all_clear t -> absent cfg t key -> DeleteFromCacheTable cfg t key = t.
Proof.
  intros Ht [H1 H2]. unfold DeleteFromCacheTable.
  rewrite find_slot_set_Occ, H1. rewrite set_Occ_flag_cycle by done.
  rewrite find_slot_set_Occ, H2. by apply set_Occ_flag_cycle.
Qed.

Lemma delete_absent_key_witness :
  DeleteFromCacheTable two_buckets full_table 50 = full_table.
Proof.
  apply (delete_absent_key two_buckets full_table 50).
  - repeat constructor.
  - split; reflexivity.
Defined.

(** X6.  The occupied flags are all 0 again after every [AddToCacheTable],
    whatever its outcome, and after every [DeleteFromCacheTable] that does
    not leave by the second-hash hit of line 306, that is when the key is
    found under its first hash or in neither bucket. *)
Theorem flags_clear_after_operations (cfg : Config) (t : CacheTableT) :
  all_clear t ->
  (forall item,
     match AddToCacheTable cfg t item with
     | AddReturn _ t' => all_clear t'
     | AddAssertFailed t' _ => all_clear t'
     end)
  /\ (forall key,
        let hash1 := HASH_FUNCTION1 cfg key in
        let hash2 := second_hash cfg key hash1 in
        find_slot t (bucketPos cfg hash1) hash1 key 0 (BUCKET_SIZE cfg) <> None
        \/ find_slot t (bucketPos cfg hash2) hash2 key 0 (BUCKET_SIZE cfg) = None ->
        all_clear (DeleteFromCacheTable cfg t key)).
Proof.
  intros Ht. split.
  - intros item. by apply AddToCacheTable_clears_flags.
  - intros key hash1 hash2 Hcase.
    destruct (find_slot t (bucketPos cfg hash1) hash1 key 0 (BUCKET_SIZE cfg))
      as [e|] eqn:H1.
    + by apply (DeleteFromCacheTable_first_hash cfg t key e).
    + destruct Hcase as [Hc|H2]; [done|].
      by apply DeleteFromCacheTable_not_found.
Qed.

Lemma flags_clear_after_operations_witness :
  all_clear (DeleteFromCacheTable four_by_two key_in_second_bucket 5)
  /\ match AddToCacheTable four_by_two key_in_second_bucket (mkItem 7 1) with
     | AddReturn _ t' => all_clear t'
     | AddAssertFailed t' _ => all_clear t'
     end.
Proof.
  assert (Hclear : all_clear key_in_second_bucket) by (repeat constructor).
  destruct (flags_clear_after_operations four_by_two key_in_second_bucket Hclear)
    as [Hadd Hdel].
  split.
  - apply (Hdel 5). left. by_evaluation.
  - apply (Hadd (mkItem 7 1)).
Defined.

(** X4.  Insert, delete, look up.  For a key that is in neither of its
    buckets (and is not key 0 with a zero hash), inserting it into a free
    slot of its first bucket and deleting it again leaves a table in which
    the lookup of the key returns NULL. *)
Theorem insert_delete_lookup (cfg : Config) (t : CacheTableT) (item : CacheItemT)
    (e : nat) :
  config_sound cfg -> table_shaped cfg t -> (0 < maxDepth cfg)%nat ->
  ~ phantom cfg (Key item) ->
  absent cfg t (Key item) ->
  scan_slots t (bucketPos cfg (HASH_FUNCTION1 cfg (Key item)))
    (make_carrier cfg item) 0 (BUCKET_SIZE cfg) = SlotAvailable e ->
  exists t1,
    AddToCacheTable cfg t item = AddReturn 0 t1
    /\ LookUpValue cfg t1 (Key item) = Some (Value item)
    /\ LookUpCacheTable cfg (DeleteFromCacheTable cfg t1 (Key item)) (Key item) = None.
Proof.
  intros Hc Ht Hd Hph [Ha1 Ha2] Hs.
  set (key := Key item) in *.
  set (c := make_carrier cfg item) in *.
  set (hash1 := HASH_FUNCTION1 cfg key) in *.
  set (hash2 := second_hash cfg key hash1) in *.
  set (pos := bucketPos cfg hash1) in *.
  assert (Hpos : (pos < length t)%nat) by (by apply bucketPos_in).
  destruct (maxDepth cfg) as [|d] eqn:Hmax; [lia|].
  unfold AddToCacheTable. rewrite Hmax. fold c.
  pose proof (scan_slots_spec t pos c (BUCKET_SIZE cfg) 0%nat) as Hsp.
  rewrite Hs in Hsp. destruct Hsp as (Hr & _ & Hb).
  rewrite (displace_free_slot cfg d t c 0%nat e Hs).
  change (bucketPos cfg (Hash1 c)) with pos. change (Hash1 c) with hash1.
  set (t1 := store_slot pos e c hash1 1 0 t).
  assert (Ht1 : table_shaped cfg t1) by (by apply shaped_store_slot).
  assert (Hl1 : (pos < length t1)%nat) by (subst t1; by rewrite length_store_slot).
  assert (Hbefore : forall j, (j < e)%nat -> ~ slot_matches t pos hash1 key j).
  { intros j Hj. apply Hb. lia. }
  exists t1. split; [done|]. split.
  { unfold LookUpValue.
    assert (Hl : LookUpCacheTable cfg t1 key = Some (pos, e))
      by (apply (LookUpCacheTable_after_store cfg t key e c 1); done || lia).
    rewrite Hl. unfold item_at. cbn [fst snd]. subst t1.
    by rewrite (get_Element_store_same cfg) by (done || lia). }
  assert (Hdel : DeleteFromCacheTable cfg t1 key
                 = store_slot pos e zero_element 0 1 0 t1).
  { unfold DeleteFromCacheTable. fold hash1 pos. rewrite find_slot_set_Occ.
    subst t1. by rewrite (find_slot_after_store cfg) by (done || lia). }
  rewrite Hdel.
  pose proof (find_slot_spec t pos hash1 key (BUCKET_SIZE cfg) 0%nat) as Hn1.
  fold hash1 pos in Ha1. rewrite Ha1 in Hn1.
  pose proof (find_slot_spec t (bucketPos cfg hash2) hash2 key (BUCKET_SIZE cfg) 0%nat)
    as Hn2.
  fold hash2 in Ha2. rewrite Ha2 in Hn2.
  assert (Hmiss : forall p h,
            ~ (h = 0 /\ key = 0) ->
            (forall j, (0 <= j < 0 + BUCKET_SIZE cfg)%nat -> ~ slot_matches t p h key j) ->
            find_slot (store_slot pos e zero_element 0 1 0 t1) p h key 0
              (BUCKET_SIZE cfg) = None).
  { intros p h Hnz Hold. apply (find_slot_after_clear cfg); try done; [lia|].
    intros j Hj Hne [Hsj Hkj]. subst t1.
    rewrite get_HashValue_store_other in Hsj by done.
    rewrite get_Element_store_other in Hkj by done.
    apply (Hold j); [lia|by split]. }
  unfold LookUpCacheTable. fold hash1 pos hash2.
  rewrite (Hmiss pos hash1), (Hmiss (bucketPos cfg hash2) hash2); try done.
  - by repeat destruct (_ =? 0).
  - intros [Hh Hk]. apply Hph. split; [done|by right].
  - intros [Hh Hk]. apply Hph. split; [done|by left].
Qed.

Lemma insert_delete_lookup_witness :
  exists t1,
    AddToCacheTable four_by_two key_in_second_bucket (mkItem 7 1) = AddReturn 0 t1
    /\ LookUpValue four_by_two t1 7 = Some 1
    /\ LookUpCacheTable four_by_two (DeleteFromCacheTable four_by_two t1 7) 7 = None.
Proof.
  apply (insert_delete_lookup four_by_two key_in_second_bucket (mkItem 7 1) 0).
  - split; [by_evaluation|cbn; lia].
  - split; [reflexivity|]. repeat constructor.
  - vm_compute. lia.
  - intros [Hk _]. discriminate.
  - split; reflexivity.
  - reflexivity.
Defined.

(** X7.  Hash value 0 marks a free slot, but nothing keeps a key from
    hashing to 0.  In a fresh table an item whose first hash is 0 is
    accepted and found by the next lookup; its slot still counts as free,
    and the next insertion into that bucket, which also returns 0, takes
    the slot: the first item is gone without any delete. *)
Theorem zero_hash_item_is_overwritten (cfg : Config) (k1 v1 k2 v2 : Z) :
  config_sound cfg -> (0 < maxDepth cfg)%nat ->
  HASH_FUNCTION1 cfg k1 = 0 -> k1 <> 0 -> k2 <> k1 ->
  bucketPos cfg (HASH_FUNCTION1 cfg k2) = bucketPos cfg (HASH_FUNCTION1 cfg k1) ->
  exists t1 t2,
    AddToCacheTable cfg (InitCacheTable cfg) (mkItem k1 v1) = AddReturn 0 t1
    /\ LookUpValue cfg t1 k1 = Some v1
    /\ AddToCacheTable cfg t1 (mkItem k2 v2) = AddReturn 0 t2
    /\ LookUpValue cfg t2 k2 = Some v2
    /\ LookUpCacheTable cfg t2 k1 = None.
Proof.
  intros Hc Hd Hz Hk1 Hk2 Hsame. pose proof Hc as [Hp HB].
  set (t0 := InitCacheTable cfg).
  set (c1 := make_carrier cfg (mkItem k1 v1)).
  set (c2 := make_carrier cfg (mkItem k2 v2)).
  set (pos := bucketPos cfg (HASH_FUNCTION1 cfg k1)) in *.
  assert (Ht0 : table_shaped cfg t0) by apply InitCacheTable_shaped.
  assert (Hpos : (pos < length t0)%nat) by (by apply bucketPos_in).
  destruct (maxDepth cfg) as [|d] eqn:Hmax; [lia|].
  (* the first insertion *)
  assert (Hs1 : scan_slots t0 (bucketPos cfg (Hash1 c1)) c1 0 (BUCKET_SIZE cfg)
                = SlotAvailable 0).
  { apply scan_slots_first_free; [done|]. by apply InitCacheTable_stamp. }
  set (t1 := store_slot pos 0 c1 (Hash1 c1) 1 0 t0).
  assert (Ht1 : table_shaped cfg t1) by (by apply shaped_store_slot).
  assert (Hl1 : (pos < length t1)%nat) by (subst t1; by rewrite length_store_slot).
  (* the second insertion *)
  assert (Hs2 : scan_slots t1 (bucketPos cfg (Hash1 c2)) c2 0 (BUCKET_SIZE cfg)
                = SlotAvailable 0).
  { apply scan_slots_first_free; [done|].
    change (bucketPos cfg (Hash1 c2)) with (bucketPos cfg (HASH_FUNCTION1 cfg k2)).
    rewrite Hsame. fold pos. subst t1.
    rewrite (get_HashValue_store_same cfg) by done. exact Hz. }
  set (t2 := store_slot pos 0 c2 (Hash1 c2) 1 0 t1).
  exists t1, t2.
  split.
  { unfold AddToCacheTable. rewrite Hmax. fold c1 t0.
    by rewrite (displace_free_slot cfg d t0 c1 0%nat 0%nat Hs1). }
  split.
  { unfold LookUpValue.
    assert (Hl : LookUpCacheTable cfg t1 k1 = Some (pos, 0%nat))
      by (apply (LookUpCacheTable_after_store cfg t0 k1 0%nat c1 1); done || lia).
    rewrite Hl. unfold item_at. cbn [fst snd]. subst t1.
    by rewrite (get_Element_store_same cfg) by done. }
  split.
  { unfold AddToCacheTable. rewrite Hmax. fold c2.
    rewrite (displace_free_slot cfg d t1 c2 0%nat 0%nat Hs2).
    change (bucketPos cfg (Hash1 c2)) with (bucketPos cfg (HASH_FUNCTION1 cfg k2)).
    by rewrite Hsame. }
  split.
  { unfold LookUpValue. subst t2.
    assert (Hl : LookUpCacheTable cfg (store_slot pos 0 c2 (Hash1 c2) 1 0 t1) k2
                 = Some (pos, 0%nat)).
    { rewrite <- Hsame.
      apply (LookUpCacheTable_after_store cfg t1 k2 0%nat c2 1); try done; [|lia].
      by rewrite Hsame. }
    rewrite Hl. unfold item_at. cbn [fst snd].
    by rewrite (get_Element_store_same cfg) by done. }
  assert (Hmiss : forall h, find_slot t2 (bucketPos cfg h) h k1 0 (BUCKET_SIZE cfg)
                            = None).
  { intros h. apply find_slot_missing. intros j Hj [_ Hk]. subst t2.
    destruct (decide ((pos, 0%nat) = (bucketPos cfg h, j))) as [Heq|Hne].
    - injection Heq as Hp0 Hj0. rewrite <- Hp0, <- Hj0 in Hk.
      rewrite (get_Element_store_same cfg) in Hk by done. by apply Hk2.
    - rewrite get_Element_store_other in Hk by done. subst t1.
      rewrite get_Element_store_other in Hk by done.
      unfold t0 in Hk. rewrite InitCacheTable_element in Hk.
      + by apply Hk1.
      + by apply bucketPos_in.
      + lia. }
  unfold LookUpCacheTable. rewrite !Hmiss. by repeat destruct (_ =? 0).
Qed.

Lemma zero_hash_item_is_overwritten_witness :
  exists t1 t2,
    AddToCacheTable low4_buckets (InitCacheTable low4_buckets) (mkItem 16 100)
    = AddReturn 0 t1
    /\ LookUpValue low4_buckets t1 16 = Some 100
    /\ AddToCacheTable low4_buckets t1 (mkItem 4 200) = AddReturn 0 t2
    /\ LookUpValue low4_buckets t2 4 = Some 200
    /\ LookUpCacheTable low4_buckets t2 16 = None.
Proof.
  apply (zero_hash_item_is_overwritten low4_buckets 16 100 4 200).
  - split; [by_evaluation|cbn; lia].
  - vm_compute. lia.
  - reflexivity.
  - discriminate.
  - discriminate.
  - reflexivity.
Defined.

End CacheTableLaws3.

Module CacheTableLaws4.
Import CacheTable CacheExamples CacheNotions CacheTableFacts CacheTableLaws CacheTableLaws2 CacheTableLaws3.

Section Invariants.
Variable cfg : Config.
Hypothesis Hc : config_sound cfg.

Lemma next_offset_lt off :
  (off < BUCKET_SIZE cfg)%nat -> (next_offset cfg off < BUCKET_SIZE cfg)%nat.
Proof.
  intros Ho. unfold next_offset.
  destruct (Nat.eqb_spec (S off) (BUCKET_SIZE cfg)); lia.
Qed.

Lemma prev_offset_lt off :
  (off < BUCKET_SIZE cfg)%nat -> (prev_offset cfg off < BUCKET_SIZE cfg)%nat.
Proof.
  intros Ho. unfold prev_offset. destruct (Nat.eqb_spec off 0); lia.
Qed.

Lemma prev_next_offset off :
  (off < BUCKET_SIZE cfg)%nat -> prev_offset cfg (next_offset cfg off) = off.
Proof.
  intros Ho. unfold prev_offset, next_offset.
  destruct (Nat.eqb_spec (S off) (BUCKET_SIZE cfg)); cbn; lia.
Qed.

Lemma swap_hashes_involutive x : swap_hashes (swap_hashes x) = x.
Proof. by destruct x. Qed.

(** *** one turn of each loop as a slot write *)

Lemma displace_full d (t : CacheTableT) c off :
  scan_slots t (bucketPos cfg (Hash1 c)) c 0 (BUCKET_SIZE cfg) = BucketFull ->
  displace cfg (S d) t c off
  = displace cfg d (store_slot (bucketPos cfg (Hash1 c)) off c (Hash1 c) 1 0 t)
      (swap_hashes (get_Element t (bucketPos cfg (Hash1 c)) off))
      (next_offset cfg off).
Proof.
  intros Hs. cbn [displace]. rewrite scan_slots_set_Occ, Hs.
  by rewrite get_Element_set_Occ.
Qed.

Lemma undo_step d (t : CacheTableT) c off :
  undo cfg (S d) t c off
  = undo cfg d
      (store_slot (bucketPos cfg (Hash2 c)) (prev_offset cfg off) (swap_hashes c)
         (Hash1 c) 1 0 t)
      (get_Element t (bucketPos cfg (Hash2 c)) (prev_offset cfg off))
      (prev_offset cfg off).
Proof. cbn [undo]. by rewrite get_Element_set_Occ. Qed.

Lemma undo_snoc d : forall (t : CacheTableT) c off,
  undo cfg (S d) t c off
  = undo cfg 1 (undo cfg d t c off).1 (undo cfg d t c off).2
      (Nat.iter d (prev_offset cfg) off).
Proof.
  induction d as [|d IH]; intros t c off; [done|].
  rewrite undo_step, IH. rewrite (undo_step d t c off).
  by rewrite Nat.iter_succ_r.
Qed.

(** *** the two invariants *)

Lemma homed_set_Occ p v (t : CacheTableT) :
  homed cfg t -> homed cfg (set_Occ p v t).
Proof.
  intros Hh pos e Hpos He. rewrite length_set_Occ in Hpos.
  rewrite get_HashValue_set_Occ, get_Element_set_Occ. by apply Hh.
Qed.

Lemma homed_store_slot pos e x h v1 v2 (t : CacheTableT) :
  table_shaped cfg t -> (pos < length t)%nat -> (e < BUCKET_SIZE cfg)%nat ->
  homed cfg t ->
  (h <> 0 -> bucketPos cfg (Hash1 x) = pos) ->
  homed cfg (store_slot pos e x h v1 v2 t).
Proof.
  intros Ht Hpos He Hh Hx p k Hp Hk. rewrite length_store_slot in Hp.
  destruct (decide ((pos, e) = (p, k))) as [[= <- <-]|Hne].
  - rewrite (get_HashValue_store_same cfg), (get_Element_store_same cfg) by done.
    exact Hx.
  - rewrite get_HashValue_store_other, get_Element_store_other by done.
    by apply Hh.
Qed.

Lemma displace_invariants d : forall (t : CacheTableT) c off,
  table_shaped cfg t -> homed cfg t -> (off < BUCKET_SIZE cfg)%nat ->
  match displace cfg d t c off with
  | Returned t' => table_shaped cfg t' /\ homed cfg t'
  | Exhausted t' _ off' =>
      table_shaped cfg t' /\ homed cfg t' /\ (off' < BUCKET_SIZE cfg)%nat
  end.
Proof.
  induction d as [|d IH]; intros t c off Ht Hh Ho; [done|].
  set (pos := bucketPos cfg (Hash1 c)).
  assert (Hpos : (pos < length t)%nat) by (by apply bucketPos_in).
  pose proof (scan_slots_spec t pos c (BUCKET_SIZE cfg) 0%nat) as Hsp.
  destruct (scan_slots t pos c 0 (BUCKET_SIZE cfg)) as [e|e|] eqn:Hs.
  - rewrite (displace_free_slot cfg d t c off e Hs).
    destruct Hsp as (Hr & _). split; [by apply shaped_store_slot|].
    apply homed_store_slot; try done. lia.
  - rewrite (displace_key_exists cfg d t c off e Ht Hpos Hs).
    destruct Hsp as (Hr & Hnz & _). split; [by apply shaped_store_slot|].
    apply homed_store_slot; try done; [lia|]. intros _. cbn [Hash1].
    apply Hh; [done|lia|done].
  - rewrite (displace_full d t c off Hs).
    apply IH; [by apply shaped_store_slot| |by apply next_offset_lt].
    by apply homed_store_slot.
Qed.

Lemma undo_invariants d : forall (t : CacheTableT) c off,
  table_shaped cfg t -> homed cfg t -> (off < BUCKET_SIZE cfg)%nat ->
  table_shaped cfg (undo cfg d t c off).1 /\ homed cfg (undo cfg d t c off).1.
Proof.
  induction d as [|d IH]; intros t c off Ht Hh Ho; [done|].
  rewrite undo_step.
  apply IH; [by apply shaped_store_slot| |by apply prev_offset_lt].
  apply homed_store_slot; try done; [by apply bucketPos_in|by apply prev_offset_lt].
Qed.

End Invariants.

(** X8.  Two invariants of the table.  Every bucket keeps its
    [CACHE_TABLE_BUCKET_SIZE] stamps and elements, and every slot with a
    non-zero stamp holds an element whose [Hash1] field selects the bucket
    it is in (the bucket the undo loop will look for it in).  Both hold of
    the table [InitCacheTable] makes and are kept by [AddToCacheTable],
    whatever its outcome, and by [DeleteFromCacheTable]. *)
Theorem table_invariants (cfg : Config) :
  config_sound cfg ->
  (table_shaped cfg (InitCacheTable cfg) /\ homed cfg (InitCacheTable cfg))
  /\ forall t : CacheTableT, table_shaped cfg t -> homed cfg t ->
       (forall item,
          match AddToCacheTable cfg t item with
          | AddReturn _ t' => table_shaped cfg t' /\ homed cfg t'
          | AddAssertFailed t' _ => table_shaped cfg t' /\ homed cfg t'
          end)
       /\ (forall key,
             table_shaped cfg (DeleteFromCacheTable cfg t key)
             /\ homed cfg (DeleteFromCacheTable cfg t key)).
Proof.
  intros Hc. pose proof Hc as [Hp HB].
  split; [split; [apply InitCacheTable_shaped|apply InitCacheTable_homed]|].
  intros t Ht Hh. split.
  - intros item. unfold AddToCacheTable.
    pose proof (displace_invariants cfg Hc (maxDepth cfg) t (make_carrier cfg item)
                  0%nat Ht Hh HB) as Hd.
    destruct (displace cfg (maxDepth cfg) t (make_carrier cfg item) 0)
      as [t'|t' c off]; [done|].
    destruct Hd as (Ht' & Hh' & Ho).
    pose proof (undo_invariants cfg Hc (maxDepth cfg) t' c off Ht' Hh' Ho) as Hu.
    destruct (undo cfg (maxDepth cfg) t' c off) as [t'' c'']. cbn [fst] in Hu.
    by destruct (decide (Item c'' = item)).
  - intros key. unfold DeleteFromCacheTable.
    set (hash1 := HASH_FUNCTION1 cfg key).
    set (hash2 := second_hash cfg key hash1).
    rewrite find_slot_set_Occ.
    pose proof (find_slot_spec t (bucketPos cfg hash1) hash1 key (BUCKET_SIZE cfg) 0%nat)
      as Hs1.
    destruct (find_slot t (bucketPos cfg hash1) hash1 key 0 (BUCKET_SIZE cfg)) as [e|].
    + destruct Hs1 as (Hr & _).
      change (table_shaped cfg (store_slot (bucketPos cfg hash1) e zero_element 0 1 0 t)
              /\ homed cfg (store_slot (bucketPos cfg hash1) e zero_element 0 1 0 t)).
      split; [by apply shaped_store_slot|].
      apply homed_store_slot; try done; [by apply bucketPos_in|lia].
    + set (t1 := set_Occ (bucketPos cfg hash1) 0 (set_Occ (bucketPos cfg hash1) 1 t)).
      assert (Ht1 : table_shaped cfg t1) by (by apply shaped_set_Occ, shaped_set_Occ).
      assert (Hh1 : homed cfg t1) by (by apply homed_set_Occ, homed_set_Occ).
      rewrite find_slot_set_Occ.
      pose proof (find_slot_spec t1 (bucketPos cfg hash2) hash2 key (BUCKET_SIZE cfg)
                    0%nat) as Hs2.
      destruct (find_slot t1 (bucketPos cfg hash2) hash2 key 0 (BUCKET_SIZE cfg)) as [e|].
      * destruct Hs2 as (Hr & _).
        change (table_shaped cfg
                  (store_slot (bucketPos cfg hash2) e zero_element 0 1 1 t1)
                /\ homed cfg (store_slot (bucketPos cfg hash2) e zero_element 0 1 1 t1)).
        split; [by apply shaped_store_slot|].
        apply homed_store_slot; try done; [by apply bucketPos_in|lia].
      * split; [by apply shaped_set_Occ, shaped_set_Occ|].
        by apply homed_set_Occ, homed_set_Occ.
Qed.

Lemma table_invariants_witness :
  table_shaped two_buckets (InitCacheTable two_buckets)
  /\ homed two_buckets (InitCacheTable two_buckets).
Proof.
  apply (table_invariants two_buckets). split; [by_evaluation|cbn; lia].
Defined.

Section Undo.
Variable cfg : Config.
Hypothesis Hc : config_sound cfg.

(** *** the element arrays *)

Lemma elements_keep pos (b : CacheBucketT) (t : CacheTableT) :
  Elements b = Elements (t !!! pos) ->
  Elements <$> <[pos := b]> t = Elements <$> t.
Proof.
  intros Hb. rewrite list_fmap_insert.
  destruct (decide (pos < length t)%nat) as [Hlt|Hge].
  - apply list_insert_id. rewrite list_lookup_fmap.
    destruct (lookup_lt_is_Some_2 t pos Hlt) as [b' Hb'].
    rewrite Hb'. cbn. f_equal. rewrite Hb.
    by rewrite (list_lookup_total_correct _ _ _ Hb').
  - apply list_insert_ge. rewrite length_fmap. lia.
Qed.

Lemma elements_set_Occ p v (t : CacheTableT) :
  Elements <$> set_Occ p v t = Elements <$> t.
Proof. unfold set_Occ. by apply elements_keep. Qed.

Lemma elements_set_HashValue p e h (t : CacheTableT) :
  Elements <$> set_HashValue p e h t = Elements <$> t.
Proof. unfold set_HashValue. by apply elements_keep. Qed.

Lemma elements_set_Element p e x (t : CacheTableT) :
  Elements <$> set_Element p e x t
  = <[p := <[e := x]> (Elements (t !!! p))]> (Elements <$> t).
Proof. unfold set_Element. by rewrite list_fmap_insert. Qed.

Lemma elements_store_slot p e x h v1 v2 (t : CacheTableT) :
  Elements <$> store_slot p e x h v1 v2 t
  = <[p := <[e := x]> (Elements (t !!! p))]> (Elements <$> t).
Proof.
  unfold store_slot.
  rewrite elements_set_Occ, elements_set_HashValue, elements_set_Element.
  rewrite elements_set_Occ. do 2 f_equal.
  by destruct (bucket_set_Occ p v1 t p) as [_ ->].
Qed.

Lemma elements_lookup (T t : CacheTableT) p :
  Elements <$> T = Elements <$> t -> (p < length t)%nat ->
  Elements (T !!! p) = Elements (t !!! p).
Proof.
  intros HE Hp.
  assert (Hl : length T = length t).
  { apply (f_equal length) in HE. by rewrite !length_fmap in HE. }
  rewrite <- (list_lookup_total_fmap Elements T p) by lia.
  rewrite <- (list_lookup_total_fmap Elements t p) by lia.
  by rewrite HE.
Qed.

(** The undo loop, run on a table with the element arrays the forward loop
    left, puts back what the forward loop found. *)
Lemma displace_undo d : forall (t : CacheTableT) c off t' c' off',
  table_shaped cfg t -> homed cfg t -> (off < BUCKET_SIZE cfg)%nat ->
  displace cfg d t c off = Exhausted t' c' off' ->
  forall T : CacheTableT,
    Elements <$> T = Elements <$> t' ->
    Elements <$> (undo cfg d T c' off').1 = Elements <$> t
    /\ (undo cfg d T c' off').2 = c
    /\ Nat.iter d (prev_offset cfg) off' = off.
Proof.
  induction d as [|d IH]; intros t c off t' c' off' Ht Hh Ho Hd T HT.
  { cbn in Hd. injection Hd as <- <- <-. done. }
  set (pos := bucketPos cfg (Hash1 c)) in *.
  assert (Hpos : (pos < length t)%nat) by (by apply bucketPos_in).
  pose proof (scan_slots_spec t pos c (BUCKET_SIZE cfg) 0%nat) as Hsp.
  destruct (scan_slots t pos c 0 (BUCKET_SIZE cfg)) as [e|e|] eqn:Hs.
  { by rewrite (displace_free_slot cfg d t c off e Hs) in Hd. }
  { by rewrite (displace_key_exists cfg d t c off e Ht Hpos Hs) in Hd. }
  rewrite (displace_full cfg d t c off Hs) in Hd. fold pos in Hd.
  set (old := get_Element t pos off) in *.
  set (t1 := store_slot pos off c (Hash1 c) 1 0 t) in *.
  assert (Ht1 : table_shaped cfg t1) by (by apply shaped_store_slot).
  assert (Hh1 : homed cfg t1) by (by apply homed_store_slot).
  destruct (IH t1 (swap_hashes old) (next_offset cfg off) t' c' off' Ht1 Hh1
              (next_offset_lt cfg off Ho) Hd T HT) as (HE1 & Hc1 & Hoff1).
  rewrite undo_snoc. rewrite Hc1, Hoff1.
  set (T1 := (undo cfg d T c' off').1) in *.
  assert (Hhome : bucketPos cfg (Hash2 (swap_hashes old)) = pos).
  { cbn [swap_hashes Hash2]. apply Hh; [done|done|]. apply Hsp. lia. }
  rewrite (undo_step cfg 0). cbn [undo fst snd].
  rewrite Hhome, prev_next_offset, swap_hashes_involutive by done.
  assert (Hl1 : (pos < length t1)%nat) by (subst t1; by rewrite length_store_slot).
  assert (HET1 : Elements (T1 !!! pos) = <[off := c]> (Elements (t !!! pos))).
  { rewrite (elements_lookup T1 t1 pos HE1 Hl1).
    subst t1. unfold store_slot.
    destruct (bucket_set_Occ pos 0
                (set_HashValue pos off (Hash1 c)
                   (set_Element pos off c (set_Occ pos 1 t))) pos) as [_ ->].
    unfold set_HashValue.
    rewrite lookup_total_insert_same
      by (by rewrite length_set_Element, length_set_Occ).
    cbn [Elements]. unfold set_Element.
    rewrite lookup_total_insert_same by (by rewrite length_set_Occ).
    cbn [Elements]. by destruct (bucket_set_Occ pos 1 t pos) as [_ ->]. }
  destruct (shaped_lookup cfg t pos Ht Hpos) as [_ HlE].
  split; [|split; [|by rewrite Nat.iter_succ, Hoff1, prev_next_offset]].
  - rewrite elements_store_slot, HE1. subst t1. rewrite elements_store_slot.
    rewrite HET1, !list_insert_insert_eq.
    assert (Hold : <[off := old]> (Elements (t !!! pos)) = Elements (t !!! pos)).
    { apply list_insert_id. subst old. unfold get_Element.
      apply list_lookup_lookup_total_lt. lia. }
    rewrite Hold. apply list_insert_id.
    rewrite list_lookup_fmap.
    destruct (lookup_lt_is_Some_2 t pos Hpos) as [b Hb].
    by rewrite Hb, (list_lookup_total_correct _ _ _ Hb).
  - unfold get_Element. rewrite HET1.
    apply list_lookup_total_insert_eq. lia.
Qed.

End Undo.

(** X9.  The failed insertion.  On a table that satisfies the two
    invariants, [AddToCacheTable] returns 0 or -1 and never trips the
    [assert] of line 217; when it returns -1 the undo loop has put every
    element back into the slot it was taken from, hash fields included, so
    that the element arrays of all buckets are what they were before the
    call (the stamps are another matter). *)
Theorem failed_insert_restores_elements (cfg : Config) (t : CacheTableT)
    (item : CacheItemT) :
  config_sound cfg -> table_shaped cfg t -> homed cfg t ->
  match AddToCacheTable cfg t item with
  | AddReturn ret t' => ret = 0 \/ (ret = -1 /\ Elements <$> t' = Elements <$> t)
  | AddAssertFailed _ _ => False
  end.
Proof.
  intros Hc Ht Hh. pose proof Hc as [_ HB]. unfold AddToCacheTable.
  destruct (displace cfg (maxDepth cfg) t (make_carrier cfg item) 0)
    as [t'|t' c off] eqn:Hd; [by left|].
  destruct (displace_undo cfg Hc (maxDepth cfg) t (make_carrier cfg item) 0%nat
              t' c off Ht Hh HB Hd t' eq_refl) as (HE & Hcar & _).
  destruct (undo cfg (maxDepth cfg) t' c off) as [t'' c'']. cbn [fst snd] in *.
  subst c''. cbn [make_carrier Item].
  destruct (decide (item = item)); [|done]. right. by split.
Qed.

Lemma failed_insert_restores_elements_witness :
  match AddToCacheTable two_buckets full_table (mkItem 50 300) with
  | AddReturn ret t' =>
      ret = 0 \/ (ret = -1 /\ Elements <$> t' = Elements <$> full_table)
  | AddAssertFailed _ _ => False
  end.
Proof.
  apply (failed_insert_restores_elements two_buckets full_table (mkItem 50 300)).
  - split; [by_evaluation|cbn; lia].
  - split; [reflexivity|]. repeat constructor.
  - intros pos e Hpos He _. cbn in Hpos, He.
    destruct pos as [|[|pos]]; destruct e as [|e]; try lia; reflexivity.
Defined.

End CacheTableLaws4.

Module ConnectionLaws.
Import FileBackEnd BackEndExamples ConnectionNotions ConnectionFacts.

Lemma scan_from_found {A} `{Inhabited A} (hit : A -> bool) (conns : list A) n i :
  (i < n)%nat -> hit (conns !!! i) = true ->
  (forall k, (k < i)%nat -> hit (conns !!! k) = false) ->
  (scan_from hit conns 0 n).2 = Some i.
Proof.
  intros Hi Hhit Hbefore. pose proof (scan_from_spec hit conns n 0) as Hs.
  destruct (scan_from hit conns 0 n) as [reads [j|]]; cbn [fst snd] in *.
  - destruct Hs as (Hj & Hj1 & Hj2 & _). f_equal.
    destruct (Nat.lt_trichotomy j i) as [Hlt|[->|Hgt]]; [|done|].
    + rewrite Hbefore in Hj1 by done. done.
    + rewrite Hj2 in Hhit by lia. done.
  - destruct Hs as (Hnone & _). rewrite Hnone in Hhit by lia. done.
Qed.

Lemma scan_from_missed {A} `{Inhabited A} (hit : A -> bool) (conns : list A) n :
  (forall k, (k < n)%nat -> hit (conns !!! k) = false) ->
  (scan_from hit conns 0 n).2 = None.
Proof. intros Hm. by rewrite scan_from_miss_reads_all. Qed.

(** *** slots read through the total lookup *)

Lemma slot_state_ctrl g k :
  (k < length (CtrlConns g))%nat ->
  slot_state g true k = Some (Ctrl_State (CtrlConns g !!! k)).
Proof.
  intros Hk. unfold slot_state.
  destruct (lookup_lt_is_Some_2 _ _ Hk) as [c Hc].
  by rewrite Hc, (list_lookup_total_correct _ _ _ Hc).
Qed.

Lemma slot_state_buff g k :
  (k < length (BuffConns g))%nat ->
  slot_state g false k = Some (State (BuffConns g !!! k)).
Proof.
  intros Hk. unfold slot_state.
  destruct (lookup_lt_is_Some_2 _ _ Hk) as [c Hc].
  by rewrite Hc, (list_lookup_total_correct _ _ _ Hc).
Qed.

Lemma slot_cm_id_ctrl g k :
  (k < length (CtrlConns g))%nat ->
  slot_cm_id g true k = Some (Ctrl_RemoteCmId (CtrlConns g !!! k)).
Proof.
  intros Hk. unfold slot_cm_id.
  destruct (lookup_lt_is_Some_2 _ _ Hk) as [c Hc].
  by rewrite Hc, (list_lookup_total_correct _ _ _ Hc).
Qed.

Lemma slot_cm_id_buff g k :
  (k < length (BuffConns g))%nat ->
  slot_cm_id g false k = Some (RemoteCmId (BuffConns g !!! k)).
Proof.
  intros Hk. unfold slot_cm_id.
  destruct (lookup_lt_is_Some_2 _ _ Hk) as [c Hc].
  by rewrite Hc, (list_lookup_total_correct _ _ _ Hc).
Qed.

(** *** the two slot searches *)

Lemma select_lowest g isCtrl i :
  arrays_allocated g -> lowest_available g isCtrl i ->
  (if isCtrl then (select_CtrlConn g).2 else (select_BuffConn g).2) = Some i.
Proof.
  intros [HlC HlB] (Hi & Hst & Hlow). destruct isCtrl.
  - unfold select_CtrlConn. apply scan_from_found; [done| |].
    + rewrite slot_state_ctrl in Hst by lia. injection Hst as Hst.
      by apply bool_decide_eq_true.
    + intros k Hk. apply bool_decide_eq_false. intros Hav.
      apply (Hlow k Hk). rewrite slot_state_ctrl by lia. by rewrite Hav.
  - unfold select_BuffConn. apply scan_from_found; [done| |].
    + rewrite slot_state_buff in Hst by lia. injection Hst as Hst.
      by apply bool_decide_eq_true.
    + intros k Hk. apply bool_decide_eq_false. intros Hav.
      apply (Hlow k Hk). rewrite slot_state_buff by lia. by rewrite Hav.
Qed.

Lemma select_none g isCtrl :
  arrays_allocated g -> none_available g isCtrl ->
  (if isCtrl then (select_CtrlConn g).2 else (select_BuffConn g).2) = None.
Proof.
  intros [HlC HlB] Hnone. destruct isCtrl.
  - unfold select_CtrlConn. apply scan_from_missed. intros k Hk.
    apply bool_decide_eq_false. intros Hav. apply (Hnone k Hk).
    rewrite slot_state_ctrl by lia. by rewrite Hav.
  - unfold select_BuffConn. apply scan_from_missed. intros k Hk.
    apply bool_decide_eq_false. intros Hav. apply (Hnone k Hk).
    rewrite slot_state_buff by lia. by rewrite Hav.
Qed.

(** [FindConnId] returns the one known slot that holds the id. *)
Lemma FindConnId_unique g cm b i :
  slots_allocated g -> known_slot g b i -> slot_cm_id g b i = Some cm ->
  (forall b' k, known_slot g b' k -> slot_cm_id g b' k = Some cm -> (b', k) = (b, i)) ->
  FindConnId g cm = Some (b, i).
Proof.
  intros Halloc Hknown Hid Huniq.
  destruct (FindConnId_complete g cm b i Hknown Hid) as (b' & j & Hfind).
  destruct (FindConnId_sound g cm b' j Halloc Hfind) as [Hk Hc].
  specialize (Huniq b' j Hk Hc). by injection Huniq as -> ->.
Qed.

Lemma FindConnId_fresh g cm :
  slots_allocated g -> fresh_id g cm -> FindConnId g cm = None.
Proof.
  intros Halloc Hfresh.
  destruct (FindConnId g cm) as [[b j]|] eqn:Hfind; [|done].
  destruct (FindConnId_sound g cm b j Halloc Hfind) as [Hk Hc].
  by destruct (Hfresh b j Hk).
Qed.

(** *** a slot written, the others kept *)

Lemma slots_after_ctrl_write g i (c : CtrlConnConfig) :
  (i < length (CtrlConns g))%nat ->
  let g' := set_CtrlConns (<[i := c]> (CtrlConns g)) g in
  slot_state g' true i = Some (Ctrl_State c)
  /\ slot_cm_id g' true i = Some (Ctrl_RemoteCmId c)
  /\ (forall b k, (b, k) <> (true, i) ->
        slot_state g' b k = slot_state g b k /\ slot_cm_id g' b k = slot_cm_id g b k)
  /\ MaxClients g' = MaxClients g /\ MaxBuffs g' = MaxBuffs g
  /\ length (CtrlConns g') = length (CtrlConns g)
  /\ length (BuffConns g') = length (BuffConns g).
Proof.
  intros Hi g'. unfold slot_state, slot_cm_id. subst g'. cbn.
  rewrite list_lookup_insert_eq by done. cbn.
  split; [done|]. split; [done|]. split; [|by rewrite length_insert].
  intros b k Hne. destruct b; [|done].
  rewrite list_lookup_insert_ne; [done|]. intros ->. by apply Hne.
Qed.

Lemma slots_after_buff_write g i (c : BuffConnConfig) :
  (i < length (BuffConns g))%nat ->
  let g' := set_BuffConns (<[i := c]> (BuffConns g)) g in
  slot_state g' false i = Some (State c)
  /\ slot_cm_id g' false i = Some (RemoteCmId c)
  /\ (forall b k, (b, k) <> (false, i) ->
        slot_state g' b k = slot_state g b k /\ slot_cm_id g' b k = slot_cm_id g b k)
  /\ MaxClients g' = MaxClients g /\ MaxBuffs g' = MaxBuffs g
  /\ length (CtrlConns g') = length (CtrlConns g)
  /\ length (BuffConns g') = length (BuffConns g).
Proof.
  intros Hi g'. unfold slot_state, slot_cm_id. subst g'. cbn.
  rewrite list_lookup_insert_eq by done. cbn.
  split; [done|]. split; [done|]. split; [|by rewrite length_insert].
  intros b k Hne. destruct b; [done|].
  rewrite list_lookup_insert_ne; [done|]. intros ->. by apply Hne.
Qed.

(** A connect request goes to the lowest-numbered slot of its kind
    whose state is AVAILABLE: the slot records the CM id of the event and
    becomes OCCUPIED when the set-up chain returned 0 (it stays AVAILABLE,
    with the id recorded, when the chain failed, and the failure is what
    the handler returns); no other slot changes its state or its CM id.
    When no slot of the kind
    is AVAILABLE the request changes nothing and the handler returns 0. *)
Lemma connect_request_effect (setup resolve : Z) (g : BackEndConfig)
    (isCtrl : bool) (cm : CmIdT) :
  arrays_allocated g ->
  let r := ProcessCmEvents setup resolve g (connect_request isCtrl cm) in
  (none_available g isCtrl -> r = (0, g))
  /\ forall i, lowest_available g isCtrl i ->
       r.1 = setup
       /\ slot_cm_id r.2 isCtrl i = Some cm
       /\ slot_state r.2 isCtrl i
          = Some (if setup =? 0 then CONN_STATE_OCCUPIED else CONN_STATE_AVAILABLE)
       /\ same_but g r.2 isCtrl i.
Proof.
  intros Halloc r. pose proof Halloc as [HlC HlB]. unfold same_but. split.
  - intros Hnone. pose proof (select_none g isCtrl Halloc Hnone) as Hsel.
    subst r. unfold ProcessCmEvents. destruct isCtrl; cbn; by rewrite Hsel.
  - intros i Hlow. pose proof (select_lowest g isCtrl i Halloc Hlow) as Hsel.
    destruct Hlow as (Hi & Hst & _).
    subst r. unfold ProcessCmEvents. destruct isCtrl; cbn; rewrite Hsel.
    + rewrite slot_state_ctrl in Hst by lia. injection Hst as Hst.
      destruct (Z.eqb_spec setup 0) as [->|Hne]; cbn [fst snd].
      * destruct (slots_after_ctrl_write g i
                    (set_Ctrl_State CONN_STATE_OCCUPIED
                       (set_Ctrl_RemoteCmId cm (CtrlConns g !!! i))) ltac:(lia))
          as (H1 & H2 & H3 & H4 & H5 & H6 & H7). done.
      * destruct (slots_after_ctrl_write g i
                    (set_Ctrl_RemoteCmId cm (CtrlConns g !!! i)) ltac:(lia))
          as (H1 & H2 & H3 & H4 & H5 & H6 & H7). cbn in H1. rewrite Hst in H1. done.
    + rewrite slot_state_buff in Hst by lia. injection Hst as Hst.
      destruct (Z.eqb_spec setup 0) as [->|Hne]; cbn [fst snd].
      * destruct (slots_after_buff_write g i
                    (set_State CONN_STATE_OCCUPIED
                       (set_RemoteCmId cm (BuffConns g !!! i))) ltac:(lia))
          as (H1 & H2 & H3 & H4 & H5 & H6 & H7). done.
      * destruct (slots_after_buff_write g i
                    (set_RemoteCmId cm (BuffConns g !!! i)) ltac:(lia))
          as (H1 & H2 & H3 & H4 & H5 & H6 & H7). cbn in H1. rewrite Hst in H1. done.
Qed.


(** *** the steps of a connection's life *)

Lemma set_slot_state_spec g (b : bool) i s :
  (if b then (i < length (CtrlConns g))%nat else (i < length (BuffConns g))%nat) ->
  slot_state (set_slot_state b i s g) b i = Some s
  /\ slot_cm_id (set_slot_state b i s g) b i = slot_cm_id g b i
  /\ same_but g (set_slot_state b i s g) b i.
Proof.
  intros Hi. unfold set_slot_state, same_but. destruct b.
  - destruct (slots_after_ctrl_write g i
                (set_Ctrl_State s (CtrlConns g !!! i)) Hi)
      as (H1 & H2 & H3 & H4 & H5 & H6 & H7).
    split; [done|]. split; [by rewrite H2, slot_cm_id_ctrl|done].
  - destruct (slots_after_buff_write g i
                (set_State s (BuffConns g !!! i)) Hi)
      as (H1 & H2 & H3 & H4 & H5 & H6 & H7).
    split; [done|]. split; [by rewrite H2, slot_cm_id_buff|done].
Qed.

Lemma established_step setup resolve g cm b i :
  FindConnId g cm = Some (b, i) ->
  ProcessCmEvents setup resolve g (established cm)
  = (0, set_slot_state b i CONN_STATE_CONNECTED g).
Proof.
  intros Hf. unfold ProcessCmEvents. cbn [event id established].
  rewrite Hf. by destruct b.
Qed.

Lemma disconnected_step setup resolve g cm (b : bool) i :
  (if b then (i < length (CtrlConns g))%nat else (i < length (BuffConns g))%nat) ->
  FindConnId g cm = Some (b, i) ->
  ProcessCmEvents setup resolve g (disconnected cm)
  = (0, if decide (slot_state g b i = Some CONN_STATE_AVAILABLE) then g
        else set_slot_state b i CONN_STATE_AVAILABLE g).
Proof.
  intros Hi Hf. unfold ProcessCmEvents. cbn [event id disconnected].
  rewrite Hf. destruct b.
  - rewrite slot_state_ctrl by done.
    destruct (decide (Ctrl_State (CtrlConns g !!! i) = CONN_STATE_AVAILABLE)) as [He|Hne].
    + by rewrite decide_True by (by rewrite He).
    + by rewrite decide_False by (by intros [= ?]).
  - rewrite slot_state_buff by done.
    destruct (decide (State (BuffConns g !!! i) = CONN_STATE_AVAILABLE)) as [He|Hne].
    + by rewrite decide_True by (by rewrite He).
    + by rewrite decide_False by (by intros [= ?]).
Qed.

Lemma unfound_step setup resolve g cm :
  FindConnId g cm = None ->
  ProcessCmEvents setup resolve g (established cm) = (0, g)
  /\ ProcessCmEvents setup resolve g (disconnected cm) = (0, g).
Proof.
  intros Hf. unfold ProcessCmEvents. cbn [event id established disconnected].
  by rewrite Hf.
Qed.

Lemma same_but_known g g' b i b' k :
  same_but g g' b i -> known_slot g' b' k <-> known_slot g b' k.
Proof.
  intros (H1 & H2 & H3 & H4 & _). unfold known_slot.
  destruct b'; rewrite ?H1, ?H2, ?H3, ?H4; done.
Qed.

Lemma same_but_allocated g g' b i :
  same_but g g' b i -> slots_allocated g -> slots_allocated g'.
Proof.
  intros (H1 & H2 & H3 & H4 & _) [Ha Hb]. unfold slots_allocated.
  rewrite H1, H2, H3, H4. done.
Qed.

(** After a write to the slot [(b, i)] that leaves [cm] there, [FindConnId]
    names that slot, if the id was fresh before. *)
Lemma FindConnId_after g g' cm b i :
  slots_allocated g -> fresh_id g cm -> same_but g g' b i ->
  known_slot g b i -> slot_cm_id g' b i = Some cm ->
  FindConnId g' cm = Some (b, i).
Proof.
  intros Halloc Hfresh Hsame Hknown Hid.
  apply FindConnId_unique; [by apply (same_but_allocated g g' b i)| |done|].
  - by apply (same_but_known g g' b i).
  - intros b' k Hk Hc.
    destruct (decide ((b', k) = (b, i))) as [|Hne]; [done|exfalso].
    pose proof Hsame as (_ & _ & _ & _ & Hframe).
    destruct (Hframe b' k Hne) as [_ Hcm]. rewrite Hcm in Hc.
    apply (Hfresh b' k); [|done].
    by apply (same_but_known g g' b i b' k Hsame).
Qed.

End ConnectionLaws.

Module ConnectionLaws2.
Import FileBackEnd BackEndExamples ConnectionNotions ConnectionFacts ConnectionLaws.

Lemma same_but_trans g1 g2 g3 b i :
  same_but g1 g2 b i -> same_but g2 g3 b i -> same_but g1 g3 b i.
Proof.
  intros (A1 & A2 & A3 & A4 & A5) (B1 & B2 & B3 & B4 & B5). unfold same_but.
  rewrite B1, B2, B3, B4. repeat split; try done.
  - destruct (B5 b0 k H) as [-> _]. by destruct (A5 b0 k H).
  - destruct (B5 b0 k H) as [_ ->]. by destruct (A5 b0 k H).
Qed.

Lemma slot_polled_of_state g (b : bool) i s :
  slot_state g b i = Some s ->
  slot_polled g b i = Some (bool_decide (s = CONN_STATE_CONNECTED)).
Proof.
  unfold slot_state, slot_polled. destruct b.
  - destruct (CtrlConns g !! i) as [c|]; [|done]. by intros [= <-].
  - destruct (BuffConns g !! i) as [c|]; [|done]. by intros [= <-].
Qed.

Lemma known_slot_in_range g (b : bool) i :
  known_slot g b i ->
  if b then (i < length (CtrlConns g))%nat else (i < length (BuffConns g))%nat.
Proof. unfold known_slot. destruct b; tauto. Qed.

Lemma allocated_slots g :
  arrays_allocated g -> (MaxBuffs g <= MaxClients g)%nat -> slots_allocated g.
Proof. intros [HC HB] Hle. unfold slots_allocated. split; lia. Qed.

(** X10.  A connect request goes to the lowest-numbered slot of its kind
    whose state is AVAILABLE: the slot records the CM id of the event and
    becomes OCCUPIED when the set-up chain returned 0 (it stays AVAILABLE,
    with the id recorded, when the chain failed, and the failure is what
    the handler returns); no other slot changes its state or its CM id.
    When no slot of the kind
    is AVAILABLE the request changes nothing and the handler returns 0. *)
Theorem connect_request_takes_lowest_slot (setup resolve : Z) (g : BackEndConfig)
    (isCtrl : bool) (cm : CmIdT) :
  arrays_allocated g ->
  let r := ProcessCmEvents setup resolve g (connect_request isCtrl cm) in
  (none_available g isCtrl -> r = (0, g))
  /\ forall i, lowest_available g isCtrl i ->
       r.1 = setup
       /\ slot_cm_id r.2 isCtrl i = Some cm
       /\ slot_state r.2 isCtrl i
          = Some (if setup =? 0 then CONN_STATE_OCCUPIED else CONN_STATE_AVAILABLE)
       /\ same_but g r.2 isCtrl i.
Proof. apply connect_request_effect. Qed.

Lemma connect_request_takes_lowest_slot_witness :
  let r := ProcessCmEvents (-1) 0 accepted (connect_request false 9) in
  r.1 = -1
  /\ slot_cm_id r.2 false 1 = Some 9
  /\ slot_state r.2 false 1 = Some CONN_STATE_AVAILABLE
  /\ same_but accepted r.2 false 1.
Proof.
  assert (Halloc : arrays_allocated accepted) by (split; reflexivity).
  destruct (connect_request_takes_lowest_slot (-1) 0 accepted false 9 Halloc)
    as [_ Hlow].
  apply (Hlow 1%nat). split; [vm_compute; lia|]. split; [reflexivity|].
  intros k Hk. destruct k as [|k]; [|lia]. discriminate.
Defined.

(** X11.  The life of a connection.  For a CM id that no slot holds yet and
    the lowest AVAILABLE slot of the kind (for a buffer connection one
    below [MaxBuffs]): the connect request, accepted, leaves the slot
    OCCUPIED and not polled; ESTABLISHED makes it CONNECTED, the state in
    which the completion-queue passes poll it; DISCONNECTED makes it
    AVAILABLE again, left out by the polls and again the slot the next
    connect request of the kind takes; a second DISCONNECTED for the id
    changes nothing.  Every handler returns 0, and no other slot changes
    its state or its CM id. *)
Theorem connection_lifecycle (resolve : Z) (g : BackEndConfig) (isCtrl : bool)
    (cm : CmIdT) (i : nat) :
  arrays_allocated g -> (MaxBuffs g <= MaxClients g)%nat ->
  fresh_id g cm -> lowest_available g isCtrl i -> known_slot g isCtrl i ->
  exists g1 g2 g3,
    ProcessCmEvents 0 resolve g (connect_request isCtrl cm) = (0, g1)
    /\ slot_state g1 isCtrl i = Some CONN_STATE_OCCUPIED
    /\ slot_polled g1 isCtrl i = Some false
    /\ ProcessCmEvents 0 resolve g1 (established cm) = (0, g2)
    /\ slot_state g2 isCtrl i = Some CONN_STATE_CONNECTED
    /\ slot_polled g2 isCtrl i = Some true
    /\ ProcessCmEvents 0 resolve g2 (disconnected cm) = (0, g3)
    /\ slot_state g3 isCtrl i = Some CONN_STATE_AVAILABLE
    /\ slot_polled g3 isCtrl i = Some false
    /\ ProcessCmEvents 0 resolve g3 (disconnected cm) = (0, g3)
    /\ lowest_available g3 isCtrl i
    /\ same_but g g3 isCtrl i.
Proof.
  intros Halloc Hle Hfresh Hlow Hknown.
  pose proof (allocated_slots g Halloc Hle) as Hslots.
  destruct (connect_request_effect 0 resolve g isCtrl cm Halloc) as [_ Hconn].
  destruct (Hconn i Hlow) as (Hret & Hid1 & Hst1 & Hsame1).
  destruct (ProcessCmEvents 0 resolve g (connect_request isCtrl cm)) as [r1 g1].
  cbn [fst snd] in *. subst r1. change (0 =? 0) with true in Hst1. cbn in Hst1.
  (* established *)
  pose proof (FindConnId_after g g1 cm isCtrl i Hslots Hfresh Hsame1 Hknown Hid1) as Hf1.
  assert (Hin1 : if isCtrl then (i < length (CtrlConns g1))%nat
                 else (i < length (BuffConns g1))%nat).
  { apply known_slot_in_range. by apply (same_but_known g g1 isCtrl i). }
  destruct (set_slot_state_spec g1 isCtrl i CONN_STATE_CONNECTED Hin1)
    as (Hst2 & Hid2 & Hsame12).
  set (g2 := set_slot_state isCtrl i CONN_STATE_CONNECTED g1) in *.
  pose proof (same_but_trans g g1 g2 isCtrl i Hsame1 Hsame12) as Hsame2.
  rewrite Hid1 in Hid2.
  pose proof (FindConnId_after g g2 cm isCtrl i Hslots Hfresh Hsame2 Hknown Hid2) as Hf2.
  (* disconnected *)
  assert (Hin2 : if isCtrl then (i < length (CtrlConns g2))%nat
                 else (i < length (BuffConns g2))%nat).
  { apply known_slot_in_range. by apply (same_but_known g g2 isCtrl i). }
  destruct (set_slot_state_spec g2 isCtrl i CONN_STATE_AVAILABLE Hin2)
    as (Hst3 & Hid3 & Hsame23).
  set (g3 := set_slot_state isCtrl i CONN_STATE_AVAILABLE g2) in *.
  pose proof (same_but_trans g g2 g3 isCtrl i Hsame2 Hsame23) as Hsame3.
  rewrite Hid2 in Hid3.
  pose proof (FindConnId_after g g3 cm isCtrl i Hslots Hfresh Hsame3 Hknown Hid3) as Hf3.
  assert (Hin3 : if isCtrl then (i < length (CtrlConns g3))%nat
                 else (i < length (BuffConns g3))%nat).
  { apply known_slot_in_range. by apply (same_but_known g g3 isCtrl i). }
  exists g1, g2, g3.
  split; [done|]. split; [done|].
  split; [by rewrite (slot_polled_of_state g1 isCtrl i _ Hst1)|].
  split; [by apply established_step|]. split; [done|].
  split; [by rewrite (slot_polled_of_state g2 isCtrl i _ Hst2)|].
  split.
  { rewrite (disconnected_step 0 resolve g2 cm isCtrl i Hin2 Hf2).
    by rewrite decide_False by (by rewrite Hst2). }
  split; [done|].
  split; [by rewrite (slot_polled_of_state g3 isCtrl i _ Hst3)|].
  split.
  { rewrite (disconnected_step 0 resolve g3 cm isCtrl i Hin3 Hf3).
    by rewrite decide_True. }
  split; [|done].
  destruct Hlow as (Hi & _ & Hbelow). destruct Hsame3 as (HM & _ & _ & _ & Hframe).
  split; [by rewrite HM|]. split; [done|].
  intros k Hk. destruct (Hframe isCtrl k) as [-> _]; [intros [= ?]; lia|].
  by apply Hbelow.
Qed.

Lemma connection_lifecycle_witness :
  exists g1 g2 g3,
    ProcessCmEvents 0 0 (AllocConns 2 2) (connect_request false 7) = (0, g1)
    /\ slot_state g1 false 0 = Some CONN_STATE_OCCUPIED
    /\ slot_polled g1 false 0 = Some false
    /\ ProcessCmEvents 0 0 g1 (established 7) = (0, g2)
    /\ slot_state g2 false 0 = Some CONN_STATE_CONNECTED
    /\ slot_polled g2 false 0 = Some true
    /\ ProcessCmEvents 0 0 g2 (disconnected 7) = (0, g3)
    /\ slot_state g3 false 0 = Some CONN_STATE_AVAILABLE
    /\ slot_polled g3 false 0 = Some false
    /\ ProcessCmEvents 0 0 g3 (disconnected 7) = (0, g3)
    /\ lowest_available g3 false 0
    /\ same_but (AllocConns 2 2) g3 false 0.
Proof.
  apply (connection_lifecycle 0 (AllocConns 2 2) false 7 0).
  - split; reflexivity.
  - vm_compute. lia.
  - intros b k Hk. destruct b; destruct Hk as [Hk _]; vm_compute in Hk;
      destruct k as [|[|k]]; try lia; discriminate.
  - split; [vm_compute; lia|]. split; [reflexivity|]. intros k Hk. lia.
  - split; vm_compute; lia.
Defined.

(** X12.  A buffer slot at or above [MaxBuffs].  The slot search of a buffer
    connect request runs up to [MaxClients], [FindConnId] only up to
    [MaxBuffs].  When the lowest AVAILABLE buffer slot lies at or above
    [MaxBuffs], the request is accepted into it and the slot becomes
    OCCUPIED, but [FindConnId] does not find the id: ESTABLISHED and
    DISCONNECTED for the connection change nothing, so these events
    neither make the slot CONNECTED (polled) nor AVAILABLE again. *)
Theorem buffer_slot_beyond_MaxBuffs (resolve : Z) (g : BackEndConfig)
    (cm : CmIdT) (i : nat) :
  arrays_allocated g -> (MaxBuffs g <= MaxClients g)%nat ->
  fresh_id g cm -> lowest_available g false i -> (MaxBuffs g <= i)%nat ->
  exists g1,
    ProcessCmEvents 0 resolve g (connect_request false cm) = (0, g1)
    /\ slot_state g1 false i = Some CONN_STATE_OCCUPIED
    /\ slot_cm_id g1 false i = Some cm
    /\ FindConnId g1 cm = None
    /\ ProcessCmEvents 0 resolve g1 (established cm) = (0, g1)
    /\ ProcessCmEvents 0 resolve g1 (disconnected cm) = (0, g1).
Proof.
  intros Halloc Hle Hfresh Hlow Hbeyond.
  pose proof (allocated_slots g Halloc Hle) as Hslots.
  destruct (connect_request_effect 0 resolve g false cm Halloc) as [_ Hconn].
  destruct (Hconn i Hlow) as (Hret & Hid1 & Hst1 & Hsame1).
  destruct (ProcessCmEvents 0 resolve g (connect_request false cm)) as [r1 g1].
  cbn [fst snd] in *. subst r1. change (0 =? 0) with true in Hst1. cbn in Hst1.
  assert (Hf : FindConnId g1 cm = None).
  { apply FindConnId_fresh; [by apply (same_but_allocated g g1 false i)|].
    intros b k Hk Hc.
    pose proof (proj1 (same_but_known g g1 false i b k Hsame1) Hk) as Hk0.
    destruct Hsame1 as (_ & _ & _ & _ & Hframe).
    destruct (Hframe b k) as [_ Hcm].
    { intros [= -> ->]. destruct Hk0 as [Hk0 _]. lia. }
    rewrite Hcm in Hc. by apply (Hfresh b k). }
  exists g1. split; [done|]. split; [done|]. split; [done|]. split; [done|].
  by apply unfound_step.
Qed.

Lemma buffer_slot_beyond_MaxBuffs_witness :
  exists g1,
    ProcessCmEvents 0 0 (AllocConns 1 0) (connect_request false 7) = (0, g1)
    /\ slot_state g1 false 0 = Some CONN_STATE_OCCUPIED
    /\ slot_cm_id g1 false 0 = Some 7
    /\ FindConnId g1 7 = None
    /\ ProcessCmEvents 0 0 g1 (established 7) = (0, g1)
    /\ ProcessCmEvents 0 0 g1 (disconnected 7) = (0, g1).
Proof.
  apply (buffer_slot_beyond_MaxBuffs 0 (AllocConns 1 0) 7 0).
  - split; reflexivity.
  - vm_compute. lia.
  - intros b k Hk. destruct b; destruct Hk as [Hk _]; vm_compute in Hk;
      destruct k as [|k]; try lia; discriminate.
  - split; [vm_compute; lia|]. split; [reflexivity|]. intros k Hk. lia.
  - vm_compute. lia.
Defined.

End ConnectionLaws2.

Module ConnectionSetupFacts.
Import FileBackEnd ConnectionNotions ConnectionSetup ConnectionLaws ConnectionLaws2.

Lemma live_after_app calls1 : forall calls2 live,
  live_after (calls1 ++ calls2) live
  = match live_after calls1 live with
    | Some l => live_after calls2 l
    | None => None
    end.
Proof.
  induction calls1 as [|[r|r] calls1 IH]; intros calls2 live; cbn [live_after app];
    [done| |]; destruct (holds r live); try done; apply IH.
Qed.

Ltac run_calls :=
  repeat first
    [ rewrite live_after_app
    | match goal with
      | H : live_after ?c ?l = _ |- context [live_after ?c ?l] =>
          rewrite H; cbn beta iota
      end ];
  try done.

Ltac case_creates L r :=
  let H := fresh "Hc" in destruct (creates L r) eqn:H; cbn [negb andb].

Ltac case_ret x :=
  let H := fresh "Hr" in
  destruct (Z.eqb_spec x 0) as [H|H]; cbn [negb andb];
  [rewrite ?H|rewrite ?(proj2 (Z.eqb_neq x 0) H)].

(** *** the set-up functions one by one: the value returned is 0 exactly
    when every call succeeded, and the calls made leave the resources of
    the function live in that case and nothing new otherwise *)

Lemma SetUpCtrlQPair_spec (L : Library) :
  ((SetUpCtrlQPair L).1 =? 0)
  = creates L R_PDomain && creates L R_Channel && creates L R_CompQ
    && (ret_ibv_req_notify_cq L =? 0) && creates L R_QPair
  /\ live_after (SetUpCtrlQPair L).2 []
     = Some (if (SetUpCtrlQPair L).1 =? 0
             then [R_PDomain; R_Channel; R_CompQ; R_QPair] else []).
Proof.
  unfold SetUpCtrlQPair.
  case_creates L R_PDomain; [|done].
  case_creates L R_Channel; [|done].
  case_creates L R_CompQ; [|done].
  case_ret (ret_ibv_req_notify_cq L).
  - case_creates L R_QPair; done.
  - cbn [fst snd]. rewrite (proj2 (Z.eqb_neq _ 0) Hr). done.
Qed.

Lemma SetUpBuffQPair_spec (L : Library) :
  ((SetUpBuffQPair L).1 =? 0)
  = creates L R_PDomain && creates L R_Channel && creates L R_CompQ
    && (ret_ibv_req_notify_cq L =? 0) && creates L R_QPair
  /\ live_after (SetUpBuffQPair L).2 []
     = Some (if (SetUpBuffQPair L).1 =? 0
             then [R_PDomain; R_Channel; R_CompQ; R_QPair] else []).
Proof. exact (SetUpCtrlQPair_spec L). Qed.

Lemma SetUpCtrlRegionsAndBuffers_spec (L : Library) :
  ((SetUpCtrlRegionsAndBuffers L).1 =? 0) = creates L R_RecvMr && creates L R_SendMr
  /\ live_after (SetUpCtrlRegionsAndBuffers L).2 [R_PDomain; R_Channel; R_CompQ; R_QPair]
     = Some (if (SetUpCtrlRegionsAndBuffers L).1 =? 0
             then ctrl_resources else [R_PDomain; R_Channel; R_CompQ; R_QPair]).
Proof.
  unfold SetUpCtrlRegionsAndBuffers.
  case_creates L R_RecvMr; [|done].
  case_creates L R_SendMr; done.
Qed.

Lemma SetUpForCtrlMsgs_spec (L : Library) :
  ((SetUpForCtrlMsgs L).1 =? 0) = creates L R_RecvMr && creates L R_SendMr
  /\ live_after (SetUpForCtrlMsgs L).2 [R_PDomain; R_Channel; R_CompQ; R_QPair]
     = Some (if (SetUpForCtrlMsgs L).1 =? 0
             then ctrl_resources else [R_PDomain; R_Channel; R_CompQ; R_QPair]).
Proof. exact (SetUpCtrlRegionsAndBuffers_spec L). Qed.

Lemma SetUpForRequests_spec (L : Library) :
  ((SetUpForRequests L).1 =? 0)
  = creates L R_RequestDMAReadDataBuff && creates L R_RequestDMAReadDataMr
    && creates L R_RequestDMAReadMetaMr && creates L R_RequestDMAWriteMetaMr
  /\ live_after (SetUpForRequests L).2 ctrl_resources
     = Some (if (SetUpForRequests L).1 =? 0
             then ctrl_resources
                  ++ [R_RequestDMAReadDataBuff; R_RequestDMAReadDataMr;
                      R_RequestDMAReadMetaMr; R_RequestDMAWriteMetaMr]
             else ctrl_resources).
Proof.
  unfold SetUpForRequests.
  case_creates L R_RequestDMAReadDataBuff; [|done].
  case_creates L R_RequestDMAReadDataMr; [|done].
  case_creates L R_RequestDMAReadMetaMr; [|done].
  case_creates L R_RequestDMAWriteMetaMr; done.
Qed.

Lemma SetUpForResponses_spec (L : Library) :
  ((SetUpForResponses L).1 =? 0)
  = creates L R_ResponseDMAWriteDataBuff && creates L R_ResponseDMAWriteDataMr
    && creates L R_ResponseDMAReadMetaMr && creates L R_ResponseDMAWriteMetaMr
  /\ live_after (SetUpForResponses L).2
       (ctrl_resources
        ++ [R_RequestDMAReadDataBuff; R_RequestDMAReadDataMr;
            R_RequestDMAReadMetaMr; R_RequestDMAWriteMetaMr])
     = Some (if (SetUpForResponses L).1 =? 0
             then buff_resources
             else ctrl_resources
                  ++ [R_RequestDMAReadDataBuff; R_RequestDMAReadDataMr;
                      R_RequestDMAReadMetaMr; R_RequestDMAWriteMetaMr]).
Proof.
  unfold SetUpForResponses.
  case_creates L R_ResponseDMAWriteDataBuff; [|done].
  case_creates L R_ResponseDMAWriteDataMr; [|done].
  case_creates L R_ResponseDMAReadMetaMr; [|done].
  case_creates L R_ResponseDMAWriteMetaMr; done.
Qed.

Lemma SetUpBuffRegionsAndBuffers_spec (L : Library) :
  ((SetUpBuffRegionsAndBuffers L).1 =? 0)
  = ((SetUpForCtrlMsgs L).1 =? 0) && ((SetUpForRequests L).1 =? 0)
    && ((SetUpForResponses L).1 =? 0)
  /\ live_after (SetUpBuffRegionsAndBuffers L).2 [R_PDomain; R_Channel; R_CompQ; R_QPair]
     = Some (if (SetUpBuffRegionsAndBuffers L).1 =? 0
             then buff_resources else [R_PDomain; R_Channel; R_CompQ; R_QPair]).
Proof.
  unfold SetUpBuffRegionsAndBuffers.
  destruct (SetUpForCtrlMsgs_spec L) as [_ Hl1].
  destruct (SetUpForRequests_spec L) as [_ Hl2].
  destruct (SetUpForResponses_spec L) as [_ Hl3].
  destruct (SetUpForCtrlMsgs L) as [r1 c1]. cbn [fst snd] in *.
  revert Hl1; destruct (Z.eqb_spec r1 0) as [->|H1]; intros Hl1; cbn [negb andb fst snd].
  2:{ by rewrite (proj2 (Z.eqb_neq _ 0) H1). }
  destruct (SetUpForRequests L) as [r2 c2]. cbn [fst snd] in *.
  revert Hl2; destruct (Z.eqb_spec r2 0) as [->|H2]; intros Hl2; cbn [negb andb fst snd].
  2:{ rewrite (proj2 (Z.eqb_neq _ 0) H2). split; [done|].
      run_calls. }
  destruct (SetUpForResponses L) as [r3 c3]. cbn [fst snd] in *.
  revert Hl3; destruct (Z.eqb_spec r3 0) as [->|H3]; intros Hl3; cbn [negb andb fst snd].
  2:{ rewrite (proj2 (Z.eqb_neq _ 0) H3). split; [done|].
      run_calls. }
  split; [done|]. run_calls.
Qed.

(** *** the connect-request branches *)

Lemma ctrl_calls_succeed_eq (L : Library) :
  ctrl_calls_succeed L
  = ((SetUpCtrlQPair L).1 =? 0) && ((SetUpCtrlRegionsAndBuffers L).1 =? 0)
    && (ret_ibv_post_recv L =? 0) && (ret_rdma_accept L =? 0).
Proof.
  rewrite (proj1 (SetUpCtrlQPair_spec L)), (proj1 (SetUpCtrlRegionsAndBuffers_spec L)).
  unfold ctrl_calls_succeed. cbn [forallb ctrl_resources]. btauto.
Qed.

Lemma buff_calls_succeed_eq (L : Library) :
  buff_calls_succeed L
  = ((SetUpBuffQPair L).1 =? 0) && ((SetUpBuffRegionsAndBuffers L).1 =? 0)
    && (ret_ibv_post_recv L =? 0) && (ret_rdma_accept L =? 0).
Proof.
  rewrite (proj1 (SetUpBuffQPair_spec L)), (proj1 (SetUpBuffRegionsAndBuffers_spec L)),
    (proj1 (SetUpForCtrlMsgs_spec L)), (proj1 (SetUpForRequests_spec L)),
    (proj1 (SetUpForResponses_spec L)).
  unfold buff_calls_succeed. cbn [forallb buff_resources ctrl_resources app]. btauto.
Qed.

Ltac failed_leaf :=
  split; [done|]; split; [split; [done|discriminate]|]; split; [run_calls|done].

Lemma accept_ctrl_balanced (L : Library) :
  let '(ret, calls, occupied) := accept_ctrl L in
  occupied = ctrl_calls_succeed L
  /\ (ret = 0 <-> occupied = true)
  /\ live_after calls [] = Some (if occupied then ctrl_resources else [])
  /\ (occupied = true -> live_after (calls ++ release_ctrl) [] = Some []).
Proof.
  rewrite ctrl_calls_succeed_eq. unfold accept_ctrl.
  destruct (SetUpCtrlQPair_spec L) as [_ Hl1].
  destruct (SetUpCtrlRegionsAndBuffers_spec L) as [_ Hl2].
  destruct (SetUpCtrlQPair L) as [r1 c1]. cbn [fst snd] in *.
  revert Hl1; destruct (Z.eqb_spec r1 0) as [->|H1]; intros Hl1; cbn [negb andb];
    [|failed_leaf].
  destruct (SetUpCtrlRegionsAndBuffers L) as [r2 c2]. cbn [fst snd] in *.
  revert Hl2; destruct (Z.eqb_spec r2 0) as [->|H2]; intros Hl2; cbn [negb andb];
    [|failed_leaf].
  destruct (Z.eqb_spec (ret_ibv_post_recv L) 0) as [Hp|Hp]; cbn [negb andb];
    [|failed_leaf].
  destruct (Z.eqb_spec (ret_rdma_accept L) 0) as [Ha|Ha]; cbn [negb andb];
    [|failed_leaf].
  split; [done|]. split; [done|]. split; [run_calls|]. intros _. run_calls.
Qed.

Lemma accept_buff_balanced (L : Library) :
  let '(ret, calls, occupied) := accept_buff L in
  occupied = buff_calls_succeed L
  /\ (ret = 0 <-> occupied = true)
  /\ live_after calls [] = Some (if occupied then buff_resources else [])
  /\ (occupied = true -> live_after (calls ++ release_buff) [] = Some []).
Proof.
  rewrite buff_calls_succeed_eq. unfold accept_buff.
  destruct (SetUpBuffQPair_spec L) as [_ Hl1].
  destruct (SetUpBuffRegionsAndBuffers_spec L) as [_ Hl2].
  destruct (SetUpBuffQPair L) as [r1 c1]. cbn [fst snd] in *.
  revert Hl1; destruct (Z.eqb_spec r1 0) as [->|H1]; intros Hl1; cbn [negb andb];
    [|failed_leaf].
  destruct (SetUpBuffRegionsAndBuffers L) as [r2 c2]. cbn [fst snd] in *.
  revert Hl2; destruct (Z.eqb_spec r2 0) as [->|H2]; intros Hl2; cbn [negb andb];
    [|failed_leaf].
  destruct (Z.eqb_spec (ret_ibv_post_recv L) 0) as [Hp|Hp]; cbn [negb andb];
    [|failed_leaf].
  destruct (Z.eqb_spec (ret_rdma_accept L) 0) as [Ha|Ha]; cbn [negb andb];
    [|failed_leaf].
  split; [done|]. split; [done|]. split; [run_calls|]. intros _. run_calls.
Qed.

Lemma accept_balanced (isCtrl : bool) (L : Library) :
  let '(ret, calls, occupied) := accept isCtrl L in
  occupied = calls_succeed isCtrl L
  /\ (ret = 0 <-> occupied = true)
  /\ live_after calls [] = Some (if occupied then resources isCtrl else [])
  /\ (occupied = true -> live_after (calls ++ release isCtrl) [] = Some []).
Proof.
  destruct isCtrl; [apply accept_ctrl_balanced|apply accept_buff_balanced].
Qed.

(** X13.  Whatever calls of the libraries fail while a connect request is
    served, the chain of [SetUp*] calls returns 0 exactly when every call
    succeeded; it never creates a resource twice nor gives back one it
    does not hold; on a failure everything created so far has been given
    back when the chain returns, and after a success the [Destroy*] calls
    of a disconnect give back every resource of the slot. *)
Theorem setup_chain_leaks_nothing (isCtrl : bool) (L : Library) :
  let '(ret, calls, occupied) := accept isCtrl L in
  occupied = calls_succeed isCtrl L
  /\ (ret = 0 <-> occupied = true)
  /\ live_after calls [] = Some (if occupied then resources isCtrl else [])
  /\ (occupied = true -> live_after (calls ++ release isCtrl) [] = Some []).
Proof. apply accept_balanced. Qed.

(** X14.  A connect request that finds an AVAILABLE slot leaves it OCCUPIED
    exactly when every library call of the set-up succeeded, and the slot
    is OCCUPIED exactly when it holds resources: a slot left AVAILABLE
    holds none, an OCCUPIED one holds all of its kind. *)
Theorem occupied_slot_holds_its_resources (L : Library) (resolve : Z)
    (g : BackEndConfig) (isCtrl : bool) (cm : CmIdT) (i : nat) :
  arrays_allocated g ->
  lowest_available g isCtrl i ->
  let '(ret, calls, _) := accept isCtrl L in
  let r := ProcessCmEvents ret resolve g (connect_request isCtrl cm) in
  (slot_state r.2 isCtrl i = Some CONN_STATE_OCCUPIED
   /\ calls_succeed isCtrl L = true
   /\ live_after calls [] = Some (resources isCtrl))
  \/ (slot_state r.2 isCtrl i = Some CONN_STATE_AVAILABLE
      /\ calls_succeed isCtrl L = false
      /\ r.1 <> 0
      /\ live_after calls [] = Some []).
Proof.
  intros Halloc Hlow. pose proof (accept_balanced isCtrl L) as Hb.
  destruct (accept isCtrl L) as [[ret calls] occupied].
  destruct Hb as (Hocc & Hret & Hlive & _).
  destruct (connect_request_effect ret resolve g isCtrl cm Halloc) as [_ Hreq].
  destruct (Hreq i Hlow) as (Hr & _ & Hst & _).
  cbn zeta. rewrite Hst, Hr, Hlive, <- Hocc.
  destruct occupied.
  - left. rewrite (proj2 Hret eq_refl). done.
  - right. destruct (Z.eqb_spec ret 0) as [H0|H0].
    + by apply Hret in H0.
    + done.
Qed.

Lemma occupied_slot_holds_its_resources_witness :
  let g := AllocConns 2 2 in
  let r := ProcessCmEvents 0 0 g (connect_request false 7%Z) in
  (slot_state r.2 false 0 = Some CONN_STATE_OCCUPIED
   /\ calls_succeed false obliging = true
   /\ live_after (accept false obliging).1.2 [] = Some (resources false))
  \/ (slot_state r.2 false 0 = Some CONN_STATE_AVAILABLE
      /\ calls_succeed false obliging = false
      /\ r.1 <> 0
      /\ live_after (accept false obliging).1.2 [] = Some []).
Proof.
  apply (occupied_slot_holds_its_resources obliging 0 (AllocConns 2 2) false 7%Z 0%nat).
  - split; reflexivity.
  - split; [cbn; lia|]. split; [reflexivity|]. intros k Hk. lia.
Defined.

End ConnectionSetupFacts.

Module RingFacts.
Import FileBackEnd BackEndExamples DataPlaneFacts ExecuteFacts.

Lemma DistanceBetweenPointers_mod capacity head tail :
  0 < capacity <= 2 ^ 30 -> 0 <= head < capacity -> 0 <= tail < capacity ->
  DistanceBetweenPointers tail head capacity = (tail - head) mod capacity.
Proof.
  intros Hc Hh Ht. unfold DistanceBetweenPointers.
  destruct (Z.geb_spec tail head) as [Hge|Hlt].
  - symmetry. apply Z.mod_small. lia.
  - rewrite int32_small by lia.
    replace (tail - head) with (capacity - head + tail + (-1) * capacity) by lia.
    rewrite Z_mod_plus_full. symmetry. apply Z.mod_small. lia.
Qed.

(** X15.  On a ring of at most 2^30 bytes, [DistanceBetweenPointers] is the
    forward distance from [Head] to [Tail] modulo the capacity: it lies
    in [0, Capacity), so equal cursors are at distance 0 and never at
    distance [Capacity]; advancing [Head] by it, the way every cursor of
    the data path advances, gives [Tail]; and the distance from a cursor
    to where an advance by [n < Capacity] bytes takes it is [n]. *)
Theorem distance_inverts_advance (capacity head tail n : Z) :
  0 < capacity <= 2 ^ 30 -> 0 <= head < capacity -> 0 <= tail < capacity ->
  0 <= n < capacity ->
  DistanceBetweenPointers tail head capacity = (tail - head) mod capacity
  /\ 0 <= DistanceBetweenPointers tail head capacity < capacity
  /\ ring_advance capacity head (DistanceBetweenPointers tail head capacity) = tail
  /\ DistanceBetweenPointers (ring_advance capacity head n) head capacity = n.
Proof.
  intros Hc Hh Ht Hn.
  pose proof (DistanceBetweenPointers_mod capacity head tail Hc Hh Ht) as Hd.
  assert (Hr : 0 <= (tail - head) mod capacity < capacity)
    by (apply Z.mod_pos_bound; lia).
  split; [done|]. split; [by rewrite Hd|]. split.
  - rewrite Hd, ring_advance_mod by lia.
    rewrite Zplus_mod_idemp_r.
    replace (head + (tail - head)) with tail by lia.
    apply Z.mod_small. lia.
  - pose proof (ring_advance_range capacity head n ltac:(lia) Hh ltac:(lia)) as Ha.
    rewrite DistanceBetweenPointers_mod by done.
    rewrite ring_advance_mod by lia.
    rewrite Zminus_mod_idemp_l.
    replace (head + n - head) with n by lia.
    apply Z.mod_small. lia.
Qed.

Lemma distance_inverts_advance_witness :
  DistanceBetweenPointers 548 3600 4096 = (548 - 3600) mod 4096
  /\ 0 <= DistanceBetweenPointers 548 3600 4096 < 4096
  /\ ring_advance 4096 3600 (DistanceBetweenPointers 548 3600 4096) = 548
  /\ DistanceBetweenPointers (ring_advance 4096 3600 1044) 3600 4096 = 1044.
Proof.
  apply (distance_inverts_advance 4096 3600 548 1044); lia.
Defined.

Lemma read_respSize_rounds (K : Consts) (bytes : Z) :
  0 < alignment K -> 0 <= bytes ->
  alignment K + bytes + alignment K <= 2 ^ 32 ->
  read_respSize K bytes mod alignment K = 0
  /\ alignment K + bytes <= read_respSize K bytes < alignment K + bytes + alignment K.
Proof.
  intros Ha Hb Hfit. unfold read_respSize.
  rewrite (u32_small (alignment K + bytes)) by lia.
  pose proof (Z.mod_pos_bound (alignment K + bytes) (alignment K) Ha) as Hm.
  destruct (Z.eqb_spec ((alignment K + bytes) mod alignment K) 0) as [H0|H0].
  - split; [done|lia].
  - rewrite u32_small by lia. split; [|lia].
    pose proof (Z.div_mod (alignment K + bytes) (alignment K) ltac:(lia)) as Hdm.
    replace (alignment K + bytes
             + (alignment K - (alignment K + bytes) mod alignment K))
      with ((1 + (alignment K + bytes) / alignment K) * alignment K) by lia.
    apply Z_mod_mult.
Qed.

(** X16.  The response reserved for a read of [bytes] bytes (lines
    2003-2008) is the least multiple of the alignment that holds the size
    prefix, the header and the bytes: a multiple of
    [sizeof(FileIOSizeT) + sizeof(BuffMsgB2FAckHeader)], at least that
    much plus [bytes], and less than one more alignment on top, as long as
    the sum fits 32 bits. *)
Theorem read_response_rounds_up (K : Consts) (bytes : Z) :
  0 < alignment K -> 0 <= bytes ->
  alignment K + bytes + alignment K <= 2 ^ 32 ->
  read_respSize K bytes mod alignment K = 0
  /\ alignment K + bytes <= read_respSize K bytes < alignment K + bytes + alignment K.
Proof. apply read_respSize_rounds. Qed.

Lemma read_response_rounds_up_witness :
  read_respSize K4096 1000 mod alignment K4096 = 0
  /\ alignment K4096 + 1000 <= read_respSize K4096 1000
     < alignment K4096 + 1000 + alignment K4096.
Proof.
  apply (read_response_rounds_up K4096 1000); by_evaluation.
Defined.

End RingFacts.

Module ExecuteLaws.
Import FileBackEnd BackEndExamples BackEndExamples2 DataPlaneFacts ExecuteFacts.

Section Stuck.

Variable K : Consts.
Hypothesis HK : consts_in_range K.

(** A turn of the loop on a size prefix of zero leaves the loop where it
    was. *)
Lemma execute_loop_stuck (bytesTotal : Z) fuel : forall s,
  bytesParsed s <> bytesTotal ->
  0 <= bytesParsed s < 2 ^ 32 ->
  0 <= progressReq s < BACKEND_REQUEST_BUFFER_SIZE K ->
  req_size_at (RequestMem (exec_conn s)) (progressReq s) = 0 ->
  execute_loop K fuel bytesTotal s = None.
Proof.
  pose proof HK as (_ & _ & _ & _ & Hreq & _).
  induction fuel as [|fuel IH]; intros s Hne Hb Hp Hz; cbn [execute_loop];
    rewrite (proj2 (Z.eqb_neq _ _) Hne); [done|].
  destruct (execute_one_fields K s) as (Hbp & Hpq & _ & _ & Hmem & _).
  unfold record_at in Hbp, Hpq. cbn [rec_size] in Hbp, Hpq.
  rewrite Hz in Hbp, Hpq.
  rewrite Z.add_0_r, u32_small in Hbp by done.
  rewrite ring_advance_mod, Z.add_0_r, Z.mod_small in Hpq by lia.
  apply IH.
  - by rewrite Hbp.
  - by rewrite Hbp.
  - by rewrite Hpq.
  - by rewrite Hmem, Hpq.
Qed.

Lemma execute_loop_reaches_zero (bytesTotal : Z) (zero : RequestRecord) :
  bytesTotal <= BACKEND_REQUEST_BUFFER_SIZE K - 1 ->
  rec_size zero = 0 ->
  forall good s fuel,
  Forall (well_framed K) good ->
  framed K (RequestMem (exec_conn s)) (progressReq s) (good ++ [zero]) ->
  0 <= progressReq s < BACKEND_REQUEST_BUFFER_SIZE K ->
  0 <= bytesParsed s ->
  bytesParsed s + total_size good < bytesTotal ->
  execute_loop K fuel bytesTotal s = None.
Proof.
  intros Htotal Hzero. pose proof HK as (Hf & Hq & _ & _ & Hreq & _).
  induction good as [|r rest IH]; intros s fuel Hwf Hfr Hp Hb Hsum.
  - cbn in Hsum, Hfr. destruct Hfr as (Hsize & _).
    apply execute_loop_stuck; [lia|lia|done|]. by rewrite Hsize.
  - apply list.Forall_cons in Hwf as [Hr Hrest].
    cbn [app framed] in Hfr. destruct Hfr as (Hsize & Hhdr & Hfr).
    pose proof (total_size_lower K HK rest Hrest) as Hlow.
    unfold well_framed in Hr.
    change (total_size (r :: rest)) with (rec_size r + total_size rest) in Hsum.
    destruct fuel as [|fuel]; cbn [execute_loop];
      rewrite (proj2 (Z.eqb_neq (bytesParsed s) bytesTotal) ltac:(lia)); [done|].
    destruct (execute_one_fields K s) as (Hbp & Hpq & _ & _ & Hmem & _).
    unfold record_at in Hbp, Hpq. cbn [rec_size] in Hbp, Hpq.
    rewrite Hsize in Hbp, Hpq.
    rewrite u32_small in Hbp by lia.
    rewrite ring_advance_mod in Hpq by lia.
    apply IH.
    + done.
    + by rewrite Hmem, Hpq.
    + rewrite Hpq. apply Z.mod_pos_bound. lia.
    + lia.
    + lia.
Qed.

End Stuck.

(** X17.  A size prefix of zero in the received range stops the parsing
    loop for good: when the records before it are framed and end before
    [RequestDMAReadDataSize] bytes, no number of turns lets
    [ExecuteRequests] return, since a turn on the zero prefix advances
    neither [bytesParsed] nor the request cursor. *)
Theorem zero_size_prefix_never_returns (K : Consts) (c : BuffConnConfig)
    (good : list RequestRecord) (zero : RequestRecord) :
  consts_in_range K ->
  0 <= Head (RequestRing c) < BACKEND_REQUEST_BUFFER_SIZE K ->
  Forall (well_framed K) good ->
  rec_size zero = 0 ->
  framed K (RequestMem c) (exec_headReq K c) (good ++ [zero]) ->
  total_size good < RequestDMAReadDataSize c <= BACKEND_REQUEST_BUFFER_SIZE K - 1 ->
  forall fuel, ExecuteRequests K fuel c = None.
Proof.
  intros HK Hh Hwf Hz Hfr Hsum fuel.
  pose proof (total_size_lower K HK good Hwf) as Hlow.
  pose proof (exec_headReq_range K HK c Hh ltac:(lia)) as Hhead.
  assert (Hinit : exec_conn (exec_init K c) = c
                  /\ progressReq (exec_init K c) = exec_headReq K c
                  /\ bytesParsed (exec_init K c) = 0).
  { unfold exec_init. destruct (RING_BUFFER_RESPONSE_BATCH_ENABLED K); repeat split. }
  destruct Hinit as (Hc & Hp & Hb).
  unfold ExecuteRequests.
  rewrite (execute_loop_reaches_zero K HK (RequestDMAReadDataSize c) zero
             ltac:(lia) Hz good (exec_init K c) fuel); [done|done| | | |].
  - by rewrite Hc, Hp.
  - by rewrite Hp.
  - rewrite Hb. lia.
  - rewrite Hb. lia.
Qed.

Lemma zero_size_prefix_never_returns_witness :
  ExecuteRequests K4096 1000 zero_after_write = None.
Proof.
  apply (zero_size_prefix_never_returns K4096 zero_after_write [write_16] empty_record).
  - by_evaluation.
  - by_evaluation.
  - repeat constructor; by_evaluation.
  - reflexivity.
  - repeat split.
  - by_evaluation.
Defined.

End ExecuteLaws.

Module AlignmentLaws.
Import FileBackEnd BackEndExamples BackEndExamples2 DataPlaneNotions.
Import DataPlaneFacts ExecuteFacts RingFacts.

Section Aligned.

Variable K : Consts.
Hypothesis HK : consts_in_range K.
Hypothesis Hrings : rings_aligned K.

Lemma alignment_pos : 0 < alignment K.
Proof. destruct HK as (Hf & _ & Ha & _). unfold alignment. lia. Qed.

Lemma respSize_of_aligned (r : RequestRecord) :
  read_fits K r ->
  respSize_of K r mod alignment K = 0
  /\ 0 < respSize_of K r <= BACKEND_RESPONSE_BUFFER_SIZE K.
Proof.
  intros [Hb Hfit]. pose proof alignment_pos as Ha.
  pose proof HK as (_ & _ & _ & Hal & _ & Hresp & _).
  unfold respSize_of, write_respSize.
  destruct (is_write K (rec_size r)).
  - rewrite u32_small by lia. split; [apply Z_mod_same_full|lia].
  - destruct (read_respSize_rounds K (Req_Bytes (rec_header r)) Ha Hb ltac:(lia)).
    split; [done|lia].
Qed.

(** Stepping an aligned cursor by an aligned size on an aligned ring. *)
Lemma ring_advance_aligned p n :
  0 <= p < BACKEND_RESPONSE_BUFFER_SIZE K -> 0 <= n <= 2 ^ 30 ->
  p mod alignment K = 0 -> n mod alignment K = 0 ->
  ring_advance (BACKEND_RESPONSE_BUFFER_SIZE K) p n mod alignment K = 0.
Proof.
  intros Hp Hn Hpa Hna. pose proof alignment_pos as Ha.
  pose proof HK as (_ & _ & _ & _ & _ & Hresp & _).
  rewrite ring_advance_mod by lia.
  unfold rings_aligned in Hrings.
  apply Z.mod_divide in Hrings as [q Hq]; [|lia].
  apply Z.mod_divide in Hpa as [x Hx]; [|lia].
  apply Z.mod_divide in Hna as [y Hy]; [|lia].
  pose proof (Z.div_mod (p + n) (BACKEND_RESPONSE_BUFFER_SIZE K) ltac:(lia)) as Hdm.
  apply Z.mod_divide; [lia|].
  exists (x + y - q * ((p + n) / BACKEND_RESPONSE_BUFFER_SIZE K)). nia.
Qed.

Lemma stub_offsets_aligned records : forall p,
  Forall (read_fits K) records ->
  0 <= p < BACKEND_RESPONSE_BUFFER_SIZE K -> p mod alignment K = 0 ->
  Forall (fun q => q mod alignment K = 0) (stub_offsets K p records)
  /\ foldl (fun p r => ring_advance (BACKEND_RESPONSE_BUFFER_SIZE K) p
                         (respSize_of K r)) p records
     mod alignment K = 0.
Proof.
  pose proof HK as (_ & _ & _ & _ & _ & Hresp & _).
  induction records as [|r rest IH]; intros p Hfit Hp Hpa.
  - by split.
  - apply list.Forall_cons in Hfit as [Hr Hrest].
    destruct (respSize_of_aligned r Hr) as [Hra Hrr].
    cbn [stub_offsets foldl].
    destruct (IH (ring_advance (BACKEND_RESPONSE_BUFFER_SIZE K) p (respSize_of K r)))
      as [Ho Hf].
    + done.
    + apply ring_advance_range; lia.
    + apply ring_advance_aligned; [done|lia|done|done].
    + split; [by constructor|done].
Qed.

End Aligned.

(** X18.  On a response staging buffer that is a whole number of alignment
    units long, a pass of [ExecuteRequests] that starts with an aligned
    [TailA] stores every response stub at an aligned offset and leaves
    [TailA] aligned when it returns: alignment is an invariant of the
    reservations. *)
Theorem responses_stay_aligned (K : Consts) (c : BuffConnConfig)
    (records : list RequestRecord) :
  consts_in_range K ->
  rings_aligned K ->
  0 <= Head (RequestRing c) < BACKEND_REQUEST_BUFFER_SIZE K ->
  Forall (well_framed K) records ->
  Forall (read_fits K) records ->
  framed K (RequestMem c) (exec_headReq K c) records ->
  total_size records = RequestDMAReadDataSize c ->
  total_size records <= BACKEND_REQUEST_BUFFER_SIZE K - 1 ->
  0 <= TailA (ResponseRing c) < BACKEND_RESPONSE_BUFFER_SIZE K ->
  TailA (ResponseRing c) mod alignment K = 0 ->
  exists e,
    ExecuteRequests K (length records) c = Some e
    /\ Forall (fun s => served_at s mod alignment K = 0) (stubs e)
    /\ (outcome e = Returns -> TailA (ResponseRing (conn e)) mod alignment K = 0).
Proof.
  intros HK Hrings Hh Hwf Hfit Hfr Hsum Hle HA HAa.
  pose proof (alignment_pos K HK) as Ha.
  pose proof HK as (_ & _ & _ & Hal & _ & Hresp & _).
  destruct (execute_loop_from_init K HK c records Hh Hwf Hfr Hsum Hle)
    as (s' & Hloop & _ & Hoffs & _ & Hfold & Hring).
  assert (Hp0 : 0 <= progressResp (exec_init K c) < BACKEND_RESPONSE_BUFFER_SIZE K
                /\ progressResp (exec_init K c) mod alignment K = 0).
  { unfold exec_init. destruct (RING_BUFFER_RESPONSE_BATCH_ENABLED K); cbn [progressResp].
    - split; [apply ring_advance_range; lia|].
      apply ring_advance_aligned; [done|done|done|lia|done|apply Z_mod_same_full].
    - done. }
  destruct Hp0 as [Hp0 Hp0a].
  destruct (stub_offsets_aligned K HK Hrings records _ Hfit Hp0 Hp0a) as [Hso Hfa].
  assert (Hst : Forall (fun s => served_at s mod alignment K = 0) (exec_stubs s')).
  { rewrite <- Hoffs in Hso. by apply Forall_fmap in Hso. }
  unfold ExecuteRequests. rewrite Hloop.
  destruct (totalRespSize s' >=? u32 (exec_respRingCapacity K c)).
  - eexists. split; [reflexivity|]. split; [done|]. intros [=].
  - eexists. split; [reflexivity|]. split; [done|]. intros _.
    cbn [conn]. rewrite <- Hfold in Hfa.
    destruct (RING_BUFFER_RESPONSE_BATCH_ENABLED K); cbn; done.
Qed.

Lemma responses_stay_aligned_witness :
  exists e,
    ExecuteRequests K4096_aligned 2 two_requests = Some e
    /\ Forall (fun s => served_at s mod alignment K4096_aligned = 0) (stubs e)
    /\ (outcome e = Returns
        -> TailA (ResponseRing (conn e)) mod alignment K4096_aligned = 0).
Proof.
  apply (responses_stay_aligned K4096_aligned two_requests [write_16; read_8]).
  - by_evaluation.
  - reflexivity.
  - by_evaluation.
  - repeat constructor; by_evaluation.
  - repeat constructor; by_evaluation.
  - repeat split.
  - reflexivity.
  - by_evaluation.
  - by_evaluation.
  - reflexivity.
Defined.

End AlignmentLaws.

Module ContextLaws.
Import FileBackEnd BackEndExamples BackEndExamples2 DataPlaneNotions ContextNotions.
Import CacheTableFacts DataPlaneFacts ExecuteFacts RingFacts.

Section Contexts.

Variable K : Consts.
Hypothesis HK : consts_in_range K.
Hypothesis HMAX : 0 < DDS_MAX_OUTSTANDING_IO K.

Lemma context_slot_0 first :
  0 <= first < DDS_MAX_OUTSTANDING_IO K -> context_slot K first 0 = first.
Proof. intros Hf. unfold context_slot. rewrite Z.add_0_r. apply Z.mod_small. lia. Qed.

Lemma context_slot_range first k :
  0 <= context_slot K first k < DDS_MAX_OUTSTANDING_IO K.
Proof. apply Z.mod_pos_bound. lia. Qed.

Lemma context_slot_next first k :
  context_slot K (context_slot K first 1) k = context_slot K first (S k).
Proof.
  unfold context_slot. rewrite Zplus_mod_idemp_l. f_equal. lia.
Qed.

Lemma next_index first :
  0 <= first < DDS_MAX_OUTSTANDING_IO K ->
  (if first + 1 =? DDS_MAX_OUTSTANDING_IO K then 0 else first + 1)
  = context_slot K first 1.
Proof.
  intros Hf. unfold context_slot. change (Z.of_nat 1) with 1.
  destruct (Z.eqb_spec (first + 1) (DDS_MAX_OUTSTANDING_IO K)) as [->|Hne].
  - by rewrite Z_mod_same_full.
  - symmetry. apply Z.mod_small. lia.
Qed.

Lemma context_slot_apart first k :
  0 <= first < DDS_MAX_OUTSTANDING_IO K ->
  (0 < k)%nat -> Z.of_nat k < DDS_MAX_OUTSTANDING_IO K ->
  context_slot K first k <> first.
Proof.
  intros Hf Hk Hlt Heq. unfold context_slot in Heq.
  pose proof (Z.div_mod (first + Z.of_nat k) (DDS_MAX_OUTSTANDING_IO K) ltac:(lia)) as Hdm.
  rewrite Heq in Hdm.
  assert (Hq : (first + Z.of_nat k) / DDS_MAX_OUTSTANDING_IO K = 0
               \/ 1 <= (first + Z.of_nat k) / DDS_MAX_OUTSTANDING_IO K) by
    (pose proof (Z.div_pos (first + Z.of_nat k) (DDS_MAX_OUTSTANDING_IO K)); lia).
  destruct Hq as [Hq|Hq]; [rewrite Hq in Hdm; lia|nia].
Qed.

(** What one turn of the loop does to the contexts. *)
Lemma execute_one_context (s : ExecState) :
  let c := exec_conn s in
  let s1 := execute_one K s in
  let r := record_at K s in
  let curr := NextRequestContext c in
  exists ctxt,
    PendingDataPlaneRequests (exec_conn s1)
    = <[Z.to_nat curr := ctxt]> (PendingDataPlaneRequests c)
    /\ NextRequestContext (exec_conn s1)
       = (if curr + 1 =? DDS_MAX_OUTSTANDING_IO K then 0 else curr + 1)
    /\ batchSize s1 = batchSize s + 1
    /\ exec_calls s1
       = (if OPT_FILE_SERVICE_BATCHING K then exec_calls s
          else exec_calls s
               ++ [SubmitDataPlaneRequest ctxt (negb (is_write K (rec_size r))) curr])
    /\ RequestDMAReadDataBuff (exec_conn s1) = RequestDMAReadDataBuff c
    /\ ResponseDMAWriteDataBuff (exec_conn s1) = ResponseDMAWriteDataBuff c
    /\ Request ctxt = RequestDMAReadDataBuff c + (progressReq s + sizeof_FileIOSizeT K)
    /\ Response ctxt
       = ResponseDMAWriteDataBuff c + (progressResp s + sizeof_FileIOSizeT K)
    /\ TotalSize (DataBuffer ctxt) = Req_Bytes (rec_header r)
    /\ (OPT_FILE_SERVICE_BATCHING K = true
        -> IsRead ctxt = negb (is_write K (rec_size r))).
Proof.
  unfold execute_one, record_at. cbn [rec_size rec_header].
  destruct (is_write K (req_size_at (RequestMem (exec_conn s)) (progressReq s)));
    cbn; eexists; (split; [reflexivity|]);
    destruct (OPT_FILE_SERVICE_BATCHING K); cbn;
    repeat split; try done;
    repeat match goal with |- context [if ?b then _ else _] => destruct b end; done.
Qed.

(** The loop fills one context per framed record, slot after slot. *)
Lemma execute_loop_contexts (bytesTotal : Z) :
  bytesTotal <= BACKEND_REQUEST_BUFFER_SIZE K - 1 ->
  forall records s,
  Forall (well_framed K) records ->
  framed K (RequestMem (exec_conn s)) (progressReq s) records ->
  0 <= progressReq s < BACKEND_REQUEST_BUFFER_SIZE K ->
  0 <= bytesParsed s ->
  bytesParsed s + total_size records = bytesTotal ->
  0 <= NextRequestContext (exec_conn s) < DDS_MAX_OUTSTANDING_IO K ->
  Z.of_nat (length records) <= DDS_MAX_OUTSTANDING_IO K ->
  DDS_MAX_OUTSTANDING_IO K
  <= Z.of_nat (length (PendingDataPlaneRequests (exec_conn s))) ->
  let first := NextRequestContext (exec_conn s) in
  exists s' new newcalls,
    execute_loop K (length records) bytesTotal s = Some s'
    /\ exec_stubs s' = exec_stubs s ++ new
    /\ length new = length records
    /\ exec_calls s' = exec_calls s ++ newcalls
    /\ (if OPT_FILE_SERVICE_BATCHING K then newcalls = []
        else length newcalls = length records
             /\ forall k stub, new !! k = Some stub ->
                  newcalls !! k
                  = Some (SubmitDataPlaneRequest
                            (context_at (exec_conn s') (context_slot K first k))
                            (served_as_read stub) (context_slot K first k)))
    /\ NextRequestContext (exec_conn s') = context_slot K first (length records)
    /\ batchSize s' = batchSize s + Z.of_nat (length records)
    /\ length (PendingDataPlaneRequests (exec_conn s'))
       = length (PendingDataPlaneRequests (exec_conn s))
    /\ RequestDMAReadDataBuff (exec_conn s') = RequestDMAReadDataBuff (exec_conn s)
    /\ ResponseDMAWriteDataBuff (exec_conn s') = ResponseDMAWriteDataBuff (exec_conn s)
    /\ (forall k stub r q,
          new !! k = Some stub -> records !! k = Some r ->
          request_offsets K (progressReq s) records !! k = Some q ->
          context_names K (exec_conn s)
            (context_at (exec_conn s') (context_slot K first k)) q stub r)
    /\ (forall slot, 0 <= slot ->
          (forall k, (k < length records)%nat -> slot <> context_slot K first k) ->
          context_at (exec_conn s') slot = context_at (exec_conn s) slot).
Proof.
  intros Htotal. pose proof HK as (Hf & Hq & Ha & Hal & Hreq & Hresp & _).
  induction records as [|r rest IH]; intros s Hwf Hfr Hp Hb Hsum Hfirst Hn Hlen first.
  - exists s, [], []. simpl in *.
    assert (Heq : (bytesParsed s =? bytesTotal) = true) by (apply Z.eqb_eq; lia).
    rewrite Heq, !app_nil_r, Z.add_0_r.
    subst first. rewrite context_slot_0 by done.
    repeat split; try done.
    destruct (OPT_FILE_SERVICE_BATCHING K); [done|]. split; [done|]. intros k stub [=].
  - apply list.Forall_cons in Hwf as [Hr Hrest].
    destruct Hfr as (Hsize & Hhdr & Hfr).
    pose proof (total_size_lower K HK rest Hrest) as Hlow.
    assert (Hpos : sizeof_FileIOSizeT K + sizeof_BuffMsgF2BReqHeader K <= rec_size r)
      by exact Hr.
    change (total_size (r :: rest)) with (rec_size r + total_size rest) in Hsum.
    change (length (r :: rest)) with (S (length rest)) in *.
    assert (Hne : (bytesParsed s =? bytesTotal) = false) by (apply Z.eqb_neq; lia).
    assert (Hrec : record_at K s = r).
    { unfold record_at. rewrite Hsize, Hhdr. by destruct r. }
    destruct (execute_one_fields K s)
      as (Hbp & Hpq & Hpr & _ & Hmem & _ & stub0 & Hstubs & _ & _).
    destruct (execute_one_context s)
      as (ctxt & Hpend & Hnext & Hbatch & Hcalls & HbufQ & HbufP
          & Hcreq & Hcresp & Hctot & Hcread).
    rewrite Hrec in *.
    set (s1 := execute_one K s) in *.
    assert (Hadv : progressReq s1
                   = (progressReq s + rec_size r) mod BACKEND_REQUEST_BUFFER_SIZE K).
    { rewrite Hpq. apply ring_advance_mod; lia. }
    rewrite next_index in Hnext by done. fold first in Hnext, Hpend, Hcalls.
    assert (Hlen1 : length (PendingDataPlaneRequests (exec_conn s1))
                    = length (PendingDataPlaneRequests (exec_conn s)))
      by (by rewrite Hpend, length_insert).
    destruct (IH s1)
      as (s' & new & newcalls & Hloop & Hnew & Hnewlen & Hcalls' & Hsub & Hnrc
          & Hbs & Hlen' & HbQ & HbP & Hnames & Hframe).
    + done.
    + by rewrite Hmem, Hadv.
    + rewrite Hadv. apply Z.mod_pos_bound. lia.
    + rewrite Hbp. apply u32_range.
    + rewrite Hbp, u32_small by lia. lia.
    + rewrite Hnext. apply context_slot_range.
    + lia.
    + rewrite Hlen1. done.
    + rewrite Hnext in Hsub, Hnrc, Hnames, Hframe.
      (* the context of the first record survives the rest of the pass *)
      assert (Hkeep : context_at (exec_conn s') first = ctxt).
      { rewrite Hframe.
        - unfold context_at. rewrite Hpend.
          apply lookup_total_insert_same. lia.
        - lia.
        - intros k Hk. rewrite context_slot_next.
          intros Heq. symmetry in Heq. revert Heq.
          apply context_slot_apart; [done|lia|lia]. }
      set (served0 := mkServed (progressResp s) (respSize_of K r) stub0
                        (negb (is_write K (rec_size r)))) in *.
      exists s', (served0 :: new),
        (if OPT_FILE_SERVICE_BATCHING K then []
         else SubmitDataPlaneRequest ctxt (negb (is_write K (rec_size r))) first
              :: newcalls).
      cbn [execute_loop]. rewrite Hne. fold s1.
      split; [done|].
      split; [by rewrite Hnew, Hstubs, <- app_assoc|].
      split; [by cbn; rewrite Hnewlen|].
      split.
      { rewrite Hcalls', Hcalls.
        destruct (OPT_FILE_SERVICE_BATCHING K); [by rewrite Hsub|].
        by rewrite <- app_assoc. }
      split.
      { destruct (OPT_FILE_SERVICE_BATCHING K); [done|].
        destruct Hsub as [Hcl Hck]. split; [by cbn; rewrite Hcl|].
        intros [|k] stub Hk; cbn in Hk |- *.
        - injection Hk as <-. rewrite context_slot_0 by done.
          by rewrite Hkeep.
        - rewrite <- context_slot_next. by apply Hck. }
      split; [by rewrite Hnrc, context_slot_next|].
      split; [rewrite Hbs, Hbatch; lia|].
      split; [by rewrite Hlen', Hlen1|].
      split; [by rewrite HbQ, HbufQ|].
      split; [by rewrite HbP, HbufP|].
      split.
      { intros [|k] stub r' q Hk Hr' Hq'; cbn in Hk, Hr', Hq'.
        - injection Hk as <-. injection Hr' as <-. injection Hq' as <-.
          rewrite context_slot_0 by done. rewrite Hkeep.
          unfold context_names. cbn [served_at served_as_read served0].
          done.
        - rewrite <- Hadv in Hq'.
          pose proof (Hnames k stub r' q Hk Hr' Hq') as (N1 & N2 & N3 & N4).
          rewrite context_slot_next in N1, N2, N3, N4.
          unfold context_names. rewrite <- HbufQ, <- HbufP. done. }
      intros slot Hslot Hout.
      rewrite Hframe.
      * unfold context_at. rewrite Hpend.
        apply lookup_total_insert_other.
        specialize (Hout 0%nat ltac:(lia)). rewrite context_slot_0 in Hout by done.
        lia.
      * done.
      * intros k Hk. rewrite context_slot_next. apply Hout. lia.
Qed.

End Contexts.

(** X19.  A pass of [ExecuteRequests] over framed records, no more of them
    than there are context slots, fills one slot of
    [PendingDataPlaneRequests] per record, from [NextRequestContext] on
    and wrapping at [DDS_MAX_OUTSTANDING_IO]: the context of a record
    points to the header of that record and to the response stub stored
    for it and asks for the bytes the header names; the cursor ends one
    past the last slot filled; the file service is handed exactly these
    slots (one batch naming the first slot and the number of records, or
    one call per record); and no other slot changes. *)
Theorem batch_names_filled_contexts (K : Consts) (c : BuffConnConfig)
    (records : list RequestRecord) :
  consts_in_range K ->
  0 <= Head (RequestRing c) < BACKEND_REQUEST_BUFFER_SIZE K ->
  Forall (well_framed K) records ->
  framed K (RequestMem c) (exec_headReq K c) records ->
  total_size records = RequestDMAReadDataSize c ->
  total_size records <= BACKEND_REQUEST_BUFFER_SIZE K - 1 ->
  0 <= NextRequestContext c < DDS_MAX_OUTSTANDING_IO K ->
  Z.of_nat (length records) <= DDS_MAX_OUTSTANDING_IO K ->
  DDS_MAX_OUTSTANDING_IO K <= Z.of_nat (length (PendingDataPlaneRequests c)) ->
  contexts_filled K c records.
Proof.
  intros HK Hh Hwf Hfr Hsum Hle Hfirst Hn Hlen.
  pose proof (total_size_lower K HK records Hwf) as Hlow.
  pose proof (exec_headReq_range K HK c Hh ltac:(lia)) as Hhead.
  assert (Hinit : exec_conn (exec_init K c) = c
                  /\ progressReq (exec_init K c) = exec_headReq K c
                  /\ bytesParsed (exec_init K c) = 0
                  /\ exec_stubs (exec_init K c) = []
                  /\ exec_calls (exec_init K c) = []
                  /\ batchSize (exec_init K c) = 0).
  { unfold exec_init. destruct (RING_BUFFER_RESPONSE_BATCH_ENABLED K); repeat split. }
  destruct Hinit as (Hc & Hp & Hb & Hst & Hcl & Hbs0).
  destruct (execute_loop_contexts K HK ltac:(lia) (RequestDMAReadDataSize c)
              ltac:(lia) records (exec_init K c))
    as (s' & new & newcalls & Hloop & Hnew & Hnewlen & Hcalls & Hsub & Hnrc
        & Hbs & _ & _ & _ & Hnames & Hframe).
  - done.
  - by rewrite Hc, Hp.
  - by rewrite Hp.
  - rewrite Hb. lia.
  - rewrite Hb. lia.
  - by rewrite Hc.
  - done.
  - by rewrite Hc.
  - rewrite Hc, ?Hp in *. rewrite Hst in Hnew. rewrite Hcl in Hcalls.
    rewrite Hbs0 in Hbs. cbn [app] in Hnew, Hcalls. rewrite Z.add_0_l in Hbs.
    subst new.
    assert (Hconn : forall e,
              (e = exec_conn s'
               \/ e = set_TailA (progressResp s') (exec_conn s')
               \/ e = set_ResponseMem
                        (store_resp_size (TailA (ResponseRing c)) (totalRespSize s')
                           (ResponseMem (set_TailA (progressResp s') (exec_conn s'))))
                        (set_TailA (progressResp s') (exec_conn s'))) ->
              NextRequestContext e = NextRequestContext (exec_conn s')
              /\ PendingDataPlaneRequests e = PendingDataPlaneRequests (exec_conn s')).
    { intros e [->|[->| ->]]; done. }
    unfold contexts_filled, ExecuteRequests. rewrite Hloop.
    set (e := if totalRespSize s' >=? u32 (exec_respRingCapacity K c)
              then _ else _).
    assert (He : exists o cn,
               e = Some (mkExecuted o cn
                           (if OPT_FILE_SERVICE_BATCHING K
                            then exec_calls s'
                                 ++ [SubmitDataPlaneRequestBatch (NextRequestContext c)
                                       (batchSize s') 0]
                            else exec_calls s') (exec_stubs s'))
               /\ NextRequestContext cn = NextRequestContext (exec_conn s')
               /\ PendingDataPlaneRequests cn
                  = PendingDataPlaneRequests (exec_conn s')).
    { subst e. destruct (totalRespSize s' >=? u32 (exec_respRingCapacity K c)).
      - eexists _, _. split; [reflexivity|]. by apply Hconn; left.
      - destruct (RING_BUFFER_RESPONSE_BATCH_ENABLED K);
          (eexists _, _; split; [reflexivity|]); apply Hconn; auto. }
    destruct He as (o & cn & -> & Hcn1 & Hcn2).
    assert (Hat : forall slot, context_at cn slot = context_at (exec_conn s') slot)
      by (intros slot; unfold context_at; by rewrite Hcn2).
    eexists. split; [reflexivity|]. cbn [conn stubs fs_calls].
    split; [by rewrite Hcn1|].
    split.
    { unfold submitted. cbn [conn stubs fs_calls].
      destruct (OPT_FILE_SERVICE_BATCHING K).
      - by rewrite Hcalls, Hsub, Hbs.
      - destruct Hsub as [Hl Hk]. rewrite Hcalls. split; [done|].
        intros k stub Hs. rewrite Hat. by apply Hk. }
    split.
    { intros k stub r q Hs Hr Hq. rewrite Hat. by apply (Hnames k stub r q). }
    intros slot Hslot Hout. rewrite Hat. by apply Hframe.
Qed.

Lemma batch_names_filled_contexts_witness :
  contexts_filled K4096 two_requests [write_16; read_8].
Proof.
  apply batch_names_filled_contexts.
  - by_evaluation.
  - by_evaluation.
  - repeat constructor; by_evaluation.
  - repeat split.
  - reflexivity.
  - by_evaluation.
  - by_evaluation.
  - by_evaluation.
  - by_evaluation.
Defined.

End ContextLaws.

Module BufferLaws.
Import FileBackEnd BackEndExamples BackEndExamples2 DataPlaneNotions ContextNotions.
Import BufferNotions CacheTableFacts DataPlaneFacts ExecuteFacts RingFacts AlignmentLaws.




End BufferLaws.

Module CompletionLaws.
Import FileBackEnd BackEndExamples BackEndExamples2 CompletionNotions.
Import CacheTableFacts DataPlaneFacts ExecuteFacts.

Lemma on_READ_REQUEST_META_wrapped (K : Consts) (c : BuffConnConfig) :
  requests_wrap K c ->
  u64 (Request_DataBaseAddr (RequestRing c)) <> 0 ->
  RequestDMAReadDataSplitState (on_READ_REQUEST_META K c)
  = BUFF_READ_DATA_SPLIT_STATE_SPLIT K.
Proof.
  intros (Hth & Htp & Hlt) Hbase. unfold on_READ_REQUEST_META.
  rewrite (proj2 (Z.eqb_neq _ _) Hth), <- Htp, Z.eqb_refl. cbn [orb negb].
  assert (Hg : (RequestDMAReadMetaBuff c (DDS_CACHE_LINE_SIZE_BY_INT K)
                >? Head (RequestRing c)) = false).
  { rewrite Htp. destruct (Z.gtb_spec (RequestDMAReadMetaBuff c 0)
                             (Head (RequestRing c))); [lia|done]. }
  rewrite Hg, (proj2 (Z.eqb_neq _ _) Hbase). done.
Qed.

(** X21.  After a request-meta completion that finds a batch wrapped round
    the end of the ring, the first of the two data-read completions,
    whichever it is, only steps the split state; the second one runs
    [ExecuteRequests] exactly when the headers define NOT_SPLIT as
    SPLIT + 1, and otherwise only counts as well, so that the batch is
    never parsed. *)
Theorem wrapped_batch_parsed_after_both_halves (K : Consts) (fuel : nat)
    (c : BuffConnConfig) :
  requests_wrap K c ->
  u64 (Request_DataBaseAddr (RequestRing c)) <> 0 ->
  BUFF_READ_DATA_SPLIT_STATE_SPLIT K <> BUFF_READ_DATA_SPLIT_STATE_NOT_SPLIT K ->
  parsed_after_both_halves K fuel c.
Proof.
  intros Hwrap Hbase Hne. pose proof (on_READ_REQUEST_META_wrapped K c Hwrap Hbase) as Hst.
  unfold parsed_after_both_halves. cbv zeta.
  set (c1 := on_READ_REQUEST_META K c) in *.
  intros id1 id2 H1 H2. eexists. split; [|split; [reflexivity|split]].
  - unfold only_counted.
    destruct H1 as [-> | ->]; cbn [on_RDMA_READ]; unfold on_READ_REQUEST_DATA;
      by rewrite Hst, (proj2 (Z.eqb_neq _ _) Hne).
  - intros Heq.
    destruct H2 as [-> | ->]; cbn [on_RDMA_READ]; unfold on_READ_REQUEST_DATA;
      cbn [RequestDMAReadDataSplitState set_RequestDMAReadDataSplitState];
      by rewrite Heq, Z.eqb_refl.
  - intros Hneq. unfold only_counted.
    destruct H2 as [-> | ->]; cbn [on_RDMA_READ]; unfold on_READ_REQUEST_DATA;
      cbn [RequestDMAReadDataSplitState set_RequestDMAReadDataSplitState];
      by rewrite (proj2 (Z.eqb_neq _ _) Hneq).
Qed.

Lemma wrapped_batch_parsed_after_both_halves_witness :
  parsed_after_both_halves K4096 2 request_wrapped.
Proof.
  apply wrapped_batch_parsed_after_both_halves.
  - by_evaluation.
  - by_evaluation.
  - by_evaluation.
Defined.

(** *** the frame of the completion sweep *)

Lemma sweep_touches_refl (c : BuffConnConfig) : sweep_touches c c.
Proof. unfold sweep_touches. destruct c as [? ? ? ? ? ? []]. reflexivity. Qed.

Lemma swept_slot_refl (K : Consts) (c : BuffConnConfig) : swept_slot K c c.
Proof. split; [apply sweep_touches_refl|]. split; [by left|done]. Qed.

Lemma sweep_touches_TailB (c : BuffConnConfig) v mem :
  sweep_touches c (set_TailB v (set_ResponseMem mem c)).
Proof. unfold sweep_touches. destruct c as [? ? ? ? ? ? []]. reflexivity. Qed.

Lemma sweep_touches_post (c : BuffConnConfig) v mem wr :
  sweep_touches c (ibv_post_send wr (set_TailB v (set_ResponseMem mem c))).
Proof. unfold sweep_touches. destruct c as [? ? ? ? ? ? []]. reflexivity. Qed.

Lemma sweep_touches_mem (c : BuffConnConfig) mem :
  sweep_touches c (set_ResponseMem mem c).
Proof. unfold sweep_touches. destruct c as [? ? ? ? ? ? []]. reflexivity. Qed.

Lemma set_ResponseMem_same (c : BuffConnConfig) : set_ResponseMem (ResponseMem c) c = c.
Proof. by destruct c. Qed.

Lemma CheckAndProcessIOCompletions_conn_frame (K : Consts) fuel (c c' : BuffConnConfig) :
  CheckAndProcessIOCompletions_conn K fuel c = Some c' -> swept_slot K c c'.
Proof.
  unfold CheckAndProcessIOCompletions_conn.
  destruct (RING_BUFFER_RESPONSE_BATCH_ENABLED K) eqn:Hb.
  - destruct (TailA (ResponseRing c) =? TailB (ResponseRing c));
      [intros [= <-]; apply swept_slot_refl|].
    destruct (sweep_batched _ _ _ _ _ _) as [head1|]; [|done].
    destruct (head1 =? TailB (ResponseRing c));
      [intros [= <-]; apply swept_slot_refl|].
    destruct (_ =? _); intros [= <-].
    + split; [|split; [by right|done]].
      rewrite <- (set_ResponseMem_same c) at 2. apply sweep_touches_post.
    + split; [|split; [by left|done]].
      rewrite <- (set_ResponseMem_same c) at 2. apply sweep_touches_TailB.
  - destruct (TailB (ResponseRing c) =? TailA (ResponseRing c));
      [intros [= <-]; apply swept_slot_refl|].
    destruct (sweep_unbatched _ _ _ _ _) as [[head mem]|]; [|done].
    cbn [ResponseRing set_ResponseMem].
    destruct (head =? _); intros [= <-].
    + split; [apply sweep_touches_mem|]. split; [by left|congruence].
    + split; [apply sweep_touches_post|]. split; [by right|congruence].
Qed.

(** The loop over the slots changes the slots it visits and no other. *)
Lemma CheckAndProcessIOCompletions_from_frame (K : Consts) fuel n :
  forall conns i conns',
  CheckAndProcessIOCompletions_from K fuel conns i n = Some conns' ->
  (i + n <= length conns)%nat ->
  length conns' = length conns
  /\ forall j c, conns !! j = Some c ->
       exists c', conns' !! j = Some c'
         /\ swept_slot K c c'
         /\ (State c <> CONN_STATE_CONNECTED \/ (j < i)%nat \/ (i + n <= j)%nat
             -> c' = c).
Proof.
  induction n as [|n IH]; intros conns i conns' Hrun Hlen; cbn in Hrun.
  - injection Hrun as <-. split; [done|]. intros j c Hj. exists c.
    split; [done|]. split; [apply swept_slot_refl|done].
  - assert (Hi : (i < length conns)%nat) by lia.
    destruct (lookup_lt_is_Some_2 conns i Hi) as [ci Hci].
    rewrite (list_lookup_total_correct _ _ _ Hci) in Hrun.
    unfold buff_slot_polled in Hrun.
    destruct (decide (State ci = CONN_STATE_CONNECTED)) as [Hst|Hst].
    + rewrite bool_decide_eq_true_2 in Hrun by done.
      destruct (CheckAndProcessIOCompletions_conn K fuel ci) as [ci'|] eqn:Hconn;
        [|done].
      pose proof (CheckAndProcessIOCompletions_conn_frame K fuel ci ci' Hconn) as Hsw.
      destruct (IH _ _ _ Hrun) as [Hl Hall]; [rewrite length_insert; lia|].
      rewrite length_insert in Hl. split; [done|].
      intros j c Hj. destruct (decide (j = i)) as [->|Hji].
      * rewrite Hci in Hj. injection Hj as <-.
        destruct (Hall i ci') as (c' & Hc' & _ & Hsame);
          [by apply list_lookup_insert_eq|].
        rewrite Hsame in Hc' by lia. exists ci'. split; [done|]. split; [done|].
        intros [?|[?|?]]; [done|lia|lia].
      * destruct (Hall j c) as (c' & Hc' & Hsw' & Hsame);
          [by rewrite list_lookup_insert_ne|].
        exists c'. split; [done|]. split; [done|].
        intros [?|[?|?]]; apply Hsame; [by left|right; left; lia|right; right; lia].
    + rewrite bool_decide_eq_false_2 in Hrun by done.
      destruct (IH _ _ _ Hrun) as [Hl Hall]; [lia|]. split; [done|].
      intros j c Hj. destruct (Hall j c Hj) as (c' & Hc' & Hsw' & Hsame).
      exists c'. split; [done|]. split; [done|].
      intros [?|[?|?]]; [by apply Hsame; left| |].
      * destruct (decide (j = i)) as [->|Hji].
        -- lia.
        -- apply Hsame. right. left. lia.
      * apply Hsame. right. right. lia.
Qed.

(** X22.  A pass of [CheckAndProcessIOCompletions] that ends leaves every
    control slot, every buffer slot that is not CONNECTED and every slot
    from [MaxBuffs] on as it found them; in a CONNECTED slot it changes
    at most [TailB], the response staging buffer (only in the build
    without response batching) and the send queue, to which it adds at
    most the one response-meta read.  States, connection ids, the request
    ring, [TailA] and [TailC] are never touched. *)
Theorem completion_sweep_frame (K : Consts) (fuel : nat) (g g' : BackEndConfig) :
  (MaxBuffs g <= length (BuffConns g))%nat ->
  CheckAndProcessIOCompletions K fuel g = Some g' ->
  sweep_framed K g g'.
Proof.
  intros Hlen. unfold CheckAndProcessIOCompletions.
  destruct (CheckAndProcessIOCompletions_from K fuel (BuffConns g) 0 (MaxBuffs g))
    as [conns|] eqn:Hrun; [|done].
  intros [= <-].
  destruct (CheckAndProcessIOCompletions_from_frame K fuel _ _ _ _ Hrun ltac:(lia))
    as [Hl Hall].
  unfold sweep_framed. destruct g as [mc mb ctrl buff]. cbn in *.
  repeat split; try done.
  intros i c Hi. destruct (Hall i c Hi) as (c' & Hc' & Hsw & Hsame).
  exists c'. split; [done|]. split; [done|].
  intros [?|?]; apply Hsame; [by left|right; right; lia].
Qed.

Lemma completion_sweep_frame_witness :
  exists g',
    CheckAndProcessIOCompletions K4096 3 one_connected = Some g'
    /\ sweep_framed K4096 one_connected g'.
Proof.
  eexists. split; [vm_compute; reflexivity|].
  apply (completion_sweep_frame K4096 3).
  - vm_compute. lia.
  - vm_compute. reflexivity.
Defined.

End CompletionLaws.

Module SweepLaws.
Import FileBackEnd BackEndExamples SweepNotions.
Import DataPlaneFacts ExecuteFacts.

Lemma sweep_unbatched_forces (K : Consts) fuel tail :
  forall (m : ResponseData) head h m',
  sweep_unbatched K fuel m head tail = Some (h, m') ->
  h = tail
  /\ (forall p, resp_size_at m' p = resp_size_at m p)
  /\ (forall p, kept_or_forced K m m' p)
  /\ (head <> tail ->
      Result (resp_hdr_at m (head + sizeof_FileIOSizeT K)) = DDS_ERROR_CODE_IO_PENDING K ->
      resp_hdr_at m' (head + sizeof_FileIOSizeT K)
      = mkAckHeader (RequestId (resp_hdr_at m (head + sizeof_FileIOSizeT K)))
          (DDS_ERROR_CODE_SUCCESS K) 4).
Proof.
  induction fuel as [|fuel IH]; intros m head h m'; cbn [sweep_unbatched].
  - destruct (Z.eqb_spec head tail) as [->|]; [|discriminate].
    intros [= <- <-]. repeat split; try done. intros p. by left.
  - destruct (Z.eqb_spec head tail) as [->|Hne].
    { intros [= <- <-]. repeat split; try done. intros p. by left. }
    set (cell := head + sizeof_FileIOSizeT K).
    set (forced := mkAckHeader (RequestId (resp_hdr_at m cell))
                     (DDS_ERROR_CODE_SUCCESS K) 4).
    set (m1 := if Result (resp_hdr_at m cell) =? DDS_ERROR_CODE_IO_PENDING K
               then store_resp_hdr cell forced m else m).
    intros Hrec. destruct (IH m1 _ h m' Hrec) as (Hh & Hsz & Hk & _).
    assert (Hsz1 : forall p, resp_size_at m1 p = resp_size_at m p).
    { intros p. subst m1. by destruct (_ =? _). }
    assert (Hstep : forall p, kept_or_forced K m m1 p).
    { intros p. subst m1.
      destruct (Z.eqb_spec (Result (resp_hdr_at m cell)) (DDS_ERROR_CODE_IO_PENDING K))
        as [Hp|Hnp]; [|by left].
      unfold kept_or_forced. cbn. destruct (Z.eqb_spec p cell) as [->|]; [by right|by left]. }
    assert (Hall : forall p, kept_or_forced K m m' p).
    { intros p. destruct (Hstep p) as [Hs|[Hp Hs]], (Hk p) as [Hk1|[Hp1 Hk1]].
      - left. by rewrite Hk1.
      - right. rewrite Hs in Hp1, Hk1. done.
      - right. rewrite Hk1. done.
      - right. split; [done|]. rewrite Hk1, Hs. done. }
    split; [done|]. split; [intros p; by rewrite Hsz|]. split; [done|].
    intros _ Hp.
    destruct (Hall cell) as [Hsame|[_ Hf]]; [|done].
    destruct (Hk cell) as [Hk1|[_ Hk1]].
    + rewrite Hk1. subst m1. rewrite (proj2 (Z.eqb_eq _ _) Hp). cbn.
      by rewrite Z.eqb_refl.
    + rewrite Hk1. subst m1. rewrite (proj2 (Z.eqb_eq _ _) Hp). cbn.
      by rewrite Z.eqb_refl.
Qed.

(** X26.  In the build without response batching the sweep does not wait
    for the file service.  A sweep of a connection that ends has moved
    [TailB] all the way to [TailA]; it keeps the size prefixes, and it
    changes a response header only by turning a result of IO_PENDING into
    SUCCESS with 4 bytes serviced, the request id kept, which it does to
    the first response of the range when that one is pending. *)
Theorem unbatched_sweep_forces_completion (K : Consts) (fuel : nat)
    (c c' : BuffConnConfig) :
  RING_BUFFER_RESPONSE_BATCH_ENABLED K = false ->
  CheckAndProcessIOCompletions_conn K fuel c = Some c' ->
  swept_to_TailA K c c'.
Proof.
  intros Hb. unfold CheckAndProcessIOCompletions_conn, swept_to_TailA. rewrite Hb.
  destruct (Z.eqb_spec (TailB (ResponseRing c)) (TailA (ResponseRing c))) as [Heq|Hne].
  { intros [= <-]. split; [done|]. split; [done|]. split; [by left|done]. }
  destruct (sweep_unbatched K fuel (ResponseMem c) (TailB (ResponseRing c))
              (TailA (ResponseRing c))) as [[head mem]|] eqn:Hs; [|done].
  destruct (sweep_unbatched_forces K fuel _ _ _ _ _ Hs) as (-> & Hsz & Hk & Hfirst).
  cbn [ResponseRing set_ResponseMem].
  destruct (Z.eqb_spec (TailA (ResponseRing c)) (TailB (ResponseRing c))) as [Heq|_];
    intros [= <-].
  - by rewrite Heq in Hne.
  - cbn. split; [done|]. split; [done|]. split; [done|]. intros _. by apply Hfirst.
Qed.

Lemma unbatched_sweep_forces_completion_witness :
  exists c',
    CheckAndProcessIOCompletions_conn K4096_unbatched 3 two_pending = Some c'
    /\ swept_to_TailA K4096_unbatched two_pending c'.
Proof.
  eexists. split; [vm_compute; reflexivity|].
  apply (unbatched_sweep_forces_completion K4096_unbatched 3).
  - reflexivity.
  - vm_compute. reflexivity.
Defined.

End SweepLaws.

Module MetaLaws.
Import FileBackEnd BackEndExamples MetaNotions.
Import DataPlaneFacts ExecuteFacts RingFacts.

Lemma on_READ_REQUEST_META_ready (K : Consts) (c : BuffConnConfig) :
  requests_ready K c ->
  let progress := RequestDMAReadMetaBuff c 0 in
  let head := Head (RequestRing c) in
  let c' := on_READ_REQUEST_META K c in
  Head (RequestRing c') = progress
  /\ RequestDMAReadDataSize c'
     = (if progress >? head then u32 (progress - head)
        else u32 (u32 (DDS_REQUEST_RING_BYTES K - head) + progress)).
Proof.
  intros (Hth & Htp). cbv zeta. unfold on_READ_REQUEST_META.
  rewrite (proj2 (Z.eqb_neq _ _) Hth), <- Htp, Z.eqb_refl. cbn [orb negb].
  destruct (_ >? _); [by rewrite Z.eqb_refl|].
  by destruct (_ =? 0).
Qed.

(** X27.  The request-meta completion and [ExecuteRequests] agree on the
    range to parse.  When the fetched words say that requests wait, the
    completion sets the head to the fetched progress and the byte count to
    the forward distance from the old head to it, which is at least 1 and
    at most the ring size minus 1, and the position [ExecuteRequests]
    derives from the two as the start of its parsing is the old head. *)
Theorem parse_starts_at_old_head (K : Consts) (c : BuffConnConfig) :
  0 < BACKEND_REQUEST_BUFFER_SIZE K <= 2 ^ 30 ->
  DDS_REQUEST_RING_BYTES K = BACKEND_REQUEST_BUFFER_SIZE K ->
  0 <= Head (RequestRing c) < BACKEND_REQUEST_BUFFER_SIZE K ->
  0 <= RequestDMAReadMetaBuff c 0 < BACKEND_REQUEST_BUFFER_SIZE K ->
  requests_ready K c ->
  hands_over_new_bytes K c.
Proof.
  intros Hcap Hring Hh Hp Hready.
  destruct (on_READ_REQUEST_META_ready K c Hready) as [Hhead Hsize].
  pose proof Hready as (Hth & Htp).
  unfold hands_over_new_bytes. cbv zeta.
  set (c' := on_READ_REQUEST_META K c) in *.
  set (progress := RequestDMAReadMetaBuff c 0) in *.
  set (head := Head (RequestRing c)) in *.
  set (cap := BACKEND_REQUEST_BUFFER_SIZE K) in *.
  rewrite Hring in Hsize. fold cap in Hsize.
  assert (Hne : progress <> head) by congruence.
  assert (Hsz : RequestDMAReadDataSize c' = (progress - head) mod cap
                /\ 0 < RequestDMAReadDataSize c' <= cap - 1
                /\ (progress > head -> RequestDMAReadDataSize c' = progress - head)
                /\ (progress < head -> RequestDMAReadDataSize c' = cap - head + progress)).
  { rewrite Hsize. destruct (Z.gtb_spec progress head) as [Hgt|Hle].
    - rewrite u32_small by lia. rewrite Z.mod_small by lia. lia.
    - rewrite (u32_small (cap - head)) by lia. rewrite u32_small by lia.
      replace (progress - head) with (cap - head + progress + (-1) * cap) by lia.
      rewrite Z_mod_plus_full, Z.mod_small by lia. lia. }
  destruct Hsz as (Hmod & Hrange & Hgt & Hlt).
  split; [done|]. split; [|done].
  unfold exec_headReq. rewrite Hhead. fold cap.
  rewrite u32_small by lia.
  destruct (Z.geb_spec progress (RequestDMAReadDataSize c')) as [Hge|Hl].
  - assert (progress > head) by lia. rewrite Hgt by done.
    rewrite int32_small; lia.
  - assert (progress < head) by lia. rewrite Hlt by done.
    rewrite int32_small; lia.
Qed.

Lemma parse_starts_at_old_head_witness : hands_over_new_bytes K4096 request_wrapped.
Proof.
  apply parse_starts_at_old_head.
  - by_evaluation.
  - reflexivity.
  - by_evaluation.
  - by_evaluation.
  - by_evaluation.
Defined.

Lemma on_READ_RESPONSE_META_ready (K : Consts) (c : BuffConnConfig) :
  let progress := ResponseDMAReadMetaBuff c 0 in
  let head := ResponseDMAReadMetaBuff c (DDS_CACHE_LINE_SIZE_BY_INT K) in
  let tailStart := TailC (ResponseRing c) in
  let tailEnd := TailB (ResponseRing c) in
  let total :=
    u32 (DistanceBetweenPointers tailEnd tailStart (BACKEND_RESPONSE_BUFFER_SIZE K)) in
  tailStart <> tailEnd -> head = progress ->
  ((if tailStart >=? head then u32 (head + DDS_RESPONSE_RING_BYTES K - tailStart)
    else u32 (head - tailStart)) <? total) = false ->
  ResponseRing (on_READ_RESPONSE_META K c)
  = mkResponseRing (TailA (ResponseRing c)) tailEnd
      (int32 (u32 (tailStart + total) mod DDS_RESPONSE_RING_BYTES K))
      (Response_DataBaseAddr (ResponseRing c)).
Proof.
  cbv zeta. intros Hne Hhp Hroom. unfold on_READ_RESPONSE_META.
  rewrite (proj2 (Z.eqb_neq _ _) Hne), Hhp, Z.eqb_refl. cbn [negb].
  rewrite Hhp in Hroom. rewrite Hroom.
  destruct (_ <=? _); [by rewrite Z.eqb_refl|].
  by destruct (_ =? 0).
Qed.

(** X28.  A publication takes everything the sweep has released.  When
    completed responses wait between [TailC] and [TailB] and the fetched
    words say that the host has room for them, the response-meta
    completion moves [TailC] up to [TailB], leaves [TailB] and [TailA],
    and a further response-meta completion finds nothing to send and
    posts nothing: the polling of the response meta stops until the next
    sweep starts it again. *)
Theorem publication_catches_up (K : Consts) (c : BuffConnConfig) :
  0 < BACKEND_RESPONSE_BUFFER_SIZE K <= 2 ^ 30 ->
  DDS_RESPONSE_RING_BYTES K = BACKEND_RESPONSE_BUFFER_SIZE K ->
  0 <= TailB (ResponseRing c) < BACKEND_RESPONSE_BUFFER_SIZE K ->
  0 <= TailC (ResponseRing c) < BACKEND_RESPONSE_BUFFER_SIZE K ->
  0 <= ResponseDMAReadMetaBuff c (DDS_CACHE_LINE_SIZE_BY_INT K)
    < BACKEND_RESPONSE_BUFFER_SIZE K ->
  TailC (ResponseRing c) <> TailB (ResponseRing c) ->
  host_has_room K c ->
  publishes_all K c.
Proof.
  intros Hcap Hring HB HC Hhead Hne (Hhp & Hroom).
  unfold response_pending_bytes, response_free_distance in Hroom.
  set (cap := BACKEND_RESPONSE_BUFFER_SIZE K) in *.
  set (tailStart := TailC (ResponseRing c)) in *.
  set (tailEnd := TailB (ResponseRing c)) in *.
  set (head := ResponseDMAReadMetaBuff c (DDS_CACHE_LINE_SIZE_BY_INT K)) in *.
  pose proof (DistanceBetweenPointers_mod cap tailStart tailEnd Hcap HC HB) as Hd.
  assert (Hdr : 0 <= (tailEnd - tailStart) mod cap < cap)
    by (apply Z.mod_pos_bound; lia).
  assert (Hready :
    ((if tailStart >=? head then u32 (head + DDS_RESPONSE_RING_BYTES K - tailStart)
      else u32 (head - tailStart))
     <? u32 (DistanceBetweenPointers tailEnd tailStart cap)) = false).
  { rewrite Hring. fold cap. rewrite Hd in *. rewrite (u32_small (_ mod _)) by lia.
    apply Z.ltb_ge.
    destruct (Z.geb_spec tailStart head); rewrite u32_small; lia. }
  pose proof (on_READ_RESPONSE_META_ready K c Hne Hhp Hready) as Hr.
  fold cap tailStart tailEnd in Hr.
  assert (Hc : int32 (u32 (tailStart
                            + u32 (DistanceBetweenPointers tailEnd tailStart cap))
                      mod DDS_RESPONSE_RING_BYTES K) = tailEnd).
  { rewrite Hring. fold cap. rewrite Hd, (u32_small (_ mod _)) by lia.
    rewrite u32_small by lia. rewrite Zplus_mod_idemp_r.
    replace (tailStart + (tailEnd - tailStart)) with tailEnd by lia.
    rewrite Z.mod_small by lia. apply int32_small. lia. }
  rewrite Hc in Hr.
  unfold publishes_all. cbv zeta. rewrite Hr. cbn [TailA TailB TailC].
  split; [done|]. split; [done|]. split; [done|].
  unfold on_READ_RESPONSE_META at 1. rewrite Hr. cbn [TailB TailC].
  by rewrite Z.eqb_refl.
Qed.

Lemma publication_catches_up_witness : publishes_all K4096 responses_wrapped.
Proof.
  apply publication_catches_up.
  - by_evaluation.
  - reflexivity.
  - by_evaluation.
  - by_evaluation.
  - by_evaluation.
  - by_evaluation.
  - by_evaluation.
Defined.

End MetaLaws.

Module ControlLaws.
Import FileBackEnd ConnectionSetup ControlPlane ControlNotions.
Import CacheTableFacts.

(** *** one turn of the completion sweep *)

Lemma completion_turn_idle (K : Consts) (C : CtrlConsts) (L : CtrlLibrary) i ret e :
  Pending_RequestId (PendingControlPlaneRequest (ep_conn e)) = DDS_REQUEST_INVALID
  \/ Results e (Pending_Response (PendingControlPlaneRequest (ep_conn e)))
     = DDS_ERROR_CODE_IO_PENDING K ->
  completion_turn K C L i ret e = (ret, e).
Proof.
  intros Hidle. unfold completion_turn.
  destruct (if CREATE_DEFAULT_DPU_FILE C then _ else _); [done|].
  destruct Hidle as [-> | ->]; [done|].
  rewrite Z.eqb_refl. by destruct (_ =? _).
Qed.

Lemma completion_turn_responds (K : Consts) (C : CtrlConsts) (L : CtrlLibrary)
    i ret e :
  Ctrl_State (ep_conn e) = CONN_STATE_CONNECTED ->
  Pending_RequestId (PendingControlPlaneRequest (ep_conn e)) <> DDS_REQUEST_INVALID ->
  Results e (Pending_Response (PendingControlPlaneRequest (ep_conn e)))
  <> DDS_ERROR_CODE_IO_PENDING K ->
  answers_host C i e ->
  completion_turn K C L i ret e
  = respond L i (set_Pending (mkPending DDS_REQUEST_INVALID 0 0) e).
Proof.
  intros Hst Hid Hres Hhost. unfold completion_turn, ctrl_slot_polled.
  rewrite bool_decide_eq_true_2 by done. cbn [negb andb].
  assert (Hskip : (if CREATE_DEFAULT_DPU_FILE C then false else false) = false)
    by (by destruct (CREATE_DEFAULT_DPU_FILE C)).
  rewrite Hskip, (proj2 (Z.eqb_neq _ _) Hid), (proj2 (Z.eqb_neq _ _) Hres).
  destruct Hhost as [->|[Hne|Hd]]; [done| |].
  - rewrite bool_decide_eq_false_2 by done. by rewrite andb_false_r.
  - cbn [ep_default set_Pending set_ep_conn]. rewrite Hd.
    by destruct (_ && _).
Qed.

(** The default file: one turn on its slot, whatever the state of the
    connection. *)
Lemma completion_turn_default (K : Consts) (C : CtrlConsts) (L : CtrlLibrary) ret e :
  CREATE_DEFAULT_DPU_FILE C = true ->
  Pending_RequestId (PendingControlPlaneRequest (ep_conn e)) <> DDS_REQUEST_INVALID ->
  Results e (Pending_Response (PendingControlPlaneRequest (ep_conn e)))
  <> DDS_ERROR_CODE_IO_PENDING K ->
  let d := ep_default e in
  let e0 := set_Pending (mkPending DDS_REQUEST_INVALID 0 0) e in
  completion_turn K C L (DEFAULT_DPU_FILE_CREATION_CTRL_CONN C) ret e
  = match DefaultDpuFileCreationState d with
    | FILE_CREATION_SUBMITTED =>
        (ret,
         SubmitControlPlaneRequest
           (store_result (DefaultChangeFileResponse d) (DDS_ERROR_CODE_IO_PENDING K)
              (set_Pending
                 (mkPending (msg_code C CTRL_MSG_F2B_REQ_CHANGE_FILE_SIZE)
                    (DefaultChangeFileRequest d) (DefaultChangeFileResponse d))
                 (set_ep_default
                    (mkDefaultFile FILE_CREATED (DefaultCreateFileRequest d)
                       (DefaultCreateFileResponse d) (DefaultChangeFileRequest d)
                       (DefaultChangeFileResponse d)
                       (DEFAULT_DPU_FILE_ID C) (DEFAULT_DPU_FILE_SIZE C)) e0))))
    | FILE_CREATED =>
        (ret, set_ep_default
                (mkDefaultFile FILE_CHANGED (DefaultCreateFileRequest d)
                   (DefaultCreateFileResponse d) (DefaultChangeFileRequest d)
                   (DefaultChangeFileResponse d) (Change_FileId d)
                   (Change_NewSize d)) e0)
    | _ => respond L (DEFAULT_DPU_FILE_CREATION_CTRL_CONN C) e0
    end.
Proof.
  intros Hb Hid Hres d e0. unfold completion_turn. rewrite Hb.
  rewrite bool_decide_eq_true_2 by done. rewrite andb_false_r. cbn [andb].
  by rewrite (proj2 (Z.eqb_neq _ _) Hid), (proj2 (Z.eqb_neq _ _) Hres).
Qed.

(** X23.  A file request received on a connected control slot is answered
    exactly once: [CtrlMsgHandler] posts the next receive, submits the
    request with the addresses of the request and of the response and
    sends nothing; [CheckAndProcessControlPlaneCompletions] leaves the slot
    alone while the result is IO_PENDING, sends the acknowledgement that
    belongs to the request once the result is in, and finds nothing to
    do afterwards. *)
Theorem file_request_acknowledged_once (K : Consts) (C : CtrlConsts)
    (L : CtrlLibrary) (i : nat) (e : CtrlEndpoint) (ack : CtrlMsgB2F) :
  Ctrl_State (ep_conn e) = CONN_STATE_CONNECTED ->
  ack_of (In_MsgId (msgIn e)) = Some ack ->
  msg_code C (In_MsgId (msgIn e)) <> DDS_REQUEST_INVALID ->
  answers_host C i e ->
  acknowledged_once K C L i e ack.
Proof.
  intros Hst Hack Hcode Hhost. unfold acknowledged_once. cbv zeta.
  set (m := In_MsgId (msgIn e)) in *.
  assert (Hbody :
    let e1 :=
      set_SendWr_length (sizeof_MsgHeader C + sizeof_payload C ack)
        (set_msgOut (mkMsgOut (Some ack) (Out_ClientId (msgOut e)))
           (SubmitControlPlaneRequest
              (store_result (response_addr C e) (DDS_ERROR_CODE_IO_PENDING K)
                 (set_Pending
                    (mkPending (msg_code C m) (request_addr C e) (response_addr C e))
                    (ibv_post_recv e))))) in
    RecvPosted (ep_log e1) = S (RecvPosted (ep_log e))
    /\ Sent (ep_log e1) = Sent (ep_log e)
    /\ Submitted (ep_log e1)
       = Submitted (ep_log e)
         ++ [mkPending (msg_code C m) (request_addr C e) (response_addr C e)]
    /\ (forall ret0, completion_turn K C L i ret0 e1 = (ret0, e1))
    /\ forall result ret0,
         result <> DDS_ERROR_CODE_IO_PENDING K ->
         let '(ret2, e2) :=
           completion_turn K C L i ret0 (complete (response_addr C e) result e1) in
         ret2 = (if ret_post_send L i =? 0 then 0 else -1)
         /\ Sent (ep_log e2)
            = Sent (ep_log e)
              ++ [(mkMsgOut (Some ack) (Out_ClientId (msgOut e)),
                   sizeof_MsgHeader C + sizeof_payload C ack)]
         /\ Results e2 (response_addr C e) = result
         /\ Submitted (ep_log e2) = Submitted (ep_log e1)
         /\ Pending_RequestId (PendingControlPlaneRequest (ep_conn e2))
            = DDS_REQUEST_INVALID
         /\ forall ret3, completion_turn K C L i ret3 e2 = (ret3, e2)).
  { cbv zeta. split; [done|]. split; [done|]. split; [done|]. split.
    - intros ret0. apply completion_turn_idle. right. cbn.
      by rewrite Z.eqb_refl.
    - intros result ret0 Hres.
      rewrite completion_turn_responds.
      + unfold respond. cbn. rewrite Z.eqb_refl.
        repeat split; try done.
        intros ret3. by apply completion_turn_idle; left.
      + done.
      + done.
      + cbn. by rewrite Z.eqb_refl.
      + exact Hhost. }
  clear Hcode. revert Hbody. unfold CtrlMsgHandler. fold m. clearbody m.
  destruct m; try discriminate Hack; injection Hack as <-; intros Hbody;
    (split; [done|]); exact Hbody.
Qed.

Lemma file_request_acknowledged_once_witness :
  acknowledged_once BackEndExamples.K4096 plain_build quiet 0 create_file_received
    CTRL_MSG_B2F_ACK_CREATE_FILE.
Proof.
  apply file_request_acknowledged_once.
  - reflexivity.
  - reflexivity.
  - by_evaluation.
  - by left.
Defined.

(** X24.  In the build with [CREATE_DEFAULT_DPU_FILE] the default file
    is made in two steps on its slot, connected or not: the creation is
    submitted by the agent loop; the sweep submits the change of size
    only after the creation has completed, with the id and the size of
    the default file, and moves to FILE_CHANGED only after the change has
    completed.  Between the steps the sweep does nothing, no request stays
    pending at the end, and nothing is sent to a host. *)
Theorem default_file_created_then_sized (K : Consts) (C : CtrlConsts)
    (L : CtrlLibrary) (e : CtrlEndpoint) :
  CREATE_DEFAULT_DPU_FILE C = true ->
  DefaultDpuFileCreationState (ep_default e) = FILE_NULL ->
  msg_code C CTRL_MSG_F2B_REQ_CREATE_FILE <> DDS_REQUEST_INVALID ->
  msg_code C CTRL_MSG_F2B_REQ_CHANGE_FILE_SIZE <> DDS_REQUEST_INVALID ->
  default_file_in_two_steps K C L e.
Proof.
  intros Hb Hnull Hc1 Hc2. unfold default_file_in_two_steps. cbv zeta.
  unfold submit_default_file. rewrite Hnull, bool_decide_eq_true_2 by done.
  split; [done|]. split; [done|]. split.
  { intros ret0. apply completion_turn_idle. right. cbn. by rewrite Z.eqb_refl. }
  intros r1 r2 ret0 Hr1 Hr2.
  rewrite completion_turn_default; [|done|done|cbn; by rewrite Z.eqb_refl].
  cbn [ep_default set_ep_default complete store_result set_Results
       DefaultDpuFileCreationState].
  split; [done|]. split; [done|]. split; [done|]. split; [done|]. split; [done|].
  split.
  { intros ret3. apply completion_turn_idle. right. cbn. by rewrite Z.eqb_refl. }
  rewrite completion_turn_default; [|done|done|cbn; by rewrite Z.eqb_refl].
  cbn [ep_default set_ep_default complete store_result set_Results
       SubmitControlPlaneRequest set_ep_log set_Pending set_ep_conn
       DefaultDpuFileCreationState].
  split; [done|]. split; [done|]. split; [done|]. split; [done|]. split; [done|].
  intros ret5. by apply completion_turn_idle; left.
Qed.

Lemma default_file_created_then_sized_witness :
  default_file_in_two_steps BackEndExamples.K4096 default_file_build quiet
    unconnected_slot.
Proof.
  apply default_file_created_then_sized.
  - reflexivity.
  - reflexivity.
  - by_evaluation.
  - by_evaluation.
Defined.

(** *** the pass over the completion queues *)

Lemma ProcessCtrlCqEvents_unpolled (K : Consts) (C : CtrlConsts) (L : CtrlLibrary) n :
  forall eps i ret,
  (forall k, (i <= k < i + n)%nat -> ctrl_slot_polled (ep_conn (eps !!! k)) = false) ->
  ProcessCtrlCqEvents_from K C L eps i n ret = (ret, eps).
Proof.
  induction n as [|n IH]; intros eps i ret Hun; cbn [ProcessCtrlCqEvents_from]; [done|].
  rewrite (Hun i) by lia. cbn [negb]. apply IH. intros k Hk. apply Hun. lia.
Qed.

Lemma ProcessCtrlCqEvents_last (K : Consts) (C : CtrlConsts) (L : CtrlLibrary)
    (eps : list CtrlEndpoint) (j : nat) n :
  forall eps' i ret,
  (forall k, (i <= k)%nat -> eps' !!! k = eps !!! k) ->
  (i <= j < i + n)%nat ->
  ctrl_slot_polled (ep_conn (eps !!! j)) = true ->
  poll_ret (ibv_poll_cq L j) <> 1 ->
  (forall k, (j < k < i + n)%nat -> ctrl_slot_polled (ep_conn (eps !!! k)) = false) ->
  (forall k, (k < j)%nat -> ~ handler_fails K C L eps k) ->
  (ProcessCtrlCqEvents_from K C L eps' i n ret).1 = poll_ret (ibv_poll_cq L j).
Proof.
  induction n as [|n IH]; intros eps' i ret Hsame Hj Hconn Hpoll Hafter Hok; [lia|].
  cbn [ProcessCtrlCqEvents_from]. rewrite (Hsame i) by lia.
  destruct (decide (i = j)) as [->|Hij].
  - rewrite Hconn. cbn [negb]. rewrite (proj2 (Z.eqb_neq _ _) Hpoll).
    rewrite ProcessCtrlCqEvents_unpolled; [done|].
    intros k Hk. rewrite Hsame by lia. apply Hafter. lia.
  - assert (Hnext : forall eps'' ret',
              (forall k, (S i <= k)%nat -> eps'' !!! k = eps !!! k) ->
              (ProcessCtrlCqEvents_from K C L eps'' (S i) n ret').1
              = poll_ret (ibv_poll_cq L j)).
    { intros eps'' ret' Hs. apply IH; try done; [lia|].
      intros k Hk. apply Hafter. lia. }
    destruct (ctrl_slot_polled (ep_conn (eps !!! i))) eqn:Hp; cbn [negb].
    2:{ apply Hnext. intros k Hk. apply Hsame. lia. }
    destruct (Z.eqb_spec (poll_ret (ibv_poll_cq L i)) 1) as [H1|H1].
    2:{ apply Hnext. intros k Hk. apply Hsame. lia. }
    destruct (wc_success (ibv_poll_cq L i)) eqn:Hs; cbn [negb].
    2:{ apply Hnext. intros k Hk. apply Hsame. lia. }
    destruct (wc_opcode (ibv_poll_cq L i)) eqn:Ho;
      try (apply Hnext; intros k Hk; apply Hsame; lia).
    destruct (CtrlMsgHandler K C (ret_post_recv L i) (ret_post_send L i) (eps !!! i))
      as [r e] eqn:Hh.
    assert (Hr : r = 0).
    { destruct (decide (r = 0)) as [|Hne]; [done|].
      exfalso. apply (Hok i ltac:(lia)). unfold handler_fails.
      rewrite Hp, H1, Hs, Ho, Hh. done. }
    subst r. cbn [negb Z.eqb]. apply Hnext.
    intros k Hk. rewrite lookup_total_insert_other by lia. apply Hsame. lia.
Qed.

(** X25.  [ProcessCtrlCqEvents] returns what the last CONNECTED slot it
    polls leaves in [ret]: when that slot has no completion (or
    [ibv_poll_cq] fails there) the value returned is that of
    [ibv_poll_cq] for it, whatever happened in the slots before: a
    completion with a failed status or of an unknown kind in an earlier
    slot is not reported, only a handler that fails ends the pass. *)
Theorem ctrl_cq_pass_reports_last_slot (K : Consts) (C : CtrlConsts)
    (L : CtrlLibrary) (maxClients : nat) (eps : list CtrlEndpoint) (j : nat) :
  (j < maxClients)%nat ->
  ctrl_slot_polled (ep_conn (eps !!! j)) = true ->
  poll_ret (ibv_poll_cq L j) <> 1 ->
  (forall k, (j < k < maxClients)%nat ->
             ctrl_slot_polled (ep_conn (eps !!! k)) = false) ->
  (forall k, (k < j)%nat -> ~ handler_fails K C L eps k) ->
  (ProcessCtrlCqEvents K C L maxClients eps).1 = poll_ret (ibv_poll_cq L j).
Proof.
  intros Hj Hconn Hpoll Hafter Hok. unfold ProcessCtrlCqEvents.
  apply (ProcessCtrlCqEvents_last K C L eps j); try done; lia.
Qed.

Lemma ctrl_cq_pass_reports_last_slot_witness :
  (ProcessCtrlCqEvents BackEndExamples.K4096 plain_build first_slot_fails 2
     two_connected).1 = 0
  /\ wc_success (ibv_poll_cq first_slot_fails 0) = false.
Proof.
  split; [|reflexivity].
  apply (ctrl_cq_pass_reports_last_slot BackEndExamples.K4096 plain_build
           first_slot_fails 2 two_connected 1).
  - lia.
  - reflexivity.
  - by_evaluation.
  - intros k Hk. lia.
  - intros k Hk (_ & _ & Hs & _). assert (k = 0%nat) as -> by lia. discriminate Hs.
Defined.

End ControlLaws.
